(** * kvdo: a shallow embedding of selected VDO / UDS routines

    The development follows the C sources function by function.  Unsigned
    machine integers are integers of [Z] reduced modulo their width where the
    C code computes in that width; out-parameters are modelled by returning
    the value stored through the pointer; calls into parts of the driver that
    only hand a value on (I/O submission, completions, the read-only
    notifier) are recorded as events. *)

From Stdlib Require Import ZArith List Lia Bool.
From stdpp Require Import base option list.
Import ListNotations.
Local Open Scope Z_scope.

(** ** Machine integers *)

Module UInt.

Definition wrap (bits : Z) (x : Z) : Z := x mod 2 ^ bits.

Definition u8 (x : Z) : Z := wrap 8 x.
Definition u16 (x : Z) : Z := wrap 16 x.
Definition u32 (x : Z) : Z := wrap 32 x.
Definition u64 (x : Z) : Z := wrap 64 x.

Definition UINT64_MAX : Z := 2 ^ 64 - 1.

Definition in_u8 (x : Z) : Prop := 0 <= x < 2 ^ 8.
Definition in_u16 (x : Z) : Prop := 0 <= x < 2 ^ 16.
Definition in_u32 (x : Z) : Prop := 0 <= x < 2 ^ 32.
Definition in_u64 (x : Z) : Prop := 0 <= x < 2 ^ 64.

End UInt.

(** ** recovery-journal.h *)

Module RecoveryJournal.
Import UInt.

(** The fields of [struct recovery_journal] the check byte reads. *)
Record recovery_journal := {
  size : Z;                    (* block_count_t: blocks in the journal *)
  entries_per_block : Z        (* journal_entry_count_t *)
}.

(** [compute_vdo_recovery_journal_check_byte]: the expression is evaluated
    in 64 bits and returned as a [uint8_t]. *)
Definition compute_vdo_recovery_journal_check_byte
    (journal : recovery_journal) (sequence : Z) : Z :=
  u8 (Z.lor (Z.land (sequence / size journal) 127) 128).

End RecoveryJournal.

(** ** uds/volume.c: locating the chapter boundaries of a volume *)

Module Volume.
Import UInt.

(** The status codes this part of the index names.  Their numeric values
    live in errors.h; every other code is [UDS_OTHER_ERROR]. *)
Inductive uds_status : Type :=
| UDS_SUCCESS
| UDS_CORRUPT_COMPONENT
| UDS_CORRUPT_DATA
| UDS_ASSERTION_FAILED
| UDS_OTHER_ERROR (code : Z).

Definition is_success (r : uds_status) : bool :=
  match r with UDS_SUCCESS => true | _ => false end.

Definition is_corrupt_component (r : uds_status) : bool :=
  match r with UDS_CORRUPT_COMPONENT => true | _ => false end.

Definition is_corrupt_data (r : uds_status) : bool :=
  match r with UDS_CORRUPT_DATA => true | _ => false end.

Definition MAX_BAD_CHAPTERS : Z := 100.

Record geometry := {
  chapters_per_volume : Z;          (* unsigned int *)
  index_pages_per_chapter : Z       (* unsigned int *)
}.

(** The header fields of an index page that [probeChapter] reads. *)
Record delta_index_page := {
  virtual_chapter_number : Z;       (* uint64_t *)
  lowest_list_number : Z;           (* unsigned int *)
  highest_list_number : Z           (* unsigned int *)
}.

(** A volume: its geometry, and what reading and validating an index page
    of a chapter gives ([getPage] with [CACHE_PROBE_INDEX_FIRST],
    [validate_chapter_index_page]). *)
Record volume := {
  vol_geometry : geometry;
  getPage : Z -> Z -> uds_status * delta_index_page;
  validate_chapter_index_page : delta_index_page -> uds_status
}.

(** The loop of [probeChapter] over the index pages [i .. i + count) of a
    chapter; the state is [expectedListNumber] and [lastVCN].  [inl] is an
    early return. *)
Fixpoint probe_index_pages (vol : volume) (chapterNumber : Z) (count : nat)
    (i expectedListNumber lastVCN : Z) : uds_status + Z :=
  match count with
  | O => inr lastVCN
  | S count' =>
      let '(result, page) := getPage vol chapterNumber i in
      if negb (is_success result) then inl result else
      let vcn := virtual_chapter_number page in
      if negb (lastVCN =? UINT64_MAX) && negb (vcn =? lastVCN)
      then inl UDS_CORRUPT_COMPONENT else
      let lastVCN' := if lastVCN =? UINT64_MAX then vcn else lastVCN in
      if negb (expectedListNumber =? lowest_list_number page)
      then inl UDS_CORRUPT_COMPONENT else
      let expectedListNumber' := u32 (highest_list_number page + 1) in
      let result' := validate_chapter_index_page vol page in
      if negb (is_success result') then inl result' else
      probe_index_pages vol chapterNumber count' (i + 1)
                        expectedListNumber' lastVCN'
  end.

(** [probeChapter]: the status, and the value of [*virtualChapterNumber]
    afterwards ([vcn_old] is its value before the call). *)
Definition probeChapter (vol : volume) (chapterNumber : Z) (vcn_old : Z)
    : uds_status * Z :=
  let g := vol_geometry vol in
  match probe_index_pages vol chapterNumber
          (Z.to_nat (index_pages_per_chapter g)) 0 0 UINT64_MAX with
  | inl result => (result, vcn_old)
  | inr lastVCN =>
      if lastVCN =? UINT64_MAX then (UDS_CORRUPT_COMPONENT, vcn_old)
      else if negb (chapterNumber =? lastVCN mod chapters_per_volume g)
      then (UDS_CORRUPT_COMPONENT, vcn_old)
      else (UDS_SUCCESS, lastVCN)
  end.

(** [probeWrapper]: a corrupt chapter is reported as the sentinel. *)
Definition probeWrapper (vol : volume) (chapterNumber : Z) (vcn_old : Z)
    : uds_status * Z :=
  let '(result, vcn) := probeChapter vol chapterNumber vcn_old in
  if is_corrupt_component result || is_corrupt_data result
  then (UDS_SUCCESS, UINT64_MAX)
  else (result, vcn).

(** The [while (limit > 0)] loop of [findRealEndOfVolume]; [None] when the
    fuel is used up. *)
Fixpoint find_end_loop (fuel : nat) (vol : volume) (limit span tries : Z)
    : option (uds_status + Z) :=
  match fuel with
  | O => None
  | S fuel' =>
      if 0 <? limit then
        let chapter := if limit <? span then 0 else limit - span in
        let '(result, _) := probeChapter vol chapter 0 in
        if is_success result then
          if span =? 1 then Some (inr limit)
          else find_end_loop fuel' vol limit (span / 2) 0
        else if is_corrupt_component result then
          let tries' := u32 (tries + 1) in
          let span' := if 1 <? tries' then u32 (span * 2) else span in
          find_end_loop fuel' vol chapter span' tries'
        else Some (inl result)
      else Some (inr limit)
  end.

(** [findRealEndOfVolume]: the status and the value of [*limitPtr]. *)
Definition findRealEndOfVolume (fuel : nat) (vol : volume) (limit : Z)
    (limitPtr_old : Z) : option (uds_status * Z) :=
  match find_end_loop fuel vol limit 1 0 with
  | None => None
  | Some (inl result) => Some (result, limitPtr_old)
  | Some (inr limit') => Some (UDS_SUCCESS, limit')
  end.

Section Impl.

(** [ASSERT] of permassert.h, by the status it yields for a condition. *)
Variable ASSERT : bool -> uds_status.

(** [probeFunc] with its [aux] argument: chapter and old [*vcn] to status
    and new [*vcn]. *)
Variable probeFunc : Z -> Z -> uds_status * Z.

(** The binary search [while (leftChapter < rightChapter)]. *)
Fixpoint search_loop (fuel : nat) (firstVCN leftChapter rightChapter : Z)
    : option (uds_status + Z * Z) :=
  match fuel with
  | O => None
  | S fuel' =>
      if leftChapter <? rightChapter then
        let chapter := u32 (leftChapter + rightChapter) / 2 in
        (* probeVCN is uninitialised in the source; it is read only after
           the probe has returned UDS_SUCCESS *)
        let '(result, probeVCN) := probeFunc chapter 0 in
        if negb (is_success result) then Some (inl result)
        else if firstVCN <=? probeVCN
        then search_loop fuel' firstVCN (u32 (chapter + 1)) rightChapter
        else search_loop fuel' firstVCN leftChapter chapter
      else Some (inr (leftChapter, rightChapter))
  end.

(** The backward scan [for (;;)] over the bad chapters.  [inr] carries the
    value of [highest] at the [break]. *)
Fixpoint scan_loop (fuel : nat) (chapterLimit maxBadChapters : Z)
    (rightChapter highest badChapters : Z) : option (uds_status + Z) :=
  match fuel with
  | O => None
  | S fuel' =>
      let rightChapter' :=
        u32 (rightChapter + chapterLimit - 1) mod chapterLimit in
      let '(result, highest') := probeFunc rightChapter' highest in
      if negb (is_success result) then Some (inl result)
      else if negb (highest' =? UINT64_MAX) then Some (inr highest')
      else
        let badChapters' := u32 (badChapters + 1) in
        if maxBadChapters <=? badChapters'
        then Some (inl UDS_CORRUPT_COMPONENT)
        else scan_loop fuel' chapterLimit maxBadChapters
                       rightChapter' highest' badChapters'
  end.

(** [findVolumeChapterBoundariesImpl]: the status and the values of
    [*lowestVCN] and [*highestVCN] afterwards. *)
Definition findVolumeChapterBoundariesImpl (fuel : nat)
    (chapterLimit maxBadChapters : Z) (lowestVCN highestVCN : Z)
    : option (uds_status * Z * Z) :=
  if chapterLimit =? 0 then Some (UDS_SUCCESS, 0, 0) else
  let '(result, firstVCN) := probeFunc 0 UINT64_MAX in
  if negb (is_success result) then Some (UDS_SUCCESS, lowestVCN, highestVCN)
  else
  match search_loop fuel firstVCN 0 chapterLimit with
  | None => None
  | Some (inl result) => Some (result, lowestVCN, highestVCN)
  | Some (inr (leftChapter, rightChapter)) =>
      let result := ASSERT (leftChapter =? rightChapter) in
      if negb (is_success result) then Some (result, lowestVCN, highestVCN)
      else
      let leftChapter := leftChapter mod chapterLimit in
      let '(result, lowest) := probeFunc leftChapter UINT64_MAX in
      if negb (is_success result) then Some (result, lowestVCN, highestVCN)
      else
      let result := ASSERT (negb (lowest =? UINT64_MAX)) in
      if negb (is_success result) then Some (result, lowestVCN, highestVCN)
      else
      match scan_loop fuel chapterLimit maxBadChapters
                      rightChapter UINT64_MAX 0 with
      | None => None
      | Some (inl result) => Some (result, lowestVCN, highestVCN)
      | Some (inr highest) => Some (UDS_SUCCESS, lowest, highest)
      end
  end.

End Impl.

(** The out-parameters of [findVolumeChapterBoundaries]. *)
Record boundaries := {
  lowestVCN : Z;
  highestVCN : Z;
  isEmpty : bool
}.

(** [findVolumeChapterBoundaries]: the status and the out-parameters
    afterwards ([out] holds them before the call). *)
Definition findVolumeChapterBoundaries (ASSERT : bool -> uds_status)
    (fuel : nat) (vol : volume) (out : boundaries)
    : option (uds_status * boundaries) :=
  let chapterLimit := chapters_per_volume (vol_geometry vol) in
  match findRealEndOfVolume fuel vol chapterLimit chapterLimit with
  | None => None
  | Some (result, chapterLimit) =>
      if negb (is_success result) then Some (result, out)
      else if chapterLimit =? 0
      then Some (UDS_SUCCESS,
                 {| lowestVCN := 0; highestVCN := 0; isEmpty := true |})
      else
        match findVolumeChapterBoundariesImpl ASSERT (probeWrapper vol) fuel
                chapterLimit MAX_BAD_CHAPTERS
                (lowestVCN out) (highestVCN out) with
        | None => None
        | Some (result, lowest, highest) =>
            Some (result,
                  {| lowestVCN := lowest; highestVCN := highest;
                     isEmpty := false |})
        end
  end.

(** The chapters that hold the ends of the sequence when the bad chapters
    are [bad_from .. bad_to): the lowest number sits right after the run,
    the highest right before it, both counted around the circle. *)
Definition lowest_chapter (chapterLimit bad_to : Z) : Z :=
  bad_to mod chapterLimit.

Definition highest_chapter (chapterLimit bad_from : Z) : Z :=
  (bad_from + chapterLimit - 1) mod chapterLimit.

(** Where the binary search ends on such a volume: at [bad_to], or at
    [chapterLimit] when there is no bad chapter and the sequence starts at
    chapter 0. *)
Definition search_end (chapterLimit bad_from bad_to : Z) : Z :=
  if (bad_from =? 0) && (bad_to =? 0) then chapterLimit else bad_to.

(** A probe under which every chapter [c] is good and holds virtual
    chapter [c]. *)
Definition identity_probe (chapter : Z) (vcn_old : Z) : uds_status * Z :=
  (UDS_SUCCESS, chapter).

(** Probing a fixed table of chapters: chapter [c] holds [nth c table].
    Used to run the search on concrete volumes. *)
Definition table_probe (table : list Z) (chapter : Z) (vcn_old : Z)
    : uds_status * Z :=
  (UDS_SUCCESS, nth (Z.to_nat chapter) table UINT64_MAX).

(** The specification's words, for a table of probed values: the good values
    increase around the circle (at most one descent between neighbours,
    the last good value being the neighbour of the first), the bad
    chapters form at most one run around the circle, and there are at most
    [MAX_BAD_CHAPTERS] of them. *)
Definition is_bad (v : Z) : bool := v =? UINT64_MAX.

Definition good_values (table : list Z) : list Z :=
  List.filter (fun v => negb (is_bad v)) table.

Definition spec_lowest (table : list Z) : Z :=
  fold_right Z.min UINT64_MAX (good_values table).

Definition spec_highest (table : list Z) : Z :=
  fold_right Z.max 0 (good_values table).

Fixpoint count_descents (prev : Z) (rest : list Z) (first : Z) : nat :=
  match rest with
  | [] => if prev <? first then 0%nat else 1%nat
  | v :: rest' =>
      ((if (prev <? v)%Z then 0 else 1) + count_descents v rest' first)%nat
  end.

Definition spec_circularly_increasing (table : list Z) : bool :=
  match good_values table with
  | [] => true
  | v :: rest => (count_descents v rest v <=? 1)%nat
  end.

Fixpoint count_run_starts (prev_bad : bool) (table : list Z) : nat :=
  match table with
  | [] => 0%nat
  | v :: rest =>
      ((if is_bad v && negb prev_bad then 1 else 0)
       + count_run_starts (is_bad v) rest)%nat
  end.

Definition spec_bad_runs (table : list Z) : nat :=
  count_run_starts (is_bad (List.last table 0)) table.

Definition spec_bad_chapters (table : list Z) : Z :=
  Z.of_nat (length (List.filter is_bad table)).

Definition spec_accepts (table : list Z) : bool :=
  spec_circularly_increasing table
  && (spec_bad_runs table <=? 1)%nat
  && (spec_bad_chapters table <=? MAX_BAD_CHAPTERS).

End Volume.

(** ** status-codes.h *)

Module StatusCodes.

(** The VDO status codes named by the routines below; [VDO_SUCCESS] and
    [UDS_SUCCESS] are the same value in the sources. *)
Inductive vdo_status : Type :=
| VDO_SUCCESS
| VDO_OUT_OF_RANGE
| VDO_CORRUPT_JOURNAL
| VDO_READ_ONLY
| VDO_INVALID_FRAGMENT
| UDS_ASSERTION_FAILED
| VDO_OTHER_ERROR (code : Z).

Definition is_success (r : vdo_status) : bool :=
  match r with VDO_SUCCESS => true | _ => false end.

End StatusCodes.

(** ** vdo/slabScrubber.c: replaying a slab journal *)

Module SlabScrubber.
Import UInt StatusCodes.

Record journal_point := {
  sequence_number : Z;      (* sequence_number_t *)
  entry_count : Z           (* journal_entry_count_t *)
}.

Record slab_journal_entry := {
  sbn : Z;                  (* slab_block_number *)
  operation : Z             (* enum journal_operation *)
}.

Inductive vdo_metadata_type : Type :=
| VDO_METADATA_RECOVERY_JOURNAL
| VDO_METADATA_SLAB_JOURNAL
| VDO_METADATA_OTHER (tag : Z).

Definition is_slab_journal_type (t : vdo_metadata_type) : bool :=
  match t with VDO_METADATA_SLAB_JOURNAL => true | _ => false end.

(** [struct slab_journal_block_header], as
    [unpack_vdo_slab_journal_block_header] delivers it. *)
Record slab_journal_block_header := {
  head : Z;
  hdr_sequence_number : Z;
  nonce : Z;
  metadata_type : vdo_metadata_type;
  has_block_map_increments : bool;
  hdr_entry_count : Z
}.

(** A block of the journal as read from disk: its header and the entry
    that [decode_vdo_slab_journal_entry] finds at each position. *)
Record packed_slab_journal_block := {
  header : slab_journal_block_header;
  decode_vdo_slab_journal_entry : Z -> slab_journal_entry
}.

Record slab_journal := {
  tail : Z;
  size : Z;
  entries_per_block : Z;
  full_entries_per_block : Z
}.

(** What the scrubber asks of the rest of the driver. *)
Inductive scrubber_call : Type :=
| vdo_enter_read_only_mode (result : vdo_status)
| set_vdo_completion_result (result : vdo_status)
| scrub_next_slab
| start_vdo_slab_action_save_for_scrubbing.

Section Scrubber.

(** The reference counts of a slab and the functions of refCounts.c,
    slabJournal.h, journalPoint.h and permassert.h the scrubber calls. *)
Variable ref_counts : Type.
Variable slab_journal_point : ref_counts -> journal_point.
Variable vdo_replay_reference_count_change :
  ref_counts -> journal_point -> slab_journal_entry -> vdo_status * ref_counts.
Variable get_vdo_slab_journal_block_offset : slab_journal -> Z -> Z.
Variable before_vdo_journal_point : journal_point -> journal_point -> bool.
Variable ASSERT : bool -> vdo_status.

Record vdo_slab := {
  slab_number : Z;
  slab_start : Z;                  (* physical_block_number_t start *)
  slab_end : Z;                    (* first block past the end of the slab *)
  allocator_nonce : Z;             (* slab->allocator->nonce *)
  journal : slab_journal;
  reference_counts : ref_counts
}.

Record slab_scrubber := {
  slab : vdo_slab;
  journal_data : Z -> packed_slab_journal_block   (* by block index *)
}.

(** The [while] loop of [apply_block_entries], [count] entries from
    position [entry] on. *)
Fixpoint apply_entries (block : packed_slab_journal_block) (max_sbn : Z)
    (block_number : Z) (count : nat) (entry : Z) (refs : ref_counts)
    : vdo_status * ref_counts :=
  match count with
  | O => (VDO_SUCCESS, refs)
  | S count' =>
      let e := decode_vdo_slab_journal_entry block entry in
      if max_sbn <? sbn e then (VDO_CORRUPT_JOURNAL, refs) else
      let entry_point :=
        {| sequence_number := block_number; entry_count := entry |} in
      let '(result, refs') :=
        vdo_replay_reference_count_change refs entry_point e in
      if negb (is_success result) then (result, refs')
      else apply_entries block max_sbn block_number count' (entry + 1) refs'
  end.

(** [apply_block_entries]: the status and the reference counts after. *)
Definition apply_block_entries (block : packed_slab_journal_block)
    (entry_count : Z) (block_number : Z) (s : vdo_slab)
    : vdo_status * ref_counts :=
  let max_sbn := u32 (slab_end s - slab_start s) in
  apply_entries block max_sbn block_number (Z.to_nat entry_count) 0
                (reference_counts s).

Definition with_reference_counts (s : vdo_slab) (refs : ref_counts)
    : vdo_slab :=
  {| slab_number := slab_number s; slab_start := slab_start s;
     slab_end := slab_end s; allocator_nonce := allocator_nonce s;
     journal := journal s; reference_counts := refs |}.

(** [abort_scrubbing]. *)
Definition abort_scrubbing (result : vdo_status) : list scrubber_call :=
  [vdo_enter_read_only_mode result; set_vdo_completion_result result;
   scrub_next_slab].

(** The test that sends a block to [abort_scrubbing]. *)
Definition block_is_invalid (s : vdo_slab) (sequence : Z)
    (h : slab_journal_block_header) : bool :=
  negb (nonce h =? allocator_nonce s)
  || negb (is_slab_journal_type (metadata_type h))
  || negb (hdr_sequence_number h =? sequence)
  || (entries_per_block (journal s) <? hdr_entry_count h)
  || (has_block_map_increments h
      && (full_entries_per_block (journal s) <? hdr_entry_count h)).

(** The [for (sequence = head; sequence < tail; sequence++)] loop of
    [apply_journal_entries], [count] blocks from [sequence] on.  [inl] is
    an abort: its status and the reference counts at that moment; [inr] is
    the state when the loop runs to its end. *)
Fixpoint apply_blocks (sc : slab_scrubber) (count : nat)
    (sequence index : Z) (refs : ref_counts) (last_entry_applied : journal_point)
    : (vdo_status * ref_counts) + (Z * ref_counts * journal_point) :=
  match count with
  | O => inr (index, refs, last_entry_applied)
  | S count' =>
      let s := slab sc in
      let block := journal_data sc index in
      let h := header block in
      if block_is_invalid s sequence h then inl (VDO_CORRUPT_JOURNAL, refs)
      else
      let '(result, refs') :=
        apply_block_entries block (hdr_entry_count h) sequence
                            (with_reference_counts s refs) in
      if negb (is_success result) then inl (result, refs') else
      let last :=
        {| sequence_number := sequence;
           entry_count := u16 (hdr_entry_count h - 1) |} in
      let index' := u64 (index + 1) in
      let index'' := if index' =? size (journal s) then 0 else index' in
      apply_blocks sc count' (sequence + 1) index'' refs' last
  end.

(** The index of the block read [steps] blocks after the one at [index]:
    the [index++] of the loop with its wrap at the journal size. *)
Fixpoint index_after (j : slab_journal) (steps : nat) (index : Z) : Z :=
  match steps with
  | O => index
  | S steps' =>
      let index' := u64 (index + 1) in
      index_after j steps' (if index' =? size j then 0 else index')
  end.

(** The first block index and the [head] that [apply_journal_entries]
    reads from the header of the last block written. *)
Definition journal_head (sc : slab_scrubber) : Z :=
  let j := journal (slab sc) in
  let end_index := get_vdo_slab_journal_block_offset j (u64 (tail j - 1)) in
  head (header (journal_data sc end_index)).

(** [apply_journal_entries]: the reference counts afterwards and the calls
    made, in order. *)
Definition apply_journal_entries (sc : slab_scrubber)
    : ref_counts * list scrubber_call :=
  let s := slab sc in
  let j := journal s in
  let head := journal_head sc in
  let head_index := get_vdo_slab_journal_block_offset j head in
  let ref_counts_point := slab_journal_point (reference_counts s) in
  match apply_blocks sc (Z.to_nat (tail j - head)) head head_index
          (reference_counts s) ref_counts_point with
  | inl (result, refs) => (refs, abort_scrubbing result)
  | inr (_, refs, last_entry_applied) =>
      let result :=
        ASSERT (negb (before_vdo_journal_point last_entry_applied
                                               ref_counts_point)) in
      if negb (is_success result) then (refs, abort_scrubbing result)
      else (refs, [start_vdo_slab_action_save_for_scrubbing])
  end.

End Scrubber.

Arguments Build_vdo_slab {ref_counts}.
Arguments slab_number {ref_counts}.
Arguments slab_start {ref_counts}.
Arguments slab_end {ref_counts}.
Arguments allocator_nonce {ref_counts}.
Arguments journal {ref_counts}.
Arguments reference_counts {ref_counts}.
Arguments Build_slab_scrubber {ref_counts}.
Arguments slab {ref_counts}.
Arguments journal_data {ref_counts}.
Arguments with_reference_counts {ref_counts}.
Arguments block_is_invalid {ref_counts}.

End SlabScrubber.

(** ** vdo/vdo-page-cache.c: choosing a page to discard *)

Module PageCache.
Import UInt.

Inductive vdo_page_buffer_state : Type :=
| PS_FREE | PS_INCOMING | PS_FAILED | PS_RESIDENT | PS_DIRTY | PS_OUTGOING.

Inductive vdo_page_write_status : Type :=
| WRITE_STATUS_NORMAL | WRITE_STATUS_DISCARD | WRITE_STATUS_DEFERRED.

Record page_info := {
  state : vdo_page_buffer_state;
  busy : Z;                              (* number of holders *)
  pbn : Z;
  write_status : vdo_page_write_status
}.

Definition is_dirty (info : page_info) : bool :=
  match state info with PS_DIRTY => true | _ => false end.

Definition is_incoming (info : page_info) : bool :=
  match state info with PS_INCOMING => true | _ => false end.

Definition is_outgoing (info : page_info) : bool :=
  match state info with PS_OUTGOING => true | _ => false end.

Definition is_in_flight (info : page_info) : bool :=
  is_incoming info || is_outgoing info.

(** A page completion waiting for a free page. *)
Record vdo_page_completion := {
  vpc_id : Z;
  vpc_pbn : Z
}.

(** The cache.  [infos] is the array of page infos; [lru_list] holds the
    positions in [infos] of the pages on the LRU ring, from the front of
    the ring (least recently used) to its tail. *)
Record vdo_page_cache := {
  infos : list page_info;
  lru_list : list nat;
  free_waiters : list vdo_page_completion;
  page_count : Z;
  waiter_count : Z;
  discard_count : Z;
  pressure_report : Z;
  cache_pressure : Z                     (* stats.cache_pressure *)
}.

Definition LOG_INTERVAL : Z := 4000.
Definition DISPLAY_INTERVAL : Z := 100000.

(** What [select_lru_page] tests of a page. *)
Definition discardable (info : page_info) : bool :=
  (busy info =? 0) && negb (is_in_flight info).

(** [list_for_each] over the LRU ring. *)
Fixpoint select_lru_from (pages : list page_info) (lru : list nat)
    : option nat :=
  match lru with
  | [] => None
  | i :: rest =>
      match pages !! i with
      | Some info =>
          if discardable info then Some i else select_lru_from pages rest
      | None => select_lru_from pages rest
      end
  end.

(** [select_lru_page]: the position of the chosen page, [None] for NULL. *)
Definition select_lru_page (cache : vdo_page_cache) : option nat :=
  select_lru_from (infos cache) (lru_list cache).

(** [report_cache_pressure]; the log line leaves no trace in the cache. *)
Definition report_cache_pressure (cache : vdo_page_cache) : vdo_page_cache :=
  let pressure := u32 (cache_pressure cache + 1) in
  let report :=
    if page_count cache <? waiter_count cache then
      let next := u32 (pressure_report cache + 1) in
      if DISPLAY_INTERVAL <=? next then 0 else next
    else pressure_report cache in
  {| infos := infos cache; lru_list := lru_list cache;
     free_waiters := free_waiters cache; page_count := page_count cache;
     waiter_count := waiter_count cache;
     discard_count := discard_count cache;
     pressure_report := report; cache_pressure := pressure |}.

(** The assignments of [discard_a_page] to a dirty victim. *)
Definition mark_for_discard (cache : vdo_page_cache) (i : nat)
    (info : page_info) : vdo_page_cache :=
  let info' :=
    {| state := state info; busy := busy info; pbn := pbn info;
       write_status := WRITE_STATUS_DISCARD |} in
  {| infos := <[i := info']> (infos cache); lru_list := lru_list cache;
     free_waiters := free_waiters cache; page_count := page_count cache;
     waiter_count := waiter_count cache;
     discard_count := u32 (discard_count cache + 1);
     pressure_report := pressure_report cache;
     cache_pressure := cache_pressure cache |}.

(** A position of the ring whose page is busy or in flight. *)
Definition pinned (pages : list page_info) (i : nat) : Prop :=
  forall info, pages !! i = Some info ->
    busy info <> 0 \/ is_in_flight info = true.

Section Discard.

(** Where a chosen victim goes: [allocate_free_page] hands a clean page to
    the oldest waiter, [launch_page_save] writes a dirty one out. *)
Variable allocate_free_page : nat -> vdo_page_cache -> vdo_page_cache.
Variable launch_page_save : nat -> vdo_page_cache -> vdo_page_cache.

(** [discard_a_page]. *)
Definition discard_a_page (cache : vdo_page_cache) : vdo_page_cache :=
  match select_lru_page cache with
  | None => report_cache_pressure cache
  | Some i =>
      match infos cache !! i with
      | None => cache
      | Some info =>
          if negb (is_dirty info) then allocate_free_page i cache
          else launch_page_save i (mark_for_discard cache i info)
      end
  end.

End Discard.

End PageCache.

(** ** vdo/blockMappingState.h and vdo/compressed-block.c *)

Module CompressedBlock.
Import UInt StatusCodes.

Definition VDO_MAPPING_STATE_UNMAPPED : Z := 0.
Definition VDO_MAPPING_STATE_UNCOMPRESSED : Z := 1.
Definition VDO_MAPPING_STATE_COMPRESSED_BASE : Z := 2.
Definition VDO_MAPPING_STATE_COMPRESSED_MAX : Z := 15.

Definition VDO_MAX_COMPRESSION_SLOTS : Z :=
  VDO_MAPPING_STATE_COMPRESSED_MAX - VDO_MAPPING_STATE_COMPRESSED_BASE + 1.

Definition vdo_get_state_for_slot (slot_number : Z) : Z :=
  slot_number + VDO_MAPPING_STATE_COMPRESSED_BASE.

(** The result is a [byte]. *)
Definition vdo_get_slot_from_state (mapping_state : Z) : Z :=
  u8 (mapping_state - VDO_MAPPING_STATE_COMPRESSED_BASE).

Definition vdo_is_state_compressed (mapping_state : Z) : bool :=
  VDO_MAPPING_STATE_UNCOMPRESSED <? mapping_state.

(** [sizeof(struct compressed_block_header)]: the packed version (two
    32-bit words) and one 16-bit size for each slot. *)
Definition COMPRESSED_BLOCK_1_0_SIZE : Z :=
  4 + 4 + 2 * VDO_MAX_COMPRESSION_SLOTS.

(** A block is its bytes, each in [0, 256). *)
Definition byte_at (buffer : list Z) (i : Z) : Z :=
  default 0 (buffer !! Z.to_nat i).

Definition get_le16 (buffer : list Z) (at_ : Z) : Z :=
  byte_at buffer at_ + 2 ^ 8 * byte_at buffer (at_ + 1).

Definition get_le32 (buffer : list Z) (at_ : Z) : Z :=
  byte_at buffer at_ + 2 ^ 8 * byte_at buffer (at_ + 1)
  + 2 ^ 16 * byte_at buffer (at_ + 2) + 2 ^ 24 * byte_at buffer (at_ + 3).

Definition le16_bytes (x : Z) : list Z := [x mod 2 ^ 8; (x / 2 ^ 8) mod 2 ^ 8].

Definition le32_bytes (x : Z) : list Z :=
  [x mod 2 ^ 8; (x / 2 ^ 8) mod 2 ^ 8; (x / 2 ^ 16) mod 2 ^ 8;
   (x / 2 ^ 24) mod 2 ^ 8].

(** [memcpy] into a block: the bytes from [at_] on are replaced. *)
Definition write_bytes (buffer : list Z) (at_ : Z) (bytes : list Z) : list Z :=
  take (Z.to_nat at_) buffer ++ bytes
  ++ drop (Z.to_nat at_ + length bytes) buffer.

Record version_number := {
  major_version : Z;
  minor_version : Z
}.

Definition COMPRESSED_BLOCK_1_0 : version_number :=
  {| major_version := 1; minor_version := 0 |}.

(** Modelled from the spec: [vdo_unpack_version_number] and
    [vdo_are_same_version] are declared in a header that is not among the
    sources; the spec gives the header as [{ version = 1.0, sizes[...], ... }]
    packed little-endian, so the version is two little-endian 32-bit words
    at the start of the block, and two versions are the same when both
    words agree. *)
Definition vdo_unpack_version_number (buffer : list Z) : version_number :=
  {| major_version := get_le32 buffer 0; minor_version := get_le32 buffer 4 |}.

Definition vdo_are_same_version (a b : version_number) : bool :=
  (major_version a =? major_version b) && (minor_version a =? minor_version b).

(** [header->sizes[slot]] starts after the version. *)
Definition sizes_at (slot : Z) : Z := 8 + 2 * slot.

Definition get_compressed_fragment_size (buffer : list Z) (slot : Z) : Z :=
  get_le16 buffer (sizes_at slot).

(** [vdo_initialize_compressed_block]. *)
Definition vdo_initialize_compressed_block (block : list Z) (size : Z)
    : list Z :=
  let block1 :=
    write_bytes block 0
      (le32_bytes (major_version COMPRESSED_BLOCK_1_0)
       ++ le32_bytes (minor_version COMPRESSED_BLOCK_1_0)) in
  write_bytes block1 (sizes_at 0) (le16_bytes size).

(** [vdo_put_compressed_block_fragment]: [data] holds the [size] bytes that
    are copied. *)
Definition vdo_put_compressed_block_fragment (block : list Z)
    (fragment offset : Z) (data : list Z) (size : Z) : list Z :=
  let block1 := write_bytes block (sizes_at fragment) (le16_bytes size) in
  write_bytes block1 (COMPRESSED_BLOCK_1_0_SIZE + offset)
              (take (Z.to_nat size) data).

(** The [for (i = 0; i < slot; i++)] loop; [None] is the return of
    [VDO_INVALID_FRAGMENT] from inside the loop.  [offset] is a
    [uint16_t]. *)
Fixpoint scan_offsets (buffer : list Z) (block_size : Z) (count : nat)
    (i offset : Z) : option Z :=
  match count with
  | O => Some offset
  | S count' =>
      let offset' := u16 (offset + get_compressed_fragment_size buffer i) in
      if block_size <=? offset' then None
      else scan_offsets buffer block_size count' (i + 1) offset'
  end.

(** [vdo_get_compressed_block_fragment]: the status and the values of
    [*fragment_offset] and [*fragment_size] afterwards. *)
Definition vdo_get_compressed_block_fragment (mapping_state : Z)
    (buffer : list Z) (block_size : Z) (fragment_offset fragment_size : Z)
    : vdo_status * Z * Z :=
  let invalid := (VDO_INVALID_FRAGMENT, fragment_offset, fragment_size) in
  if negb (vdo_is_state_compressed mapping_state) then invalid else
  let version := vdo_unpack_version_number buffer in
  if negb (vdo_are_same_version version COMPRESSED_BLOCK_1_0) then invalid
  else
  let slot := vdo_get_slot_from_state mapping_state in
  if VDO_MAX_COMPRESSION_SLOTS <=? slot then invalid else
  let compressed_size := get_compressed_fragment_size buffer slot in
  match scan_offsets buffer block_size (Z.to_nat slot) 0
          (u16 COMPRESSED_BLOCK_1_0_SIZE) with
  | None => invalid
  | Some offset =>
      if block_size <? offset + compressed_size then invalid
      else (VDO_SUCCESS, offset, compressed_size)
  end.

(** The specification's words, in plain integers.  The running offset after [k]
    slots is the header size plus the sizes of slots [0 .. k). *)
Fixpoint sum_of_sizes (buffer : list Z) (count : nat) : Z :=
  match count with
  | O => 0
  | S count' =>
      sum_of_sizes buffer count'
      + get_compressed_fragment_size buffer (Z.of_nat count')
  end.

Definition spec_running_offset (buffer : list Z) (k : nat) : Z :=
  COMPRESSED_BLOCK_1_0_SIZE + sum_of_sizes buffer k.

(** The running offset reaches the block size at one of the [count] steps
    that follow step [from]. *)
Definition spec_offset_overruns (buffer : list Z) (block_size : Z)
    (from count : nat) : bool :=
  existsb (fun k => block_size <=? spec_running_offset buffer k)
          (seq (S from) count).

Definition spec_get_compressed_block_fragment (mapping_state : Z)
    (buffer : list Z) (block_size : Z) (fragment_offset fragment_size : Z)
    : vdo_status * Z * Z :=
  let slot := vdo_get_slot_from_state mapping_state in
  let offset := spec_running_offset buffer (Z.to_nat slot) in
  let size := get_compressed_fragment_size buffer slot in
  if negb (vdo_is_state_compressed mapping_state)
     || negb (vdo_are_same_version (vdo_unpack_version_number buffer)
                                   COMPRESSED_BLOCK_1_0)
     || (VDO_MAX_COMPRESSION_SLOTS <=? slot)
     || spec_offset_overruns buffer block_size 0 (Z.to_nat slot)
     || (block_size <? offset + size)
  then (VDO_INVALID_FRAGMENT, fragment_offset, fragment_size)
  else (VDO_SUCCESS, offset, size).

(** A block whose first fragment claims 65535 bytes: version 1.0,
    [sizes[0] = 0xFFFF], [sizes[1] = 1], all else zero. *)
Definition overflowing_block : list Z :=
  [1; 0; 0; 0; 0; 0; 0; 0; 255; 255; 1; 0] ++ repeat 0 4084.

End CompressedBlock.

(** ** vdo/packer.c: writing out a bin *)

Module Packer.
Import UInt StatusCodes CompressedBlock.

(** The parts of a [data_vio] the packer touches.  [compression_data] is
    the compressed fragment, [in_bin] tells whether [compression.bin] is
    set. *)
Record data_vio := {
  vio_id : Z;
  compression_size : Z;              (* uint16_t *)
  compression_slot : Z;
  in_bin : bool;
  compression_data : list Z;
  scratch_block : list Z
}.

(** A bin: [incoming[0 .. slots_used)], oldest first. *)
Record packer_bin := {
  incoming : list data_vio;
  free_space : Z
}.

Definition slots_used (bin : packer_bin) : Z := Z.of_nat (length (incoming bin)).

Record packer_statistics := {
  compressed_fragments_written : Z;
  compressed_blocks_written : Z;
  compressed_fragments_in_packer : Z
}.

(** [read_only] is what [vdo_is_read_only] answers for the packer's VDO. *)
Record packer := {
  canceled_bin : packer_bin;
  bin_data_size : Z;
  statistics : packer_statistics;
  read_only : bool
}.

(** Where a [data_vio] is sent when the packer lets go of it. *)
Inductive packer_call : Type :=
| set_vio_compression_done (vio : Z)
| continue_write_after_compression (vio : Z)
| continue_data_vio (vio : Z) (result : vdo_status)
| submit_data_vio_io (vio : Z) (block : list Z).

Definition is_submit (c : packer_call) : bool :=
  match c with submit_data_vio_io _ _ => true | _ => false end.

Definition set_slot (v : data_vio) (slot : Z) (bin_set : bool) : data_vio :=
  {| vio_id := vio_id v; compression_size := compression_size v;
     compression_slot := slot; in_bin := bin_set;
     compression_data := compression_data v;
     scratch_block := scratch_block v |}.

(** [add_to_bin]. *)
Definition add_to_bin (bin : packer_bin) (v : data_vio) : packer_bin :=
  {| incoming := incoming bin ++ [set_slot v (u16 (slots_used bin)) true];
     free_space := free_space bin |}.

Definition with_canceled_bin (p : packer) (bin : packer_bin) : packer :=
  {| canceled_bin := bin; bin_data_size := bin_data_size p;
     statistics := statistics p; read_only := read_only p |}.

Definition with_statistics (p : packer) (s : packer_statistics) : packer :=
  {| canceled_bin := canceled_bin p; bin_data_size := bin_data_size p;
     statistics := s; read_only := read_only p |}.

Section WriteBin.

(** [may_write_compressed_data_vio] (compressionState.c) and
    [prepare_data_vio_for_io] (data-vio.c), as far as the packer sees
    them. *)
Variable may_write_compressed_data_vio : data_vio -> bool.
Variable prepare_data_vio_for_io : data_vio -> list Z -> vdo_status.

(** The [while (bin->slots_used > 0)] loop of [remove_from_bin] on the
    slots taken from the top: [stack] is [incoming] from its last entry
    down. *)
Fixpoint remove_loop (stack : list data_vio) (canceled : packer_bin)
    : option data_vio * list data_vio * packer_bin :=
  match stack with
  | [] => (None, [], canceled)
  | v :: rest =>
      if may_write_compressed_data_vio v
      then (Some (set_slot v (compression_slot v) false), rest, canceled)
      else remove_loop rest (add_to_bin canceled v)
  end.

(** [remove_from_bin]. *)
Definition remove_from_bin (p : packer) (bin : packer_bin)
    : option data_vio * packer * packer_bin :=
  let '(found, rest, canceled) :=
    remove_loop (rev (incoming bin)) (canceled_bin p) in
  let space :=
    match found with
    | Some _ => free_space bin
    | None => bin_data_size p
    end in
  (found, with_canceled_bin p canceled,
   {| incoming := rev rest; free_space := space |}).

(** The batch a bin yields: its data_vios that may still be written
    compressed, in the order [remove_from_bin] hands them out. *)
Definition batch_of (bin : packer_bin) : list data_vio :=
  List.filter may_write_compressed_data_vio (rev (incoming bin)).

(** What [write_bin] has in hand while it packs: the block being filled,
    the [next_in_batch] chain of the agent, [offset] and [slot]. *)
Record batch_state := {
  block : list Z;
  next_in_batch : list data_vio;
  offset : Z;                        (* block_size_t *)
  slot : Z                           (* slot_number_t *)
}.

(** [pack_fragment], with the [slot++] of its call. *)
Definition pack_fragment (st : batch_state) (v : data_vio) : batch_state :=
  {| block :=
       vdo_put_compressed_block_fragment (block st) (slot st) (offset st)
         (compression_data v) (compression_size v);
     next_in_batch := set_slot v (slot st) (in_bin v) :: next_in_batch st;
     offset := u16 (offset st + compression_size v);
     slot := u16 (slot st + 1) |}.

(** The [while ((client = remove_from_bin(packer, bin)) != NULL)] loop. *)
Fixpoint pack_loop (fuel : nat) (p : packer) (bin : packer_bin)
    (st : batch_state) : option (packer * packer_bin * batch_state) :=
  match fuel with
  | O => None
  | S fuel' =>
      match remove_from_bin p bin with
      | (None, p', bin') => Some (p', bin', st)
      | (Some client, p', bin') => pack_loop fuel' p' bin' (pack_fragment st client)
      end
  end.

(** [abort_packing]. *)
Definition abort_packing (p : packer) (v : data_vio)
    : packer * list packer_call :=
  let s := statistics p in
  (with_statistics p
     {| compressed_fragments_written := compressed_fragments_written s;
        compressed_blocks_written := compressed_blocks_written s;
        compressed_fragments_in_packer :=
          u64 (compressed_fragments_in_packer s - 1) |},
   [set_vio_compression_done (vio_id v);
    continue_write_after_compression (vio_id v)]).

Record write_bin_result := {
  wb_packer : packer;
  wb_bin : packer_bin;
  wb_agent : option data_vio;
  wb_batch : option batch_state;
  wb_calls : list packer_call
}.

(** [write_bin].  A bin of [n] slots is emptied by at most [n] calls of
    [remove_from_bin] that find a [data_vio] and one that does not. *)
Definition write_bin (p : packer) (bin : packer_bin) : option write_bin_result :=
  match remove_from_bin p bin with
  | (None, p1, bin1) =>
      Some {| wb_packer := p1; wb_bin := bin1; wb_agent := None;
              wb_batch := None; wb_calls := [] |}
  | (Some agent0, p1, bin1) =>
      let agent := set_slot agent0 0 (in_bin agent0) in
      let st0 :=
        {| block :=
             vdo_initialize_compressed_block (scratch_block agent)
                                             (compression_size agent);
           next_in_batch := [];
           offset := compression_size agent;
           slot := 1 |} in
      match pack_loop (S (length (incoming bin1))) p1 bin1 st0 with
      | None => None
      | Some (p2, bin2, st) =>
          let done p' calls :=
            Some {| wb_packer := p'; wb_bin := bin2; wb_agent := Some agent;
                    wb_batch := Some st; wb_calls := calls |} in
          if slot st =? 1 then
            let '(p3, calls) := abort_packing p2 agent in done p3 calls
          else if read_only p2 then
            done p2 [continue_data_vio (vio_id agent) VDO_READ_ONLY]
          else
            let result := prepare_data_vio_for_io agent (block st) in
            if negb (is_success result) then
              done p2 [continue_data_vio (vio_id agent) result]
            else
              let s := statistics p2 in
              let s' :=
                {| compressed_fragments_written :=
                     u64 (compressed_fragments_written s + slot st);
                   compressed_blocks_written :=
                     u64 (compressed_blocks_written s + 1);
                   compressed_fragments_in_packer :=
                     u64 (compressed_fragments_in_packer s - slot st) |} in
              done (with_statistics p2 s')
                   [submit_data_vio_io (vio_id agent) (block st)]
      end
  end.

End WriteBin.

End Packer.

(** ** vdo/blockMap.c: finding the slot of a logical block *)

Module BlockMap.
Import UInt StatusCodes.

Record block_map := {
  entry_count : Z;                   (* block_count_t *)
  root_count : Z;                    (* root_count_t *)
  zone_count : Z                     (* zone_count_t *)
}.

Record block_map_tree_slot := {
  page_index : Z;                    (* page_number_t *)
  block_map_slot_pbn : Z;
  block_map_slot_slot : Z            (* slot_number_t *)
}.

(** [callback] and [thread_id] are kept as the numbers that name them. *)
Record tree_lock := {
  tree_slots_0 : block_map_tree_slot;
  root_index : Z;                    (* root_count_t *)
  callback : Z;
  thread_id : Z
}.

Record data_vio := {
  logical_lbn : Z;                   (* logical_block_number_t *)
  dv_tree_lock : tree_lock
}.

Inductive block_map_call : Type :=
| finish_data_vio (result : vdo_status)
| vdo_lookup_block_map_pbn.

Section Slots.

(** The number of entries of a block map page,
    [VDO_BLOCK_MAP_ENTRIES_PER_PAGE]. *)
Variable entries_per_page : Z.

(** Modelled from the spec: [vdo_compute_page_number] is declared in a
    header that is not among the sources; the spec gives
    [page_index = lbn / entries_per_page].  The result is a
    [page_number_t], 32 bits wide. *)
Definition vdo_compute_page_number (lbn : Z) : Z :=
  u32 (lbn / entries_per_page).

(** Modelled from the spec: [vdo_compute_slot] is declared in the same
    header; the spec gives [slot = lbn % entries_per_page].  The result is
    a [slot_number_t], 16 bits wide. *)
Definition vdo_compute_slot (lbn : Z) : Z :=
  u16 (lbn mod entries_per_page).

Definition set_page_index (t : tree_lock) (page_number : Z) : tree_lock :=
  {| tree_slots_0 :=
       {| page_index := page_number;
          block_map_slot_pbn := block_map_slot_pbn (tree_slots_0 t);
          block_map_slot_slot := block_map_slot_slot (tree_slots_0 t) |};
     root_index := root_index t; callback := callback t;
     thread_id := thread_id t |}.

Definition set_root_index (t : tree_lock) (root : Z) : tree_lock :=
  {| tree_slots_0 := tree_slots_0 t; root_index := root;
     callback := callback t; thread_id := thread_id t |}.

(** [vdo_compute_logical_zone]: the [data_vio] afterwards and the zone
    returned. *)
Definition vdo_compute_logical_zone (map : block_map) (dv : data_vio)
    : data_vio * Z :=
  let page_number := vdo_compute_page_number (logical_lbn dv) in
  let t1 := set_page_index (dv_tree_lock dv) page_number in
  let t2 := set_root_index t1 (u8 (page_number mod root_count map)) in
  ({| logical_lbn := logical_lbn dv; dv_tree_lock := t2 |},
   u8 (root_index t2 mod zone_count map)).

(** [vdo_find_block_map_slot]: the [data_vio] afterwards and the call that
    ends the function. *)
Definition vdo_find_block_map_slot (map : block_map) (dv : data_vio)
    (cb : Z) (thread : Z) : data_vio * list block_map_call :=
  if entry_count map <=? logical_lbn dv
  then (dv, [finish_data_vio VDO_OUT_OF_RANGE])
  else
    let t := dv_tree_lock dv in
    let slot0 :=
      {| page_index := page_index (tree_slots_0 t);
         block_map_slot_pbn := block_map_slot_pbn (tree_slots_0 t);
         block_map_slot_slot := vdo_compute_slot (logical_lbn dv) |} in
    ({| logical_lbn := logical_lbn dv;
        dv_tree_lock :=
          {| tree_slots_0 := slot0; root_index := root_index t;
             callback := cb; thread_id := thread |} |},
     [vdo_lookup_block_map_pbn]).

End Slots.

End BlockMap.

(** ** Concrete inputs on which the routines are run *)

Module Samples.

Definition journal_of_8 : RecoveryJournal.recovery_journal :=
  {| RecoveryJournal.size := 8; RecoveryJournal.entries_per_block := 311 |}.

Definition map_60_3 : BlockMap.block_map :=
  {| BlockMap.entry_count := 5000; BlockMap.root_count := 60;
     BlockMap.zone_count := 3 |}.

Definition fresh_tree_lock : BlockMap.tree_lock :=
  {| BlockMap.tree_slots_0 :=
       {| BlockMap.page_index := 0; BlockMap.block_map_slot_pbn := 0;
          BlockMap.block_map_slot_slot := 0 |};
     BlockMap.root_index := 0; BlockMap.callback := 0;
     BlockMap.thread_id := 0 |}.

Definition data_vio_at (lbn : Z) : BlockMap.data_vio :=
  {| BlockMap.logical_lbn := lbn; BlockMap.dv_tree_lock := fresh_tree_lock |}.

End Samples.

Module ScrubSamples.
Import StatusCodes SlabScrubber.

(** Reference counts that only remember what was replayed. *)
Definition replay_log : Type := list (journal_point * slab_journal_entry).

Definition log_point (refs : replay_log) : journal_point :=
  {| sequence_number := 0; entry_count := 0 |}.

Definition log_replay (refs : replay_log) (point : journal_point)
    (e : slab_journal_entry) : vdo_status * replay_log :=
  (VDO_SUCCESS, refs ++ [(point, e)]).

Definition offset_mod (j : slab_journal) (sequence : Z) : Z :=
  sequence mod size j.

Definition permassert (condition : bool) : vdo_status :=
  if condition then VDO_SUCCESS else UDS_ASSERTION_FAILED.

Definition point_before (a b : journal_point) : bool :=
  (sequence_number a <? sequence_number b)
  || ((sequence_number a =? sequence_number b)
      && (entry_count a <? entry_count b)).

Definition journal_of_4 (tail_ : Z) : slab_journal :=
  {| tail := tail_; size := 4; entries_per_block := 1353;
     full_entries_per_block := 1003 |}.

(** A slab of 8 blocks. *)
Definition slab_of_8 (tail_ : Z) : vdo_slab replay_log :=
  {| slab_number := 17; slab_start := 100; slab_end := 108;
     allocator_nonce := 42; journal := journal_of_4 tail_;
     reference_counts := [] |}.

(** A block of [count] entries for sequence number [sequence] whose last
    block written starts at [head_]; entry [i] names block [first + i]. *)
Definition block_with (head_ sequence nonce_ count first : Z)
    : packed_slab_journal_block :=
  {| header :=
       {| head := head_; hdr_sequence_number := sequence; nonce := nonce_;
          metadata_type := VDO_METADATA_SLAB_JOURNAL;
          has_block_map_increments := false; hdr_entry_count := count |};
     decode_vdo_slab_journal_entry :=
       fun i => {| sbn := first + i; operation := 1 |} |}.

(** A journal with blocks 4 and 5 live; block 5 carries a foreign nonce. *)
Definition scrubber_bad_nonce : slab_scrubber replay_log :=
  {| slab := slab_of_8 6;
     journal_data := fun index =>
       if index =? 0 then block_with 4 4 42 2 3
       else if index =? 1 then block_with 4 5 43 2 0
       else block_with 0 0 0 0 0 |}.

(** What has been replayed when block 5 is reached. *)
Definition replayed_block_4 : replay_log :=
  [({| sequence_number := 4; entry_count := 0 |},
    {| sbn := 3; operation := 1 |});
   ({| sequence_number := 4; entry_count := 1 |},
    {| sbn := 4; operation := 1 |})].

End ScrubSamples.

Module CacheSamples.
Import PageCache.

Definition page (st : vdo_page_buffer_state) (holders : Z) (block : Z)
    : page_info :=
  {| state := st; busy := holders; pbn := block;
     write_status := WRITE_STATUS_NORMAL |}.

(** Four pages; the ring runs 2, 0, 3, 1 from least to most recently
    used.  Page 2 is held, page 0 is being written. *)
Definition cache_with_victim : vdo_page_cache :=
  {| infos := [page PS_OUTGOING 0 10; page PS_RESIDENT 0 11;
               page PS_RESIDENT 1 12; page PS_DIRTY 0 13];
     lru_list := [2%nat; 0%nat; 3%nat; 1%nat];
     free_waiters := [{| vpc_id := 1; vpc_pbn := 20 |}];
     page_count := 4; waiter_count := 1; discard_count := 0;
     pressure_report := 0; cache_pressure := 0 |}.

(** Two pages, one held and one being read. *)
Definition cache_under_pressure : vdo_page_cache :=
  {| infos := [page PS_RESIDENT 2 10; page PS_INCOMING 0 11];
     lru_list := [1%nat; 0%nat];
     free_waiters := [{| vpc_id := 1; vpc_pbn := 20 |}];
     page_count := 2; waiter_count := 1; discard_count := 0;
     pressure_report := 0; cache_pressure := 5 |}.

(** Stand-ins for the two continuations of a discard: they record the
    victim in [discard_count] and [pressure_report]. *)
Definition note_allocate (i : nat) (cache : vdo_page_cache) : vdo_page_cache :=
  {| infos := infos cache; lru_list := lru_list cache;
     free_waiters := free_waiters cache; page_count := page_count cache;
     waiter_count := waiter_count cache;
     discard_count := discard_count cache;
     pressure_report := Z.of_nat i; cache_pressure := cache_pressure cache |}.

Definition note_save (i : nat) (cache : vdo_page_cache) : vdo_page_cache :=
  {| infos := infos cache; lru_list := lru_list cache;
     free_waiters := free_waiters cache; page_count := page_count cache;
     waiter_count := waiter_count cache;
     discard_count := discard_count cache;
     pressure_report := 1000 + Z.of_nat i;
     cache_pressure := cache_pressure cache |}.

End CacheSamples.

Module VolumeSamples.
Import UInt Volume.

Definition geometry_of (chapters : Z) : geometry :=
  {| chapters_per_volume := chapters; index_pages_per_chapter := 1 |}.

(** A volume of [chapters] chapters in which no index page can be read
    without finding it corrupt. *)
Definition blank_volume (chapters : Z) : volume :=
  {| vol_geometry := geometry_of chapters;
     getPage := fun _ _ =>
       (UDS_CORRUPT_COMPONENT,
        {| virtual_chapter_number := 0; lowest_list_number := 0;
           highest_list_number := 0 |});
     validate_chapter_index_page := fun _ => UDS_SUCCESS |}.

(** A volume with one index page per chapter; chapter [c] holds virtual
    chapter [nth c table], and a chapter past the table is corrupt. *)
Definition volume_of (table : list Z) : volume :=
  {| vol_geometry := geometry_of (Z.of_nat (length table));
     getPage := fun chapter _ =>
       match table !! Z.to_nat chapter with
       | Some vcn =>
           (UDS_SUCCESS,
            {| virtual_chapter_number := vcn; lowest_list_number := 0;
               highest_list_number := 0 |})
       | None =>
           (UDS_CORRUPT_COMPONENT,
            {| virtual_chapter_number := 0; lowest_list_number := 0;
               highest_list_number := 0 |})
       end;
     validate_chapter_index_page := fun _ => UDS_SUCCESS |}.

(** Six chapters holding 6, 7, -, -, 4, 5: the bad run sits between the
    highest and the lowest number. *)
Definition run_at_the_seam : list Z :=
  [6; 7; UINT64_MAX; UINT64_MAX; 4; 5].

(** Six chapters holding 6, 7, 2, -, 4, 5: one bad chapter inside the low
    part of the sequence. *)
Definition stray_bad_chapter : list Z :=
  [6; 7; 2; UINT64_MAX; 4; 5].

(** One good chapter and a bad run that wraps around the end. *)
Definition wrapped_run : list Z :=
  [UINT64_MAX; 1; UINT64_MAX; UINT64_MAX; UINT64_MAX; UINT64_MAX].

(** [count] bad chapters followed by the good chapters [count] and
    [count + 1]. *)
Definition leading_run (count : nat) : list Z :=
  repeat UINT64_MAX count ++ [Z.of_nat count; Z.of_nat count + 1].

Definition value_at (table : list Z) (chapter : Z) : Z :=
  nth (Z.to_nat chapter) table UINT64_MAX.

(** The usual [ASSERT]: a failed assertion is reported as
    [UDS_ASSERTION_FAILED]. *)
Definition permassert (condition : bool) : uds_status :=
  if condition then UDS_SUCCESS else UDS_ASSERTION_FAILED.

Definition no_boundaries : boundaries :=
  {| lowestVCN := 7; highestVCN := 7; isEmpty := false |}.

End VolumeSamples.

Module PackerSamples.
Import StatusCodes Packer.

Definition fragment (id size : Z) : data_vio :=
  {| vio_id := id; compression_size := size; compression_slot := 0;
     in_bin := true; compression_data := repeat id (Z.to_nat size);
     scratch_block := repeat 0 4096 |}.

Definition empty_bin : packer_bin := {| incoming := []; free_space := 4060 |}.

Definition bin_of (vios : list data_vio) : packer_bin :=
  {| incoming := vios; free_space := 0 |}.

Definition packer_in_mode (is_read_only : bool) : packer :=
  {| canceled_bin := empty_bin; bin_data_size := 4060;
     statistics :=
       {| compressed_fragments_written := 0; compressed_blocks_written := 0;
          compressed_fragments_in_packer := 5 |};
     read_only := is_read_only |}.

Definition all_may_write (v : data_vio) : bool := true.

(** Only even-numbered data_vios may still be written compressed. *)
Definition even_may_write (v : data_vio) : bool := Z.even (vio_id v).

Definition io_is_ready (v : data_vio) (block : list Z) : vdo_status :=
  VDO_SUCCESS.

End PackerSamples.

(** ** uds/volume.c: the pages of a chapter *)

Module VolumePages.
Import UInt Volume.

Definition DEFAULT_VOLUME_READ_THREADS : Z := 2.
Definition MAX_VOLUME_READ_THREADS : Z := 16.

(** [getReadThreads]: [None] is a NULL [userParams], [Some n] parameters
    whose [read_threads] is [n]. *)
Definition getReadThreads (userParams : option Z) : Z :=
  let readThreads :=
    match userParams with
    | None => DEFAULT_VOLUME_READ_THREADS
    | Some read_threads => read_threads
    end in
  let readThreads := if readThreads <? 1 then 1 else readThreads in
  if MAX_VOLUME_READ_THREADS <? readThreads then MAX_VOLUME_READ_THREADS
  else readThreads.

(** The fields of [struct geometry] that place a page in the volume, on
    top of those the chapter probe reads; all are [unsigned int]. *)
Record page_geometry := {
  base : geometry;
  pages_per_chapter : Z;
  record_pages_per_chapter : Z
}.

(** The conversion of an [unsigned int] to the [int] that
    [mapToPhysicalPage] returns. *)
Definition to_int (x : Z) : Z := if x <? 2 ^ 31 then x else x - 2 ^ 32.

Definition mapToPageNumber (g : page_geometry) (physicalPage : Z) : Z :=
  u32 (physicalPage - 1) mod pages_per_chapter g.

Definition mapToChapterNumber (g : page_geometry) (physicalPage : Z) : Z :=
  u32 (physicalPage - 1) / pages_per_chapter g.

Definition isRecordPage (g : page_geometry) (physicalPage : Z) : bool :=
  index_pages_per_chapter (base g)
  <=? u32 (physicalPage - 1) mod pages_per_chapter g.

(** [mapToPhysicalPage]: page zero of the volume is the header page. *)
Definition mapToPhysicalPage (g : page_geometry) (chapter page : Z) : Z :=
  to_int (u32 (1 + pages_per_chapter g * chapter + page)).

(** What [getPage] delivers for index page [k] of a chapter. *)
Definition index_page_status (vol : volume) (chapter k : Z) : uds_status :=
  fst (getPage vol chapter k).

Definition index_page (vol : volume) (chapter k : Z) : delta_index_page :=
  snd (getPage vol chapter k).

(** The delta list an index page has to start with: 0 on the first page,
    one past the last list of the page before on the others. *)
Definition expected_list_number (vol : volume) (chapter k : Z) : Z :=
  if k =? 0 then 0
  else u32 (highest_list_number (index_page vol chapter (k - 1)) + 1).

End VolumePages.

Module VolumePageSamples.
Import UInt Volume VolumePages.

(** 256 pages to the chapter, 26 of them index pages. *)
Definition geometry_256 : page_geometry :=
  {| base := {| chapters_per_volume := 1024; index_pages_per_chapter := 26 |};
     pages_per_chapter := 256; record_pages_per_chapter := 230 |}.

(** A volume of [chapters] chapters of which the first [length table] have
    been written; chapter [c] holds virtual chapter [nth c table] on its
    one index page. *)
Definition partial_volume (chapters : Z) (table : list Z) : volume :=
  {| vol_geometry := VolumeSamples.geometry_of chapters;
     getPage := getPage (VolumeSamples.volume_of table);
     validate_chapter_index_page := fun _ => UDS_SUCCESS |}.

(** A volume of four chapters with three index pages each; chapter [c]
    holds virtual chapter [4 + c], its pages cover the delta lists 0-9,
    10-19 and 20-29. *)
Definition three_page_volume : volume :=
  {| vol_geometry :=
       {| chapters_per_volume := 4; index_pages_per_chapter := 3 |};
     getPage := fun chapter k =>
       (UDS_SUCCESS,
        {| virtual_chapter_number := 4 + chapter;
           lowest_list_number := 10 * k;
           highest_list_number := 10 * k + 9 |});
     validate_chapter_index_page := fun _ => UDS_SUCCESS |}.

(** Two chapters: the index page of chapter 0 cannot be read (an I/O
    error, status 5), chapter 1 holds virtual chapter 1. *)
Definition unreadable_first_chapter : volume :=
  {| vol_geometry := VolumeSamples.geometry_of 2;
     getPage := fun chapter _ =>
       (if chapter =? 0 then UDS_OTHER_ERROR 5 else UDS_SUCCESS,
        {| virtual_chapter_number := chapter; lowest_list_number := 0;
           highest_list_number := 0 |});
     validate_chapter_index_page := fun _ => UDS_SUCCESS |}.

(** Six chapters, all written, after the sequence has wrapped: the
    lowest number, 8, sits in chapter 2. *)
Definition wrapped_table : list Z := [12; 13; 8; 9; 10; 11].

End VolumePageSamples.

(** ** vdo/packer.c: the bins of the packer *)

Module PackerBins.
Import UInt StatusCodes CompressedBlock Packer.

(** What [remove_from_bin] does to the [data_vio] it returns:
    [compression.bin] is cleared. *)
Definition leave_bin (v : data_vio) : data_vio :=
  set_slot v (compression_slot v) false.

(** The bytes taken by the first [k] fragments of a batch, and the place
    in the block where fragment [k] starts. *)
Fixpoint sizes_before (vs : list data_vio) (k : nat) : Z :=
  match k, vs with
  | S k', v :: rest => compression_size v + sizes_before rest k'
  | _, _ => 0
  end.

Definition fragment_start (vs : list data_vio) (k : nat) : Z :=
  COMPRESSED_BLOCK_1_0_SIZE + sizes_before vs k.

(** The packed version 1.0 at the head of a compressed block. *)
Definition version_bytes : list Z :=
  le32_bytes (major_version COMPRESSED_BLOCK_1_0)
  ++ le32_bytes (minor_version COMPRESSED_BLOCK_1_0).

(** A block of [block_size] bytes that holds the fragments of [vs] in
    their slots: the version, the size of each fragment in the header,
    and from the second fragment on the bytes of the fragment where the
    sizes before it end.  The first fragment is the one the agent's block
    came with. *)
Definition holds_fragments (block : list Z) (block_size : Z)
    (agent_block : list Z) (vs : list data_vio) : Prop :=
  Z.of_nat (length block) = block_size
  /\ (forall i, 0 <= i < 8 -> byte_at block i = byte_at version_bytes i)
  /\ (forall (k : nat) v, vs !! k = Some v ->
        get_compressed_fragment_size block (Z.of_nat k) = compression_size v)
  /\ (forall (k : nat) v j,
        vs !! k = Some v -> (1 <= k)%nat -> 0 <= j < compression_size v ->
        byte_at block (fragment_start vs k + j)
        = byte_at (compression_data v) j)
  /\ (forall j, COMPRESSED_BLOCK_1_0_SIZE <= j ->
        j < fragment_start vs 1 -> byte_at block j = byte_at agent_block j).

(** What [write_bin] has in hand when the agent has been taken from the
    bin: its block initialised, its fragment counted. *)
Definition agent_state (agent : data_vio) : batch_state :=
  {| block :=
       vdo_initialize_compressed_block (scratch_block agent)
                                       (compression_size agent);
     next_in_batch := [];
     offset := compression_size agent;
     slot := 1 |}.

(** The mapping state that [release_compressed_write_waiter] records for
    a [data_vio] of a batch that has been written. *)
Definition new_mapped_state (v : data_vio) : Z :=
  vdo_get_state_for_slot (compression_slot v).

(** The canceled bin after the data_vios [vs] have been moved to it. *)
Definition canceled_with (canceled : packer_bin) (vs : list data_vio)
    : packer_bin :=
  fold_left add_to_bin vs canceled.

(** The numbers of the bins of [packer->bins] in list order, the fullest
    bin first; the bins themselves are held by number. *)
Definition space_of (bins : list packer_bin) (bin : nat) : Z :=
  match bins !! bin with
  | Some b => free_space b
  | None => 0
  end.

(** [list_del] of the entry of a bin. *)
Definition unlink (bin : nat) (ring : list nat) : list nat :=
  List.filter (fun other => negb (Nat.eqb other bin)) ring.

(** [list_add_tail(&bin->list, &active->list)]: [bin] goes in front of
    [active]. *)
Fixpoint insert_before (bin active : nat) (ring : list nat) : list nat :=
  match ring with
  | [] => [bin]
  | other :: rest =>
      if Nat.eqb other active then bin :: other :: rest
      else other :: insert_before bin active rest
  end.

(** [list_move_tail]; [None] is the head of the list, in front of which
    is the end of the list. *)
Definition list_move_tail (bin : nat) (before : option nat)
    (ring : list nat) : list nat :=
  match before with
  | Some active => insert_before bin active (unlink bin ring)
  | None => unlink bin ring ++ [bin]
  end.

(** [insert_in_sorted_list]: the loop finds the first bin of the list with
    more free space than [bin]. *)
Definition insert_in_sorted_list (bins : list packer_bin) (ring : list nat)
    (bin : nat) : list nat :=
  list_move_tail bin
    (List.find (fun active => space_of bins bin <? space_of bins active) ring)
    ring.

Definition vdo_get_packer_fullest_bin (ring : list nat) : option nat :=
  head ring.

(** [select_bin]; [None] is NULL.  The source reads [fullest_bin] without
    a test, so a packer without bins is outside its use. *)
Definition select_bin (bins : list packer_bin) (ring : list nat)
    (bin_data_size size : Z) : option nat :=
  match List.find (fun bin => size <=? space_of bins bin) ring with
  | Some bin => Some bin
  | None =>
      match vdo_get_packer_fullest_bin ring with
      | None => None
      | Some fullest_bin =>
          if u64 (bin_data_size - space_of bins fullest_bin) <=? size
          then None
          else Some fullest_bin
      end
  end.

(** The list is in ascending order of free space. *)
Fixpoint sorted_by_space (bins : list packer_bin) (ring : list nat) : Prop :=
  match ring with
  | [] => True
  | bin :: rest =>
      Forall (fun other => space_of bins bin <= space_of bins other) rest
      /\ sorted_by_space bins rest
  end.



(** The bytes taken by the fragments of a bin. *)
Definition total_size (vs : list data_vio) : Z :=
  fold_right (fun v sum => compression_size v + sum) 0 vs.

(** A bin between two calls of the packer: its free space is what the
    fragments in it leave of [bin_data_size], some space is left, and a
    slot is left. *)
Definition bin_in_order (bin_data_size max_slots : Z) (bin : packer_bin)
    : Prop :=
  free_space bin = bin_data_size - total_size (incoming bin)
  /\ 0 < free_space bin <= bin_data_size
  /\ slots_used bin < max_slots.

Section AddToBin.

Variable may_write_compressed_data_vio : data_vio -> bool.
Variable prepare_data_vio_for_io : data_vio -> list Z -> vdo_status.

(** The packer with its bins; [calls] collects what [write_bin] asks of
    the rest of the driver. *)
Record packer_bins := {
  the_packer : packer;
  bins : list packer_bin;
  ring : list nat;
  max_slots : Z;
  calls : list packer_call
}.

(** [write_bin] on the bin numbered [bin]. *)
Definition write_bin_at (s : packer_bins) (bin : nat) : option packer_bins :=
  match bins s !! bin with
  | None => None
  | Some b =>
      match write_bin may_write_compressed_data_vio prepare_data_vio_for_io
              (the_packer s) b with
      | None => None
      | Some r =>
          Some {| the_packer := wb_packer r;
                  bins := <[bin := wb_bin r]> (bins s);
                  ring := ring s;
                  max_slots := max_slots s;
                  calls := calls s ++ wb_calls r |}
      end
  end.

Definition with_bin (s : packer_bins) (bin : nat) (b : packer_bin)
    : packer_bins :=
  {| the_packer := the_packer s; bins := <[bin := b]> (bins s);
     ring := ring s; max_slots := max_slots s; calls := calls s |}.

(** [add_data_vio_to_packer_bin]. *)
Definition add_data_vio_to_packer_bin (s : packer_bins) (bin : nat)
    (v : data_vio) : option packer_bins :=
  match bins s !! bin with
  | None => None
  | Some b =>
      match (if free_space b <? compression_size v
             then write_bin_at s bin else Some s) with
      | None => None
      | Some s1 =>
          match bins s1 !! bin with
          | None => None
          | Some b1 =>
              let b2 :=
                {| incoming := incoming (add_to_bin b1 v);
                   free_space := u64 (free_space b1 - compression_size v) |} in
              let s2 := with_bin s1 bin b2 in
              match (if (slots_used b2 =? max_slots s2)
                        || (free_space b2 =? 0)
                     then write_bin_at s2 bin else Some s2) with
              | None => None
              | Some s3 =>
                  Some {| the_packer := the_packer s3; bins := bins s3;
                          ring := insert_in_sorted_list (bins s3) (ring s3) bin;
                          max_slots := max_slots s3; calls := calls s3 |}
              end
          end
      end
  end.

End AddToBin.

End PackerBins.

Module PackerBinSamples.
Import Packer PackerBins.

(** A bin of three fragments of 100, 200 and 300 bytes, put in in that
    order. *)
Definition bin_of_three : packer_bin :=
  PackerSamples.bin_of
    [PackerSamples.fragment 2 100; PackerSamples.fragment 3 200;
     PackerSamples.fragment 4 300].

(** Four bins with 4060, 1000, 3000 and 1000 bytes free, chained in
    ascending order of free space: bins 1, 3, 2, 0. *)
Definition four_bins : list packer_bin :=
  [{| incoming := []; free_space := 4060 |};
   {| incoming := []; free_space := 1000 |};
   {| incoming := []; free_space := 3000 |};
   {| incoming := []; free_space := 1000 |}].

Definition four_bins_ring : list nat := [1%nat; 3%nat; 2%nat; 0%nat].

(** A bin of four data_vios in their slots, and the one in slot 1. *)
Definition in_slot (id size slot : Z) : data_vio :=
  set_slot (PackerSamples.fragment id size) slot true.


(** The packer with the bins [four_bins], bin 1 holding the two
    fragments that take 3060 of its 4060 bytes. *)
Definition packer_of_four : packer_bins :=
  {| the_packer := PackerSamples.packer_in_mode false;
     bins :=
       [{| incoming := []; free_space := 4060 |};
        {| incoming := [in_slot 20 3000 0; in_slot 21 60 1];
           free_space := 1000 |};
        {| incoming := []; free_space := 4060 |}];
     ring := [1%nat; 0%nat; 2%nat];
     max_slots := 14;
     calls := [] |}.

(** The same bins after bin 1 has taken in 200 bytes more than bin 2
    has free: it is out of place at the head of the list. *)
Definition four_bins_changed : list packer_bin :=
  [{| incoming := []; free_space := 4060 |};
   {| incoming := []; free_space := 3200 |};
   {| incoming := []; free_space := 3000 |};
   {| incoming := []; free_space := 1000 |}].

End PackerBinSamples.

(** ** Linked lists of the kernel's list.h

    A list is given by the positions of its entries in the array that
    holds them, from the head of the list to its tail.  An entry is on one
    list at a time. *)

Module ListHead.

(** [list_del_init] of the entry at position [i], seen from a list that
    may hold it. *)
Definition list_del_init (i : nat) (entries : list nat) : list nat :=
  List.filter (fun other => negb (Nat.eqb other i)) entries.

(** [list_move_tail] of the entry at position [i], seen from the list it
    goes to. *)
Definition list_move_tail (i : nat) (entries : list nat) : list nat :=
  list_del_init i entries ++ [i].

(** [list_empty]. *)
Definition list_empty (entries : list nat) : bool :=
  match entries with [] => true | _ => false end.

End ListHead.

(** ** vdo/vdo-page-cache.c: page states, their lists and their counters *)

Module PageStates.
Import UInt StatusCodes PageCache ListHead.

Definition with_lru_list (cache : vdo_page_cache) (lru : list nat)
    : vdo_page_cache :=
  {| infos := infos cache; lru_list := lru;
     free_waiters := free_waiters cache; page_count := page_count cache;
     waiter_count := waiter_count cache;
     discard_count := discard_count cache;
     pressure_report := pressure_report cache;
     cache_pressure := cache_pressure cache |}.

(** [update_lru]; [lru_list.prev] is the last entry of the ring. *)
Definition update_lru (cache : vdo_page_cache) (i : nat) : vdo_page_cache :=
  match last (lru_list cache) with
  | Some j =>
      if Nat.eqb j i then cache
      else with_lru_list cache (list_move_tail i (lru_list cache))
  | None => with_lru_list cache (list_move_tail i (lru_list cache))
  end.

(** The page counters of [struct block_map_statistics]. *)
Record block_map_statistics := {
  dirty_pages : Z;
  clean_pages : Z;
  free_pages : Z;
  failed_pages : Z;
  incoming_pages : Z;
  outgoing_pages : Z
}.

(** The cache as the state functions see it.  [free_list] and
    [outgoing_list] hold positions of [infos], from the head of the list to
    its tail.  The dirty lists of dirty-lists.h, which link the same
    [state_entry], are kept by the callers and are not part of this
    record. *)
Record page_states := {
  infos : list page_info;
  free_list : list nat;
  outgoing_list : list nat;
  stats : block_map_statistics
}.

Definition same_state (a b : vdo_page_buffer_state) : bool :=
  match a, b with
  | PS_FREE, PS_FREE | PS_INCOMING, PS_INCOMING | PS_FAILED, PS_FAILED
  | PS_RESIDENT, PS_RESIDENT | PS_DIRTY, PS_DIRTY
  | PS_OUTGOING, PS_OUTGOING => true
  | _, _ => false
  end.

Definition with_state (info : page_info) (st : vdo_page_buffer_state)
    : page_info :=
  {| state := st; busy := busy info; pbn := pbn info;
     write_status := write_status info |}.

(** The counter that [update_counter] picks for a state. *)
Definition counter_of (st : vdo_page_buffer_state)
    (s : block_map_statistics) : Z :=
  match st with
  | PS_FREE => free_pages s
  | PS_INCOMING => incoming_pages s
  | PS_OUTGOING => outgoing_pages s
  | PS_FAILED => failed_pages s
  | PS_RESIDENT => clean_pages s
  | PS_DIRTY => dirty_pages s
  end.

(** The number of pages of [pages] in state [st]. *)
Definition pages_in (st : vdo_page_buffer_state) (pages : list page_info)
    : nat :=
  length (List.filter (fun info => same_state (state info) st) pages).

(** Every counter holds the number of pages in its state. *)
Definition counted (c : page_states) : Prop :=
  forall st, counter_of st (stats c) = Z.of_nat (pages_in st (infos c)).

(** The state lists hold each page at most once, the free list only free
    and failed pages, the outgoing list only outgoing pages. *)
Definition lists_agree (c : page_states) : Prop :=
  NoDup (free_list c ++ outgoing_list c)
  /\ (forall i, i ∈ free_list c ->
        exists info, infos c !! i = Some info
                     /\ (state info = PS_FREE \/ state info = PS_FAILED))
  /\ (forall i, i ∈ outgoing_list c ->
        exists info, infos c !! i = Some info /\ state info = PS_OUTGOING).

Section Counters.

(** The width of the page counters; statistics.h is not among the
    sources. *)
Variable counter_bits : Z.

(** [ADD_ONCE(value, delta)] on a page counter. *)
Definition ADD_ONCE (value delta : Z) : Z := wrap counter_bits (value + delta).

(** [update_counter]. *)
Definition update_counter (info : page_info) (delta : Z)
    (s : block_map_statistics) : block_map_statistics :=
  match state info with
  | PS_FREE =>
      {| dirty_pages := dirty_pages s; clean_pages := clean_pages s;
         free_pages := ADD_ONCE (free_pages s) delta;
         failed_pages := failed_pages s; incoming_pages := incoming_pages s;
         outgoing_pages := outgoing_pages s |}
  | PS_INCOMING =>
      {| dirty_pages := dirty_pages s; clean_pages := clean_pages s;
         free_pages := free_pages s;
         failed_pages := failed_pages s;
         incoming_pages := ADD_ONCE (incoming_pages s) delta;
         outgoing_pages := outgoing_pages s |}
  | PS_OUTGOING =>
      {| dirty_pages := dirty_pages s; clean_pages := clean_pages s;
         free_pages := free_pages s;
         failed_pages := failed_pages s; incoming_pages := incoming_pages s;
         outgoing_pages := ADD_ONCE (outgoing_pages s) delta |}
  | PS_FAILED =>
      {| dirty_pages := dirty_pages s; clean_pages := clean_pages s;
         free_pages := free_pages s;
         failed_pages := ADD_ONCE (failed_pages s) delta;
         incoming_pages := incoming_pages s;
         outgoing_pages := outgoing_pages s |}
  | PS_RESIDENT =>
      {| dirty_pages := dirty_pages s;
         clean_pages := ADD_ONCE (clean_pages s) delta;
         free_pages := free_pages s;
         failed_pages := failed_pages s; incoming_pages := incoming_pages s;
         outgoing_pages := outgoing_pages s |}
  | PS_DIRTY =>
      {| dirty_pages := ADD_ONCE (dirty_pages s) delta;
         clean_pages := clean_pages s;
         free_pages := free_pages s;
         failed_pages := failed_pages s; incoming_pages := incoming_pages s;
         outgoing_pages := outgoing_pages s |}
  end.

(** [set_info_state] on the page at position [i]. *)
Definition set_info_state (c : page_states) (i : nat)
    (new_state : vdo_page_buffer_state) : page_states :=
  match infos c !! i with
  | None => c
  | Some info =>
      if same_state new_state (state info) then c else
      let stats1 := update_counter info (-1) (stats c) in
      let info' := with_state info new_state in
      let stats2 := update_counter info' 1 stats1 in
      let infos' := <[i := info']> (infos c) in
      match state info' with
      | PS_FREE | PS_FAILED =>
          {| infos := infos';
             free_list := list_move_tail i (free_list c);
             outgoing_list := list_del_init i (outgoing_list c);
             stats := stats2 |}
      | PS_OUTGOING =>
          {| infos := infos';
             free_list := list_del_init i (free_list c);
             outgoing_list := list_move_tail i (outgoing_list c);
             stats := stats2 |}
      | PS_DIRTY =>
          {| infos := infos'; free_list := free_list c;
             outgoing_list := outgoing_list c; stats := stats2 |}
      | _ =>
          {| infos := infos';
             free_list := list_del_init i (free_list c);
             outgoing_list := list_del_init i (outgoing_list c);
             stats := stats2 |}
      end
  end.

(** [find_free_page]: the page found, [None] for NULL, and the cache
    afterwards. *)
Definition find_free_page (c : page_states) : option nat * page_states :=
  match free_list c with
  | [] => (None, c)
  | i :: _ =>
      (Some i,
       {| infos := infos c; free_list := list_del_init i (free_list c);
          outgoing_list := outgoing_list c; stats := stats c |})
  end.

(** The value of [NO_PAGE], and [create_metadata_vio] for the page at a
    position: what it returns. *)
Variable NO_PAGE : Z.
Variable create_metadata_vio : nat -> vdo_status.

(** The [for] loop of [initialize_info], [count] pages from position [k]
    on. *)
Fixpoint initialize_infos (count : nat) (k : nat) (c : page_states)
    : vdo_status * page_states :=
  match count with
  | O => (VDO_SUCCESS, c)
  | S count' =>
      match infos c !! k with
      | None => (VDO_SUCCESS, c)
      | Some info =>
          let info' :=
            {| state := PS_FREE; busy := busy info; pbn := NO_PAGE;
               write_status := write_status info |} in
          let infos' := <[k := info']> (infos c) in
          let result := create_metadata_vio k in
          if negb (is_success result)
          then (result,
                {| infos := infos'; free_list := free_list c;
                   outgoing_list := outgoing_list c; stats := stats c |})
          else initialize_infos count' (S k)
                 {| infos := infos'; free_list := free_list c ++ [k];
                    outgoing_list := outgoing_list c; stats := stats c |}
      end
  end.

(** [initialize_info]. *)
Definition initialize_info (c : page_states) : vdo_status * page_states :=
  initialize_infos (length (infos c)) 0
    {| infos := infos c; free_list := []; outgoing_list := outgoing_list c;
       stats := stats c |}.

(** [make_vdo_page_cache] as far as the states go.  [asserted] is the
    status of the assertion on the context size, [cache_allocated],
    [components_allocated] and [dirty_lists_made] are the statuses of the
    allocation of the cache, of [allocate_cache_components] and of
    [make_vdo_dirty_lists], and [allocated] is the zeroed array of
    [page_count] infos.  When a step fails the cache is freed and the
    status returned. *)
Definition make_vdo_page_cache
    (asserted cache_allocated components_allocated dirty_lists_made
     : vdo_status)
    (allocated : list page_info) : vdo_status * option page_states :=
  if negb (is_success asserted) then (asserted, None) else
  if negb (is_success cache_allocated) then (cache_allocated, None) else
  let page_count := Z.of_nat (length allocated) in
  let cache :=
    {| infos := allocated; free_list := []; outgoing_list := [];
       stats := {| dirty_pages := 0; clean_pages := 0;
                   free_pages := wrap counter_bits page_count;
                   failed_pages := 0; incoming_pages := 0;
                   outgoing_pages := 0 |} |} in
  if negb (is_success components_allocated)
  then (components_allocated, None)
  else
    let '(result, cache') := initialize_info cache in
    if negb (is_success result) then (result, None)
    else if negb (is_success dirty_lists_made) then (dirty_lists_made, None)
    else (VDO_SUCCESS,
          Some {| infos := infos cache'; free_list := free_list cache';
                  outgoing_list := []; stats := stats cache' |}).

End Counters.

End PageStates.

Module PageStateSamples.
Import StatusCodes PageCache PageStates.

(** Three infos as the allocator hands them over. *)
Definition three_allocated : list page_info :=
  [CacheSamples.page PS_FREE 0 0; CacheSamples.page PS_FREE 0 0;
   CacheSamples.page PS_FREE 0 0].

Definition every_vio_created (k : nat) : vdo_status := VDO_SUCCESS.

Definition second_vio_fails (k : nat) : vdo_status :=
  if Nat.eqb k 1 then VDO_OTHER_ERROR 12 else VDO_SUCCESS.

(** Three pages: page 0 resident, page 1 outgoing and on the outgoing
    list, page 2 free and on the free list. *)
Definition three_states : page_states :=
  {| PageStates.infos :=
       [CacheSamples.page PS_RESIDENT 0 10; CacheSamples.page PS_OUTGOING 0 11;
        CacheSamples.page PS_FREE 0 12];
     free_list := [2%nat]; outgoing_list := [1%nat];
     stats := {| dirty_pages := 0; clean_pages := 1; free_pages := 1;
                 failed_pages := 0; incoming_pages := 0;
                 outgoing_pages := 1 |} |}.

End PageStateSamples.

(** ** vdo/slabScrubber.c: the queues of slabs to scrub *)

Module ScrubberQueue.
Import UInt StatusCodes ListHead.

(** [enum slab_rebuild_status] of slab.h. *)
Inductive slab_rebuild_status : Type :=
| VDO_SLAB_REBUILT
| VDO_SLAB_REPLAYING
| VDO_SLAB_REQUIRES_SCRUBBING
| VDO_SLAB_REQUIRES_HIGH_PRIORITY_SCRUBBING
| VDO_SLAB_REBUILDING.

(** The fields of [struct vdo_slab] that the queues use. *)
Record queued_slab := {
  status : slab_rebuild_status;
  was_queued_for_scrubbing : bool
}.

(** The fields of [struct slab_scrubber] that the queues use.  The two
    lists hold positions of [slab_table], from the head of the list to its
    tail; [slab] is the slab being scrubbed. *)
Record scrubber_queues := {
  slab_table : list queued_slab;
  high_priority_slabs : list nat;
  slabs : list nat;
  slab : option nat;
  slab_count : Z;
  high_priority_only : bool
}.

(** What the queue functions ask of the rest of the driver and of the
    scrubber itself. *)
Inductive queue_call : Type :=
| notify_all_waiters
| set_vdo_completion_result (result : vdo_status)
| finish_scrubbing
| start_vdo_slab_action_scrubbing (i : nat)
| finish_scrubbing_vdo_slab (i : option nat)
| resume_vdo_if_quiescent
| prepare_vdo_completion.

(** [get_next_slab]: [None] for NULL. *)
Definition get_next_slab (sc : scrubber_queues) : option nat :=
  match high_priority_slabs sc with
  | i :: _ => Some i
  | [] =>
      match slabs sc with
      | i :: _ => Some i
      | [] => None
      end
  end.

(** [vdo_has_slabs_to_scrub]. *)
Definition vdo_has_slabs_to_scrub (sc : scrubber_queues) : bool :=
  match get_next_slab sc with Some _ => true | None => false end.

Definition requires_scrubbing (st : slab_rebuild_status) : bool :=
  match st with VDO_SLAB_REQUIRES_SCRUBBING => true | _ => false end.

Definition with_high_priority_only (sc : scrubber_queues) (flag : bool)
    : scrubber_queues :=
  {| slab_table := slab_table sc;
     high_priority_slabs := high_priority_slabs sc; slabs := slabs sc;
     slab := slab sc; slab_count := slab_count sc;
     high_priority_only := flag |}.

Section Queue.

(** The width of [slab_count_t]; types.h is not among the sources. *)
Variable slab_count_bits : Z.

(** [get_scrubber_vdo_slab_count]. *)
Definition get_scrubber_vdo_slab_count (sc : scrubber_queues) : Z :=
  slab_count sc.

(** [vdo_register_slab_for_scrubbing] for the slab at position [i]; the
    assertion only logs. *)
Definition vdo_register_slab_for_scrubbing (sc : scrubber_queues) (i : nat)
    (high_priority : bool) : scrubber_queues :=
  match slab_table sc !! i with
  | None => sc
  | Some s =>
      if negb (requires_scrubbing (status s)) then sc else
      let high := list_del_init i (high_priority_slabs sc) in
      let low := list_del_init i (slabs sc) in
      let count :=
        if negb (was_queued_for_scrubbing s)
        then wrap slab_count_bits (slab_count sc + 1)
        else slab_count sc in
      if high_priority then
        {| slab_table :=
             <[i := {| status := VDO_SLAB_REQUIRES_HIGH_PRIORITY_SCRUBBING;
                       was_queued_for_scrubbing := true |}]> (slab_table sc);
           high_priority_slabs := high ++ [i]; slabs := low;
           slab := slab sc; slab_count := count;
           high_priority_only := high_priority_only sc |}
      else
        {| slab_table :=
             <[i := {| status := status s;
                       was_queued_for_scrubbing := true |}]> (slab_table sc);
           high_priority_slabs := high; slabs := low ++ [i];
           slab := slab sc; slab_count := count;
           high_priority_only := high_priority_only sc |}
  end.

(** [scrub_next_slab].  [read_only] is what [vdo_is_read_only] answers and
    [draining] what [finish_vdo_draining] answers; the result is the
    scrubber afterwards and the calls made, in order. *)
Definition scrub_next_slab (read_only draining : bool)
    (sc : scrubber_queues) : scrubber_queues * list queue_call :=
  if read_only
  then (sc, [notify_all_waiters; set_vdo_completion_result VDO_READ_ONLY;
             finish_scrubbing])
  else
    match get_next_slab sc with
    | None =>
        (with_high_priority_only sc false,
         [notify_all_waiters; finish_scrubbing])
    | Some i =>
        if high_priority_only sc && list_empty (high_priority_slabs sc)
        then (with_high_priority_only sc false,
              [notify_all_waiters; finish_scrubbing])
        else if draining then (sc, [notify_all_waiters])
        else
          ({| slab_table := slab_table sc;
              high_priority_slabs :=
                list_del_init i (high_priority_slabs sc);
              slabs := list_del_init i (slabs sc);
              slab := Some i; slab_count := slab_count sc;
              high_priority_only := high_priority_only sc |},
           [notify_all_waiters; start_vdo_slab_action_scrubbing i])
    end.

(** [slab_scrubbed]. *)
Definition slab_scrubbed (read_only draining : bool) (sc : scrubber_queues)
    : scrubber_queues * list queue_call :=
  let '(sc', calls) :=
    scrub_next_slab read_only draining
      {| slab_table := slab_table sc;
         high_priority_slabs := high_priority_slabs sc; slabs := slabs sc;
         slab := slab sc;
         slab_count := wrap slab_count_bits (slab_count sc - 1);
         high_priority_only := high_priority_only sc |} in
  (sc', finish_scrubbing_vdo_slab (slab sc) :: calls).

(** [scrub_vdo_slabs]. *)
Definition scrub_vdo_slabs (read_only draining : bool) (sc : scrubber_queues)
    : scrubber_queues * list queue_call :=
  if negb (vdo_has_slabs_to_scrub sc)
  then (sc, [resume_vdo_if_quiescent; prepare_vdo_completion;
             finish_scrubbing])
  else
    let '(sc', calls) := scrub_next_slab read_only draining sc in
    (sc', resume_vdo_if_quiescent :: prepare_vdo_completion :: calls).

(** [scrub_high_priority_vdo_slabs]. *)
Definition scrub_high_priority_vdo_slabs (read_only draining : bool)
    (sc : scrubber_queues) (scrub_at_least_one : bool)
    : scrubber_queues * list queue_call :=
  let sc1 :=
    if scrub_at_least_one && list_empty (high_priority_slabs sc) then
      match get_next_slab sc with
      | Some i => vdo_register_slab_for_scrubbing sc i true
      | None => sc
      end
    else sc in
  scrub_vdo_slabs read_only draining (with_high_priority_only sc1 true).

(** The scrubber after [completions] slabs have been scrubbed in a row:
    [scrub_vdo_slabs] starts the first, and each [slab_scrubbed] starts
    the next. *)
Fixpoint scrub_run (completions : nat) (sc : scrubber_queues)
    : scrubber_queues * list queue_call :=
  match completions with
  | O => scrub_vdo_slabs false false sc
  | S completions' =>
      let '(sc1, calls1) := scrub_run completions' sc in
      let '(sc2, calls2) := slab_scrubbed false false sc1 in
      (sc2, calls1 ++ calls2)
  end.

End Queue.

(** The slabs on either queue. *)
Definition queued (sc : scrubber_queues) : list nat :=
  high_priority_slabs sc ++ slabs sc.

(** No slab is queued twice, the slabs of each queue have the status of
    that queue, and every queued slab is marked as having been queued. *)
Definition queues_agree (sc : scrubber_queues) : Prop :=
  NoDup (queued sc)
  /\ (forall i, i ∈ high_priority_slabs sc ->
        exists s, slab_table sc !! i = Some s
                  /\ status s = VDO_SLAB_REQUIRES_HIGH_PRIORITY_SCRUBBING
                  /\ was_queued_for_scrubbing s = true)
  /\ (forall i, i ∈ slabs sc ->
        exists s, slab_table sc !! i = Some s
                  /\ status s = VDO_SLAB_REQUIRES_SCRUBBING
                  /\ was_queued_for_scrubbing s = true).

(** The slabs that a run of the scrubber is to scrub. *)
Definition to_scrub (sc : scrubber_queues) : list nat :=
  if high_priority_only sc then high_priority_slabs sc else queued sc.

(** A scrubber to which no slab has been registered yet. *)
Definition nothing_registered (sc : scrubber_queues) : Prop :=
  high_priority_slabs sc = [] /\ slabs sc = [] /\ slab_count sc = 0
  /\ forall i s, slab_table sc !! i = Some s ->
                 was_queued_for_scrubbing s = false.

(** The slabs started by a list of calls, in order. *)
Definition started (calls : list queue_call) : list nat :=
  omap (fun call => match call with
                    | start_vdo_slab_action_scrubbing i => Some i
                    | _ => None
                    end) calls.

End ScrubberQueue.

Module ScrubberQueueSamples.
Import ScrubberQueue.

Definition unrecovered : queued_slab :=
  {| status := VDO_SLAB_REQUIRES_SCRUBBING;
     was_queued_for_scrubbing := false |}.

(** Four slabs, the last one rebuilt, and nothing queued. *)
Definition empty_scrubber : scrubber_queues :=
  {| slab_table :=
       [unrecovered; unrecovered; unrecovered;
        {| status := VDO_SLAB_REBUILT; was_queued_for_scrubbing := false |}];
     high_priority_slabs := []; slabs := []; slab := None;
     slab_count := 0; high_priority_only := false |}.

(** Slabs 2, 0 and 1 registered in that order, slab 0 with high
    priority. *)
Definition registrations : list (nat * bool) :=
  [(2%nat, false); (0%nat, true); (1%nat, false)].

Definition three_queued : scrubber_queues :=
  fold_left (fun sc r => vdo_register_slab_for_scrubbing 16 sc (fst r) (snd r))
            registrations empty_scrubber.

End ScrubberQueueSamples.

(** ** vdo/blockMap.c and vdo/data-vio.c: reading and writing a mapping *)

Module MappedBlock.
Import UInt StatusCodes.

(** [enum block_mapping_state] of blockMappingState.h. *)
Definition VDO_MAPPING_STATE_UNMAPPED : Z := 0.

Record data_location := {
  pbn : Z;                          (* physical_block_number_t *)
  state : Z                         (* enum block_mapping_state *)
}.

(** [struct zoned_pbn]; [zone] is [None] for a NULL zone. *)
Record zoned_pbn := {
  zoned_pbn_pbn : Z;
  zoned_pbn_state : Z;
  zone : option Z
}.

(** The fields of [struct data_vio] used here.  [is_read] is what
    [is_read_data_vio] answers; [slot] is the slot of the tree lock at its
    height. *)
Record data_vio := {
  is_read : bool;
  mapped : zoned_pbn;
  slot : Z;                         (* slot_number_t *)
  recovery_sequence_number : Z;     (* sequence_number_t *)
  zone_number : Z                   (* of the logical zone *)
}.

Definition with_mapped (dv : data_vio) (m : zoned_pbn) : data_vio :=
  {| is_read := is_read dv; mapped := m; slot := slot dv;
     recovery_sequence_number := recovery_sequence_number dv;
     zone_number := zone_number dv |}.

(** [clear_data_vio_mapped_location]: the fields not named are zero. *)
Definition clear_data_vio_mapped_location (dv : data_vio) : data_vio :=
  with_mapped dv {| zoned_pbn_pbn := 0;
                    zoned_pbn_state := VDO_MAPPING_STATE_UNMAPPED;
                    zone := None |}.

Definition same_status (a b : vdo_status) : bool :=
  match a, b with
  | VDO_SUCCESS, VDO_SUCCESS | VDO_OUT_OF_RANGE, VDO_OUT_OF_RANGE
  | VDO_CORRUPT_JOURNAL, VDO_CORRUPT_JOURNAL | VDO_READ_ONLY, VDO_READ_ONLY
  | VDO_INVALID_FRAGMENT, VDO_INVALID_FRAGMENT
  | UDS_ASSERTION_FAILED, UDS_ASSERTION_FAILED => true
  | VDO_OTHER_ERROR x, VDO_OTHER_ERROR y => x =? y
  | _, _ => false
  end.

(** What the mapping functions ask of the log and of the recovery
    journal. *)
Inductive mapping_call : Type :=
| uds_log_error_strerror (result : vdo_status) (pbn : Z) (state : Z)
| acquire_vdo_recovery_journal_block_reference (sequence_number : Z)
    (zone_number : Z)
| release_vdo_recovery_journal_block_reference (sequence_number : Z)
    (zone_number : Z)
| vdo_release_journal_per_entry_lock_from_other_zone (sequence_number : Z).

Section Mapping.

(** The status [VDO_BAD_MAPPING], the packed entries of a block map page
    with [unpack_vdo_block_map_entry] and [pack_vdo_pbn], and the functions
    [vdo_is_valid_location] and [get_vdo_physical_zone] of headers that are
    not among the sources.  [get_vdo_physical_zone] gives its status and
    the zone it stores. *)
Variable VDO_BAD_MAPPING : vdo_status.
Variable block_map_entry : Type.
Variable unpack_vdo_block_map_entry : block_map_entry -> data_location.
Variable pack_vdo_pbn : Z -> Z -> block_map_entry.
Variable vdo_is_valid_location : data_location -> bool.
Variable get_vdo_physical_zone : Z -> vdo_status * option Z.

(** [set_data_vio_mapped_location]. *)
Definition set_data_vio_mapped_location (dv : data_vio) (p : Z) (st : Z)
    : vdo_status * data_vio :=
  let '(result, z) := get_vdo_physical_zone p in
  if negb (is_success result) then (result, dv)
  else (VDO_SUCCESS,
        with_mapped dv {| zoned_pbn_pbn := p; zoned_pbn_state := st;
                          zone := z |}).

(** The end of [set_mapped_entry], from the log line on. *)
Definition report_bad_mapping (dv : data_vio) (m : data_location)
    : vdo_status * data_vio * list mapping_call :=
  let calls := [uds_log_error_strerror VDO_BAD_MAPPING (pbn m) (state m)] in
  if is_read dv then (VDO_BAD_MAPPING, dv, calls)
  else (VDO_SUCCESS, clear_data_vio_mapped_location dv, calls).

(** [set_mapped_entry]: the status, the [data_vio] afterwards and the
    calls made. *)
Definition set_mapped_entry (dv : data_vio) (entry : block_map_entry)
    : vdo_status * data_vio * list mapping_call :=
  let m := unpack_vdo_block_map_entry entry in
  if vdo_is_valid_location m then
    let '(result, dv') := set_data_vio_mapped_location dv (pbn m) (state m) in
    if is_success result
       || (negb (same_status result VDO_OUT_OF_RANGE)
           && negb (same_status result VDO_BAD_MAPPING))
    then (result, dv', [])
    else report_bad_mapping dv' m
  else report_bad_mapping dv m.

(** [update_vdo_block_map_page]: the entries of the page, the [data_vio]
    and the recovery lock afterwards, and the calls made in order. *)
Definition update_vdo_block_map_page (entries : list block_map_entry)
    (dv : data_vio) (p : Z) (mapping_state : Z) (recovery_lock : Z)
    : list block_map_entry * data_vio * Z * list mapping_call :=
  let entries' :=
    <[Z.to_nat (slot dv) := pack_vdo_pbn p mapping_state]> entries in
  let old_locked := recovery_lock in
  let new_locked := recovery_sequence_number dv in
  let '(lock', calls) :=
    if (old_locked =? 0) || (new_locked <? old_locked) then
      (new_locked,
       acquire_vdo_recovery_journal_block_reference new_locked
         (zone_number dv)
       :: (if 0 <? old_locked
           then [release_vdo_recovery_journal_block_reference old_locked
                   (zone_number dv)]
           else []))
    else (old_locked, []) in
  (entries',
   {| is_read := is_read dv; mapped := mapped dv; slot := slot dv;
      recovery_sequence_number := 0; zone_number := zone_number dv |},
   lock',
   calls ++ [vdo_release_journal_per_entry_lock_from_other_zone new_locked]).

(** An update of a page: the [data_vio] with the new mapping. *)
Record page_update := {
  update_vio : data_vio;
  update_pbn : Z;
  update_state : Z
}.

(** Successive updates of one page: the entries and the recovery lock of
    the page afterwards and all the calls made. *)
Fixpoint update_page (updates : list page_update)
    (entries : list block_map_entry) (recovery_lock : Z)
    : list block_map_entry * Z * list mapping_call :=
  match updates with
  | [] => (entries, recovery_lock, [])
  | u :: rest =>
      let '(entries', _, lock', calls) :=
        update_vdo_block_map_page entries (update_vio u) (update_pbn u)
          (update_state u) recovery_lock in
      let '(entries'', lock'', calls') := update_page rest entries' lock' in
      (entries'', lock'', calls ++ calls')
  end.

End Mapping.

(** [handle_page_write]: whether the page is to be written again, the
    recovery lock afterwards and the calls made.  [initialized_now] is
    what [mark_vdo_block_map_page_initialized] answers. *)
Definition handle_page_write (initialized_now : bool) (zone_number : Z)
    (recovery_lock : Z) : bool * Z * list mapping_call :=
  if initialized_now then (true, recovery_lock, [])
  else (false, 0,
        [release_vdo_recovery_journal_block_reference recovery_lock
           zone_number]).

(** The references that a list of calls leaves on the journal block with
    sequence number [b]: those acquired less those released. *)
Fixpoint references (calls : list mapping_call) (b : Z) : Z :=
  match calls with
  | [] => 0
  | acquire_vdo_recovery_journal_block_reference s _ :: rest =>
      (if s =? b then 1 else 0) + references rest b
  | release_vdo_recovery_journal_block_reference s _ :: rest =>
      references rest b - (if s =? b then 1 else 0)
  | _ :: rest => references rest b
  end.

(** The smallest of a list of sequence numbers, [0] for none. *)
Fixpoint earliest (sequence_numbers : list Z) : Z :=
  match sequence_numbers with
  | [] => 0
  | s :: rest =>
      match rest with
      | [] => s
      | _ => Z.min s (earliest rest)
      end
  end.

(** The recovery lock of a page that held [recovery_lock] after updates
    with the given sequence numbers. *)
Fixpoint lock_after (sequence_numbers : list Z) (recovery_lock : Z) : Z :=
  match sequence_numbers with
  | [] => recovery_lock
  | s :: rest =>
      lock_after rest
        (if (recovery_lock =? 0) || (s <? recovery_lock) then s
         else recovery_lock)
  end.

(** One reference on block [b] when that is the block locked. *)
Definition held (recovery_lock b : Z) : Z :=
  if (0 <? recovery_lock) && (b =? recovery_lock) then 1 else 0.

End MappedBlock.

Module MappedBlockSamples.
Import StatusCodes MappedBlock.

Definition bad_mapping : vdo_status := VDO_OTHER_ERROR 1.

(** Entries kept unpacked. *)
Definition unpacked (e : data_location) : data_location := e.
Definition packed (p st : Z) : data_location := {| pbn := p; state := st |}.

(** Locations up to block 1000 are valid; blocks from 900 on have no
    physical zone. *)
Definition valid_below_1000 (m : data_location) : bool := pbn m <? 1000.
Definition zone_below_900 (p : Z) : vdo_status * option Z :=
  if p <? 900 then (VDO_SUCCESS, Some (p mod 3))
  else (VDO_OUT_OF_RANGE, None).

Definition writer (sequence : Z) : data_vio :=
  {| is_read := false;
     mapped := {| zoned_pbn_pbn := 5; zoned_pbn_state := 1;
                  zone := Some 2 |};
     slot := 1; recovery_sequence_number := sequence; zone_number := 0 |}.

Definition three_updates : list page_update :=
  [{| update_vio := writer 7; update_pbn := 100; update_state := 1 |};
   {| update_vio := writer 4; update_pbn := 101; update_state := 1 |};
   {| update_vio := writer 9; update_pbn := 102; update_state := 1 |}].

End MappedBlockSamples.

(** ** vdo/packer.c: flushing the packer *)

Module PackerFlush.
Import UInt StatusCodes CompressedBlock Packer PackerBins.

Section Flush.

Variable may_write_compressed_data_vio : data_vio -> bool.
Variable prepare_data_vio_for_io : data_vio -> list Z -> vdo_status.

(** The [for] loop of [write_all_non_empty_bins] over the bins from [bin]
    to the end of the list; [write_bin] does not move a bin. *)
Fixpoint write_bins (rest : list nat) (s : packer_bins)
    : option packer_bins :=
  match rest with
  | [] => Some s
  | bin :: rest' =>
      match write_bin_at may_write_compressed_data_vio
              prepare_data_vio_for_io s bin with
      | None => None
      | Some s' => write_bins rest' s'
      end
  end.

(** [check_for_drain_complete]: whether [vdo_finish_draining] is called;
    [draining] is what [vdo_is_state_draining] answers. *)
Definition check_for_drain_complete (draining : bool) (s : packer_bins)
    : bool :=
  draining && (slots_used (canceled_bin (the_packer s)) =? 0).

(** [write_all_non_empty_bins]: the packer afterwards and whether the
    drain has been finished. *)
Definition write_all_non_empty_bins (draining : bool) (s : packer_bins)
    : option (packer_bins * bool) :=
  match write_bins (ring s) s with
  | None => None
  | Some s' => Some (s', check_for_drain_complete draining s')
  end.

(** The data_vios of the bins [rest] that may no longer be written
    compressed, in the order in which the bins give them up. *)
Definition given_up (bins : list packer_bin) (rest : list nat)
    : list data_vio :=
  concat (map (fun bin =>
                 match bins !! bin with
                 | Some b =>
                     List.filter
                       (fun v => negb (may_write_compressed_data_vio v))
                       (rev (incoming b))
                 | None => []
                 end) rest).

End Flush.

End PackerFlush.

(** ** vdo/packer.c: offering a data_vio to the packer *)

Module PackerAttempt.
Import UInt StatusCodes CompressedBlock Packer PackerBins.

(** Every bin of the list is in order, no bin is on the list twice, and
    the list is in ascending order of free space. *)
Definition packer_in_order (s : packer_bins) : Prop :=
  NoDup (ring s)
  /\ (forall b, In b (ring s) ->
        exists bin,
          bins s !! b = Some bin
          /\ bin_in_order (bin_data_size (the_packer s)) (max_slots s) bin)
  /\ sorted_by_space (bins s) (ring s).

Section Attempt.

Variable may_write_compressed_data_vio : data_vio -> bool.
Variable prepare_data_vio_for_io : data_vio -> list Z -> vdo_status.

(** Whether the compression state of a [data_vio] is [VIO_COMPRESSING],
    [ASSERT], [may_vio_block_in_packer] and the flush generation of a
    [data_vio]: compressionState.c, permassert.h and data-vio.h are not
    among the sources. *)
Variable is_compressing : data_vio -> bool.
Variable ASSERT : bool -> vdo_status.
Variable may_vio_block_in_packer : data_vio -> bool.
Variable flush_generation : data_vio -> Z.

(** [abort_packing] on the packer with its bins. *)
Definition abort (s : packer_bins) (v : data_vio) : packer_bins :=
  let '(p, aborted) := abort_packing (the_packer s) v in
  {| the_packer := p; bins := bins s; ring := ring s;
     max_slots := max_slots s; calls := calls s ++ aborted |}.

(** [vdo_attempt_packing].  [normal] is what [vdo_is_state_normal] answers
    for the packer and [packer_flush_generation] is
    [packer->flush_generation]. *)
Definition vdo_attempt_packing (normal : bool) (packer_flush_generation : Z)
    (s : packer_bins) (v : data_vio) : option packer_bins :=
  if negb (is_success (ASSERT (is_compressing v))) then Some s else
  let stats := statistics (the_packer s) in
  let s1 :=
    {| the_packer :=
         with_statistics (the_packer s)
           {| compressed_fragments_written :=
                compressed_fragments_written stats;
              compressed_blocks_written := compressed_blocks_written stats;
              compressed_fragments_in_packer :=
                u64 (compressed_fragments_in_packer stats + 1) |};
       bins := bins s; ring := ring s; max_slots := max_slots s;
       calls := calls s |} in
  if negb normal || (flush_generation v <? packer_flush_generation)
  then Some (abort s1 v)
  else
    match select_bin (bins s1) (ring s1) (bin_data_size (the_packer s1))
            (compression_size v) with
    | None => Some (abort s1 v)
    | Some bin =>
        if negb (may_vio_block_in_packer v) then Some (abort s1 v)
        else add_data_vio_to_packer_bin may_write_compressed_data_vio
               prepare_data_vio_for_io s1 bin v
    end.

End Attempt.

End PackerAttempt.

Module PackerAttemptSamples.
Import StatusCodes Packer.

Definition always_compressing (v : data_vio) : bool := true.
Definition permassert (ok : bool) : vdo_status :=
  if ok then VDO_SUCCESS else UDS_ASSERTION_FAILED.
Definition may_block (v : data_vio) : bool := true.
Definition generation_of (v : data_vio) : Z := 3.

End PackerAttemptSamples.

Module ScrubRingSamples.
Import StatusCodes SlabScrubber.

(** A journal of 4 blocks whose live blocks 7, 8 and 9 sit at the block
    indexes 3, 0 and 1; each holds one entry. *)
Definition wrapped_journal : slab_scrubber ScrubSamples.replay_log :=
  {| slab := ScrubSamples.slab_of_8 10;
     journal_data := fun index =>
       if index =? 3 then ScrubSamples.block_with 7 7 42 1 0
       else if index =? 0 then ScrubSamples.block_with 7 8 42 1 1
       else if index =? 1 then ScrubSamples.block_with 7 9 42 1 2
       else ScrubSamples.block_with 0 0 0 0 0 |}.

(** What replaying the three blocks leaves. *)
Definition replayed_blocks_7_to_9 : ScrubSamples.replay_log :=
  [({| sequence_number := 7; entry_count := 0 |},
    {| sbn := 0; operation := 1 |});
   ({| sequence_number := 8; entry_count := 0 |},
    {| sbn := 1; operation := 1 |});
   ({| sequence_number := 9; entry_count := 0 |},
    {| sbn := 2; operation := 1 |})].

End ScrubRingSamples.

(** * Properties *)

(** ** Machine integers *)

Module UIntFacts.
Import UInt.

Lemma wrap_range bits x : 0 <= bits -> 0 <= wrap bits x < 2 ^ bits.
Proof.
  intros Hb. unfold wrap. apply Z.mod_pos_bound.
  apply Z.pow_pos_nonneg; lia.
Qed.

Lemma wrap_small bits x : 0 <= x < 2 ^ bits -> wrap bits x = x.
Proof. intros H. unfold wrap. apply Z.mod_small. exact H. Qed.

Lemma u32_small x : 0 <= x < 2 ^ 32 -> u32 x = x.
Proof. apply wrap_small. Qed.

Lemma u16_small x : 0 <= x < 2 ^ 16 -> u16 x = x.
Proof. apply wrap_small. Qed.

Lemma u8_small x : 0 <= x < 2 ^ 8 -> u8 x = x.
Proof. apply wrap_small. Qed.

Lemma u64_small x : 0 <= x < 2 ^ 64 -> u64 x = x.
Proof. apply wrap_small. Qed.

End UIntFacts.

(** ** The recovery journal check byte *)

Module RecoveryJournalFacts.
Import UInt UIntFacts RecoveryJournal.

Lemma land_127 q : Z.land q 127 = q mod 128.
Proof. change 127 with (Z.ones 7). rewrite Z.land_ones by lia. reflexivity. Qed.

Lemma lor_128 x : 0 <= x < 128 -> Z.lor x 128 = x + 128.
Proof.
  intros Hx.
  assert (Hland : Z.land x 128 = 0).
  { apply Z.bits_inj'. intros n Hn. rewrite Z.land_spec, Z.bits_0.
    destruct (Z.eq_dec n 7) as [->|Hne].
    - rewrite (Z.bits_above_log2 x 7); [reflexivity | lia |].
      destruct (Z.eq_dec x 0) as [->|Hx0]; [simpl; lia|].
      apply Z.log2_lt_pow2; lia.
    - change 128 with (2 ^ 7). rewrite Z.pow2_bits_false by lia.
      apply andb_false_r. }
  pose proof (Z.add_lor_land x 128) as H. lia.
Qed.

Lemma check_byte_value journal sequence :
  compute_vdo_recovery_journal_check_byte journal sequence
  = (sequence / size journal) mod 128 + 128.
Proof.
  unfold compute_vdo_recovery_journal_check_byte.
  rewrite land_127.
  pose proof (Z.mod_pos_bound (sequence / size journal) 128 ltac:(lia)) as Hb.
  rewrite lor_128 by lia. apply u8_small. lia.
Qed.

(** Stepping to the next sequence number moves to the next trip around the
    journal exactly when the new number is a multiple of the size. *)
Lemma next_trip n seq :
  0 < n -> 0 <= seq ->
  ((seq + 1) mod n = 0 /\ (seq + 1) / n = seq / n + 1)
  \/ ((seq + 1) mod n <> 0 /\ (seq + 1) / n = seq / n).
Proof.
  intros Hn Hseq.
  pose proof (Z.div_mod seq n ltac:(lia)) as Hdm.
  pose proof (Z.mod_pos_bound seq n Hn) as Hr.
  destruct (Z.eq_dec (seq mod n + 1) n) as [Hfull|Hpart].
  - left.
    assert (Heq : seq + 1 = n * (seq / n + 1) + 0) by lia.
    split.
    + symmetry. apply (Z.mod_unique_pos _ _ (seq / n + 1)); lia.
    + symmetry. apply (Z.div_unique_pos _ _ _ 0); lia.
  - right.
    assert (Heq : seq + 1 = n * (seq / n) + (seq mod n + 1)) by lia.
    split.
    + assert (Hm : (seq + 1) mod n = seq mod n + 1)
        by (symmetry; apply (Z.mod_unique_pos _ _ (seq / n)); lia).
      lia.
    + symmetry. apply (Z.div_unique_pos _ _ _ (seq mod n + 1)); lia.
Qed.

(** C5.  For a journal of positive size and a 64-bit sequence number, the
    check byte is [((seq / size) & 0x7F) | 0x80]; its high bit is set; two
    sequence numbers of the same trip around the journal have the same
    byte; and the byte of [seq + 1] differs from the byte of [seq] exactly
    when [seq + 1] is a multiple of the journal size. *)
Theorem check_byte_changes_each_trip (journal : recovery_journal) (seq : Z) :
  0 < size journal -> in_u64 seq ->
  let check := compute_vdo_recovery_journal_check_byte journal in
  check seq = Z.lor (Z.land (seq / size journal) 127) 128
  /\ Z.testbit (check seq) 7 = true
  /\ 128 <= check seq < 256
  /\ (forall seq', seq' / size journal = seq / size journal ->
        check seq' = check seq)
  /\ (in_u64 (seq + 1) ->
        (check (seq + 1) <> check seq <-> (seq + 1) mod size journal = 0)).
Proof.
  intros Hsize [Hlo Hhi] check. subst check.
  pose proof (Z.mod_pos_bound (seq / size journal) 128 ltac:(lia)) as Hb.
  repeat split.
  - rewrite check_byte_value, land_127, lor_128; lia.
  - rewrite check_byte_value.
    rewrite <- lor_128 by lia. rewrite Z.lor_spec.
    change 128 with (2 ^ 7). rewrite Z.pow2_bits_true by lia.
    apply orb_true_r.
  - rewrite check_byte_value. lia.
  - rewrite check_byte_value. lia.
  - intros seq' Hsame. rewrite !check_byte_value, Hsame. reflexivity.
  - intros Hdiff.
    destruct (next_trip (size journal) seq Hsize Hlo) as [[Hm _]|[_ Hq]];
      [exact Hm|].
    exfalso. apply Hdiff. rewrite !check_byte_value, Hq. reflexivity.
  - intros Hm.
    destruct (next_trip (size journal) seq Hsize Hlo) as [[_ Hq]|[Hm' _]];
      [|contradiction].
    rewrite !check_byte_value, Hq.
    pose proof (Z.mod_pos_bound (seq / size journal + 1) 128 ltac:(lia)).
    intros Heq.
    assert (Hmod : (seq / size journal + 1) mod 128
                   = (seq / size journal) mod 128) by lia.
    revert Hmod. generalize (seq / size journal). intros q Hmod.
    pose proof (Z.div_mod q 128 ltac:(lia)).
    pose proof (Z.div_mod (q + 1) 128 ltac:(lia)).
    lia.
Qed.

Lemma check_byte_changes_each_trip_witness :
  0 < size Samples.journal_of_8 /\ in_u64 15
  /\ compute_vdo_recovery_journal_check_byte Samples.journal_of_8 15 = 129
  /\ compute_vdo_recovery_journal_check_byte Samples.journal_of_8 16
     <> compute_vdo_recovery_journal_check_byte Samples.journal_of_8 15.
Proof.
  assert (H0 : 0 < size Samples.journal_of_8) by (simpl; lia).
  assert (H1 : in_u64 15) by (unfold in_u64; lia).
  pose proof (check_byte_changes_each_trip Samples.journal_of_8 15 H0 H1)
    as (Hval & _ & _ & _ & Hstep).
  repeat split; try assumption; try lia.
  - apply Hstep; [unfold in_u64; lia | reflexivity].
Defined.

End RecoveryJournalFacts.

(** ** The block map: zones and slots *)

Module BlockMapFacts.
Import UInt UIntFacts StatusCodes BlockMap.

Section Facts.

Variable entries_per_page : Z.

Lemma mod_fits_u8 a n : 0 <= a -> 0 < n < 2 ^ 8 -> u8 (a mod n) = a mod n.
Proof.
  intros Ha Hn. apply u8_small.
  pose proof (Z.mod_pos_bound a n ltac:(lia)). lia.
Qed.

Lemma page_number_fits lbn :
  0 < entries_per_page -> 0 <= lbn -> lbn / entries_per_page < 2 ^ 32 ->
  vdo_compute_page_number entries_per_page lbn = lbn / entries_per_page.
Proof.
  intros Hepp Hlbn Hfit. unfold vdo_compute_page_number.
  apply u32_small. split; [apply Z.div_pos; lia | exact Hfit].
Qed.

(** C8.  For a data_vio whose page index [lbn / entries_per_page] fits the
    32 bits of [page_number_t], and a map with root and zone counts in
    [1, 255], [vdo_compute_logical_zone] stores the page index in the first
    tree slot, sets [root_index] to [page_index % root_count] and returns
    [root_index % zone_count]. *)
Theorem compute_logical_zone_striping (map : block_map) (dv : data_vio) :
  0 < entries_per_page ->
  0 <= logical_lbn dv ->
  logical_lbn dv / entries_per_page < 2 ^ 32 ->
  0 < root_count map < 2 ^ 8 ->
  0 < zone_count map < 2 ^ 8 ->
  let page_number := logical_lbn dv / entries_per_page in
  let '(dv', zone) := vdo_compute_logical_zone entries_per_page map dv in
  page_index (tree_slots_0 (dv_tree_lock dv')) = page_number
  /\ root_index (dv_tree_lock dv') = page_number mod root_count map
  /\ zone = root_index (dv_tree_lock dv') mod zone_count map
  /\ zone = (page_number mod root_count map) mod zone_count map.
Proof.
  intros Hepp Hlbn Hfit Hroot Hzone. cbv zeta.
  unfold vdo_compute_logical_zone. cbn [root_index set_root_index
    set_page_index dv_tree_lock tree_slots_0 page_index].
  rewrite page_number_fits by assumption.
  assert (Hpage : 0 <= logical_lbn dv / entries_per_page)
    by (apply Z.div_pos; lia).
  rewrite (mod_fits_u8 _ (root_count map)) by assumption.
  pose proof (Z.mod_pos_bound (logical_lbn dv / entries_per_page)
                (root_count map) ltac:(lia)) as Hr.
  rewrite (mod_fits_u8 _ (zone_count map)) by lia.
  repeat split; reflexivity.
Qed.

(** C7.  A data_vio whose LBN is at or past the entry count of the map is
    finished with [VDO_OUT_OF_RANGE], unchanged and without a lookup; for
    an LBN below the entry count the slot is computed, the callback is
    recorded and the lookup is started. *)
Theorem find_block_map_slot_range (map : block_map) (dv : data_vio)
    (cb thread : Z) :
  (entry_count map <= logical_lbn dv ->
     vdo_find_block_map_slot entries_per_page map dv cb thread
     = (dv, [finish_data_vio VDO_OUT_OF_RANGE]))
  /\ (logical_lbn dv < entry_count map ->
        let '(dv', calls) :=
          vdo_find_block_map_slot entries_per_page map dv cb thread in
        calls = [vdo_lookup_block_map_pbn]
        /\ block_map_slot_slot (tree_slots_0 (dv_tree_lock dv'))
           = vdo_compute_slot entries_per_page (logical_lbn dv)
        /\ callback (dv_tree_lock dv') = cb
        /\ thread_id (dv_tree_lock dv') = thread
        /\ logical_lbn dv' = logical_lbn dv).
Proof.
  unfold vdo_find_block_map_slot. split; intros Hrange.
  - destruct (Z.leb_spec (entry_count map) (logical_lbn dv)); [reflexivity|lia].
  - destruct (Z.leb_spec (entry_count map) (logical_lbn dv)); [lia|].
    cbn. repeat split; reflexivity.
Qed.

End Facts.

Lemma compute_logical_zone_striping_witness :
  (0 < 812 /\ 0 <= logical_lbn (Samples.data_vio_at 100000)
   /\ logical_lbn (Samples.data_vio_at 100000) / 812 < 2 ^ 32
   /\ 0 < root_count Samples.map_60_3 < 2 ^ 8
   /\ 0 < zone_count Samples.map_60_3 < 2 ^ 8)
  /\ root_index (dv_tree_lock
       (fst (vdo_compute_logical_zone 812 Samples.map_60_3
               (Samples.data_vio_at 100000)))) = 3
  /\ snd (vdo_compute_logical_zone 812 Samples.map_60_3
            (Samples.data_vio_at 100000)) = 0.
Proof.
  assert (H1 : 0 < 812) by lia.
  assert (H2 : 0 <= logical_lbn (Samples.data_vio_at 100000)) by (simpl; lia).
  assert (H3 : logical_lbn (Samples.data_vio_at 100000) / 812 < 2 ^ 32)
    by (vm_compute; reflexivity).
  assert (H4 : 0 < root_count Samples.map_60_3 < 2 ^ 8) by (simpl; lia).
  assert (H5 : 0 < zone_count Samples.map_60_3 < 2 ^ 8) by (simpl; lia).
  split; [tauto|].
  pose proof (compute_logical_zone_striping 812 Samples.map_60_3
                (Samples.data_vio_at 100000) H1 H2 H3 H4 H5) as Hzone.
  cbv zeta in Hzone.
  destruct (vdo_compute_logical_zone 812 Samples.map_60_3
              (Samples.data_vio_at 100000)) as [dv' zone].
  destruct Hzone as (_ & Hroot & _ & Hz). cbn [fst snd]. split.
  - rewrite Hroot. vm_compute. reflexivity.
  - rewrite Hz. vm_compute. reflexivity.
Defined.

Lemma find_block_map_slot_range_witness :
  vdo_find_block_map_slot 812 Samples.map_60_3 (Samples.data_vio_at 5000) 7 2
  = (Samples.data_vio_at 5000, [finish_data_vio VDO_OUT_OF_RANGE])
  /\ snd (vdo_find_block_map_slot 812 Samples.map_60_3
            (Samples.data_vio_at 4999) 7 2) = [vdo_lookup_block_map_pbn].
Proof.
  split.
  - apply (find_block_map_slot_range 812 Samples.map_60_3
             (Samples.data_vio_at 5000) 7 2). simpl. lia.
  - pose proof (proj2 (find_block_map_slot_range 812 Samples.map_60_3
                         (Samples.data_vio_at 4999) 7 2)) as H.
    destruct (vdo_find_block_map_slot 812 Samples.map_60_3
                (Samples.data_vio_at 4999) 7 2) as [dv' calls].
    apply H. simpl. lia.
Defined.

End BlockMapFacts.

(** ** Compressed blocks *)

Module CompressedBlockFacts.
Import UInt UIntFacts StatusCodes CompressedBlock.

Section Bytes.

Variable buffer : list Z.
Hypothesis bytes : forall i, 0 <= byte_at buffer i < 2 ^ 8.

Lemma fragment_size_range slot :
  0 <= get_compressed_fragment_size buffer slot < 2 ^ 16.
Proof.
  unfold get_compressed_fragment_size, get_le16.
  pose proof (bytes (sizes_at slot)). pose proof (bytes (sizes_at slot + 1)).
  lia.
Qed.

Lemma sum_of_sizes_grows (k m : nat) :
  (k <= m)%nat -> 0 <= sum_of_sizes buffer k <= sum_of_sizes buffer m.
Proof.
  intros Hkm. induction Hkm as [|m Hkm IH].
  - split; [|lia]. induction k as [|k IHk]; simpl; [lia|].
    pose proof (fragment_size_range (Z.of_nat k)). lia.
  - simpl. pose proof (fragment_size_range (Z.of_nat m)). lia.
Qed.

(** As long as the running offset stays below 2^16, the loop computes it
    and stops where it first reaches the block size. *)
Lemma scan_offsets_without_wrap block_size (count : nat) :
  forall from : nat,
    spec_running_offset buffer (from + count) < 2 ^ 16 ->
    scan_offsets buffer block_size count (Z.of_nat from)
                 (spec_running_offset buffer from)
    = if spec_offset_overruns buffer block_size from count then None
      else Some (spec_running_offset buffer (from + count)).
Proof.
  unfold spec_offset_overruns.
  induction count as [|count IH]; intros from Hfits.
  - simpl. rewrite Nat.add_0_r. reflexivity.
  - cbn [scan_offsets seq existsb].
    assert (Hnext : spec_running_offset buffer from
                    + get_compressed_fragment_size buffer (Z.of_nat from)
                    = spec_running_offset buffer (S from))
      by (unfold spec_running_offset; simpl; lia).
    rewrite Hnext.
    assert (Hrange : 0 <= spec_running_offset buffer (S from) < 2 ^ 16).
    { unfold spec_running_offset in *.
      pose proof (sum_of_sizes_grows 0 (S from) ltac:(lia)).
      pose proof (sum_of_sizes_grows (S from) (from + S count) ltac:(lia)).
      unfold COMPRESSED_BLOCK_1_0_SIZE, VDO_MAX_COMPRESSION_SLOTS,
        VDO_MAPPING_STATE_COMPRESSED_MAX, VDO_MAPPING_STATE_COMPRESSED_BASE
        in *. lia. }
    rewrite u16_small by exact Hrange.
    destruct (block_size <=? spec_running_offset buffer (S from));
      [reflexivity|].
    cbn [orb]. replace (Z.of_nat from + 1) with (Z.of_nat (S from)) by lia.
    rewrite IH by (replace (S from + count)%nat with (from + S count)%nat
                     by lia; exact Hfits).
    replace (S from + count)%nat with (from + S count)%nat by lia.
    reflexivity.
Qed.

(** Without wrap-around the function does what the specification says. *)
Lemma fragment_lookup_without_wrap mapping_state block_size old_offset old_size :
  spec_running_offset buffer (Z.to_nat (vdo_get_slot_from_state mapping_state))
  < 2 ^ 16 ->
  vdo_get_compressed_block_fragment mapping_state buffer block_size
    old_offset old_size
  = spec_get_compressed_block_fragment mapping_state buffer block_size
      old_offset old_size.
Proof.
  intros Hfits.
  unfold vdo_get_compressed_block_fragment, spec_get_compressed_block_fragment.
  destruct (vdo_is_state_compressed mapping_state); [|reflexivity].
  destruct (vdo_are_same_version _ _); [|reflexivity].
  destruct (VDO_MAX_COMPRESSION_SLOTS <=? _); [reflexivity|].
  cbn [negb orb].
  change (u16 COMPRESSED_BLOCK_1_0_SIZE) with (spec_running_offset buffer 0).
  change 0 with (Z.of_nat 0) at 1.
  rewrite scan_offsets_without_wrap by exact Hfits.
  destruct (spec_offset_overruns buffer block_size 0 _); [reflexivity|].
  cbn [orb Nat.add].
  destruct (block_size <? _); reflexivity.
Qed.

End Bytes.

(** C9.  On a block of version 1.0 whose slot 0 records a size of 65535,
    looking up slot 1 in a 4096-byte block succeeds with offset 35: the
    16-bit running offset has wrapped.  The header size plus the size of
    slot 0 is 65571, beyond the block, so by the specification the lookup
    is invalid. *)
Theorem fragment_offset_wraps :
  vdo_is_state_compressed 3 = true
  /\ vdo_get_slot_from_state 3 = 1
  /\ get_compressed_fragment_size overflowing_block 0 = 65535
  /\ spec_running_offset overflowing_block 1 = 65571
  /\ vdo_get_compressed_block_fragment 3 overflowing_block 4096 0 0
     = (VDO_SUCCESS, 35, 1)
  /\ spec_get_compressed_block_fragment 3 overflowing_block 4096 0 0
     = (VDO_INVALID_FRAGMENT, 0, 0).
Proof. repeat split; vm_compute; reflexivity. Qed.

End CompressedBlockFacts.

(** ** The slab scrubber *)

Module SlabScrubberFacts.
Import UInt UIntFacts StatusCodes SlabScrubber.

Section Facts.

Variable ref_counts : Type.
Variable slab_journal_point : ref_counts -> journal_point.
Variable replay :
  ref_counts -> journal_point -> slab_journal_entry -> vdo_status * ref_counts.
Variable block_offset : slab_journal -> Z -> Z.
Variable before : journal_point -> journal_point -> bool.
Variable ASSERT : bool -> vdo_status.

Abbreviation apply_entries := (apply_entries ref_counts replay).
Abbreviation apply_block_entries := (apply_block_entries ref_counts replay).
Abbreviation apply_blocks := (apply_blocks ref_counts replay).
Abbreviation apply_journal_entries :=
  (apply_journal_entries ref_counts slab_journal_point replay block_offset
                         before ASSERT).

(** An entry past [max_sbn] stops the block: nothing of it or after it is
    replayed. *)
Lemma apply_entries_out_of_bounds block max_sbn seq count entry refs :
  max_sbn < sbn (decode_vdo_slab_journal_entry block entry) ->
  apply_entries block max_sbn seq (S count) entry refs
  = (VDO_CORRUPT_JOURNAL, refs).
Proof.
  intros Hout. simpl.
  destruct (Z.ltb_spec max_sbn (sbn (decode_vdo_slab_journal_entry block entry)));
    [reflexivity | lia].
Qed.

Lemma apply_entries_app block max_sbn seq (n m : nat) :
  forall entry refs,
    apply_entries block max_sbn seq (n + m) entry refs
    = (let '(result, refs') := apply_entries block max_sbn seq n entry refs in
       if is_success result
       then apply_entries block max_sbn seq m (entry + Z.of_nat n) refs'
       else (result, refs')).
Proof.
  induction n as [|n IH]; intros entry refs.
  - simpl. rewrite Z.add_0_r. reflexivity.
  - change (S n + m)%nat with (S (n + m)).
    cbn [SlabScrubber.apply_entries].
    destruct (max_sbn <? sbn _); [reflexivity|].
    destruct (replay _ _ _) as [result refs'].
    destruct (is_success result) eqn:Hok; cbn [negb].
    + rewrite IH.
      replace (entry + 1 + Z.of_nat n) with (entry + Z.of_nat (S n)) by lia.
      reflexivity.
    + rewrite Hok. reflexivity.
Qed.

(** The part of C2 the code does keep: an entry past the size of the slab
    ends the block with [VDO_CORRUPT_JOURNAL]; the entries before it have
    been replayed, the entry itself and those after it have not. *)
Lemma entry_past_slab_size_is_corrupt (block : packed_slab_journal_block)
    (count seq k : Z) (s : vdo_slab ref_counts) (refs : ref_counts) :
  0 <= k < count ->
  apply_entries block (u32 (slab_end s - slab_start s)) seq (Z.to_nat k) 0
                (reference_counts s) = (VDO_SUCCESS, refs) ->
  u32 (slab_end s - slab_start s) < sbn (decode_vdo_slab_journal_entry block k) ->
  apply_block_entries block count seq s = (VDO_CORRUPT_JOURNAL, refs).
Proof.
  intros Hk Hbefore Hpast. unfold SlabScrubber.apply_block_entries.
  replace (Z.to_nat count)
    with (Z.to_nat k + S (Z.to_nat (count - k - 1)))%nat by lia.
  rewrite apply_entries_app, Hbefore. cbn [is_success].
  replace (0 + Z.of_nat (Z.to_nat k)) with k by lia.
  apply apply_entries_out_of_bounds. exact Hpast.
Qed.

(** C2.  An entry whose slab block number equals the size of the slab is
    not rejected: a block holding just that entry is handed to
    [vdo_replay_reference_count_change], and [apply_block_entries] returns
    what the replay returns. *)
Theorem entry_at_slab_size_is_replayed (block : packed_slab_journal_block)
    (seq : Z) (s : vdo_slab ref_counts) :
  in_u32 (slab_end s - slab_start s) ->
  sbn (decode_vdo_slab_journal_entry block 0) = slab_end s - slab_start s ->
  apply_block_entries block 1 seq s
  = replay (reference_counts s)
           {| sequence_number := seq; entry_count := 0 |}
           (decode_vdo_slab_journal_entry block 0).
Proof.
  intros Hsize Hsbn. unfold apply_block_entries.
  rewrite u32_small by exact Hsize.
  change (Z.to_nat 1) with 1%nat. cbn [SlabScrubber.apply_entries].
  destruct (Z.ltb_spec (slab_end s - slab_start s)
              (sbn (decode_vdo_slab_journal_entry block 0))); [lia|].
  destruct (replay _ _ _) as [result refs'].
  destruct result; reflexivity.
Qed.

(** The loop over [n + m] blocks is the loop over [n] blocks followed, if
    that one runs to its end, by the loop over the next [m]. *)
Lemma apply_blocks_app sc (n m : nat) :
  forall seq index refs last,
    apply_blocks sc (n + m) seq index refs last
    = match apply_blocks sc n seq index refs last with
      | inl stop => inl stop
      | inr (index', refs', last') =>
          apply_blocks sc m (seq + Z.of_nat n) index' refs' last'
      end.
Proof.
  induction n as [|n IH]; intros seq index refs last.
  - simpl. rewrite Z.add_0_r. reflexivity.
  - change (S n + m)%nat with (S (n + m)).
    cbn [SlabScrubber.apply_blocks].
    destruct (block_is_invalid _ _ _); [reflexivity|].
    destruct (SlabScrubber.apply_block_entries _ _ _ _ _ _) as [result refs'].
    destruct (negb (is_success result)); [reflexivity|].
    rewrite IH. replace (seq + 1 + Z.of_nat n) with (seq + Z.of_nat (S n)) by lia.
    reflexivity.
Qed.

(** The header test, read off the five causes. *)
Lemma block_is_invalid_iff (s : vdo_slab ref_counts) seq h :
  block_is_invalid s seq h = true
  <-> (nonce h <> allocator_nonce s
       \/ metadata_type h <> VDO_METADATA_SLAB_JOURNAL
       \/ hdr_sequence_number h <> seq
       \/ entries_per_block (journal s) < hdr_entry_count h
       \/ (has_block_map_increments h = true
           /\ full_entries_per_block (journal s) < hdr_entry_count h)).
Proof.
  unfold block_is_invalid.
  rewrite !orb_true_iff, andb_true_iff, !negb_true_iff, !Z.eqb_neq,
    !Z.ltb_lt.
  assert (Htype : is_slab_journal_type (metadata_type h) = false
                  <-> metadata_type h <> VDO_METADATA_SLAB_JOURNAL)
    by (destruct (metadata_type h); simpl; split; congruence).
  rewrite Htype. tauto.
Qed.

(** Whatever happens before it, an invalid block in the range keeps the
    loop from running to its end: the loop stops at it or earlier, with a
    status that is not [VDO_SUCCESS]. *)
Lemma apply_blocks_stops sc (n : nat) :
  forall (k : nat) seq index refs last,
    (k < n)%nat ->
    block_is_invalid (slab sc) (seq + Z.of_nat k)
      (header (journal_data sc (index_after (journal (slab sc)) k index)))
    = true ->
    exists result refs',
      apply_blocks sc n seq index refs last = inl (result, refs')
      /\ is_success result = false.
Proof.
  induction n as [|n IH]; intros k seq index refs last Hk Hbad; [lia|].
  cbn [SlabScrubber.apply_blocks].
  destruct k as [|k].
  - cbn [index_after] in Hbad. rewrite Z.add_0_r in Hbad. rewrite Hbad.
    eexists _, _. split; reflexivity.
  - destruct (block_is_invalid (slab sc) seq (header (journal_data sc index)));
      [eexists _, _; split; reflexivity|].
    destruct (SlabScrubber.apply_block_entries _ _ _ _ _ _) as [result refs'].
    destruct (is_success result) eqn:Hok; cbn [negb];
      [|eexists _, _; split; [reflexivity | exact Hok]].
    apply (IH k); [lia|]. cbn [index_after] in Hbad.
    replace (seq + 1 + Z.of_nat k) with (seq + Z.of_nat (S k)) by lia.
    exact Hbad.
Qed.

(** So a journal with an invalid block anywhere in its live range is never
    saved: the scrubber aborts and enters read-only mode. *)
Lemma invalid_block_is_never_saved (sc : slab_scrubber ref_counts) (bad : Z) :
  let j := journal (slab sc) in
  let hd := journal_head ref_counts block_offset sc in
  hd <= bad < tail j ->
  block_is_invalid (slab sc) bad
    (header (journal_data sc
               (index_after j (Z.to_nat (bad - hd)) (block_offset j hd))))
  = true ->
  exists result refs,
    is_success result = false
    /\ apply_journal_entries sc
       = (refs, [vdo_enter_read_only_mode result;
                 set_vdo_completion_result result; scrub_next_slab]).
Proof.
  intros j hd Hrange Hbad.
  destruct (apply_blocks_stops sc (Z.to_nat (tail j - hd))
              (Z.to_nat (bad - hd)) hd (block_offset j hd)
              (reference_counts (slab sc))
              (slab_journal_point (reference_counts (slab sc))))
    as (result & refs & Hstop & Hfail); [lia | |].
  - replace (hd + Z.of_nat (Z.to_nat (bad - hd))) with bad by lia.
    exact Hbad.
  - exists result, refs. split; [exact Hfail|].
    unfold SlabScrubber.apply_journal_entries. fold j. fold hd.
    rewrite Hstop. reflexivity.
Qed.

(** C3.  Let the scrubber reach the block expected to carry sequence
    number [bad] of the live range [head, tail): the blocks before it were
    valid and their entries replayed, leaving the reference counts [refs].
    If that block has a foreign nonce, is not of slab-journal type, carries
    another sequence number, has more entries than fit a block, or has
    block map increments and more entries than fit a block of full
    entries, then scrubbing is aborted with [VDO_CORRUPT_JOURNAL], read-only
    mode is entered through the notifier with that status, and the
    reference counts stay [refs]: nothing of the block is replayed. *)
Theorem invalid_block_aborts_scrubbing (sc : slab_scrubber ref_counts)
    (bad index : Z) (refs : ref_counts) (last : journal_point) :
  let s := slab sc in
  let j := journal s in
  let hd := journal_head ref_counts block_offset sc in
  hd <= bad < tail j ->
  apply_blocks sc (Z.to_nat (bad - hd)) hd (block_offset j hd)
               (reference_counts s) (slab_journal_point (reference_counts s))
  = inr (index, refs, last) ->
  let h := header (journal_data sc index) in
  (nonce h <> allocator_nonce s
   \/ metadata_type h <> VDO_METADATA_SLAB_JOURNAL
   \/ hdr_sequence_number h <> bad
   \/ entries_per_block j < hdr_entry_count h
   \/ (has_block_map_increments h = true
       /\ full_entries_per_block j < hdr_entry_count h)) ->
  apply_journal_entries sc
  = (refs, [vdo_enter_read_only_mode VDO_CORRUPT_JOURNAL;
            set_vdo_completion_result VDO_CORRUPT_JOURNAL;
            scrub_next_slab]).
Proof.
  intros s j hd Hrange Hprefix h Hbad.
  apply block_is_invalid_iff in Hbad.
  unfold SlabScrubber.apply_journal_entries.
  fold s. fold j. fold hd.
  replace (Z.to_nat (tail j - hd))
    with (Z.to_nat (bad - hd) + S (Z.to_nat (tail j - bad - 1)))%nat by lia.
  rewrite apply_blocks_app, Hprefix.
  cbn [SlabScrubber.apply_blocks].
  replace (hd + Z.of_nat (Z.to_nat (bad - hd))) with bad by lia.
  fold s. fold h. rewrite Hbad. reflexivity.
Qed.

End Facts.

Lemma entry_at_slab_size_is_replayed_witness :
  (in_u32 (slab_end (ScrubSamples.slab_of_8 1)
           - slab_start (ScrubSamples.slab_of_8 1))
   /\ sbn (decode_vdo_slab_journal_entry (ScrubSamples.block_with 0 0 42 1 8) 0)
      = slab_end (ScrubSamples.slab_of_8 1)
        - slab_start (ScrubSamples.slab_of_8 1))
  /\ apply_block_entries _ ScrubSamples.log_replay
       (ScrubSamples.block_with 0 0 42 1 8) 1 0 (ScrubSamples.slab_of_8 1)
     = (VDO_SUCCESS,
        [({| sequence_number := 0; entry_count := 0 |},
          {| sbn := 8; operation := 1 |})]).
Proof.
  assert (H1 : in_u32 (slab_end (ScrubSamples.slab_of_8 1)
                       - slab_start (ScrubSamples.slab_of_8 1)))
    by (unfold in_u32; simpl; lia).
  assert (H2 : sbn (decode_vdo_slab_journal_entry
                      (ScrubSamples.block_with 0 0 42 1 8) 0)
               = slab_end (ScrubSamples.slab_of_8 1)
                 - slab_start (ScrubSamples.slab_of_8 1)) by reflexivity.
  split; [tauto|].
  rewrite (entry_at_slab_size_is_replayed _ ScrubSamples.log_replay
             (ScrubSamples.block_with 0 0 42 1 8) 0
             (ScrubSamples.slab_of_8 1) H1 H2).
  reflexivity.
Defined.

Lemma invalid_block_aborts_scrubbing_witness :
  nonce (header (journal_data ScrubSamples.scrubber_bad_nonce 1))
  <> allocator_nonce (slab ScrubSamples.scrubber_bad_nonce)
  /\ apply_journal_entries _ ScrubSamples.log_point ScrubSamples.log_replay
       ScrubSamples.offset_mod ScrubSamples.point_before
       ScrubSamples.permassert ScrubSamples.scrubber_bad_nonce
     = (ScrubSamples.replayed_block_4,
        [vdo_enter_read_only_mode VDO_CORRUPT_JOURNAL;
         set_vdo_completion_result VDO_CORRUPT_JOURNAL;
         scrub_next_slab]).
Proof.
  assert (Hnonce : nonce (header (journal_data ScrubSamples.scrubber_bad_nonce 1))
                   <> allocator_nonce (slab ScrubSamples.scrubber_bad_nonce))
    by (simpl; lia).
  split; [exact Hnonce|].
  apply (invalid_block_aborts_scrubbing _ ScrubSamples.log_point
           ScrubSamples.log_replay ScrubSamples.offset_mod
           ScrubSamples.point_before ScrubSamples.permassert
           ScrubSamples.scrubber_bad_nonce 5 1
           ScrubSamples.replayed_block_4
           {| sequence_number := 4; entry_count := 1 |}).
  - vm_compute. split; [discriminate | reflexivity].
  - vm_compute. reflexivity.
  - left. exact Hnonce.
Defined.

End SlabScrubberFacts.

(** ** The page cache: the victim of a discard *)

Module PageCacheFacts.
Import UInt UIntFacts PageCache.

Lemma discardable_iff info :
  discardable info = true <-> busy info = 0 /\ is_in_flight info = false.
Proof.
  unfold discardable. rewrite andb_true_iff, negb_true_iff, Z.eqb_eq. tauto.
Qed.

Lemma not_discardable_iff info :
  discardable info = false <-> busy info <> 0 \/ is_in_flight info = true.
Proof.
  unfold discardable. rewrite andb_false_iff, negb_false_iff, Z.eqb_neq. tauto.
Qed.

(** The page found is the first one of the ring that can be discarded. *)
Lemma select_lru_from_some pages lru i :
  select_lru_from pages lru = Some i ->
  exists before after info,
    lru = before ++ i :: after
    /\ pages !! i = Some info
    /\ discardable info = true
    /\ Forall (pinned pages) before.
Proof.
  induction lru as [|j rest IH]; intros Hsel; [discriminate|].
  simpl in Hsel. destruct (pages !! j) as [info|] eqn:Hj.
  - destruct (discardable info) eqn:Hd.
    + injection Hsel as <-. exists [], rest, info. repeat split; auto.
    + destruct (IH Hsel) as (before & after & info' & -> & Hi & Hd' & Hall).
      exists (j :: before), after, info'. repeat split; auto.
      constructor; [|exact Hall].
      intros info0 Hinfo0. rewrite Hj in Hinfo0. injection Hinfo0 as <-.
      apply not_discardable_iff. exact Hd.
  - destruct (IH Hsel) as (before & after & info' & -> & Hi & Hd' & Hall).
    exists (j :: before), after, info'. repeat split; auto.
    constructor; [|exact Hall].
    intros info0 Hinfo0. rewrite Hj in Hinfo0. discriminate.
Qed.

Lemma select_lru_from_none pages lru :
  select_lru_from pages lru = None <-> Forall (pinned pages) lru.
Proof.
  induction lru as [|j rest IH]; simpl.
  - split; [constructor | reflexivity].
  - destruct (pages !! j) as [info|] eqn:Hj.
    + destruct (discardable info) eqn:Hd.
      * split; [discriminate|]. intros Hall.
        apply Forall_cons in Hall as [Hpin _].
        specialize (Hpin info Hj). apply not_discardable_iff in Hpin.
        congruence.
      * rewrite IH. split.
        -- intros Hall. constructor; [|exact Hall].
           intros info0 Hinfo0. rewrite Hj in Hinfo0. injection Hinfo0 as <-.
           apply not_discardable_iff. exact Hd.
        -- intros Hall. apply Forall_cons in Hall. tauto.
    + rewrite IH. split.
      * intros Hall. constructor; [|exact Hall].
        intros info0 Hinfo0. rewrite Hj in Hinfo0. discriminate.
      * intros Hall. apply Forall_cons in Hall. tauto.
Qed.

Section Facts.

Variable allocate_free_page : nat -> vdo_page_cache -> vdo_page_cache.
Variable launch_page_save : nat -> vdo_page_cache -> vdo_page_cache.

Abbreviation discard_a_page :=
  (discard_a_page allocate_free_page launch_page_save).

(** C4.  (1) When [discard_a_page] picks a victim, the victim is on the
    LRU ring, is neither busy nor in flight, and every page before it on
    the ring (every page used less recently) is busy or in flight; the
    victim is the page handed to [allocate_free_page] or, when dirty, to
    [launch_page_save].  (2) When every page of the ring is busy or in
    flight, no victim is picked: the cache pressure counter is bumped and
    the pages, the ring, the discard count and the queue of completions
    waiting for a free page are left as they were.  (3) A victim is picked
    whenever the ring holds a page that is neither busy nor in flight. *)
Theorem lru_victim_selection (cache : vdo_page_cache) :
  (forall i, select_lru_page cache = Some i ->
     exists before after info,
       lru_list cache = before ++ i :: after
       /\ infos cache !! i = Some info
       /\ busy info = 0 /\ is_in_flight info = false
       /\ Forall (pinned (infos cache)) before
       /\ discard_a_page cache
          = (if is_dirty info
             then launch_page_save i (mark_for_discard cache i info)
             else allocate_free_page i cache))
  /\ (Forall (pinned (infos cache)) (lru_list cache) ->
        select_lru_page cache = None
        /\ discard_a_page cache = report_cache_pressure cache
        /\ cache_pressure (discard_a_page cache)
           = u32 (cache_pressure cache + 1)
        /\ free_waiters (discard_a_page cache) = free_waiters cache
        /\ infos (discard_a_page cache) = infos cache
        /\ lru_list (discard_a_page cache) = lru_list cache
        /\ discard_count (discard_a_page cache) = discard_count cache)
  /\ (forall i info,
        In i (lru_list cache) -> infos cache !! i = Some info ->
        busy info = 0 -> is_in_flight info = false ->
        exists victim, select_lru_page cache = Some victim).
Proof.
  split; [|split].
  - intros i Hsel. unfold select_lru_page in Hsel.
    destruct (select_lru_from_some _ _ _ Hsel)
      as (before & after & info & Hring & Hi & Hd & Hall).
    apply discardable_iff in Hd as [Hbusy Hflight].
    exists before, after, info. repeat split; auto.
    unfold PageCache.discard_a_page, select_lru_page.
    rewrite Hsel, Hi. destruct (is_dirty info); reflexivity.
  - intros Hall.
    assert (Hnone : select_lru_page cache = None)
      by (apply select_lru_from_none; exact Hall).
    assert (Hdiscard : discard_a_page cache = report_cache_pressure cache)
      by (unfold PageCache.discard_a_page; rewrite Hnone; reflexivity).
    rewrite Hdiscard. repeat split; auto.
  - intros i info Hin Hi Hbusy Hflight.
    destruct (select_lru_page cache) as [victim|] eqn:Hsel;
      [exists victim; reflexivity|].
    exfalso. apply select_lru_from_none in Hsel.
    rewrite List.Forall_forall in Hsel. specialize (Hsel i Hin info Hi).
    destruct Hsel as [Hb|Hf]; congruence.
Qed.

End Facts.

Lemma lru_victim_selection_witness :
  (select_lru_page CacheSamples.cache_with_victim = Some 3%nat
   /\ discard_a_page CacheSamples.note_allocate CacheSamples.note_save
        CacheSamples.cache_with_victim
      = CacheSamples.note_save 3
          (mark_for_discard CacheSamples.cache_with_victim 3
             (CacheSamples.page PS_DIRTY 0 13)))
  /\ (free_waiters (discard_a_page CacheSamples.note_allocate
                      CacheSamples.note_save CacheSamples.cache_under_pressure)
      = free_waiters CacheSamples.cache_under_pressure
      /\ cache_pressure (discard_a_page CacheSamples.note_allocate
                           CacheSamples.note_save
                           CacheSamples.cache_under_pressure) = 6).
Proof.
  split.
  - assert (Hsel : select_lru_page CacheSamples.cache_with_victim = Some 3%nat)
      by reflexivity.
    split; [exact Hsel|].
    destruct (proj1 (lru_victim_selection CacheSamples.note_allocate
                       CacheSamples.note_save CacheSamples.cache_with_victim)
                3%nat Hsel)
      as (before & after & info & _ & Hi & _ & _ & _ & Hdiscard).
    rewrite Hdiscard. injection Hi as <-. reflexivity.
  - assert (Hall : Forall (pinned (infos CacheSamples.cache_under_pressure))
                          (lru_list CacheSamples.cache_under_pressure)).
    { apply select_lru_from_none. reflexivity. }
    destruct (proj1 (proj2 (lru_victim_selection CacheSamples.note_allocate
                              CacheSamples.note_save
                              CacheSamples.cache_under_pressure)) Hall)
      as (_ & _ & Hpressure & Hwait & _).
    split; [exact Hwait | rewrite Hpressure; reflexivity].
Defined.

End PageCacheFacts.

(** ** The chapter boundaries of a volume *)

Module VolumeFacts.
Import UInt UIntFacts Volume.

Lemma is_success_iff r : is_success r = true <-> r = UDS_SUCCESS.
Proof. destruct r; simpl; split; congruence. Qed.

(** *** The end of the volume *)

Lemma find_end_loop_at_zero fuel vol span tries :
  find_end_loop (S fuel) vol 0 span tries = Some (inr 0).
Proof. reflexivity. Qed.

(** When every probe finds a corrupt chapter the scan walks down to 0.
    The span doubles, but it never exceeds what has been skipped so far, so
    it does not wrap before the limit reaches 0. *)
Lemma find_end_loop_all_corrupt vol :
  (forall chapter old,
     fst (probeChapter vol chapter old) = UDS_CORRUPT_COMPONENT) ->
  forall fuel limit span tries,
    0 <= limit -> 1 <= span -> span + limit <= 2 ^ 32 ->
    (Z.to_nat limit < fuel)%nat ->
    find_end_loop fuel vol limit span tries = Some (inr 0).
Proof.
  intros Hcorrupt. induction fuel as [|fuel IH];
    intros limit span tries Hlimit Hspan Hsum Hfuel; [lia|].
  cbn [find_end_loop].
  destruct (Z.ltb_spec 0 limit) as [Hpos|Hzero];
    [|replace limit with 0 by lia; reflexivity].
  set (chapter := if limit <? span then 0 else limit - span).
  specialize (Hcorrupt chapter 0).
  destruct (probeChapter vol chapter 0) as [result vcn].
  simpl in Hcorrupt. subst result. cbn [is_success is_corrupt_component].
  destruct (Z.eq_dec chapter 0) as [Hc0|Hc0].
  - rewrite Hc0. destruct fuel as [|fuel]; [lia|]. reflexivity.
  - assert (Hchapter : chapter = limit - span /\ span < limit).
    { subst chapter. destruct (Z.ltb_spec limit span); lia. }
    destruct Hchapter as [Hchapter Hlt].
    apply IH; try lia.
    + destruct (1 <? u32 (tries + 1)); [|lia].
      rewrite u32_small; lia.
    + destruct (1 <? u32 (tries + 1)); [|lia].
      rewrite u32_small; lia.
Qed.

(** The scan for the end always ends.  Every step either halves the span
    or lowers the limit by the span, and the span never exceeds what has
    been cut off the volume so far, so [3 * limit + span] goes down. *)
Lemma find_end_loop_returns vol total :
  0 <= total < 2 ^ 32 ->
  forall fuel limit span tries,
    0 <= limit <= total -> 1 <= span ->
    0 <= tries <= total - limit ->
    (tries = 0 -> span = 1 \/ span + limit <= total) ->
    (1 <= tries -> span + limit <= total) ->
    (Z.to_nat (3 * limit + span) < fuel)%nat ->
    exists r,
      find_end_loop fuel vol limit span tries = Some r
      /\ match r with inr limit' => 0 <= limit' <= total | inl _ => True end.
Proof.
  intros Htotal. induction fuel as [|fuel IH];
    intros limit span tries Hlimit Hspan Htries Hfresh Hcut Hfuel; [lia|].
  cbn [find_end_loop].
  destruct (Z.ltb_spec 0 limit) as [Hpos|Hzero];
    [|exists (inr limit); split; [reflexivity | lia]].
  set (chapter := if limit <? span then 0 else limit - span).
  destruct (probeChapter vol chapter 0) as [result vcn].
  destruct result; cbn [is_success is_corrupt_component];
    try (eexists; split; [reflexivity | exact I]).
  - destruct (Z.eqb_spec span 1) as [Hone|Hmore];
      [exists (inr limit); split; [reflexivity | lia]|].
    pose proof (Z.div_mod span 2 ltac:(lia)).
    pose proof (Z.mod_pos_bound span 2 ltac:(lia)).
    apply IH; lia.
  - destruct (Z.eq_dec chapter 0) as [Hc0|Hc0].
    + rewrite Hc0. destruct fuel as [|fuel]; [lia|].
      exists (inr 0). split; [reflexivity | lia].
    + assert (Hchapter : chapter = limit - span /\ span < limit).
      { subst chapter. destruct (Z.ltb_spec limit span); lia. }
      destruct Hchapter as [Hchapter Hlt].
      rewrite (u32_small (tries + 1)) by lia.
      destruct (Z.ltb_spec 1 (tries + 1)) as [Hagain|Hfirst].
      * rewrite u32_small by lia. apply IH; lia.
      * apply IH; lia.
Qed.

(** The binary search ends on any volume of at most 2^31 chapters,
    whatever the probes report. *)
Lemma search_loop_returns probe chapterLimit first :
  chapterLimit <= 2 ^ 31 ->
  forall fuel l r,
    0 <= l -> l <= r <= chapterLimit ->
    (Z.to_nat (r - l) < fuel)%nat ->
    exists result, search_loop probe fuel first l r = Some result.
Proof.
  intros Hlimit. induction fuel as [|fuel IH]; intros l r Hl Hr Hfuel; [lia|].
  cbn [search_loop].
  destruct (Z.ltb_spec l r) as [Hlt|Hge]; [|eexists; reflexivity].
  rewrite u32_small by lia.
  pose proof (Z.div_mod (l + r) 2 ltac:(lia)).
  pose proof (Z.mod_pos_bound (l + r) 2 ltac:(lia)).
  destruct (probe _ _) as [status value].
  destruct (negb (is_success status)); [eexists; reflexivity|].
  destruct (first <=? value).
  - rewrite u32_small by lia. apply IH; lia.
  - apply IH; lia.
Qed.

(** The backward scan ends after at most [maxBadChapters] bad chapters. *)
Lemma scan_loop_returns probe chapterLimit maxBadChapters :
  in_u32 maxBadChapters ->
  forall fuel r highest bad,
    0 <= bad -> bad < maxBadChapters \/ bad = 0 ->
    (Z.to_nat (maxBadChapters - bad) < fuel)%nat ->
    exists result,
      scan_loop probe fuel chapterLimit maxBadChapters r highest bad
      = Some result.
Proof.
  intros [Hmax0 Hmax]. induction fuel as [|fuel IH];
    intros r highest bad Hbad Hroom Hfuel; [lia|].
  cbn [scan_loop].
  destruct (probe _ _) as [status value].
  destruct (negb (is_success status)); [eexists; reflexivity|].
  destruct (negb (value =? UINT64_MAX)); [eexists; reflexivity|].
  rewrite u32_small by lia.
  destruct (Z.leb_spec maxBadChapters (bad + 1)); [eexists; reflexivity|].
  apply IH; lia.
Qed.

Lemma impl_returns ASSERT probe fuel chapterLimit maxBadChapters low high :
  0 <= chapterLimit <= 2 ^ 31 -> in_u32 maxBadChapters ->
  (Z.to_nat chapterLimit < fuel)%nat ->
  (Z.to_nat maxBadChapters < fuel)%nat ->
  exists result,
    findVolumeChapterBoundariesImpl ASSERT probe fuel chapterLimit
      maxBadChapters low high = Some result.
Proof.
  intros Hlimit Hmax Hfuel Hfuel'. unfold findVolumeChapterBoundariesImpl.
  destruct (chapterLimit =? 0); [eexists; reflexivity|].
  destruct (probe 0 UINT64_MAX) as [status first].
  destruct (negb (is_success status)); [eexists; reflexivity|].
  destruct (search_loop_returns probe chapterLimit first (proj2 Hlimit)
              fuel 0 chapterLimit) as [searched ->]; try lia.
  destruct searched as [|[l r]]; [eexists; reflexivity|].
  destruct (negb (is_success (ASSERT (l =? r)))); [eexists; reflexivity|].
  destruct (probe (l mod chapterLimit) UINT64_MAX) as [status' lowest].
  destruct (negb (is_success status')); [eexists; reflexivity|].
  destruct (negb (is_success (ASSERT (negb (lowest =? UINT64_MAX)))));
    [eexists; reflexivity|].
  destruct (scan_loop_returns probe chapterLimit maxBadChapters Hmax
              fuel r UINT64_MAX 0) as [scanned ->]; try lia.
  destruct scanned; eexists; reflexivity.
Qed.

(** [findVolumeChapterBoundaries] returns on every volume of at most 2^31
    chapters. *)
Lemma boundaries_are_returned ASSERT fuel vol out :
  0 <= chapters_per_volume (vol_geometry vol) <= 2 ^ 31 ->
  (Z.to_nat (3 * chapters_per_volume (vol_geometry vol) + 101) < fuel)%nat ->
  exists result, findVolumeChapterBoundaries ASSERT fuel vol out = Some result.
Proof.
  intros Hchapters Hfuel. unfold findVolumeChapterBoundaries, findRealEndOfVolume.
  set (chapters := chapters_per_volume (vol_geometry vol)) in *.
  destruct (find_end_loop_returns vol chapters ltac:(lia) fuel chapters 1 0)
    as (ended & -> & Hended); try lia.
  destruct ended as [status|limit].
  - destruct status; cbn [is_success negb]; try (eexists; reflexivity).
    destruct (chapters =? 0); [eexists; reflexivity|].
    destruct (impl_returns ASSERT (probeWrapper vol) fuel chapters
                MAX_BAD_CHAPTERS (lowestVCN out) (highestVCN out))
      as [[[status low] high] ->];
      try (unfold in_u32, MAX_BAD_CHAPTERS; lia).
    eexists; reflexivity.
  - cbn [is_success negb].
    destruct (limit =? 0); [eexists; reflexivity|].
    destruct (impl_returns ASSERT (probeWrapper vol) fuel limit
                MAX_BAD_CHAPTERS (lowestVCN out) (highestVCN out))
      as [[[status low] high] ->];
      try (unfold in_u32, MAX_BAD_CHAPTERS; lia).
    eexists; reflexivity.
Qed.

(** *** When the scan calls a volume empty *)

Lemma pow2_positive (k : nat) : 0 < 2 ^ Z.of_nat k.
Proof. apply Z.pow_pos_nonneg; lia. Qed.

Lemma pow2_succ (k : nat) : 2 ^ Z.of_nat (S k) = 2 * 2 ^ Z.of_nat k.
Proof. rewrite Nat2Z.inj_succ, Z.pow_succ_r; lia. Qed.

Lemma pow2_monotone (k j : nat) :
  (k <= j)%nat -> 2 ^ Z.of_nat k <= 2 ^ Z.of_nat j.
Proof. intros H. apply Z.pow_le_mono_r; lia. Qed.

Lemma pow2_below_2_32 (k : nat) :
  2 ^ Z.of_nat k < 2 ^ 32 -> Z.of_nat k < 32.
Proof. intros H. apply (Z.pow_lt_mono_r_iff 2); lia. Qed.

Lemma half_of_pow2 (k : nat) : 2 ^ Z.of_nat (S k) / 2 = 2 ^ Z.of_nat k.
Proof. rewrite pow2_succ, Z.mul_comm, Z.div_mul; lia. Qed.

(** Once a probe has succeeded the limit stays above the chapter that
    probed successfully.  With [tries = 0] that chapter lies two spans
    below the limit (or is chapter 0), with [tries = 1] one span below: a
    corrupt probe moves the limit down one span and the next probe, one
    span further down, meets the good chapter again. *)
Lemma find_end_loop_after_success vol :
  forall fuel limit (k : nat) tries limit',
    0 < limit -> tries = 0 \/ tries = 1 ->
    fst (probeChapter vol
           (Z.max 0 (limit - (if tries =? 0 then 2 * 2 ^ Z.of_nat k
                              else 2 ^ Z.of_nat k))) 0) = UDS_SUCCESS ->
    find_end_loop fuel vol limit (2 ^ Z.of_nat k) tries = Some (inr limit') ->
    0 < limit'.
Proof.
  induction fuel as [|fuel IH]; intros limit k tries limit' Hpos Htries Hgood Hrun;
    [discriminate|].
  cbn [find_end_loop] in Hrun.
  destruct (Z.ltb_spec 0 limit) as [_|?]; [|lia].
  pose proof (pow2_positive k) as Hspan.
  set (chapter := if limit <? 2 ^ Z.of_nat k then 0
                  else limit - 2 ^ Z.of_nat k) in *.
  assert (Hchapter : chapter = Z.max 0 (limit - 2 ^ Z.of_nat k))
    by (subst chapter; destruct (Z.ltb_spec limit (2 ^ Z.of_nat k)); lia).
  destruct (probeChapter vol chapter 0) as [result vcn] eqn:Hprobe.
  destruct result; cbn [is_success is_corrupt_component] in Hrun;
    try discriminate.
  - destruct (Z.eqb_spec (2 ^ Z.of_nat k) 1) as [Hone|Hmore];
      [injection Hrun as <-; exact Hpos|].
    destruct k as [|k]; [simpl in Hmore; lia|].
    rewrite half_of_pow2 in Hrun.
    apply (IH limit k 0 limit' Hpos (or_introl eq_refl)); [|exact Hrun].
    cbn [Z.eqb]. rewrite <- pow2_succ, <- Hchapter, Hprobe. reflexivity.
  - destruct Htries as [-> | ->].
    + rewrite u32_small in Hrun by lia. cbn [Z.add Z.ltb Z.compare Pos.compare Pos.compare_cont] in Hrun.
      cbn [Z.eqb] in Hgood.
      assert (Hleft : 0 < chapter).
      { destruct (Z.eq_dec chapter 0) as [Hzero|]; [|lia].
        replace (Z.max 0 (limit - 2 * 2 ^ Z.of_nat k)) with chapter in Hgood
          by lia.
        rewrite Hprobe in Hgood. discriminate Hgood. }
      apply (IH chapter k 1 limit' Hleft (or_intror eq_refl)); [|exact Hrun].
      cbn [Z.eqb].
      replace (Z.max 0 (chapter - 2 ^ Z.of_nat k))
        with (Z.max 0 (limit - 2 * 2 ^ Z.of_nat k)) by lia.
      exact Hgood.
    + cbn [Z.eqb] in Hgood. rewrite <- Hchapter, Hprobe in Hgood.
      discriminate Hgood.
Qed.

Section Descent.

Variable vol : volume.
Variable chapters : Z.
Hypothesis chapters_fit : in_u32 chapters.

(** The chapter probed at step [j] of the way down, while every probe so
    far has found a corrupt chapter. *)
Abbreviation probed j := (Z.max 0 (chapters - 2 ^ Z.of_nat j)).

Lemma probed_step (k : nat) limit :
  limit = probed k -> 0 < limit ->
  (if limit <? 2 ^ Z.of_nat k then 0 else limit - 2 ^ Z.of_nat k)
  = probed (S k).
Proof.
  intros -> Hpos. rewrite pow2_succ.
  destruct (Z.ltb_spec (probed k) (2 ^ Z.of_nat k)); lia.
Qed.

Lemma next_state (k : nat) limit tries :
  limit = probed k -> 0 < limit -> tries = Z.of_nat k + 1 ->
  0 < probed (S k) ->
  (if 1 <? u32 (tries + 1) then u32 (2 ^ Z.of_nat k * 2) else 2 ^ Z.of_nat k)
  = 2 ^ Z.of_nat (S k)
  /\ u32 (tries + 1) = Z.of_nat (S k) + 1.
Proof.
  intros -> Hpos -> Hnext. destruct chapters_fit as [_ Hfit].
  pose proof (pow2_positive (S k)) as Hspan.
  assert (Hk : Z.of_nat (S k) < 32) by (apply pow2_below_2_32; lia).
  rewrite (u32_small (Z.of_nat k + 1 + 1)) by lia.
  destruct (Z.ltb_spec 1 (Z.of_nat k + 1 + 1)); [|lia].
  rewrite pow2_succ in *. rewrite u32_small by lia. lia.
Qed.

(** A scan that ends with limit 0 has found every chapter it probed
    corrupt. *)
Lemma find_end_descent_zero :
  forall fuel (k : nat) limit span tries,
    limit = probed k ->
    (0 < limit -> span = 2 ^ Z.of_nat k /\ tries = Z.of_nat k + 1) ->
    find_end_loop fuel vol limit span tries = Some (inr 0) ->
    forall j : nat, (k < j)%nat -> 2 ^ Z.of_nat j < 2 * chapters ->
      fst (probeChapter vol (probed j) 0) = UDS_CORRUPT_COMPONENT.
Proof.
  induction fuel as [|fuel IH]; intros k limit span tries Hlimit Hstate Hrun;
    [discriminate|].
  intros j Hj Hreached.
  destruct (Z.lt_ge_cases 0 limit) as [Hpos|Hzero].
  - destruct (Hstate Hpos) as [-> Htries].
    cbn [find_end_loop] in Hrun.
    destruct (Z.ltb_spec 0 limit) as [_|?]; [|lia].
    rewrite (probed_step k limit Hlimit Hpos) in Hrun.
    destruct (probeChapter vol (probed (S k)) 0) as [result vcn] eqn:Hprobe.
    destruct result; cbn [is_success is_corrupt_component] in Hrun;
      try discriminate.
    + exfalso.
      destruct (Z.eqb_spec (2 ^ Z.of_nat k) 1) as [Hone|Hmore];
        [injection Hrun as ->; lia|].
      destruct k as [|k]; [simpl in Hmore; lia|].
      rewrite half_of_pow2 in Hrun.
      apply find_end_loop_after_success in Hrun; [lia|exact Hpos|left; reflexivity|].
      cbn [Z.eqb]. rewrite <- pow2_succ.
      replace (Z.max 0 (limit - 2 ^ Z.of_nat (S k))) with (probed (S (S k)))
        by (rewrite (pow2_succ (S k)); lia).
      rewrite Hprobe. reflexivity.
    + destruct (Nat.eq_dec j (S k)) as [->|Hlater];
        [rewrite Hprobe; reflexivity|].
      refine (IH (S k) (probed (S k)) _ _ eq_refl _ Hrun j _ Hreached);
        [|lia].
      intros Hnext. exact (next_state k limit tries Hlimit Hpos Htries Hnext).
  - exfalso. pose proof (pow2_monotone (S k) j ltac:(lia)) as Hmono.
    rewrite pow2_succ in Hmono. lia.
Qed.

(** When every chapter on the way down is corrupt the scan ends with
    limit 0. *)
Lemma find_end_descent_corrupt :
  (forall j : nat, 2 ^ Z.of_nat j < 2 * chapters ->
     fst (probeChapter vol (probed j) 0) = UDS_CORRUPT_COMPONENT) ->
  forall fuel (k : nat) limit span tries,
    limit = probed k ->
    (0 < limit -> span = 2 ^ Z.of_nat k /\ tries = Z.of_nat k + 1) ->
    (Z.to_nat limit < fuel)%nat ->
    find_end_loop fuel vol limit span tries = Some (inr 0).
Proof.
  intros Hcorrupt. induction fuel as [|fuel IH];
    intros k limit span tries Hlimit Hstate Hfuel; [lia|].
  cbn [find_end_loop].
  destruct (Z.ltb_spec 0 limit) as [Hpos|Hzero];
    [|do 2 f_equal; lia].
  destruct (Hstate Hpos) as [-> Htries].
  rewrite (probed_step k limit Hlimit Hpos).
  pose proof (pow2_positive k) as Hspan.
  assert (Hreached : 2 ^ Z.of_nat (S k) < 2 * chapters)
    by (rewrite pow2_succ; lia).
  specialize (Hcorrupt (S k) Hreached).
  destruct (probeChapter vol (probed (S k)) 0) as [result vcn].
  simpl in Hcorrupt. subst result. cbn [is_success is_corrupt_component].
  apply (IH (S k) (probed (S k)) _ _ eq_refl).
  - intros Hnext. exact (next_state k limit tries Hlimit Hpos Htries Hnext).
  - rewrite pow2_succ. lia.
Qed.

(** The scan from the end of the volume ends with limit 0 exactly when
    every chapter it probes on the way down is corrupt. *)
Lemma find_end_loop_zero fuel :
  find_end_loop fuel vol chapters 1 0 = Some (inr 0) ->
  forall j : nat, 2 ^ Z.of_nat j < 2 * chapters ->
    fst (probeChapter vol (probed j) 0) = UDS_CORRUPT_COMPONENT.
Proof.
  intros Hrun j Hreached. destruct fuel as [|fuel]; [discriminate|].
  pose proof (pow2_positive j) as Hj.
  cbn [find_end_loop] in Hrun.
  destruct (Z.ltb_spec 0 chapters) as [Hpos|?]; [|lia].
  destruct (Z.ltb_spec chapters 1) as [?|_]; [lia|].
  destruct (probeChapter vol (chapters - 1) 0) as [result vcn] eqn:Hprobe.
  destruct result; cbn [is_success is_corrupt_component] in Hrun;
    try discriminate.
  - cbn [Z.eqb Pos.eqb] in Hrun. injection Hrun as ->. lia.
  - rewrite u32_small in Hrun by lia.
    cbn [Z.add Z.ltb Z.compare Pos.compare Pos.compare_cont] in Hrun.
    destruct j as [|j].
    + replace (probed 0%nat) with (chapters - 1) by (simpl; lia).
      rewrite Hprobe. reflexivity.
    + apply (find_end_descent_zero fuel 0 (chapters - 1) 1 1); try assumption;
        [simpl; lia | intros _; split; reflexivity | lia].
Qed.

Lemma find_end_loop_all_probed_corrupt fuel :
  (forall j : nat, 2 ^ Z.of_nat j < 2 * chapters ->
     fst (probeChapter vol (probed j) 0) = UDS_CORRUPT_COMPONENT) ->
  (Z.to_nat chapters < fuel)%nat ->
  find_end_loop fuel vol chapters 1 0 = Some (inr 0).
Proof.
  intros Hcorrupt Hfuel. destruct fuel as [|fuel]; [lia|].
  cbn [find_end_loop].
  destruct (Z.ltb_spec 0 chapters) as [Hpos|Hzero];
    [|destruct chapters_fit; do 2 f_equal; lia].
  destruct (Z.ltb_spec chapters 1) as [?|_]; [lia|].
  pose proof (Hcorrupt 0%nat ltac:(simpl; lia)) as Hfirst.
  replace (probed 0%nat) with (chapters - 1) in Hfirst by (simpl; lia).
  destruct (probeChapter vol (chapters - 1) 0) as [result vcn].
  simpl in Hfirst. subst result. cbn [is_success is_corrupt_component].
  rewrite u32_small by lia.
  cbn [Z.add Z.ltb Z.compare Pos.compare Pos.compare_cont].
  apply (find_end_descent_corrupt Hcorrupt fuel 0 (chapters - 1) 1 1);
    [simpl; lia | intros _; split; reflexivity | lia].
Qed.

(** Some step of the way down probes chapter 0. *)
Lemma chapter_zero_is_probed :
  0 < chapters ->
  exists j : nat, 2 ^ Z.of_nat j < 2 * chapters /\ probed j = 0.
Proof.
  intros Hpos. destruct (Z.eq_dec chapters 1) as [->|Hmore].
  - exists 0%nat. simpl. lia.
  - destruct (Z.log2_up_spec chapters ltac:(lia)) as [Hlow Hhigh].
    pose proof (Z.log2_up_nonneg chapters) as Hlog.
    exists (Z.to_nat (Z.log2_up chapters)). rewrite Z2Nat.id by exact Hlog.
    assert (H2 : 2 ^ Z.log2_up chapters = 2 * 2 ^ Z.pred (Z.log2_up chapters)).
    { rewrite <- Z.pow_succ_r, Z.succ_pred; [reflexivity|].
      assert (0 < Z.log2_up chapters) by (apply Z.log2_up_pos; lia). lia. }
    lia.
Qed.

End Descent.

(** A successful return with a limit other than 0 does not call the
    volume empty. *)
Lemma found_boundaries_not_empty ASSERT fuel vol out out' :
  findVolumeChapterBoundaries ASSERT fuel vol out = Some (UDS_SUCCESS, out') ->
  findRealEndOfVolume fuel vol (chapters_per_volume (vol_geometry vol))
    (chapters_per_volume (vol_geometry vol)) <> Some (UDS_SUCCESS, 0) ->
  isEmpty out' = false.
Proof.
  intros Hfound Hend. unfold findVolumeChapterBoundaries in Hfound.
  destruct (findRealEndOfVolume fuel vol _ _) as [[result limit]|];
    [|discriminate].
  destruct result; cbn [is_success negb] in Hfound;
    try (injection Hfound as Hr _; discriminate Hr).
  destruct (Z.eq_dec limit 0) as [Hz|Hne]; [congruence|].
  apply Z.eqb_neq in Hne. rewrite Hne in Hfound.
  destruct (findVolumeChapterBoundariesImpl _ _ _ _ _ _)
    as [[[result lowest] highest]|]; [|discriminate].
  injection Hfound as _ <-. reflexivity.
Qed.

Lemma real_end_zero_probes_corrupt fuel vol chapters :
  in_u32 chapters ->
  findRealEndOfVolume fuel vol chapters chapters = Some (UDS_SUCCESS, 0) ->
  forall i : nat, 2 ^ Z.of_nat i < 2 * chapters ->
    fst (probeChapter vol (Z.max 0 (chapters - 2 ^ Z.of_nat i)) 0)
    = UDS_CORRUPT_COMPONENT.
Proof.
  intros Hfit Hend i Hreached. pose proof (pow2_positive i) as Hi.
  apply (find_end_loop_zero vol chapters Hfit fuel); [|exact Hreached].
  unfold findRealEndOfVolume in Hend.
  destruct (find_end_loop fuel vol chapters 1 0) as [[result|limit]|];
    [|injection Hend as ->; reflexivity|discriminate].
  injection Hend as _ Hzero. lia.
Qed.

(** C10.  (1) When the scan for the end of the volume leaves a chapter
    limit of 0, [findVolumeChapterBoundaries] returns [UDS_SUCCESS] with
    both chapter numbers 0 and [isEmpty] true.  (2) Whenever it returns
    [UDS_SUCCESS] otherwise, [isEmpty] is false.  The limit becomes 0
    exactly when no chapter the scan probes on its way down probes
    successfully; these are the chapters [chapters - 2 ^ i], cut off at
    chapter 0, for [i = 0, 1, 2, ...] as long as [2 ^ i < 2 * chapters].
    (3) If all of them are corrupt the scan ends with limit 0, and the
    function returns [UDS_SUCCESS], 0, 0 and [isEmpty] true.  (4) If the
    scan ends with limit 0, all of them are corrupt.  (5) So when one of
    them is not corrupt, every successful return has [isEmpty] false;
    (6) in particular when chapter 0 probes successfully.  (7) On a volume
    of at most 2^31 chapters the function does return, given fuel beyond
    [3 * chapters + 101]. *)
Theorem empty_volume_boundaries (ASSERT : bool -> uds_status) (fuel : nat)
    (vol : volume) (out : boundaries) :
  let chapters := chapters_per_volume (vol_geometry vol) in
  let probed := fun i : nat => Z.max 0 (chapters - 2 ^ Z.of_nat i) in
  (findRealEndOfVolume fuel vol chapters chapters = Some (UDS_SUCCESS, 0) ->
     findVolumeChapterBoundaries ASSERT fuel vol out
     = Some (UDS_SUCCESS,
             {| lowestVCN := 0; highestVCN := 0; isEmpty := true |}))
  /\ (forall out',
        findVolumeChapterBoundaries ASSERT fuel vol out = Some (UDS_SUCCESS, out') ->
        findRealEndOfVolume fuel vol chapters chapters
        <> Some (UDS_SUCCESS, 0) ->
        isEmpty out' = false)
  /\ (in_u32 chapters ->
      (forall i : nat, 2 ^ Z.of_nat i < 2 * chapters ->
         fst (probeChapter vol (probed i) 0) = UDS_CORRUPT_COMPONENT) ->
      (Z.to_nat chapters < fuel)%nat ->
      findRealEndOfVolume fuel vol chapters chapters = Some (UDS_SUCCESS, 0)
      /\ findVolumeChapterBoundaries ASSERT fuel vol out
         = Some (UDS_SUCCESS,
                 {| lowestVCN := 0; highestVCN := 0; isEmpty := true |}))
  /\ (in_u32 chapters ->
      findRealEndOfVolume fuel vol chapters chapters = Some (UDS_SUCCESS, 0) ->
      forall i : nat, 2 ^ Z.of_nat i < 2 * chapters ->
        fst (probeChapter vol (probed i) 0) = UDS_CORRUPT_COMPONENT)
  /\ (in_u32 chapters ->
      forall i : nat, 2 ^ Z.of_nat i < 2 * chapters ->
        fst (probeChapter vol (probed i) 0) <> UDS_CORRUPT_COMPONENT ->
        forall out',
          findVolumeChapterBoundaries ASSERT fuel vol out
          = Some (UDS_SUCCESS, out') ->
          isEmpty out' = false)
  /\ (in_u32 chapters -> 0 < chapters ->
      fst (probeChapter vol 0 0) = UDS_SUCCESS ->
      forall out',
        findVolumeChapterBoundaries ASSERT fuel vol out
        = Some (UDS_SUCCESS, out') ->
        isEmpty out' = false)
  /\ (0 <= chapters <= 2 ^ 31 ->
      (Z.to_nat (3 * chapters + 101) < fuel)%nat ->
      exists result,
        findVolumeChapterBoundaries ASSERT fuel vol out = Some result).
Proof.
  intros chapters probed.
  assert (Hempty :
            findRealEndOfVolume fuel vol chapters chapters
            = Some (UDS_SUCCESS, 0) ->
            findVolumeChapterBoundaries ASSERT fuel vol out
            = Some (UDS_SUCCESS,
                    {| lowestVCN := 0; highestVCN := 0; isEmpty := true |})).
  { intros Hend. unfold findVolumeChapterBoundaries. fold chapters.
    rewrite Hend. reflexivity. }
  assert (Hlive : in_u32 chapters ->
            forall i : nat, 2 ^ Z.of_nat i < 2 * chapters ->
              fst (probeChapter vol (probed i) 0) <> UDS_CORRUPT_COMPONENT ->
              forall out',
                findVolumeChapterBoundaries ASSERT fuel vol out
                = Some (UDS_SUCCESS, out') ->
                isEmpty out' = false).
  { intros Hfit i Hreached Hgood out' Hfound.
    apply (found_boundaries_not_empty ASSERT fuel vol out out' Hfound).
    intros Hend. apply Hgood.
    exact (real_end_zero_probes_corrupt fuel vol chapters Hfit Hend i
             Hreached). }
  split; [exact Hempty|]. split; [|split; [|split; [|split; [|split]]]].
  - intros out'. apply found_boundaries_not_empty.
  - intros Hfit Hcorrupt Hfuel.
    assert (Hend : findRealEndOfVolume fuel vol chapters chapters
                   = Some (UDS_SUCCESS, 0)).
    { unfold findRealEndOfVolume.
      rewrite (find_end_loop_all_probed_corrupt vol chapters Hfit fuel
                 Hcorrupt Hfuel).
      reflexivity. }
    split; [exact Hend | exact (Hempty Hend)].
  - apply real_end_zero_probes_corrupt.
  - exact Hlive.
  - intros Hfit Hpos Hzero.
    destruct (chapter_zero_is_probed chapters Hfit Hpos)
      as (i & Hreached & Hi).
    apply (Hlive Hfit i Hreached). unfold probed. rewrite Hi, Hzero.
    discriminate.
  - apply boundaries_are_returned.
Qed.

Lemma empty_volume_boundaries_witness :
  (in_u32 4
   /\ (forall i : nat, 2 ^ Z.of_nat i < 2 * 4 ->
         fst (probeChapter (VolumeSamples.blank_volume 4)
                (Z.max 0 (4 - 2 ^ Z.of_nat i)) 0)
         = UDS_CORRUPT_COMPONENT)
   /\ (Z.to_nat 4 < 5)%nat)
  /\ findVolumeChapterBoundaries VolumeSamples.permassert 5
       (VolumeSamples.blank_volume 4) VolumeSamples.no_boundaries
     = Some (UDS_SUCCESS,
             {| lowestVCN := 0; highestVCN := 0; isEmpty := true |})
  /\ (in_u32 2 /\ 0 < 2
      /\ fst (probeChapter (VolumeSamples.volume_of [4; 1]) 0 0) = UDS_SUCCESS
      /\ findVolumeChapterBoundaries VolumeSamples.permassert 5
           (VolumeSamples.volume_of [4; 1]) VolumeSamples.no_boundaries
         = Some (UDS_SUCCESS,
                 {| lowestVCN := 1; highestVCN := 4; isEmpty := false |}))
  /\ isEmpty {| lowestVCN := 1; highestVCN := 4; isEmpty := false |} = false.
Proof.
  assert (H4 : in_u32 4) by (unfold in_u32; lia).
  assert (Hcorrupt : forall i : nat, 2 ^ Z.of_nat i < 2 * 4 ->
            fst (probeChapter (VolumeSamples.blank_volume 4)
                   (Z.max 0 (4 - 2 ^ Z.of_nat i)) 0)
            = UDS_CORRUPT_COMPONENT) by reflexivity.
  assert (Hfuel : (Z.to_nat 4 < 5)%nat) by (simpl; lia).
  assert (H2 : in_u32 2) by (unfold in_u32; lia).
  assert (Hpos : 0 < 2) by lia.
  assert (Hzero : fst (probeChapter (VolumeSamples.volume_of [4; 1]) 0 0)
                  = UDS_SUCCESS) by reflexivity.
  assert (Hfound : findVolumeChapterBoundaries VolumeSamples.permassert 5
                     (VolumeSamples.volume_of [4; 1])
                     VolumeSamples.no_boundaries
                   = Some (UDS_SUCCESS,
                           {| lowestVCN := 1; highestVCN := 4;
                              isEmpty := false |})) by reflexivity.
  split; [tauto|]. split; [|split; [tauto|]].
  - destruct (empty_volume_boundaries VolumeSamples.permassert 5
                (VolumeSamples.blank_volume 4) VolumeSamples.no_boundaries)
      as (_ & _ & Hblank & _).
    exact (proj2 (Hblank H4 Hcorrupt Hfuel)).
  - destruct (empty_volume_boundaries VolumeSamples.permassert 5
                (VolumeSamples.volume_of [4; 1]) VolumeSamples.no_boundaries)
      as (_ & _ & _ & _ & _ & Hwritten & _).
    exact (Hwritten H2 Hpos Hzero _ Hfound).
Defined.

(** *** The boundary search *)

Section BoundarySearch.

(** The volume as the search sees it: [chapterLimit] chapters, chapter [c]
    probing as [vcn c].  The bad chapters are exactly [bad_from ..
    bad_to); the good chapters before them hold the high end of the
    sequence, the good chapters after them the low end. *)
Variable ASSERT : bool -> uds_status.
Variable probeFunc : Z -> Z -> uds_status * Z.
Variable vcn : Z -> Z.
Variables chapterLimit bad_from bad_to : Z.

Hypothesis assert_holds : ASSERT true = UDS_SUCCESS.
Hypothesis probe_ok :
  forall c old, 0 <= c < chapterLimit -> probeFunc c old = (UDS_SUCCESS, vcn c).
Hypothesis limit_range : 0 < chapterLimit <= 2 ^ 31.
Hypothesis run_range : 0 <= bad_from <= bad_to /\ bad_to <= chapterLimit.
Hypothesis some_good : 0 < bad_from \/ bad_to < chapterLimit.
Hypothesis run_bad :
  forall c, bad_from <= c < bad_to -> vcn c = UINT64_MAX.
Hypothesis rest_good :
  forall c, 0 <= c < chapterLimit -> c < bad_from \/ bad_to <= c ->
            0 <= vcn c < UINT64_MAX.
Hypothesis high_part :
  forall c d, 0 <= c <= d -> d < bad_from -> vcn c <= vcn d.
Hypothesis low_part :
  forall c d, bad_to <= c <= d -> d < chapterLimit -> vcn c <= vcn d.
Hypothesis low_below_high :
  forall c d, bad_to <= c < chapterLimit -> 0 <= d < bad_from ->
              vcn c < vcn d.

Abbreviation lowest_chapter := (lowest_chapter chapterLimit bad_to).
Abbreviation highest_chapter := (highest_chapter chapterLimit bad_from).
Abbreviation search_end := (search_end chapterLimit bad_from bad_to).

Lemma half_between l r : 0 <= l < r -> l <= (l + r) / 2 < r.
Proof.
  intros H. pose proof (Z.div_mod (l + r) 2 ltac:(lia)).
  pose proof (Z.mod_pos_bound (l + r) 2 ltac:(lia)). lia.
Qed.

(** The binary search finds the boundary [k] of any predicate
    [first <= vcn c] that holds below [k] and fails from [k] on. *)
Lemma search_loop_finds first k :
  0 <= k <= chapterLimit ->
  (forall c, 0 <= c < k -> first <= vcn c) ->
  (forall c, k <= c < chapterLimit -> vcn c < first) ->
  forall fuel l r,
    0 <= l <= k -> k <= r <= chapterLimit ->
    (Z.to_nat (r - l) < fuel)%nat ->
    search_loop probeFunc fuel first l r = Some (inr (k, k)).
Proof.
  intros Hk Hbelow Hfrom. induction fuel as [|fuel IH];
    intros l r Hl Hr Hfuel; [lia|].
  cbn [search_loop].
  destruct (Z.ltb_spec l r) as [Hlt|Hge].
  - rewrite u32_small by lia.
    pose proof (half_between l r ltac:(lia)) as Hmid.
    rewrite probe_ok by lia. cbn [is_success negb].
    destruct (Z.leb_spec first (vcn ((l + r) / 2))) as [Hle|Hgt].
    + assert ((l + r) / 2 < k).
      { destruct (Z.lt_ge_cases ((l + r) / 2) k) as [?|Hc]; [assumption|].
        specialize (Hfrom ((l + r) / 2) ltac:(lia)). lia. }
      rewrite u32_small by lia. apply IH; lia.
    + assert (k <= (l + r) / 2).
      { destruct (Z.lt_ge_cases ((l + r) / 2) k) as [Hc|?]; [|assumption].
        specialize (Hbelow ((l + r) / 2) ltac:(lia)). lia. }
      apply IH; lia.
  - replace l with k by lia. replace r with k by lia. reflexivity.
Qed.

Lemma search_end_range : 0 <= search_end <= chapterLimit.
Proof. unfold Volume.search_end. destruct (_ && _); lia. Qed.

Lemma search_end_mod : search_end mod chapterLimit = lowest_chapter.
Proof.
  unfold Volume.search_end, Volume.lowest_chapter.
  destruct ((bad_from =? 0) && (bad_to =? 0)) eqn:Hz; [|reflexivity].
  apply andb_true_iff in Hz as [_ Hs]. apply Z.eqb_eq in Hs. subst bad_to.
  rewrite Z.mod_same, Z.mod_0_l; lia.
Qed.

Lemma search_end_below c : 0 <= c < search_end -> vcn 0 <= vcn c.
Proof.
  unfold Volume.search_end. intros Hc.
  destruct (Z.eqb_spec bad_from 0) as [Hp|Hp];
    destruct (Z.eqb_spec bad_to 0) as [Hs|Hs]; cbn [andb] in Hc.
  - apply low_part; lia.
  - rewrite (run_bad 0), (run_bad c); lia.
  - lia.
  - destruct (Z.lt_ge_cases c bad_from).
    + apply high_part; lia.
    + rewrite (run_bad c) by lia.
      pose proof (rest_good 0 ltac:(lia) ltac:(lia)). lia.
Qed.

Lemma search_end_from c :
  search_end <= c < chapterLimit -> vcn c < vcn 0.
Proof.
  unfold Volume.search_end. intros Hc.
  destruct (Z.eqb_spec bad_from 0) as [Hp|Hp];
    destruct (Z.eqb_spec bad_to 0) as [Hs|Hs]; cbn [andb] in Hc.
  - lia.
  - rewrite (run_bad 0) by lia.
    pose proof (rest_good c ltac:(lia) ltac:(lia)). lia.
  - lia.
  - apply low_below_high; lia.
Qed.

Lemma lowest_chapter_good :
  0 <= lowest_chapter < chapterLimit
  /\ 0 <= vcn lowest_chapter < UINT64_MAX.
Proof.
  unfold Volume.lowest_chapter.
  destruct (Z.eq_dec bad_to chapterLimit) as [Hs|Hs].
  - rewrite Hs, Z.mod_same by lia. split; [lia|].
    apply rest_good; lia.
  - rewrite Z.mod_small by lia. split; [lia|]. apply rest_good; lia.
Qed.

Lemma highest_chapter_good :
  0 <= highest_chapter < chapterLimit
  /\ 0 <= vcn highest_chapter < UINT64_MAX.
Proof.
  unfold Volume.highest_chapter.
  destruct (Z.eq_dec bad_from 0) as [Hp|Hp].
  - rewrite Hp. replace (0 + chapterLimit - 1) with (chapterLimit - 1) by lia.
    rewrite Z.mod_small by lia. split; [lia|]. apply rest_good; lia.
  - replace (bad_from + chapterLimit - 1)
      with (bad_from - 1 + 1 * chapterLimit) by lia.
    rewrite Z.mod_add, Z.mod_small by lia. split; [lia|].
    apply rest_good; lia.
Qed.

(** The backward scan after [j] bad chapters have been counted, standing
    on [bad_to - j] (or on [chapterLimit] in place of 0). *)
Lemma scan_loop_step_position r j :
  0 <= r <= chapterLimit ->
  (r + chapterLimit - 1) mod chapterLimit
  = (bad_to - j + chapterLimit - 1) mod chapterLimit ->
  0 <= j < bad_to - bad_from ->
  u32 (r + chapterLimit - 1) mod chapterLimit = bad_to - (j + 1).
Proof.
  intros Hr Hpos Hj. rewrite u32_small by lia. rewrite Hpos.
  replace (bad_to - j + chapterLimit - 1)
    with (bad_to - (j + 1) + 1 * chapterLimit) by lia.
  rewrite Z.mod_add, Z.mod_small; lia.
Qed.

Lemma scan_loop_last_position r :
  0 <= r <= chapterLimit ->
  (r + chapterLimit - 1) mod chapterLimit
  = (bad_to - (bad_to - bad_from) + chapterLimit - 1) mod chapterLimit ->
  u32 (r + chapterLimit - 1) mod chapterLimit = highest_chapter.
Proof.
  intros Hr Hpos. rewrite u32_small by lia. rewrite Hpos.
  unfold Volume.highest_chapter. f_equal. lia.
Qed.

Lemma scan_loop_tolerates maxBadChapters :
  bad_to - bad_from < maxBadChapters ->
  forall fuel r j highest,
    0 <= r <= chapterLimit ->
    (r + chapterLimit - 1) mod chapterLimit
    = (bad_to - j + chapterLimit - 1) mod chapterLimit ->
    0 <= j <= bad_to - bad_from ->
    (Z.to_nat (bad_to - bad_from - j) < fuel)%nat ->
    scan_loop probeFunc fuel chapterLimit maxBadChapters r highest j
    = Some (inr (vcn highest_chapter)).
Proof.
  intros Hmax. induction fuel as [|fuel IH];
    intros r j highest Hr Hpos Hj Hfuel; [lia|].
  cbn [scan_loop].
  destruct (Z.eq_dec j (bad_to - bad_from)) as [Hlast|Hmore].
  - subst j. rewrite (scan_loop_last_position r Hr Hpos).
    destruct highest_chapter_good as [Hrange Hvalue].
    rewrite probe_ok by exact Hrange. cbn [is_success negb].
    destruct (Z.eqb_spec (vcn highest_chapter) UINT64_MAX); [lia|].
    reflexivity.
  - rewrite (scan_loop_step_position r j Hr Hpos ltac:(lia)).
    rewrite probe_ok by lia. cbn [is_success negb].
    rewrite (run_bad (bad_to - (j + 1))) by lia.
    rewrite Z.eqb_refl. cbn [negb].
    rewrite u32_small by lia.
    destruct (Z.leb_spec maxBadChapters (j + 1)); [lia|].
    apply IH; first [lia | reflexivity].
Qed.

Lemma scan_loop_gives_up maxBadChapters :
  maxBadChapters <= bad_to - bad_from ->
  forall fuel r j highest,
    0 <= r <= chapterLimit ->
    (r + chapterLimit - 1) mod chapterLimit
    = (bad_to - j + chapterLimit - 1) mod chapterLimit ->
    0 <= j < bad_to - bad_from ->
    j < maxBadChapters \/ j = 0 ->
    (Z.to_nat (bad_to - bad_from - j) < fuel)%nat ->
    scan_loop probeFunc fuel chapterLimit maxBadChapters r highest j
    = Some (inl UDS_CORRUPT_COMPONENT).
Proof.
  intros Hmax. induction fuel as [|fuel IH];
    intros r j highest Hr Hpos Hj Hjmax Hfuel; [lia|].
  cbn [scan_loop].
  rewrite (scan_loop_step_position r j Hr Hpos Hj).
  rewrite probe_ok by lia. cbn [is_success negb].
  rewrite (run_bad (bad_to - (j + 1))) by lia.
  rewrite Z.eqb_refl. cbn [negb].
  rewrite u32_small by lia.
  destruct (Z.leb_spec maxBadChapters (j + 1)) as [|Hroom]; [reflexivity|].
  apply IH; first [lia | reflexivity].
Qed.

(** The search up to the backward scan: the lowest chapter is found. *)
Lemma search_reaches_lowest fuel :
  (Z.to_nat chapterLimit < fuel)%nat ->
  probeFunc 0 UINT64_MAX = (UDS_SUCCESS, vcn 0)
  /\ search_loop probeFunc fuel (vcn 0) 0 chapterLimit
     = Some (inr (search_end, search_end))
  /\ probeFunc (search_end mod chapterLimit) UINT64_MAX
     = (UDS_SUCCESS, vcn lowest_chapter)
  /\ (vcn lowest_chapter =? UINT64_MAX) = false.
Proof.
  intros Hfuel. pose proof search_end_range as Hk.
  destruct lowest_chapter_good as [Hrange Hvalue].
  repeat split.
  - apply probe_ok. lia.
  - apply search_loop_finds;
      auto using search_end_below, search_end_from; lia.
  - rewrite search_end_mod. apply probe_ok. exact Hrange.
  - apply Z.eqb_neq. lia.
Qed.

Lemma scan_start_position :
  (search_end + chapterLimit - 1) mod chapterLimit
  = (bad_to - 0 + chapterLimit - 1) mod chapterLimit.
Proof.
  unfold Volume.search_end.
  destruct ((bad_from =? 0) && (bad_to =? 0)) eqn:Hz;
    [|f_equal; lia].
  apply andb_true_iff in Hz as [_ Hs]. apply Z.eqb_eq in Hs. subst bad_to.
  replace (chapterLimit + chapterLimit - 1)
    with (0 - 0 + chapterLimit - 1 + 1 * chapterLimit) by lia.
  rewrite Z.mod_add by lia. reflexivity.
Qed.

Lemma impl_unfold fuel maxBadChapters lowest highest :
  (Z.to_nat chapterLimit < fuel)%nat ->
  findVolumeChapterBoundariesImpl ASSERT probeFunc fuel chapterLimit maxBadChapters
    lowest highest
  = match scan_loop probeFunc fuel chapterLimit maxBadChapters
            search_end UINT64_MAX 0 with
    | None => None
    | Some (inl result) => Some (result, lowest, highest)
    | Some (inr top) => Some (UDS_SUCCESS, vcn lowest_chapter, top)
    end.
Proof.
  intros Hfuel.
  destruct (search_reaches_lowest fuel Hfuel) as (H0 & Hsearch & Hlow & Hok).
  unfold findVolumeChapterBoundariesImpl.
  destruct (Z.eqb_spec chapterLimit 0); [lia|].
  rewrite H0. cbn [is_success negb]. rewrite Hsearch.
  rewrite Z.eqb_refl, assert_holds. cbn [is_success negb].
  rewrite Hlow. cbn [is_success negb]. rewrite Hok.
  cbn [negb]. rewrite assert_holds. reflexivity.
Qed.

(** The two chapters the search reports hold the least and the greatest
    virtual chapter number of the good chapters. *)
Lemma reported_are_extremes c :
  0 <= c < chapterLimit -> vcn c <> UINT64_MAX ->
  vcn lowest_chapter <= vcn c <= vcn highest_chapter.
Proof.
  intros Hc Hgood.
  assert (Hside : c < bad_from \/ bad_to <= c).
  { destruct (Z.lt_ge_cases c bad_from); [left; assumption|].
    destruct (Z.lt_ge_cases c bad_to); [|right; assumption].
    exfalso. apply Hgood. apply run_bad. lia. }
  unfold Volume.lowest_chapter, Volume.highest_chapter. split.
  - destruct (Z.eq_dec bad_to chapterLimit) as [Hs|Hs].
    + rewrite Hs, Z.mod_same by lia. apply high_part; lia.
    + rewrite Z.mod_small by lia. destruct Hside.
      * apply Z.lt_le_incl. apply low_below_high; lia.
      * apply low_part; lia.
  - destruct (Z.eq_dec bad_from 0) as [Hp|Hp].
    + rewrite Hp.
      replace (0 + chapterLimit - 1) with (chapterLimit - 1) by lia.
      rewrite Z.mod_small by lia. apply low_part; lia.
    + replace (bad_from + chapterLimit - 1)
        with (bad_from - 1 + 1 * chapterLimit) by lia.
      rewrite Z.mod_add, Z.mod_small by lia. destruct Hside.
      * apply high_part; lia.
      * apply Z.lt_le_incl. apply low_below_high; lia.
Qed.

(** C1, as amended.  Take a volume of at most 2^31 chapters with at least
    one good chapter, whose good chapters carry increasing virtual chapter
    numbers around the circle and whose bad chapters form one run
    [bad_from, bad_to) of the chapter array that ends where the lowest
    number starts.  If the run has fewer than [maxBadChapters] chapters,
    [findVolumeChapterBoundariesImpl] returns [UDS_SUCCESS], the lowest
    and the highest number of the good chapters; these are the minimum and
    maximum over all good chapters.  If the run has more than
    [maxBadChapters] chapters, it returns [UDS_CORRUPT_COMPONENT] and leaves
    the out-parameters alone. *)
Theorem boundary_search_adjacent_run (maxBadChapters lowest highest : Z)
    (fuel : nat) :
  in_u32 maxBadChapters ->
  (Z.to_nat chapterLimit < fuel)%nat ->
  (bad_to - bad_from < maxBadChapters ->
     findVolumeChapterBoundariesImpl ASSERT probeFunc fuel chapterLimit
       maxBadChapters lowest highest
     = Some (UDS_SUCCESS, vcn lowest_chapter, vcn highest_chapter))
  /\ (vcn lowest_chapter <> UINT64_MAX /\ vcn highest_chapter <> UINT64_MAX
      /\ forall c, 0 <= c < chapterLimit -> vcn c <> UINT64_MAX ->
                   vcn lowest_chapter <= vcn c <= vcn highest_chapter)
  /\ (maxBadChapters < bad_to - bad_from ->
        findVolumeChapterBoundariesImpl ASSERT probeFunc fuel chapterLimit
          maxBadChapters lowest highest
        = Some (UDS_CORRUPT_COMPONENT, lowest, highest)).
Proof.
  intros [Hmax0 _] Hfuel. pose proof search_end_range as Hk.
  split; [|split].
  - intros Hfew. rewrite impl_unfold by exact Hfuel.
    rewrite (scan_loop_tolerates maxBadChapters Hfew);
      auto using scan_start_position; lia.
  - destruct lowest_chapter_good as [_ Hl].
    destruct highest_chapter_good as [_ Hh].
    repeat split; try lia; apply reported_are_extremes; assumption.
  - intros Hmany. rewrite impl_unfold by exact Hfuel.
    rewrite (scan_loop_gives_up maxBadChapters);
      auto using scan_start_position; lia.
Qed.

End BoundarySearch.

(** Settling a comparison of numerals inside a case analysis. *)
Ltac numeral_case :=
  first [ lia
        | vm_compute; repeat split;
          first [reflexivity | discriminate | intros; discriminate] ].

Ltac chapter_cases c :=
  let H := fresh "Hcases" in
  assert (H : c = 0 \/ c = 1 \/ c = 2 \/ c = 3 \/ c = 4 \/ c = 5) by lia;
  destruct H as [->|[->|[->|[->|[->| ->]]]]].

Lemma boundary_search_adjacent_run_witness :
  (in_u32 MAX_BAD_CHAPTERS /\ (Z.to_nat 6 < 7)%nat
   /\ 4 - 2 < MAX_BAD_CHAPTERS)
  /\ findVolumeChapterBoundariesImpl VolumeSamples.permassert
       (table_probe VolumeSamples.run_at_the_seam) 7 6 MAX_BAD_CHAPTERS 0 0
     = Some (UDS_SUCCESS, 4, 7).
Proof.
  assert (Hmax : in_u32 MAX_BAD_CHAPTERS) by (unfold in_u32; numeral_case).
  assert (Hfuel : (Z.to_nat 6 < 7)%nat) by (vm_compute; lia).
  assert (Hfew : 4 - 2 < MAX_BAD_CHAPTERS) by numeral_case.
  split; [tauto|].
  refine (proj1 (boundary_search_adjacent_run VolumeSamples.permassert
                   (table_probe VolumeSamples.run_at_the_seam)
                   (VolumeSamples.value_at VolumeSamples.run_at_the_seam)
                   6 2 4 _ _ _ _ _ _ _ _ _ _ MAX_BAD_CHAPTERS 0 0 7%nat
                   Hmax Hfuel) Hfew).
  - reflexivity.
  - intros c old Hc. reflexivity.
  - lia.
  - lia.
  - lia.
  - intros c Hc. chapter_cases c; numeral_case.
  - intros c Hc Hside. chapter_cases c; numeral_case.
  - intros c d Hc Hd. chapter_cases c; chapter_cases d; numeral_case.
  - intros c d Hc Hd. chapter_cases c; chapter_cases d; numeral_case.
  - intros c d Hc Hd. chapter_cases c; chapter_cases d; numeral_case.
Defined.

(** C1 as stated fails: on six chapters holding 6, 7, 2, -, 4, 5 (one bad
    chapter, good values increasing around the circle from 2 to 7) the
    search returns [UDS_SUCCESS] with lowest 4 and highest 2. *)
Lemma boundary_search_counterexample :
  spec_accepts VolumeSamples.stray_bad_chapter = true
  /\ spec_lowest VolumeSamples.stray_bad_chapter = 2
  /\ spec_highest VolumeSamples.stray_bad_chapter = 7
  /\ findVolumeChapterBoundariesImpl VolumeSamples.permassert
       (table_probe VolumeSamples.stray_bad_chapter) 7 6 MAX_BAD_CHAPTERS 0 0
     = Some (UDS_SUCCESS, 4, 2).
Proof. repeat split; vm_compute; reflexivity. Qed.

(** A run of exactly [MAX_BAD_CHAPTERS] bad chapters before the lowest
    number is given up on; one chapter fewer is tolerated. *)
Lemma run_of_max_bad_chapters :
  findVolumeChapterBoundariesImpl VolumeSamples.permassert (table_probe (VolumeSamples.leading_run 100))
    103 102 MAX_BAD_CHAPTERS 0 0
  = Some (UDS_CORRUPT_COMPONENT, 0, 0)
  /\ findVolumeChapterBoundariesImpl VolumeSamples.permassert
       (table_probe (VolumeSamples.leading_run 99))
       102 101 MAX_BAD_CHAPTERS 0 0
     = Some (UDS_SUCCESS, 99, 100).
Proof. split; vm_compute; reflexivity. Qed.

(** A search that has ended keeps its result when given more fuel. *)
Lemma search_loop_more_fuel probe (extra : nat) :
  forall fuel first l r result,
    search_loop probe fuel first l r = Some result ->
    search_loop probe (fuel + extra) first l r = Some result.
Proof.
  induction fuel as [|fuel IH]; intros first l r result Hdone;
    [discriminate|].
  change (S fuel + extra)%nat with (S (fuel + extra)).
  cbn [search_loop] in *.
  destruct (l <? r); [|exact Hdone].
  destruct (probe _ _) as [status value].
  destruct (negb (is_success status)); [exact Hdone|].
  destruct (first <=? value); apply IH; exact Hdone.
Qed.

(** Why the chapter count is bounded: with [2^32 - 1] good chapters in
    plain increasing order, [leftChapter + rightChapter] wraps, the search
    walks [leftChapter] down to 1 and stays there. *)
Lemma search_stuck_at_one fuel :
  search_loop identity_probe fuel 0 1 (2 ^ 32 - 1) = None.
Proof. induction fuel as [|fuel IH]; [reflexivity | exact IH]. Qed.

Lemma search_wraps_on_huge_volume ASSERT fuel low high :
  findVolumeChapterBoundariesImpl ASSERT identity_probe fuel (2 ^ 32 - 1)
    MAX_BAD_CHAPTERS low high = None.
Proof.
  assert (Hloop : search_loop identity_probe fuel 0 0 (2 ^ 32 - 1) = None).
  { destruct (search_loop identity_probe fuel 0 0 (2 ^ 32 - 1))
      as [result|] eqn:Hdone; [|reflexivity].
    apply (search_loop_more_fuel identity_probe 32) in Hdone.
    rewrite Nat.add_comm in Hdone.
    change (search_loop identity_probe (32 + fuel) 0 0 (2 ^ 32 - 1))
      with (search_loop identity_probe fuel 0 1 (2 ^ 32 - 1)) in Hdone.
    rewrite search_stuck_at_one in Hdone. discriminate. }
  unfold findVolumeChapterBoundariesImpl.
  change (2 ^ 32 - 1 =? 0) with false. cbv iota.
  change (identity_probe 0 UINT64_MAX) with (UDS_SUCCESS, 0).
  cbn [is_success negb]. rewrite Hloop. reflexivity.
Qed.

(** A bad run that wraps around the end of the chapters can send the
    binary search past the only good chapter. *)
Lemma wrapped_run_trips_assertion :
  findVolumeChapterBoundariesImpl VolumeSamples.permassert (table_probe VolumeSamples.wrapped_run)
    7 6 MAX_BAD_CHAPTERS 0 0
  = Some (UDS_ASSERTION_FAILED, 0, 0).
Proof. vm_compute. reflexivity. Qed.

End VolumeFacts.

(** ** The packer: what becomes of a batch *)

Module PackerFacts.
Import UInt UIntFacts StatusCodes CompressedBlock Packer.

(** Writing at or after position [k] leaves the first [k] bytes alone. *)
Lemma write_bytes_prefix (buffer : list Z) (at_ : Z) (bytes : list Z) (k : nat) :
  (k <= Z.to_nat at_)%nat -> (k <= length buffer)%nat ->
  take k (write_bytes buffer at_ bytes) = take k buffer
  /\ (k <= length (write_bytes buffer at_ bytes))%nat.
Proof.
  intros Hat Hlen. unfold write_bytes.
  assert (Hk : (k <= length (take (Z.to_nat at_) buffer))%nat)
    by (rewrite length_take; lia).
  split.
  - rewrite take_app_le by exact Hk. rewrite take_take.
    f_equal. lia.
  - rewrite length_app. lia.
Qed.

Lemma initialized_block (block : list Z) (size : Z) :
  take 10 (vdo_initialize_compressed_block block size)
  = [1; 0; 0; 0; 0; 0; 0; 0] ++ le16_bytes size
  /\ (10 <= length (vdo_initialize_compressed_block block size))%nat.
Proof.
  unfold vdo_initialize_compressed_block, write_bytes.
  change (Z.to_nat 0) with 0%nat. change (Z.to_nat (sizes_at 0)) with 8%nat.
  change (le32_bytes (major_version COMPRESSED_BLOCK_1_0)
          ++ le32_bytes (minor_version COMPRESSED_BLOCK_1_0))
    with [1; 0; 0; 0; 0; 0; 0; 0].
  rewrite take_0. cbn [app take length le16_bytes]. split; [reflexivity|].
  cbn [length]. rewrite length_app. cbn [length]. lia.
Qed.

Lemma put_fragment_prefix (block : list Z) (fragment offset size : Z)
    (data : list Z) :
  1 <= fragment -> 0 <= offset -> (10 <= length block)%nat ->
  take 10 (vdo_put_compressed_block_fragment block fragment offset data size)
  = take 10 block
  /\ (10 <= length (vdo_put_compressed_block_fragment block fragment offset
                      data size))%nat.
Proof.
  intros Hfragment Hoffset Hlen. unfold vdo_put_compressed_block_fragment.
  destruct (write_bytes_prefix block (sizes_at fragment) (le16_bytes size) 10)
    as [Hsizes Hlen1]; [unfold sizes_at; lia | exact Hlen |].
  destruct (write_bytes_prefix
              (write_bytes block (sizes_at fragment) (le16_bytes size))
              (COMPRESSED_BLOCK_1_0_SIZE + offset)
              (take (Z.to_nat size) data) 10) as [Hdata Hlen2];
    [unfold COMPRESSED_BLOCK_1_0_SIZE, VDO_MAX_COMPRESSION_SLOTS,
       VDO_MAPPING_STATE_COMPRESSED_MAX, VDO_MAPPING_STATE_COMPRESSED_BASE; lia
    | exact Hlen1 |].
  split; [congruence | exact Hlen2].
Qed.

Section Facts.

Variable may_write : data_vio -> bool.
Variable prepare : data_vio -> list Z -> vdo_status.

Abbreviation remove_loop := (remove_loop may_write).
Abbreviation remove_from_bin := (remove_from_bin may_write).
Abbreviation pack_loop := (pack_loop may_write).
Abbreviation write_bin := (write_bin may_write prepare).
Abbreviation batch_of := (batch_of may_write).

Lemma remove_loop_none stack canceled :
  List.filter may_write stack = [] ->
  exists canceled', remove_loop stack canceled = (None, [], canceled').
Proof.
  revert canceled. induction stack as [|v rest IH]; intros canceled Hnone.
  - exists canceled. reflexivity.
  - simpl in *. destruct (may_write v); [discriminate|]. apply IH. exact Hnone.
Qed.

Lemma remove_loop_some stack canceled v vs :
  List.filter may_write stack = v :: vs ->
  exists rest canceled',
    remove_loop stack canceled
    = (Some (set_slot v (compression_slot v) false), rest, canceled')
    /\ List.filter may_write rest = vs
    /\ (length rest < length stack)%nat.
Proof.
  revert canceled. induction stack as [|w rest IH]; intros canceled Hsome;
    [discriminate|].
  simpl in *. destruct (may_write w).
  - injection Hsome as -> <-. exists rest, canceled. repeat split. lia.
  - destruct (IH (add_to_bin canceled w) Hsome)
      as (rest' & canceled' & Hloop & Hrest & Hlen).
    exists rest', canceled'. rewrite Hloop. repeat split; [exact Hrest | lia].
Qed.

Lemma remove_from_bin_none p bin :
  batch_of bin = [] ->
  exists p' bin',
    remove_from_bin p bin = (None, p', bin')
    /\ read_only p' = read_only p.
Proof.
  intros Hnone. unfold Packer.remove_from_bin.
  destruct (remove_loop_none _ (canceled_bin p) Hnone) as [canceled' ->].
  eexists _, _. split; reflexivity.
Qed.

Lemma remove_from_bin_some p bin v vs :
  batch_of bin = v :: vs ->
  exists p' bin',
    remove_from_bin p bin
    = (Some (set_slot v (compression_slot v) false), p', bin')
    /\ batch_of bin' = vs
    /\ (length (incoming bin') < length (incoming bin))%nat
    /\ read_only p' = read_only p.
Proof.
  intros Hsome. unfold Packer.remove_from_bin.
  destruct (remove_loop_some _ (canceled_bin p) _ _ Hsome)
    as (rest & canceled' & -> & Hrest & Hlen).
  eexists _, _. split; [reflexivity|]. unfold Packer.batch_of.
  cbn [incoming read_only with_canceled_bin].
  rewrite length_rev in Hlen. rewrite rev_involutive, length_rev.
  repeat split; assumption.
Qed.

(** Packing the rest of a batch: one slot for each data_vio, the header
    bytes of the block untouched. *)
Lemma pack_loop_counts vs :
  forall fuel p bin st,
    batch_of bin = vs ->
    (length (incoming bin) < fuel)%nat ->
    1 <= slot st -> slot st + Z.of_nat (length vs) < 2 ^ 16 ->
    0 <= offset st -> (10 <= length (block st))%nat ->
    exists p' bin' st',
      pack_loop fuel p bin st = Some (p', bin', st')
      /\ slot st' = slot st + Z.of_nat (length vs)
      /\ take 10 (block st') = take 10 (block st)
      /\ read_only p' = read_only p.
Proof.
  induction vs as [|v vs IH];
    intros fuel p bin st Hbatch Hfuel Hslot Hroom Hoffset Hlen;
    (destruct fuel as [|fuel]; [lia|]); cbn [Packer.pack_loop].
  - destruct (remove_from_bin_none p bin Hbatch) as (p' & bin' & -> & Hro).
    exists p', bin', st. repeat split; [simpl; lia | exact Hro].
  - destruct (remove_from_bin_some p bin v vs Hbatch)
      as (p' & bin' & -> & Hrest & Hshorter & Hro).
    cbn [length] in Hroom.
    destruct (put_fragment_prefix (block st) (slot st) (offset st)
                (compression_size (set_slot v (compression_slot v) false))
                (compression_data (set_slot v (compression_slot v) false)))
      as [Hprefix Hlen']; try assumption.
    destruct (IH fuel p' bin'
                (pack_fragment st (set_slot v (compression_slot v) false)))
      as (p'' & bin'' & st' & Hloop & Hslots & Hblock & Hro');
      try assumption; cbn [pack_fragment slot offset block].
    + lia.
    + rewrite u16_small by lia. lia.
    + rewrite u16_small by lia. lia.
    + apply wrap_range. lia.
    + exists p'', bin'', st'. rewrite Hloop.
      cbn [pack_fragment slot block] in Hslots, Hblock.
      rewrite u16_small in Hslots by lia.
      repeat split; [cbn [length]; lia | congruence | congruence].
Qed.

(** C6, as amended.  Let the batch be the data_vios of the bin that may
    still be written compressed.  (1) A batch of exactly one: packing is
    aborted for it and no write is submitted.  (2) A batch of two or more
    (fewer than 2^16): a compressed block is initialised with version 1.0
    and the agent's fragment size, every data_vio of the batch gets a
    slot, and the block is submitted once, unless the VDO is read-only,
    which continues the agent with [VDO_READ_ONLY], or preparing the write
    fails, which continues the agent with that error; in those two cases
    no write is submitted. *)
Theorem write_bin_batches (p : packer) (bin : packer_bin) :
  (forall agent, batch_of bin = [agent] ->
     exists r,
       write_bin p bin = Some r
       /\ wb_calls r = [set_vio_compression_done (vio_id agent);
                        continue_write_after_compression (vio_id agent)])
  /\ (forall agent clients,
        batch_of bin = agent :: clients -> clients <> [] ->
        Z.of_nat (length (batch_of bin)) < 2 ^ 16 ->
        0 <= compression_size agent ->
        exists r st,
          write_bin p bin = Some r
          /\ wb_batch r = Some st
          /\ slot st = Z.of_nat (length (batch_of bin))
          /\ take 10 (block st)
             = [1; 0; 0; 0; 0; 0; 0; 0] ++ le16_bytes (compression_size agent)
          /\ wb_calls r
             = if read_only p
               then [continue_data_vio (vio_id agent) VDO_READ_ONLY]
               else
                 let result := prepare (set_slot agent 0 false) (block st) in
                 if is_success result
                 then [submit_data_vio_io (vio_id agent) (block st)]
                 else [continue_data_vio (vio_id agent) result]).
Proof.
  split.
  - intros agent Hbatch. unfold Packer.write_bin.
    destruct (remove_from_bin_some p bin agent [] Hbatch)
      as (p1 & bin1 & -> & Hrest & _ & _).
    cbn [Packer.pack_loop].
    destruct (remove_from_bin_none p1 bin1 Hrest) as (p2 & bin2 & -> & _).
    cbn [slot]. eexists. split; reflexivity.
  - intros agent clients Hbatch Hclients Hmany Hsize.
    unfold Packer.write_bin.
    destruct (remove_from_bin_some p bin agent clients Hbatch)
      as (p1 & bin1 & -> & Hrest & _ & Hro1).
    rewrite Hbatch in Hmany. cbn [length] in Hmany.
    set (agent' := set_slot (set_slot agent (compression_slot agent) false) 0
                     (in_bin (set_slot agent (compression_slot agent) false))).
    destruct (initialized_block (scratch_block agent')
                (compression_size agent')) as [Hinit Hlen].
    set (st0 := {| block := vdo_initialize_compressed_block
                              (scratch_block agent') (compression_size agent');
                   next_in_batch := []; offset := compression_size agent';
                   slot := 1 |}).
    destruct (pack_loop_counts clients (S (length (incoming bin1))) p1 bin1 st0)
      as (p2 & bin2 & st & Hloop & Hslots & Hblock & Hro2);
      try assumption; cbn [st0 slot offset block]; try lia.
    rewrite Hloop. cbn [st0 slot block] in Hslots, Hblock.
    assert (Hslot : slot st = Z.of_nat (length (batch_of bin)))
      by (rewrite Hbatch; cbn [length]; lia).
    assert (Hnot1 : (slot st =? 1) = false).
    { apply Z.eqb_neq. destruct clients; [congruence|]. cbn [length] in *. lia. }
    rewrite Hnot1. rewrite Hro2, Hro1.
    assert (Hhead : take 10 (block st)
                    = [1; 0; 0; 0; 0; 0; 0; 0]
                      ++ le16_bytes (compression_size agent))
      by (rewrite Hblock; exact Hinit).
    destruct (read_only p).
    + eexists _, st. repeat split; first [reflexivity | assumption].
    + assert (Hagent : agent' = set_slot agent 0 false) by reflexivity.
      clearbody agent'. subst agent'. cbv zeta.
      destruct (is_success (prepare (set_slot agent 0 false) (block st)))
        eqn:Hprepared;
        cbn [negb]; eexists _, st;
        repeat split; try first [reflexivity | assumption];
        cbn [wb_calls]; rewrite Hprepared; reflexivity.
Qed.

End Facts.

Lemma write_bin_batches_witness :
  (batch_of PackerSamples.all_may_write
     (PackerSamples.bin_of [PackerSamples.fragment 1 100])
   = [PackerSamples.fragment 1 100]
   /\ option_map wb_calls
        (write_bin PackerSamples.all_may_write PackerSamples.io_is_ready
           (PackerSamples.packer_in_mode false)
           (PackerSamples.bin_of [PackerSamples.fragment 1 100]))
      = Some [set_vio_compression_done 1; continue_write_after_compression 1])
  /\ (batch_of PackerSamples.even_may_write
        (PackerSamples.bin_of
           [PackerSamples.fragment 2 100; PackerSamples.fragment 3 200;
            PackerSamples.fragment 4 300])
      = [PackerSamples.fragment 4 300; PackerSamples.fragment 2 100]
      /\ exists block,
           option_map wb_calls
             (write_bin PackerSamples.even_may_write PackerSamples.io_is_ready
                (PackerSamples.packer_in_mode false)
                (PackerSamples.bin_of
                   [PackerSamples.fragment 2 100; PackerSamples.fragment 3 200;
                    PackerSamples.fragment 4 300]))
           = Some [submit_data_vio_io 4 block]
           /\ take 10 block = [1; 0; 0; 0; 0; 0; 0; 0; 44; 1]).
Proof.
  split.
  - assert (Hbatch : batch_of PackerSamples.all_may_write
                       (PackerSamples.bin_of [PackerSamples.fragment 1 100])
                     = [PackerSamples.fragment 1 100]) by reflexivity.
    split; [exact Hbatch|].
    destruct (proj1 (write_bin_batches PackerSamples.all_may_write
                       PackerSamples.io_is_ready
                       (PackerSamples.packer_in_mode false)
                       (PackerSamples.bin_of [PackerSamples.fragment 1 100]))
                (PackerSamples.fragment 1 100) Hbatch) as (r & -> & Hcalls).
    cbn [option_map]. rewrite Hcalls. reflexivity.
  - assert (Hbatch : batch_of PackerSamples.even_may_write
                       (PackerSamples.bin_of
                          [PackerSamples.fragment 2 100;
                           PackerSamples.fragment 3 200;
                           PackerSamples.fragment 4 300])
                     = [PackerSamples.fragment 4 300;
                        PackerSamples.fragment 2 100]) by reflexivity.
    split; [exact Hbatch|].
    destruct (proj2 (write_bin_batches PackerSamples.even_may_write
                       PackerSamples.io_is_ready
                       (PackerSamples.packer_in_mode false)
                       (PackerSamples.bin_of
                          [PackerSamples.fragment 2 100;
                           PackerSamples.fragment 3 200;
                           PackerSamples.fragment 4 300]))
                (PackerSamples.fragment 4 300) [PackerSamples.fragment 2 100]
                Hbatch ltac:(discriminate)
                ltac:(rewrite Hbatch; vm_compute; reflexivity)
                ltac:(vm_compute; discriminate))
      as (r & st & -> & _ & _ & Hhead & Hcalls).
    exists (block st). cbn [option_map]. rewrite Hcalls.
    split; [reflexivity | exact Hhead].
Defined.

(** C6 as stated fails: with the VDO in read-only mode a batch of two is
    not written; the agent is continued with [VDO_READ_ONLY]. *)
Lemma write_bin_counterexample :
  length (batch_of PackerSamples.all_may_write
            (PackerSamples.bin_of
               [PackerSamples.fragment 1 100; PackerSamples.fragment 2 200]))
  = 2%nat
  /\ option_map wb_calls
       (write_bin PackerSamples.all_may_write PackerSamples.io_is_ready
          (PackerSamples.packer_in_mode true)
          (PackerSamples.bin_of
             [PackerSamples.fragment 1 100; PackerSamples.fragment 2 200]))
     = Some [continue_data_vio 2 VDO_READ_ONLY]
  /\ existsb is_submit [continue_data_vio 2 VDO_READ_ONLY] = false.
Proof. repeat split; vm_compute; reflexivity. Qed.

End PackerFacts.

(** ** The pages of a chapter and the probe of a chapter *)

Module VolumePageFacts.
Import UInt UIntFacts Volume VolumePages VolumeFacts.

Lemma to_int_small x : 0 <= x < 2 ^ 31 -> to_int x = x.
Proof. intros H. unfold to_int. destruct (Z.ltb_spec x (2 ^ 31)); lia. Qed.

(** X1.  A page of a chapter is found again from its physical page: for
    a chapter and a page within the chapter whose physical page fits an
    [int], [mapToPhysicalPage] is at least 1 (page 0 is the header page),
    [mapToChapterNumber] and [mapToPageNumber] give the chapter and the
    page back, and [isRecordPage] holds exactly when the page lies past
    the index pages of the chapter. *)
Theorem physical_page_round_trip (g : page_geometry) (chapter page : Z) :
  0 <= chapter -> 0 <= page < pages_per_chapter g ->
  1 + pages_per_chapter g * chapter + page < 2 ^ 31 ->
  1 <= mapToPhysicalPage g chapter page
  /\ mapToChapterNumber g (mapToPhysicalPage g chapter page) = chapter
  /\ mapToPageNumber g (mapToPhysicalPage g chapter page) = page
  /\ isRecordPage g (mapToPhysicalPage g chapter page)
     = (index_pages_per_chapter (base g) <=? page).
Proof.
  intros Hchapter Hpage Hfits.
  assert (Hpos : 0 <= pages_per_chapter g * chapter) by nia.
  assert (Hphysical : mapToPhysicalPage g chapter page
                      = 1 + pages_per_chapter g * chapter + page).
  { unfold mapToPhysicalPage. rewrite u32_small by lia.
    apply to_int_small. lia. }
  unfold mapToChapterNumber, mapToPageNumber, isRecordPage.
  rewrite Hphysical.
  replace (1 + pages_per_chapter g * chapter + page - 1)
    with (pages_per_chapter g * chapter + page) by lia.
  rewrite u32_small by lia.
  assert (Hdiv : (pages_per_chapter g * chapter + page) / pages_per_chapter g
                 = chapter)
    by (symmetry; apply (Z.div_unique_pos _ _ chapter page); lia).
  assert (Hmod : (pages_per_chapter g * chapter + page) mod pages_per_chapter g
                 = page)
    by (symmetry; apply (Z.mod_unique_pos _ _ chapter page); lia).
  rewrite Hdiv, Hmod. repeat split; lia.
Qed.

Lemma physical_page_round_trip_witness :
  (0 <= 5 /\ 0 <= 30 < pages_per_chapter VolumePageSamples.geometry_256
   /\ 1 + pages_per_chapter VolumePageSamples.geometry_256 * 5 + 30 < 2 ^ 31)
  /\ mapToPhysicalPage VolumePageSamples.geometry_256 5 30 = 1311
  /\ mapToChapterNumber VolumePageSamples.geometry_256 1311 = 5
  /\ mapToPageNumber VolumePageSamples.geometry_256 1311 = 30
  /\ isRecordPage VolumePageSamples.geometry_256 1311 = true.
Proof.
  assert (H1 : 0 <= 5) by lia.
  assert (H2 : 0 <= 30 < pages_per_chapter VolumePageSamples.geometry_256)
    by (simpl; lia).
  assert (H3 : 1 + pages_per_chapter VolumePageSamples.geometry_256 * 5 + 30
               < 2 ^ 31) by (simpl; lia).
  split; [tauto|].
  assert (Hpage : mapToPhysicalPage VolumePageSamples.geometry_256 5 30 = 1311)
    by reflexivity.
  split; [exact Hpage|].
  rewrite <- Hpage.
  exact (proj2 (physical_page_round_trip VolumePageSamples.geometry_256 5 30
                  H1 H2 H3)).
Defined.

(** *** The probe of a chapter *)

(** What the loop over the index pages has checked when it runs to its
    end. *)
Lemma probe_index_pages_sound vol chapter (count : nat) :
  forall i expected last v,
    probe_index_pages vol chapter count i expected last = inr v ->
    (last <> UINT64_MAX -> v = last)
    /\ ((0 < count)%nat ->
        virtual_chapter_number
          (index_page vol chapter (i + Z.of_nat count - 1)) = v)
    /\ forall k, 0 <= k < Z.of_nat count ->
         index_page_status vol chapter (i + k) = UDS_SUCCESS
         /\ validate_chapter_index_page vol (index_page vol chapter (i + k))
            = UDS_SUCCESS
         /\ (virtual_chapter_number (index_page vol chapter (i + k)) = v
             \/ virtual_chapter_number (index_page vol chapter (i + k))
                = UINT64_MAX)
         /\ lowest_list_number (index_page vol chapter (i + k))
            = (if k =? 0 then expected
               else u32 (highest_list_number
                           (index_page vol chapter (i + k - 1)) + 1)).
Proof.
  induction count as [|count IH]; intros i expected last v Hrun.
  - simpl in Hrun. injection Hrun as <-.
    split; [reflexivity|]. split; [lia|]. intros k Hk. lia.
  - cbn [probe_index_pages] in Hrun.
    unfold index_page_status, index_page in *.
    destruct (getPage vol chapter i) as [result page] eqn:Hpage.
    destruct (is_success result) eqn:Hread; cbn [negb] in Hrun;
      [|discriminate].
    apply is_success_iff in Hread. subst result.
    destruct (Z.eqb_spec last UINT64_MAX) as [Hfirst|Hset];
      cbn [negb andb] in Hrun.
    + destruct (Z.eqb_spec expected (lowest_list_number page)) as [Hlist|];
        cbn [negb] in Hrun; [|discriminate].
      destruct (is_success (validate_chapter_index_page vol page)) eqn:Hvalid;
        cbn [negb] in Hrun; [|discriminate].
      apply is_success_iff in Hvalid.
      destruct (IH _ _ _ _ Hrun) as (Hkept & Hlast & Hpages).
      split; [intros Hne; contradiction|]. split.
      * intros _. destruct count as [|count].
        -- simpl in Hrun. injection Hrun as <-.
           replace (i + Z.of_nat 1 - 1) with i by lia.
           rewrite Hpage. reflexivity.
        -- replace (i + Z.of_nat (S (S count)) - 1)
             with (i + 1 + Z.of_nat (S count) - 1) by lia.
           apply Hlast. lia.
      * intros k Hk. destruct (Z.eq_dec k 0) as [->|Hk0].
        -- rewrite Z.add_0_r, Hpage. cbn [fst snd].
           repeat split; try assumption; [|symmetry; exact Hlist].
           destruct (Z.eq_dec (virtual_chapter_number page) UINT64_MAX)
             as [Hmax|Hgood]; [right; exact Hmax|].
           left. symmetry. apply Hkept. exact Hgood.
        -- destruct (Hpages (k - 1) ltac:(lia)) as (Hs & Hv & Hn & Hl).
           replace (i + 1 + (k - 1)) with (i + k) in * by lia.
           repeat split; try assumption.
           rewrite Hl. destruct (Z.eqb_spec k 0) as [|_]; [contradiction|].
           destruct (Z.eqb_spec (k - 1) 0) as [Hk1|Hk1].
           ++ replace (i + k - 1) with i by lia. rewrite Hpage. reflexivity.
           ++ replace (i + k - 1 - 1 + 1) with (i + k - 1) by lia.
              replace (i + 1 + (k - 1) - 1) with (i + k - 1) by lia.
              reflexivity.
    + destruct (Z.eqb_spec (virtual_chapter_number page) last) as [Hsame|];
        cbn [negb] in Hrun; [|discriminate].
      destruct (Z.eqb_spec expected (lowest_list_number page)) as [Hlist|];
        cbn [negb] in Hrun; [|discriminate].
      destruct (is_success (validate_chapter_index_page vol page)) eqn:Hvalid;
        cbn [negb] in Hrun; [|discriminate].
      apply is_success_iff in Hvalid.
      destruct (IH _ _ _ _ Hrun) as (Hkept & Hlast & Hpages).
      specialize (Hkept Hset). subst v.
      split; [reflexivity|]. split.
      * intros _. destruct count as [|count].
        -- replace (i + Z.of_nat 1 - 1) with i by lia.
           rewrite Hpage. exact Hsame.
        -- replace (i + Z.of_nat (S (S count)) - 1)
             with (i + 1 + Z.of_nat (S count) - 1) by lia.
           apply Hlast. lia.
      * intros k Hk. destruct (Z.eq_dec k 0) as [->|Hk0].
        -- rewrite Z.add_0_r, Hpage. cbn [fst snd].
           repeat split; try assumption; [left; exact Hsame|].
           symmetry; exact Hlist.
        -- destruct (Hpages (k - 1) ltac:(lia)) as (Hs & Hv & Hn & Hl).
           replace (i + 1 + (k - 1)) with (i + k) in * by lia.
           repeat split; try assumption.
           rewrite Hl. destruct (Z.eqb_spec k 0) as [|_]; [contradiction|].
           destruct (Z.eqb_spec (k - 1) 0) as [Hk1|Hk1].
           ++ replace (i + k - 1) with i by lia. rewrite Hpage. reflexivity.
           ++ replace (i + 1 + (k - 1) - 1) with (i + k - 1) by lia.
              reflexivity.
Qed.

(** An early return of the loop is a failure. *)
Lemma probe_index_pages_stop vol chapter (count : nat) :
  forall i expected last result,
    probe_index_pages vol chapter count i expected last = inl result ->
    is_success result = false.
Proof.
  induction count as [|count IH]; intros i expected last result Hrun;
    [discriminate|].
  cbn [probe_index_pages] in Hrun.
  destruct (getPage vol chapter i) as [status page].
  destruct (is_success status) eqn:Hread; cbn [negb] in Hrun;
    [|injection Hrun as <-; exact Hread].
  destruct (negb (last =? UINT64_MAX)
            && negb (virtual_chapter_number page =? last));
    [injection Hrun as <-; reflexivity|].
  destruct (negb (expected =? lowest_list_number page));
    [injection Hrun as <-; reflexivity|].
  destruct (is_success (validate_chapter_index_page vol page)) eqn:Hvalid;
    cbn [negb] in Hrun; [|injection Hrun as <-; exact Hvalid].
  exact (IH _ _ _ _ Hrun).
Qed.

(** X2.  What a successful probe of a chapter has established: the number
    reported is not the sentinel, it is the number on the last index page,
    and taken modulo the chapters of the volume it is the chapter probed;
    every index page of the chapter was read and validated, carries that
    number or the sentinel, and starts at the delta list after the last
    one of the page before it (at list 0 on the first page). *)
Theorem probe_chapter_success (vol : volume) (chapter old v : Z) :
  probeChapter vol chapter old = (UDS_SUCCESS, v) ->
  v <> UINT64_MAX
  /\ chapter = v mod chapters_per_volume (vol_geometry vol)
  /\ 1 <= index_pages_per_chapter (vol_geometry vol)
  /\ virtual_chapter_number
       (index_page vol chapter (index_pages_per_chapter (vol_geometry vol) - 1))
     = v
  /\ forall k, 0 <= k < index_pages_per_chapter (vol_geometry vol) ->
       index_page_status vol chapter k = UDS_SUCCESS
       /\ validate_chapter_index_page vol (index_page vol chapter k)
          = UDS_SUCCESS
       /\ (virtual_chapter_number (index_page vol chapter k) = v
           \/ virtual_chapter_number (index_page vol chapter k) = UINT64_MAX)
       /\ lowest_list_number (index_page vol chapter k)
          = expected_list_number vol chapter k.
Proof.
  unfold probeChapter. intros Hprobe.
  set (pages := index_pages_per_chapter (vol_geometry vol)) in *.
  destruct (probe_index_pages vol chapter (Z.to_nat pages) 0 0 UINT64_MAX)
    as [result|lastVCN] eqn:Hrun.
  - injection Hprobe as Hresult _. subst result.
    apply probe_index_pages_stop in Hrun. discriminate Hrun.
  - destruct (Z.eqb_spec lastVCN UINT64_MAX) as [|Hgood];
      [discriminate Hprobe|].
    destruct (Z.eqb_spec chapter
                (lastVCN mod chapters_per_volume (vol_geometry vol)))
      as [Hphase|]; cbn [negb] in Hprobe; [|discriminate Hprobe].
    injection Hprobe as <-.
    destruct (probe_index_pages_sound _ _ _ _ _ _ _ Hrun)
      as (_ & Hlast & Hpages).
    assert (Hsome : 1 <= pages).
    { destruct (Z.le_gt_cases 1 pages) as [|Hnone]; [assumption|].
      replace (Z.to_nat pages) with 0%nat in Hrun by lia.
      simpl in Hrun. congruence. }
    repeat split; try assumption.
    + specialize (Hlast ltac:(lia)).
      replace (0 + Z.of_nat (Z.to_nat pages) - 1) with (pages - 1) in Hlast
        by lia.
      exact Hlast.
    + apply (Hpages k). lia.
    + apply (Hpages k). lia.
    + destruct (Hpages k ltac:(lia)) as (_ & _ & Hn & _). exact Hn.
    + destruct (Hpages k ltac:(lia)) as (_ & _ & _ & Hl).
      unfold expected_list_number. exact Hl.
Qed.

Lemma probe_chapter_success_witness :
  probeChapter VolumePageSamples.three_page_volume 3 0 = (UDS_SUCCESS, 7)
  /\ 7 <> UINT64_MAX
  /\ 3 = 7 mod 4
  /\ lowest_list_number (index_page VolumePageSamples.three_page_volume 3 2)
     = 20.
Proof.
  assert (Hprobe : probeChapter VolumePageSamples.three_page_volume 3 0
                   = (UDS_SUCCESS, 7)) by reflexivity.
  split; [exact Hprobe|].
  destruct (probe_chapter_success VolumePageSamples.three_page_volume 3 0 7
              Hprobe) as (Hgood & Hphase & _ & _ & Hpages).
  split; [exact Hgood|]. split; [exact Hphase|].
  destruct (Hpages 2 ltac:(simpl; lia)) as (_ & _ & _ & Hlist).
  rewrite Hlist. reflexivity.
Defined.

(** The loop runs to its end on index pages that agree. *)
Lemma probe_index_pages_complete vol chapter v (count : nat) :
  forall i expected last,
    last = UINT64_MAX \/ last = v ->
    (forall k, 0 <= k < Z.of_nat count ->
       index_page_status vol chapter (i + k) = UDS_SUCCESS
       /\ validate_chapter_index_page vol (index_page vol chapter (i + k))
          = UDS_SUCCESS
       /\ virtual_chapter_number (index_page vol chapter (i + k)) = v
       /\ lowest_list_number (index_page vol chapter (i + k))
          = (if k =? 0 then expected
             else u32 (highest_list_number
                         (index_page vol chapter (i + k - 1)) + 1))) ->
    probe_index_pages vol chapter count i expected last
    = inr (match count with O => last | S _ => v end).
Proof.
  induction count as [|count IH]; intros i expected last Hlast Hpages;
    [reflexivity|].
  cbn [probe_index_pages].
  destruct (Hpages 0 ltac:(lia)) as (Hread & Hvalid & Hvcn & Hlist).
  unfold index_page_status, index_page in *.
  rewrite Z.add_0_r in Hread, Hvalid, Hvcn, Hlist.
  destruct (getPage vol chapter i) as [status page] eqn:Hpage.
  cbn [fst snd] in Hread, Hvalid, Hvcn, Hlist.
  rewrite Hread, Hvalid, Hvcn, Hlist. cbn [is_success negb Z.eqb].
  rewrite Z.eqb_refl. cbn [negb].
  assert (Hcheck : negb (last =? UINT64_MAX) && negb (v =? last) = false).
  { destruct Hlast as [->| ->].
    - rewrite Z.eqb_refl. reflexivity.
    - rewrite Z.eqb_refl. apply andb_false_r. }
  rewrite Hcheck.
  rewrite (IH (i + 1) _ (if last =? UINT64_MAX then v else last)).
  - destruct count; [|reflexivity].
    destruct Hlast as [->| ->]; [reflexivity|].
    destruct (v =? UINT64_MAX); reflexivity.
  - right. destruct Hlast as [->| ->]; [reflexivity|].
    destruct (v =? UINT64_MAX); reflexivity.
  - intros k Hk. destruct (Hpages (k + 1) ltac:(lia)) as (Hr & Hv & Hn & Hl).
    replace (i + (k + 1)) with (i + 1 + k) in * by lia.
    repeat split; try assumption. rewrite Hl.
    destruct (Z.eqb_spec (k + 1) 0) as [|_]; [lia|].
    destruct (Z.eqb_spec k 0) as [->|_].
    + replace (i + 1 + 0 - 1) with i by lia. rewrite Hpage. reflexivity.
    + reflexivity.
Qed.

(** X3.  A chapter that is in order probes successfully: if each of its
    index pages (at least one) can be read and validated, carries the same
    virtual chapter number [v], which is not the sentinel and is in phase
    with the chapter, and starts at the delta list after the last one of
    the page before it, then [probeChapter] returns [UDS_SUCCESS] and
    reports [v]. *)
Theorem probe_chapter_complete (vol : volume) (chapter old v : Z) :
  v <> UINT64_MAX ->
  chapter = v mod chapters_per_volume (vol_geometry vol) ->
  1 <= index_pages_per_chapter (vol_geometry vol) ->
  (forall k, 0 <= k < index_pages_per_chapter (vol_geometry vol) ->
     index_page_status vol chapter k = UDS_SUCCESS
     /\ validate_chapter_index_page vol (index_page vol chapter k)
        = UDS_SUCCESS
     /\ virtual_chapter_number (index_page vol chapter k) = v
     /\ lowest_list_number (index_page vol chapter k)
        = expected_list_number vol chapter k) ->
  probeChapter vol chapter old = (UDS_SUCCESS, v).
Proof.
  intros Hgood Hphase Hsome Hpages. unfold probeChapter.
  rewrite (probe_index_pages_complete vol chapter v).
  - destruct (Z.to_nat (index_pages_per_chapter (vol_geometry vol)))
      eqn:Hcount; [lia|].
    destruct (Z.eqb_spec v UINT64_MAX); [contradiction|].
    rewrite <- Hphase, Z.eqb_refl. reflexivity.
  - left. reflexivity.
  - intros k Hk. rewrite Z.add_0_l.
    destruct (Hpages k ltac:(lia)) as (Hr & Hv & Hn & Hl).
    repeat split; assumption.
Qed.

Lemma probe_chapter_complete_witness :
  (6 <> UINT64_MAX
   /\ 2 = 6 mod chapters_per_volume
                  (vol_geometry VolumePageSamples.three_page_volume))
  /\ probeChapter VolumePageSamples.three_page_volume 2 0 = (UDS_SUCCESS, 6).
Proof.
  assert (Hgood : 6 <> UINT64_MAX) by (vm_compute; discriminate).
  assert (Hphase : 2 = 6 mod chapters_per_volume
                               (vol_geometry VolumePageSamples.three_page_volume))
    by reflexivity.
  split; [tauto|].
  apply (probe_chapter_complete VolumePageSamples.three_page_volume 2 0 6
           Hgood Hphase).
  - simpl. lia.
  - intros k Hk.
    assert (Hcases : k = 0 \/ k = 1 \/ k = 2) by (simpl in Hk; lia).
    destruct Hcases as [->|[->| ->]]; repeat split; reflexivity.
Defined.

(** A failed probe leaves [*virtualChapterNumber] alone; a successful one
    reports a number that is not the sentinel. *)
Lemma probe_chapter_outcome vol chapter old :
  (exists v, probeChapter vol chapter old = (UDS_SUCCESS, v)
             /\ v <> UINT64_MAX)
  \/ (exists result, probeChapter vol chapter old = (result, old)
                     /\ is_success result = false).
Proof.
  unfold probeChapter.
  destruct (probe_index_pages _ _ _ _ _ _) as [result|lastVCN] eqn:Hrun.
  - right. exists result. split; [reflexivity|].
    exact (probe_index_pages_stop _ _ _ _ _ _ _ Hrun).
  - destruct (Z.eqb_spec lastVCN UINT64_MAX) as [|Hgood];
      [right; eexists; split; reflexivity|].
    destruct (negb (chapter =? _));
      [right; eexists; split; reflexivity|].
    left. exists lastVCN. split; [reflexivity | exact Hgood].
Qed.

(** X4.  The sentinel of [probeWrapper] is unambiguous.  The wrapper
    never returns [UDS_CORRUPT_COMPONENT] or [UDS_CORRUPT_DATA]; when it
    returns [UDS_SUCCESS], the number it reports is [UINT64_MAX] exactly
    when [probeChapter] found the chapter corrupt, and otherwise it is the
    number of a successful probe; any other status is the one of
    [probeChapter], and the number is left alone. *)
Theorem probe_wrapper_sentinel (vol : volume) (chapter old : Z) :
  fst (probeWrapper vol chapter old) <> UDS_CORRUPT_COMPONENT
  /\ fst (probeWrapper vol chapter old) <> UDS_CORRUPT_DATA
  /\ (fst (probeWrapper vol chapter old) = UDS_SUCCESS ->
      (snd (probeWrapper vol chapter old) = UINT64_MAX
       -> fst (probeChapter vol chapter old) = UDS_CORRUPT_COMPONENT
          \/ fst (probeChapter vol chapter old) = UDS_CORRUPT_DATA)
      /\ (snd (probeWrapper vol chapter old) <> UINT64_MAX
          -> probeChapter vol chapter old
             = (UDS_SUCCESS, snd (probeWrapper vol chapter old))))
  /\ (fst (probeWrapper vol chapter old) <> UDS_SUCCESS ->
      probeChapter vol chapter old
      = (fst (probeWrapper vol chapter old), old)
      /\ snd (probeWrapper vol chapter old) = old).
Proof.
  unfold probeWrapper.
  destruct (probe_chapter_outcome vol chapter old)
    as [(v & -> & Hgood)|(result & -> & Hfail)].
  - cbn [is_corrupt_component is_corrupt_data orb fst snd].
    repeat split; try discriminate; congruence.
  - destruct result; cbn [is_corrupt_component is_corrupt_data orb fst snd];
      repeat split; try discriminate; try congruence; auto.
Qed.

(** *** The end of the volume *)

Lemma find_end_loop_sound vol :
  forall fuel limit span tries r,
    find_end_loop fuel vol limit span tries = Some r -> 0 <= span ->
    match r with
    | inr limit' =>
        limit' <= limit /\ (0 <= limit -> 0 <= limit')
        /\ (0 < limit' -> fst (probeChapter vol (limit' - 1) 0) = UDS_SUCCESS)
    | inl result =>
        is_success result = false /\ is_corrupt_component result = false
        /\ exists chapter,
             0 <= chapter <= limit
             /\ fst (probeChapter vol chapter 0) = result
    end.
Proof.
  induction fuel as [|fuel IH]; intros limit span tries r Hrun Hspan;
    [discriminate|].
  cbn [find_end_loop] in Hrun.
  destruct (Z.ltb_spec 0 limit) as [Hpos|Hzero];
    [|injection Hrun as <-; repeat split; lia].
  set (chapter := if limit <? span then 0 else limit - span) in *.
  assert (Hchapter : 0 <= chapter <= limit)
    by (subst chapter; destruct (Z.ltb_spec limit span); lia).
  destruct (probeChapter vol chapter 0) as [result vcn] eqn:Hprobe.
  destruct (is_success result) eqn:Hok.
  - apply is_success_iff in Hok. subst result.
    destruct (Z.eqb_spec span 1) as [Hone|Hmore].
    + injection Hrun as <-.
      assert (chapter = limit - 1)
        by (subst chapter; destruct (Z.ltb_spec limit span); lia).
      repeat split; try lia. intros _. replace (limit - 1) with chapter by lia.
      rewrite Hprobe. reflexivity.
    + apply IH in Hrun; [exact Hrun|].
      apply Z.div_pos; lia.
  - destruct (is_corrupt_component result) eqn:Hcorrupt.
    + apply IH in Hrun.
      * destruct r as [e|limit'].
        -- destruct Hrun as (He & Hc & c & Hrange & Hc').
           repeat split; try assumption. exists c. split; [lia | exact Hc'].
        -- destruct Hrun as (Hle & Hnonneg & Hlast).
           repeat split; try lia. exact Hlast.
      * destruct (1 <? u32 (tries + 1)); [|exact Hspan].
        apply wrap_range. lia.
    + injection Hrun as <-. repeat split; try assumption.
      exists chapter. rewrite Hprobe. split; [exact Hchapter | reflexivity].
Qed.

(** X5.  What [findRealEndOfVolume] returns.  With [UDS_SUCCESS], the
    limit stored lies between 0 and the limit given, and when it is not 0
    the chapter just below it has probed successfully.  Any other status
    is the status of a probe that was neither successful nor
    [UDS_CORRUPT_COMPONENT], and the limit is not stored. *)
Theorem real_end_of_volume_sound (fuel : nat) (vol : volume)
    (limit old : Z) (result : uds_status) (limit' : Z) :
  0 <= limit ->
  findRealEndOfVolume fuel vol limit old = Some (result, limit') ->
  (result = UDS_SUCCESS ->
     0 <= limit' <= limit
     /\ (0 < limit' -> fst (probeChapter vol (limit' - 1) 0) = UDS_SUCCESS))
  /\ (result <> UDS_SUCCESS ->
        limit' = old /\ result <> UDS_CORRUPT_COMPONENT
        /\ exists chapter,
             0 <= chapter <= limit
             /\ fst (probeChapter vol chapter 0) = result).
Proof.
  intros Hlimit Hend. unfold findRealEndOfVolume in Hend.
  destruct (find_end_loop fuel vol limit 1 0) as [[e|l]|] eqn:Hloop;
    [| |discriminate]; injection Hend as <- <-;
    apply find_end_loop_sound in Hloop; try lia.
  - destruct Hloop as (He & Hc & c & Hrange & Hprobe).
    split; [intros ->; discriminate He|]. intros _.
    repeat split; [|exists c; split; assumption].
    intros ->. discriminate Hc.
  - destruct Hloop as (Hle & Hnonneg & Hlast).
    split; [|congruence]. intros _. repeat split; auto.
Qed.

Lemma real_end_of_volume_sound_witness :
  findRealEndOfVolume 20 (VolumePageSamples.partial_volume 6 [0; 1; 2; 3]) 6 6
  = Some (UDS_SUCCESS, 4)
  /\ 0 <= 4 <= 6
  /\ fst (probeChapter (VolumePageSamples.partial_volume 6 [0; 1; 2; 3])
            (4 - 1) 0) = UDS_SUCCESS.
Proof.
  assert (Hend : findRealEndOfVolume 20
                   (VolumePageSamples.partial_volume 6 [0; 1; 2; 3]) 6 6
                 = Some (UDS_SUCCESS, 4)) by reflexivity.
  split; [exact Hend|].
  destruct (proj1 (real_end_of_volume_sound 20
                     (VolumePageSamples.partial_volume 6 [0; 1; 2; 3])
                     6 6 UDS_SUCCESS 4 ltac:(lia) Hend) eq_refl)
    as [Hrange Hlast].
  split; [exact Hrange | apply Hlast; lia].
Defined.

(** On a volume whose chapters below [written] probe successfully and
    whose chapters from [written] on are corrupt, the scan ends at
    [written].  The invariants are those of [find_end_loop_returns], with
    the limit never falling below [written]. *)
Lemma find_end_loop_exact vol written total :
  0 <= written <= total -> total < 2 ^ 32 ->
  (forall c, 0 <= c < written ->
     fst (probeChapter vol c 0) = UDS_SUCCESS) ->
  (forall c, written <= c < total ->
     fst (probeChapter vol c 0) = UDS_CORRUPT_COMPONENT) ->
  forall fuel limit span tries,
    written <= limit <= total -> 1 <= span ->
    0 <= tries <= total - limit ->
    (tries = 0 -> span = 1 \/ span + limit <= total) ->
    (1 <= tries -> span + limit <= total) ->
    (Z.to_nat (3 * limit + span) < fuel)%nat ->
    find_end_loop fuel vol limit span tries = Some (inr written).
Proof.
  intros Hwritten Htotal Hgood Hbad. induction fuel as [|fuel IH];
    intros limit span tries Hlimit Hspan Htries Hfresh Hcut Hfuel; [lia|].
  cbn [find_end_loop].
  destruct (Z.ltb_spec 0 limit) as [Hpos|Hzero];
    [|do 2 f_equal; lia].
  set (chapter := if limit <? span then 0 else limit - span).
  assert (Hchapter : 0 <= chapter < limit)
    by (subst chapter; destruct (Z.ltb_spec limit span); lia).
  destruct (Z.lt_ge_cases chapter written) as [Hin|Hout].
  - specialize (Hgood chapter ltac:(lia)).
    destruct (probeChapter vol chapter 0) as [result vcn].
    simpl in Hgood. subst result. cbn [is_success].
    destruct (Z.eqb_spec span 1) as [Hone|Hmore].
    + assert (chapter = limit - 1)
        by (subst chapter; destruct (Z.ltb_spec limit span); lia).
      do 2 f_equal. lia.
    + pose proof (Z.div_mod span 2 ltac:(lia)).
      pose proof (Z.mod_pos_bound span 2 ltac:(lia)).
      apply IH; lia.
  - specialize (Hbad chapter ltac:(lia)).
    destruct (probeChapter vol chapter 0) as [result vcn].
    simpl in Hbad. subst result. cbn [is_success is_corrupt_component].
    destruct (Z.eq_dec chapter 0) as [Hc0|Hc0].
    + rewrite Hc0. destruct fuel as [|fuel]; [lia|].
      cbn [find_end_loop Z.ltb Z.compare]. do 2 f_equal. lia.
    + assert (Hstep : chapter = limit - span /\ span < limit).
      { subst chapter. destruct (Z.ltb_spec limit span); lia. }
      destruct Hstep as [Hstep Hlt].
      rewrite (u32_small (tries + 1)) by lia.
      destruct (Z.ltb_spec 1 (tries + 1)) as [Hagain|Hfirst].
      * rewrite u32_small by lia. apply IH; lia.
      * apply IH; lia.
Qed.

(** X6.  The written part of a volume is found exactly: when the chapters
    below [written] probe successfully and the chapters from [written] up
    to the limit given are corrupt, [findRealEndOfVolume] returns
    [UDS_SUCCESS] and stores [written], given fuel beyond three times the
    limit. *)
Theorem real_end_of_volume_exact (fuel : nat) (vol : volume)
    (written limit old : Z) :
  0 <= written <= limit -> limit < 2 ^ 32 ->
  (forall c, 0 <= c < written ->
     fst (probeChapter vol c 0) = UDS_SUCCESS) ->
  (forall c, written <= c < limit ->
     fst (probeChapter vol c 0) = UDS_CORRUPT_COMPONENT) ->
  (Z.to_nat (3 * limit + 1) < fuel)%nat ->
  findRealEndOfVolume fuel vol limit old = Some (UDS_SUCCESS, written).
Proof.
  intros Hwritten Hlimit Hgood Hbad Hfuel. unfold findRealEndOfVolume.
  rewrite (find_end_loop_exact vol written limit); auto; lia.
Qed.

Lemma real_end_of_volume_exact_witness :
  (0 <= 4 <= 6 /\ 6 < 2 ^ 32 /\ (Z.to_nat (3 * 6 + 1) < 20)%nat)
  /\ findRealEndOfVolume 20 (VolumePageSamples.partial_volume 6 [0; 1; 2; 3])
       6 6
     = Some (UDS_SUCCESS, 4).
Proof.
  assert (H1 : 0 <= 4 <= 6) by lia.
  assert (H2 : 6 < 2 ^ 32) by lia.
  assert (H3 : (Z.to_nat (3 * 6 + 1) < 20)%nat) by (vm_compute; lia).
  split; [tauto|].
  apply (real_end_of_volume_exact 20
           (VolumePageSamples.partial_volume 6 [0; 1; 2; 3]) 4 6 6 H1 H2);
    [| |exact H3].
  - intros c Hc.
    assert (Hcases : c = 0 \/ c = 1 \/ c = 2 \/ c = 3) by lia.
    destruct Hcases as [->|[->|[->| ->]]]; reflexivity.
  - intros c Hc.
    assert (Hcases : c = 4 \/ c = 5) by lia.
    destruct Hcases as [->| ->]; reflexivity.
Defined.

(** *** The boundaries reported *)

Lemma search_loop_stop probe :
  forall fuel first l r result,
    search_loop probe fuel first l r = Some (inl result) ->
    is_success result = false.
Proof.
  induction fuel as [|fuel IH]; intros first l r result Hrun; [discriminate|].
  cbn [search_loop] in Hrun.
  destruct (l <? r); [|discriminate].
  destruct (probe _ _) as [status value].
  destruct (is_success status) eqn:Hok; cbn [negb] in Hrun;
    [|injection Hrun as <-; exact Hok].
  destruct (first <=? value); exact (IH _ _ _ _ Hrun).
Qed.

(** The backward scan ends on the number of a successful probe of a
    chapter below the limit, or fails. *)
Lemma scan_loop_sound probe chapterLimit maxBadChapters :
  0 < chapterLimit ->
  forall fuel r highest bad outcome,
    scan_loop probe fuel chapterLimit maxBadChapters r highest bad
    = Some outcome ->
    match outcome with
    | inr top =>
        top <> UINT64_MAX
        /\ exists c old,
             0 <= c < chapterLimit /\ probe c old = (UDS_SUCCESS, top)
    | inl result => is_success result = false
    end.
Proof.
  intros Hlimit. induction fuel as [|fuel IH];
    intros r highest bad outcome Hrun; [discriminate|].
  cbn [scan_loop] in Hrun.
  pose proof (Z.mod_pos_bound (u32 (r + chapterLimit - 1)) chapterLimit Hlimit)
    as Hrange.
  destruct (probe (u32 (r + chapterLimit - 1) mod chapterLimit) highest)
    as [status value] eqn:Hprobe.
  destruct (is_success status) eqn:Hok; cbn [negb] in Hrun;
    [|injection Hrun as <-; exact Hok].
  apply is_success_iff in Hok. subst status.
  destruct (Z.eqb_spec value UINT64_MAX) as [Hbad|Hgood]; cbn [negb] in Hrun.
  - destruct (maxBadChapters <=? u32 (bad + 1));
      [injection Hrun as <-; reflexivity|].
    exact (IH _ _ _ _ Hrun).
  - injection Hrun as <-. split; [exact Hgood|].
    eexists _, _. split; [exact Hrange | exact Hprobe].
Qed.

(** X7.  Where the boundaries come from, whatever the probes report.  On
    a chapter limit that is not 0, with an [ASSERT] that fails on a false
    condition: when the function returns [UDS_SUCCESS] and chapter 0 has
    probed successfully, the lowest number stored is the number of a
    successful probe of a chapter below the limit, so is the highest, and
    neither is the sentinel; when it returns another status, or chapter 0
    has not probed successfully, both out-parameters are left as they
    were; and when chapter 0 does not probe successfully the status is
    [UDS_SUCCESS] all the same. *)
Theorem boundaries_come_from_probes (ASSERT : bool -> uds_status)
    (probe : Z -> Z -> uds_status * Z) (fuel : nat)
    (chapterLimit maxBadChapters lowest highest : Z)
    (result : uds_status) (low high : Z) :
  0 < chapterLimit ->
  is_success (ASSERT false) = false ->
  findVolumeChapterBoundariesImpl ASSERT probe fuel chapterLimit
    maxBadChapters lowest highest = Some (result, low, high) ->
  (result = UDS_SUCCESS -> fst (probe 0 UINT64_MAX) = UDS_SUCCESS ->
     low <> UINT64_MAX /\ high <> UINT64_MAX
     /\ (exists c, 0 <= c < chapterLimit
                   /\ probe c UINT64_MAX = (UDS_SUCCESS, low))
     /\ (exists c old, 0 <= c < chapterLimit
                       /\ probe c old = (UDS_SUCCESS, high)))
  /\ (result <> UDS_SUCCESS \/ fst (probe 0 UINT64_MAX) <> UDS_SUCCESS ->
        low = lowest /\ high = highest)
  /\ (fst (probe 0 UINT64_MAX) <> UDS_SUCCESS -> result = UDS_SUCCESS).
Proof.
  intros Hlimit Hassert Himpl. unfold findVolumeChapterBoundariesImpl in Himpl.
  destruct (Z.eqb_spec chapterLimit 0); [lia|].
  destruct (probe 0 UINT64_MAX) as [status first] eqn:Hfirst.
  cbn [fst].
  destruct (is_success status) eqn:Hok; cbn [negb] in Himpl.
  2:{ injection Himpl as <- <- <-.
      assert (status <> UDS_SUCCESS)
        by (intros ->; discriminate Hok).
      repeat split; try reflexivity; intros; contradiction. }
  apply is_success_iff in Hok. subst status.
  assert (Hkept : forall e, is_success e = false ->
            Some (e, lowest, highest) = Some (result, low, high) ->
            (result = UDS_SUCCESS -> UDS_SUCCESS = UDS_SUCCESS ->
             low <> UINT64_MAX /\ high <> UINT64_MAX
             /\ (exists c, 0 <= c < chapterLimit
                           /\ probe c UINT64_MAX = (UDS_SUCCESS, low))
             /\ (exists c old, 0 <= c < chapterLimit
                               /\ probe c old = (UDS_SUCCESS, high)))
            /\ (result <> UDS_SUCCESS \/ UDS_SUCCESS <> UDS_SUCCESS ->
                low = lowest /\ high = highest)
            /\ (UDS_SUCCESS <> UDS_SUCCESS -> result = UDS_SUCCESS)).
  { intros e He Heq. injection Heq as <- <- <-.
    split; [intros ->; discriminate He|].
    split; [intros _; split; reflexivity|].
    intros Hne. contradiction Hne. reflexivity. }
  destruct (search_loop probe fuel first 0 chapterLimit)
    as [[e|[l r]]|] eqn:Hsearch; [| |discriminate].
  { apply (Hkept e); [|exact Himpl].
    exact (search_loop_stop _ _ _ _ _ _ Hsearch). }
  destruct (is_success (ASSERT (l =? r))) eqn:Hsame; cbn [negb] in Himpl;
    [|exact (Hkept _ Hsame Himpl)].
  pose proof (Z.mod_pos_bound l chapterLimit Hlimit) as Hrange.
  destruct (probe (l mod chapterLimit) UINT64_MAX) as [status value]
    eqn:Hlow.
  destruct (is_success status) eqn:Hok; cbn [negb] in Himpl;
    [|exact (Hkept _ Hok Himpl)].
  apply is_success_iff in Hok. subst status.
  destruct (Z.eqb_spec value UINT64_MAX) as [Hbad|Hgood]; cbn [negb] in Himpl.
  { rewrite Hassert in Himpl. cbn [negb] in Himpl.
    exact (Hkept _ Hassert Himpl). }
  destruct (is_success (ASSERT true)) eqn:Htrue; cbn [negb] in Himpl;
    [|exact (Hkept _ Htrue Himpl)].
  destruct (scan_loop probe fuel chapterLimit maxBadChapters r UINT64_MAX 0)
    as [[e|top]|] eqn:Hscan; [| |discriminate];
    apply (scan_loop_sound probe chapterLimit maxBadChapters Hlimit) in Hscan.
  { exact (Hkept _ Hscan Himpl). }
  injection Himpl as <- <- <-. destruct Hscan as [Htop Hfrom].
  split.
  - intros _ _. repeat split; try assumption.
    exists (l mod chapterLimit). split; assumption.
  - split; [intros [Hne|Hne] | intros Hne]; contradiction Hne; reflexivity.
Qed.

Lemma boundaries_come_from_probes_witness :
  findVolumeChapterBoundariesImpl VolumeSamples.permassert
    (table_probe VolumeSamples.stray_bad_chapter) 7 6 MAX_BAD_CHAPTERS 0 0
  = Some (UDS_SUCCESS, 4, 2)
  /\ 4 <> UINT64_MAX /\ 2 <> UINT64_MAX.
Proof.
  assert (Himpl : findVolumeChapterBoundariesImpl VolumeSamples.permassert
                    (table_probe VolumeSamples.stray_bad_chapter) 7 6
                    MAX_BAD_CHAPTERS 0 0
                  = Some (UDS_SUCCESS, 4, 2)) by reflexivity.
  split; [exact Himpl|].
  destruct (proj1 (boundaries_come_from_probes VolumeSamples.permassert
                     (table_probe VolumeSamples.stray_bad_chapter) 7 6
                     MAX_BAD_CHAPTERS 0 0 UDS_SUCCESS 4 2
                     ltac:(lia) eq_refl Himpl) eq_refl eq_refl)
    as (Hlow & Hhigh & _).
  split; assumption.
Defined.

(** The probe through the wrapper on a chapter that probes
    successfully. *)
Lemma probe_wrapper_good vol chapter old v :
  probeChapter vol chapter old = (UDS_SUCCESS, v) ->
  probeWrapper vol chapter old = (UDS_SUCCESS, v).
Proof. intros Hprobe. unfold probeWrapper. rewrite Hprobe. reflexivity. Qed.

(** X8.  An error of the first probe is swallowed.  On a volume whose
    last chapter probes successfully while the probe of chapter 0 fails
    with a status that does not mean corruption, [findVolumeChapterBoundaries]
    returns [UDS_SUCCESS] with [isEmpty] false and stores neither the
    lowest nor the highest chapter number. *)
Theorem first_probe_error_is_swallowed (ASSERT : bool -> uds_status)
    (fuel : nat) (vol : volume) (out : boundaries) :
  let chapters := chapters_per_volume (vol_geometry vol) in
  0 < chapters ->
  fst (probeChapter vol (chapters - 1) 0) = UDS_SUCCESS ->
  is_success (fst (probeChapter vol 0 UINT64_MAX)) = false ->
  is_corrupt_component (fst (probeChapter vol 0 UINT64_MAX)) = false ->
  is_corrupt_data (fst (probeChapter vol 0 UINT64_MAX)) = false ->
  findVolumeChapterBoundaries ASSERT (S fuel) vol out
  = Some (UDS_SUCCESS,
          {| lowestVCN := lowestVCN out; highestVCN := highestVCN out;
             isEmpty := false |}).
Proof.
  intros chapters Hsome Hlast Hfail Hcomponent Hdata.
  unfold findVolumeChapterBoundaries, findRealEndOfVolume. fold chapters.
  cbn [find_end_loop].
  destruct (Z.ltb_spec 0 chapters) as [_|]; [|lia].
  destruct (Z.ltb_spec chapters 1) as [|_]; [lia|].
  destruct (probeChapter vol (chapters - 1) 0) as [status vcn].
  simpl in Hlast. subst status. cbn [is_success Z.eqb Pos.eqb negb].
  destruct (Z.eqb_spec chapters 0); [lia|].
  unfold findVolumeChapterBoundariesImpl, probeWrapper.
  destruct (Z.eqb_spec chapters 0); [lia|].
  destruct (probeChapter vol 0 UINT64_MAX) as [status first].
  cbn [fst] in Hfail, Hcomponent, Hdata.
  rewrite Hcomponent, Hdata. cbn [orb]. rewrite Hfail. reflexivity.
Qed.

Lemma first_probe_error_is_swallowed_witness :
  (0 < chapters_per_volume
         (vol_geometry VolumePageSamples.unreadable_first_chapter)
   /\ fst (probeChapter VolumePageSamples.unreadable_first_chapter (2 - 1) 0)
      = UDS_SUCCESS
   /\ fst (probeChapter VolumePageSamples.unreadable_first_chapter 0
             UINT64_MAX) = UDS_OTHER_ERROR 5)
  /\ findVolumeChapterBoundaries VolumeSamples.permassert 1
       VolumePageSamples.unreadable_first_chapter VolumeSamples.no_boundaries
     = Some (UDS_SUCCESS,
             {| lowestVCN := 7; highestVCN := 7; isEmpty := false |}).
Proof.
  assert (H1 : 0 < chapters_per_volume
                     (vol_geometry VolumePageSamples.unreadable_first_chapter))
    by (simpl; lia).
  assert (H2 : fst (probeChapter VolumePageSamples.unreadable_first_chapter
                      (2 - 1) 0) = UDS_SUCCESS) by reflexivity.
  assert (H3 : fst (probeChapter VolumePageSamples.unreadable_first_chapter 0
                      UINT64_MAX) = UDS_OTHER_ERROR 5) by reflexivity.
  split; [tauto|].
  apply (first_probe_error_is_swallowed VolumeSamples.permassert 0
           VolumePageSamples.unreadable_first_chapter
           VolumeSamples.no_boundaries H1 H2);
    rewrite H3; reflexivity.
Defined.

(** X9.  The boundaries of a volume in order.  Take a volume of at most
    2^31 chapters of which the first [written] (at least one) probe
    successfully, chapter [c] holding the number [vcn c], and the rest is
    corrupt, as after a clean save.  Let the numbers increase around the
    written chapters from the chapter [seam] on: they increase up to the
    last written chapter and go on increasing from chapter 0 up to the
    chapter before [seam].  Then [findVolumeChapterBoundaries] returns
    [UDS_SUCCESS] with [isEmpty] false, the number of chapter [seam] (of
    chapter 0 when [seam] is [written]) as the lowest and the number of
    the chapter before it around the circle as the highest; these are the
    least and the greatest number of the written chapters. *)
Theorem boundaries_of_written_chapters (ASSERT : bool -> uds_status)
    (vol : volume) (vcn : Z -> Z) (written seam : Z) (fuel : nat)
    (out : boundaries) :
  ASSERT true = UDS_SUCCESS ->
  0 < written <= chapters_per_volume (vol_geometry vol) ->
  chapters_per_volume (vol_geometry vol) <= 2 ^ 31 ->
  0 <= seam <= written ->
  (forall c old, 0 <= c < written ->
     probeChapter vol c old = (UDS_SUCCESS, vcn c)) ->
  (forall c, written <= c < chapters_per_volume (vol_geometry vol) ->
     fst (probeChapter vol c 0) = UDS_CORRUPT_COMPONENT) ->
  (forall c, 0 <= c < written -> in_u64 (vcn c)) ->
  (forall c d, 0 <= c <= d -> d < seam -> vcn c <= vcn d) ->
  (forall c d, seam <= c <= d -> d < written -> vcn c <= vcn d) ->
  (forall c d, seam <= c < written -> 0 <= d < seam -> vcn c < vcn d) ->
  (Z.to_nat (3 * chapters_per_volume (vol_geometry vol) + 101) < fuel)%nat ->
  findVolumeChapterBoundaries ASSERT fuel vol out
  = Some (UDS_SUCCESS,
          {| lowestVCN := vcn (lowest_chapter written seam);
             highestVCN := vcn (highest_chapter written seam);
             isEmpty := false |})
  /\ forall c, 0 <= c < written ->
       vcn (lowest_chapter written seam) <= vcn c
       <= vcn (highest_chapter written seam).
Proof.
  intros Hassert Hwritten Hchapters Hseam Hgood Hbad Hrange Hhigh Hlow Hwrap
    Hfuel.
  set (chapters := chapters_per_volume (vol_geometry vol)) in *.
  assert (Hprobe : forall c old, 0 <= c < written ->
            probeWrapper vol c old = (UDS_SUCCESS, vcn c))
    by (intros c old Hc; apply probe_wrapper_good, Hgood, Hc).
  assert (Hvalue : forall c, 0 <= c < written ->
            c < seam \/ seam <= c -> 0 <= vcn c < UINT64_MAX).
  { intros c Hc _. specialize (Hrange c Hc). unfold in_u64 in Hrange.
    destruct (probe_chapter_outcome vol c 0)
      as [(v & Hv & Hne)|(result & Hr & Hfail)].
    - rewrite (Hgood c 0 Hc) in Hv. injection Hv as <-.
      unfold UINT64_MAX in *. lia.
    - rewrite (Hgood c 0 Hc) in Hr. injection Hr as <- _. discriminate Hfail. }
  assert (Hnone : forall c, seam <= c < seam -> vcn c = UINT64_MAX)
    by (intros c Hc; lia).
  assert (Hsome : 0 < seam \/ seam < written) by lia.
  split.
  - unfold findVolumeChapterBoundaries, findRealEndOfVolume. fold chapters.
    rewrite (find_end_loop_exact vol written chapters);
      try assumption; try lia.
    + cbn [is_success negb]. destruct (Z.eqb_spec written 0); [lia|].
      rewrite (impl_unfold ASSERT (probeWrapper vol) vcn written seam seam);
        try assumption; try lia.
      rewrite (scan_loop_tolerates (probeWrapper vol) vcn written seam seam);
        try assumption; try lia.
      * reflexivity.
      * unfold MAX_BAD_CHAPTERS. lia.
      * apply search_end_range; lia.
      * apply (scan_start_position vcn written seam seam);
          first [assumption | lia].
    + intros c Hc. rewrite (Hgood c 0 Hc). reflexivity.
  - intros c Hc.
    apply (reported_are_extremes vcn written seam seam); try assumption;
      try lia.
    specialize (Hvalue c Hc ltac:(lia)). lia.
Qed.

Lemma boundaries_of_written_chapters_witness :
  (VolumeSamples.permassert true = UDS_SUCCESS
   /\ 0 <= 2 <= 6
   /\ (Z.to_nat (3 * 6 + 101) < 120)%nat)
  /\ findVolumeChapterBoundaries VolumeSamples.permassert 120
       (VolumeSamples.volume_of VolumePageSamples.wrapped_table)
       VolumeSamples.no_boundaries
     = Some (UDS_SUCCESS,
             {| lowestVCN := 8; highestVCN := 13; isEmpty := false |}).
Proof.
  assert (Hassert : VolumeSamples.permassert true = UDS_SUCCESS)
    by reflexivity.
  assert (Hseam : 0 <= 2 <= 6) by lia.
  assert (Hfuel : (Z.to_nat (3 * 6 + 101) < 120)%nat) by (vm_compute; lia).
  split; [tauto|].
  refine (proj1 (boundaries_of_written_chapters VolumeSamples.permassert
                   (VolumeSamples.volume_of VolumePageSamples.wrapped_table)
                   (VolumeSamples.value_at VolumePageSamples.wrapped_table)
                   6 2 120 VolumeSamples.no_boundaries
                   Hassert _ _ Hseam _ _ _ _ _ _ Hfuel)).
  - simpl. lia.
  - simpl. lia.
  - intros c old Hc. chapter_cases c; reflexivity.
  - intros c Hc. simpl in Hc. lia.
  - intros c Hc. unfold in_u64. chapter_cases c; numeral_case.
  - intros c d Hc Hd. chapter_cases c; chapter_cases d; numeral_case.
  - intros c d Hc Hd. chapter_cases c; chapter_cases d; numeral_case.
  - intros c d Hc Hd. chapter_cases c; chapter_cases d; numeral_case.
Defined.

End VolumePageFacts.

(** ** Compressed blocks: what is packed is found again *)

Module PackedBlockFacts.
Import UInt UIntFacts StatusCodes CompressedBlock Packer PackerBins.

Lemma header_size : COMPRESSED_BLOCK_1_0_SIZE = 36.
Proof. reflexivity. Qed.

(** *** Bytes *)

Lemma write_bytes_length (buffer : list Z) (at_ : Z) (bytes : list Z) :
  (Z.to_nat at_ + length bytes <= length buffer)%nat ->
  length (write_bytes buffer at_ bytes) = length buffer.
Proof.
  intros Hfits. unfold write_bytes.
  rewrite !length_app, length_take, length_drop. lia.
Qed.

Lemma write_bytes_lookup (buffer : list Z) (at_ : Z) (bytes : list Z) (i : nat) :
  (Z.to_nat at_ + length bytes <= length buffer)%nat ->
  write_bytes buffer at_ bytes !! i
  = if decide (Z.to_nat at_ <= i < Z.to_nat at_ + length bytes)%nat
    then bytes !! (i - Z.to_nat at_)%nat
    else buffer !! i.
Proof.
  intros Hfits. unfold write_bytes.
  set (pos := Z.to_nat at_) in *.
  assert (Hpos : length (take pos buffer) = pos)
    by (rewrite length_take; lia).
  destruct (decide (pos <= i < pos + length bytes)%nat) as [Hin|Hout].
  - rewrite lookup_app_r by lia. rewrite Hpos.
    rewrite lookup_app_l by lia. reflexivity.
  - destruct (Nat.lt_ge_cases i pos) as [Hbefore|Hafter].
    + rewrite lookup_app_l by lia. apply lookup_take_lt. exact Hbefore.
    + rewrite lookup_app_r by lia. rewrite Hpos.
      rewrite lookup_app_r by lia. rewrite lookup_drop.
      f_equal. lia.
Qed.

(** A byte of a block after a [memcpy] into it. *)
Lemma byte_at_write (buffer : list Z) (at_ : Z) (bytes : list Z) (i : Z) :
  0 <= at_ -> 0 <= i ->
  (Z.to_nat at_ + length bytes <= length buffer)%nat ->
  byte_at (write_bytes buffer at_ bytes) i
  = if (at_ <=? i) && (i <? at_ + Z.of_nat (length bytes))
    then byte_at bytes (i - at_)
    else byte_at buffer i.
Proof.
  intros Hat Hi Hfits. unfold byte_at.
  rewrite write_bytes_lookup by exact Hfits.
  destruct (Z.leb_spec at_ i) as [Hle|Hlt]; cbn [andb].
  - destruct (Z.ltb_spec i (at_ + Z.of_nat (length bytes))) as [Hin|Hout].
    + rewrite decide_True by lia. do 2 f_equal. lia.
    + rewrite decide_False by lia. reflexivity.
  - rewrite decide_False by lia. reflexivity.
Qed.

Lemma byte_at_outside (buffer : list Z) (at_ : Z) (bytes : list Z) (i : Z) :
  0 <= at_ -> 0 <= i ->
  (Z.to_nat at_ + length bytes <= length buffer)%nat ->
  i < at_ \/ at_ + Z.of_nat (length bytes) <= i ->
  byte_at (write_bytes buffer at_ bytes) i = byte_at buffer i.
Proof.
  intros Hat Hi Hfits Hout. rewrite byte_at_write by assumption.
  destruct (Z.leb_spec at_ i); destruct (Z.ltb_spec i (at_ + Z.of_nat (length bytes)));
    cbn [andb]; try reflexivity; lia.
Qed.

Lemma byte_at_inside (buffer : list Z) (at_ : Z) (bytes : list Z) (j : Z) :
  0 <= at_ -> 0 <= j < Z.of_nat (length bytes) ->
  (Z.to_nat at_ + length bytes <= length buffer)%nat ->
  byte_at (write_bytes buffer at_ bytes) (at_ + j) = byte_at bytes j.
Proof.
  intros Hat Hj Hfits. rewrite byte_at_write by first [assumption | lia].
  destruct (Z.leb_spec at_ (at_ + j)); [|lia].
  destruct (Z.ltb_spec (at_ + j) (at_ + Z.of_nat (length bytes))); [|lia].
  cbn [andb]. f_equal. lia.
Qed.

Lemma byte_at_take (bytes : list Z) (n : nat) (j : Z) :
  0 <= j < Z.of_nat n -> byte_at (take n bytes) j = byte_at bytes j.
Proof.
  intros Hj. unfold byte_at. rewrite lookup_take_lt by lia. reflexivity.
Qed.

(** A 16-bit size is read back as it was stored. *)
Lemma le16_round_trip (buffer : list Z) (at_ x : Z) :
  0 <= at_ -> 0 <= x < 2 ^ 16 ->
  (Z.to_nat at_ + 2 <= length buffer)%nat ->
  get_le16 (write_bytes buffer at_ (le16_bytes x)) at_ = x.
Proof.
  intros Hat Hx Hfits. unfold get_le16.
  replace at_ with (at_ + 0) at 2 by lia.
  rewrite !byte_at_inside by (cbn [le16_bytes length]; lia).
  unfold byte_at, le16_bytes. cbn [Z.to_nat Pos.to_nat lookup list_lookup default].
  change (Z.to_nat 0) with 0%nat. change (Z.to_nat 1) with 1%nat.
  cbn [lookup list_lookup default].
  pose proof (Z.div_mod x (2 ^ 8) ltac:(lia)).
  assert (0 <= x / 2 ^ 8 < 2 ^ 8)
    by (split; [apply Z.div_pos; lia | apply Z.div_lt_upper_bound; lia]).
  rewrite (Z.mod_small (x / 2 ^ 8)) by lia. unfold id. lia.
Qed.

Lemma get_le16_outside (buffer : list Z) (at_ : Z) (bytes : list Z) (p : Z) :
  0 <= at_ -> 0 <= p ->
  (Z.to_nat at_ + length bytes <= length buffer)%nat ->
  p + 2 <= at_ \/ at_ + Z.of_nat (length bytes) <= p ->
  get_le16 (write_bytes buffer at_ bytes) p = get_le16 buffer p.
Proof.
  intros Hat Hp Hfits Hout. unfold get_le16.
  rewrite !byte_at_outside by first [assumption | lia]. reflexivity.
Qed.

(** *** The places of the fragments *)

Lemma sizes_before_app (vs ws : list data_vio) (k : nat) :
  (k <= length vs)%nat -> sizes_before (vs ++ ws) k = sizes_before vs k.
Proof.
  revert k. induction vs as [|v vs IH]; intros k Hk.
  - replace k with 0%nat by (simpl in Hk; lia). destruct ws; reflexivity.
  - destruct k as [|k]; [reflexivity|]. cbn [app sizes_before].
    rewrite IH by (simpl in Hk; lia). reflexivity.
Qed.

Lemma sizes_before_step (vs : list data_vio) (k : nat) (v : data_vio) :
  vs !! k = Some v ->
  sizes_before vs (S k) = sizes_before vs k + compression_size v.
Proof.
  revert k. induction vs as [|w vs IH]; intros k Hk; [discriminate|].
  destruct k as [|k].
  - injection Hk as ->. cbn [sizes_before]. destruct vs; simpl; lia.
  - cbn [lookup list_lookup] in Hk. specialize (IH k Hk).
    change (sizes_before (w :: vs) (S (S k)))
      with (compression_size w + sizes_before vs (S k)).
    change (sizes_before (w :: vs) (S k))
      with (compression_size w + sizes_before vs k).
    lia.
Qed.

Lemma sizes_before_mono (vs : list data_vio) :
  Forall (fun v => 0 < compression_size v) vs ->
  forall k m : nat, (k <= m)%nat -> sizes_before vs k <= sizes_before vs m.
Proof.
  intros Hpos. induction Hpos as [|v vs Hv Hvs IH]; intros k m Hkm.
  - destruct k, m; simpl; lia.
  - destruct k as [|k], m as [|m]; cbn [sizes_before]; try lia.
    + specialize (IH 0%nat m ltac:(lia)).
      replace (sizes_before vs 0) with 0 in IH by (destruct vs; reflexivity).
      lia.
    + specialize (IH k m ltac:(lia)). lia.
Qed.

Lemma sizes_before_next (vs : list data_vio) (k : nat) (v : data_vio) :
  Forall (fun v => 0 < compression_size v) vs ->
  vs !! k = Some v ->
  sizes_before vs k + compression_size v <= sizes_before vs (length vs).
Proof.
  intros Hpos Hk. rewrite <- (sizes_before_step vs k v Hk).
  apply sizes_before_mono; [exact Hpos|].
  apply lookup_lt_Some in Hk. lia.
Qed.

Lemma sizes_before_nonneg (vs : list data_vio) (k : nat) :
  Forall (fun v => 0 < compression_size v) vs -> 0 <= sizes_before vs k.
Proof.
  intros Hpos. pose proof (sizes_before_mono vs Hpos 0 k ltac:(lia)) as Hle.
  replace (sizes_before vs 0) with 0 in Hle by (destruct vs; reflexivity).
  exact Hle.
Qed.

(** *** Packing *)

(** The block of the agent after [vdo_initialize_compressed_block]. *)
Lemma initial_block_holds (agent : data_vio) (block_size : Z) :
  Z.of_nat (length (scratch_block agent)) = block_size ->
  0 < compression_size agent < 2 ^ 16 ->
  COMPRESSED_BLOCK_1_0_SIZE <= block_size ->
  holds_fragments
    (vdo_initialize_compressed_block (scratch_block agent)
                                     (compression_size agent))
    block_size (scratch_block agent) [agent].
Proof.
  intros Hlen Hsize Hroom. rewrite header_size in Hroom.
  unfold vdo_initialize_compressed_block.
  fold version_bytes.
  set (b1 := write_bytes (scratch_block agent) 0 version_bytes).
  assert (Hlen1 : length b1 = length (scratch_block agent))
    by (apply write_bytes_length; cbn [version_bytes length]; simpl; lia).
  assert (Hfit2 : (Z.to_nat (sizes_at 0)
                   + length (le16_bytes (compression_size agent))
                   <= length b1)%nat)
    by (rewrite Hlen1; unfold sizes_at; simpl; lia).
  assert (Hfit1 : (Z.to_nat 0 + length version_bytes
                   <= length (scratch_block agent))%nat)
    by (simpl; lia).
  repeat split.
  - rewrite write_bytes_length by exact Hfit2. lia.
  - intros i Hi.
    rewrite byte_at_outside; [| unfold sizes_at; lia | lia | exact Hfit2
                              | left; unfold sizes_at; lia].
    subst b1. replace i with (0 + i) at 1 by lia.
    apply byte_at_inside; [lia | simpl; lia | exact Hfit1].
  - intros k v Hk. destruct k as [|k]; [|destruct k; discriminate Hk].
    injection Hk as <-. unfold get_compressed_fragment_size.
    apply le16_round_trip; [unfold sizes_at; lia | lia |].
    rewrite Hlen1. unfold sizes_at. simpl. lia.
  - intros k v j Hk Hk1. destruct k as [|k]; [lia|].
    destruct k; discriminate Hk.
  - intros j Hlow Hhigh. rewrite header_size in Hlow.
    rewrite byte_at_outside; [| unfold sizes_at; lia | lia | exact Hfit2
                              | right; unfold sizes_at; simpl; lia].
    subst b1. apply byte_at_outside; [lia | lia | exact Hfit1 |].
    right. simpl. lia.
Qed.

(** One [pack_fragment]: the block holds one fragment more. *)
Lemma put_fragment_holds (block : list Z) (block_size : Z)
    (agent_block : list Z) (done : list data_vio) (w : data_vio) :
  holds_fragments block block_size agent_block done ->
  Forall (fun v => 0 < compression_size v) done ->
  (1 <= length done)%nat ->
  Z.of_nat (length done) < VDO_MAX_COMPRESSION_SLOTS ->
  0 < compression_size w < 2 ^ 16 ->
  compression_size w <= Z.of_nat (length (compression_data w)) ->
  fragment_start done (length done) + compression_size w <= block_size ->
  holds_fragments
    (vdo_put_compressed_block_fragment block (Z.of_nat (length done))
       (sizes_before done (length done)) (compression_data w)
       (compression_size w))
    block_size agent_block (done ++ [w]).
Proof.
  intros (Hlen & Hversion & Hsizes & Hdata & Hagent) Hpos Hsome Hslots
    Hsize Hbytes Hroom.
  unfold fragment_start in Hroom. rewrite header_size in Hroom.
  change VDO_MAX_COMPRESSION_SLOTS with 14 in Hslots.
  pose proof (sizes_before_nonneg done (length done) Hpos) as Hoffset.
  unfold vdo_put_compressed_block_fragment. rewrite header_size.
  set (slot := Z.of_nat (length done)) in *.
  set (offset := sizes_before done (length done)) in *.
  set (b1 := write_bytes block (sizes_at slot)
                         (le16_bytes (compression_size w))).
  set (fragment := take (Z.to_nat (compression_size w)) (compression_data w)).
  assert (Hfragment : Z.of_nat (length fragment) = compression_size w)
    by (subst fragment; rewrite length_take; lia).
  assert (Hfit1 : (Z.to_nat (sizes_at slot)
                   + length (le16_bytes (compression_size w))
                   <= length block)%nat)
    by (unfold sizes_at; simpl; lia).
  assert (Hlen1 : length b1 = length block)
    by (apply write_bytes_length; exact Hfit1).
  assert (Hfit2 : (Z.to_nat (36 + offset) + length fragment
                   <= length b1)%nat) by lia.
  assert (Hkeep : forall i, 0 <= i ->
            i < sizes_at slot \/ sizes_at slot + 2 <= i ->
            i < 36 + offset ->
            byte_at (write_bytes b1 (36 + offset) fragment) i
            = byte_at block i).
  { intros i Hi Hout Hbelow.
    rewrite byte_at_outside; [| lia | lia | exact Hfit2 | left; lia].
    subst b1. apply byte_at_outside;
      [unfold sizes_at; lia | lia | exact Hfit1 | exact Hout]. }
  repeat split.
  - rewrite write_bytes_length by exact Hfit2. lia.
  - intros i Hi. rewrite Hkeep; [apply Hversion; exact Hi | lia | | lia].
    left. unfold sizes_at. lia.
  - intros k v Hk. unfold get_compressed_fragment_size.
    destruct (Nat.lt_ge_cases k (length done)) as [Hold|Hnew].
    + rewrite lookup_app_l in Hk by exact Hold.
      rewrite <- (Hsizes k v Hk). unfold get_compressed_fragment_size, get_le16.
      rewrite !Hkeep; try reflexivity; unfold sizes_at; lia.
    + apply lookup_lt_Some in Hk as Hk'.
      rewrite length_app in Hk'. cbn [length] in Hk'.
      assert (k = length done) by lia. subst k.
      rewrite list_lookup_middle in Hk by reflexivity. injection Hk as <-.
      fold slot.
      rewrite get_le16_outside;
        [| lia | unfold sizes_at; lia | exact Hfit2
         | left; unfold sizes_at; lia].
      subst b1. apply le16_round_trip; [unfold sizes_at; lia | lia |].
      unfold sizes_at. simpl in Hfit1. lia.
  - intros k v j Hk Hk1 Hj.
    destruct (Nat.lt_ge_cases k (length done)) as [Hold|Hnew].
    + rewrite lookup_app_l in Hk by exact Hold.
      pose proof (sizes_before_next done k v Hpos Hk) as Hend.
      pose proof (sizes_before_nonneg done k Hpos) as Hstart.
      unfold fragment_start. rewrite sizes_before_app by lia.
      rewrite header_size.
      rewrite Hkeep; [| lia | right; unfold sizes_at; lia | fold offset in Hend; lia].
      specialize (Hdata k v j Hk Hk1 Hj).
      unfold fragment_start in Hdata. rewrite header_size in Hdata.
      exact Hdata.
    + apply lookup_lt_Some in Hk as Hk'.
      rewrite length_app in Hk'. cbn [length] in Hk'.
      assert (k = length done) by lia. subst k.
      rewrite list_lookup_middle in Hk by reflexivity. injection Hk as <-.
      unfold fragment_start. rewrite sizes_before_app by lia.
      rewrite header_size. fold offset.
      rewrite byte_at_inside; [| lia | lia | exact Hfit2].
      subst fragment. apply byte_at_take. lia.
  - intros j Hlow Hhigh. rewrite header_size in Hlow.
    unfold fragment_start in Hhigh. rewrite header_size in Hhigh.
    rewrite sizes_before_app in Hhigh by lia.
    pose proof (sizes_before_mono done Hpos 1 (length done) Hsome) as Hfirst.
    fold offset in Hfirst.
    rewrite Hkeep; [| lia | right; unfold sizes_at; lia | lia].
    apply Hagent; [rewrite header_size; lia|].
    unfold fragment_start. rewrite header_size. lia.
Qed.

Lemma sizes_before_0 (vs : list data_vio) : sizes_before vs 0 = 0.
Proof. destruct vs; reflexivity. Qed.

Lemma sizes_before_snoc (done : list data_vio) (w : data_vio) :
  sizes_before (done ++ [w]) (length (done ++ [w]))
  = sizes_before done (length done) + compression_size w.
Proof.
  rewrite length_app. cbn [length]. rewrite Nat.add_1_r.
  rewrite (sizes_before_step (done ++ [w]) (length done) w)
    by (apply list_lookup_middle; reflexivity).
  rewrite sizes_before_app by lia. reflexivity.
Qed.

(** The loop of [write_bin] over the clients, as a fold. *)
Lemma pack_fragments_hold (block_size : Z) (agent_block : list Z)
    (ws : list data_vio) :
  forall done st,
    holds_fragments (block st) block_size agent_block done ->
    Forall (fun v => 0 < compression_size v) done ->
    (1 <= length done)%nat ->
    slot st = Z.of_nat (length done) ->
    offset st = sizes_before done (length done) ->
    Forall (fun w => 0 < compression_size w
                     /\ compression_size w
                        <= Z.of_nat (length (compression_data w))) ws ->
    Z.of_nat (length (done ++ ws)) <= VDO_MAX_COMPRESSION_SLOTS ->
    fragment_start (done ++ ws) (length (done ++ ws)) <= block_size ->
    block_size < 2 ^ 16 ->
    holds_fragments (block (fold_left pack_fragment ws st)) block_size
                    agent_block (done ++ ws)
    /\ slot (fold_left pack_fragment ws st) = Z.of_nat (length (done ++ ws)).
Proof.
  induction ws as [|w ws IH];
    intros done st Hholds Hpos Hsome Hslot Hoffset Hws Hslots Hroom Hsmall.
  - rewrite app_nil_r. split; [exact Hholds | exact Hslot].
  - apply Forall_cons in Hws as [[Hw Hdata] Hws].
    assert (Hall : Forall (fun v => 0 < compression_size v) (done ++ w :: ws)).
    { apply Forall_app. split; [exact Hpos|]. constructor; [exact Hw|].
      eapply Forall_impl; [exact Hws|]. intros v [Hv _]. exact Hv. }
    assert (Hhere : (done ++ w :: ws) !! length done = Some w)
      by (apply list_lookup_middle; reflexivity).
    pose proof (sizes_before_next _ _ _ Hall Hhere) as Hend.
    rewrite sizes_before_app in Hend by lia.
    pose proof (sizes_before_nonneg done (length done) Hpos) as Hstart.
    unfold fragment_start in Hroom. rewrite header_size in Hroom.
    rewrite length_app in Hslots. cbn [length] in Hslots.
    change VDO_MAX_COMPRESSION_SLOTS with 14 in Hslots.
    cbn [fold_left].
    replace (done ++ w :: ws) with ((done ++ [w]) ++ ws)
      by (rewrite <- app_assoc; reflexivity).
    apply IH; try assumption.
    + cbn [pack_fragment block]. rewrite Hslot, Hoffset.
      apply put_fragment_holds; try assumption.
      * change VDO_MAX_COMPRESSION_SLOTS with 14. lia.
      * lia.
      * unfold fragment_start. rewrite header_size. lia.
    + apply Forall_app. split; [exact Hpos|]. constructor; [exact Hw|].
      constructor.
    + rewrite length_app. cbn [length]. lia.
    + cbn [pack_fragment slot]. rewrite Hslot, length_app. cbn [length].
      rewrite u16_small by lia. lia.
    + cbn [pack_fragment offset]. rewrite Hoffset, sizes_before_snoc.
      apply u16_small. lia.
    + rewrite <- app_assoc. cbn [app]. rewrite length_app. cbn [length].
      change VDO_MAX_COMPRESSION_SLOTS with 14. lia.
    + rewrite <- app_assoc. cbn [app]. unfold fragment_start.
      rewrite header_size. lia.
Qed.

(** The chain of the agent after the clients have been packed: the
    clients in the reverse of the order of packing, each with its slot. *)
Lemma pack_fragments_chain (ws : list data_vio) :
  forall st,
    0 <= slot st -> slot st + Z.of_nat (length ws) < 2 ^ 16 ->
    next_in_batch (fold_left pack_fragment ws st)
    = rev (imap (fun i w => set_slot w (slot st + Z.of_nat i) (in_bin w)) ws)
      ++ next_in_batch st.
Proof.
  induction ws as [|w ws IH]; intros st Hslot Hroom; [reflexivity|].
  cbn [fold_left length] in *. rewrite IH.
  - cbn [pack_fragment next_in_batch slot imap rev].
    rewrite <- app_assoc. cbn [app]. rewrite Z.add_0_r.
    do 2 f_equal. apply imap_ext. intros i v _.
    cbn [compose]. rewrite u16_small by lia. f_equal. lia.
  - cbn [pack_fragment slot]. apply wrap_range. lia.
  - cbn [pack_fragment slot]. rewrite u16_small by lia. lia.
Qed.

(** *** Looking a fragment up *)

Lemma scan_offsets_held (block : list Z) (block_size : Z)
    (agent_block : list Z) (vs : list data_vio) :
  holds_fragments block block_size agent_block vs ->
  Forall (fun v => 0 < compression_size v) vs ->
  fragment_start vs (length vs) <= block_size -> block_size < 2 ^ 16 ->
  forall count i : nat,
    (i + count < length vs)%nat ->
    scan_offsets block block_size count (Z.of_nat i) (fragment_start vs i)
    = Some (fragment_start vs (i + count)).
Proof.
  intros (_ & _ & Hsizes & _) Hpos Hroom Hsmall.
  unfold fragment_start in *. rewrite header_size in *.
  induction count as [|count IH]; intros i Hi.
  - rewrite Nat.add_0_r. reflexivity.
  - cbn [scan_offsets].
    destruct (lookup_lt_is_Some_2 vs i ltac:(lia)) as [v Hv].
    destruct (lookup_lt_is_Some_2 vs (S i) ltac:(lia)) as [v' Hv'].
    rewrite (Hsizes i v Hv).
    replace (36 + sizes_before vs i + compression_size v)
      with (36 + sizes_before vs (S i))
      by (rewrite (sizes_before_step vs i v Hv); lia).
    pose proof (sizes_before_next vs (S i) v' Hpos Hv') as Hend.
    pose proof (sizes_before_nonneg vs (S i) Hpos) as Hstart.
    rewrite Forall_lookup in Hpos. specialize (Hpos (S i) v' Hv').
    rewrite u16_small by lia.
    destruct (Z.leb_spec block_size (36 + sizes_before vs (S i))); [lia|].
    replace (Z.of_nat i + 1) with (Z.of_nat (S i)) by lia.
    rewrite IH by lia.
    replace (S i + count)%nat with (i + S count)%nat by lia. reflexivity.
Qed.

Lemma held_fragment_is_found (block : list Z) (block_size : Z)
    (agent_block : list Z) (vs : list data_vio) (k : nat) (v : data_vio)
    (old_offset old_size : Z) :
  holds_fragments block block_size agent_block vs ->
  Forall (fun v => 0 < compression_size v) vs ->
  Z.of_nat (length vs) <= VDO_MAX_COMPRESSION_SLOTS ->
  fragment_start vs (length vs) <= block_size -> block_size < 2 ^ 16 ->
  vs !! k = Some v ->
  vdo_get_compressed_block_fragment (vdo_get_state_for_slot (Z.of_nat k))
    block block_size old_offset old_size
  = (VDO_SUCCESS, fragment_start vs k, compression_size v).
Proof.
  intros Hholds Hpos Hslots Hroom Hsmall Hk.
  pose proof (scan_offsets_held block block_size agent_block vs Hholds Hpos
                Hroom Hsmall k 0) as Hscan.
  destruct Hholds as (_ & Hversion & Hsizes & _).
  apply lookup_lt_Some in Hk as Hlt.
  change VDO_MAX_COMPRESSION_SLOTS with 14 in Hslots.
  unfold vdo_get_compressed_block_fragment.
  assert (Hstate : vdo_is_state_compressed
                     (vdo_get_state_for_slot (Z.of_nat k)) = true).
  { unfold vdo_is_state_compressed, vdo_get_state_for_slot.
    change VDO_MAPPING_STATE_UNCOMPRESSED with 1.
    change VDO_MAPPING_STATE_COMPRESSED_BASE with 2. apply Z.ltb_lt. lia. }
  rewrite Hstate. cbn [negb].
  assert (Hsame : vdo_are_same_version (vdo_unpack_version_number block)
                                       COMPRESSED_BLOCK_1_0 = true).
  { unfold vdo_are_same_version, vdo_unpack_version_number, get_le32.
    cbn [major_version minor_version COMPRESSED_BLOCK_1_0].
    rewrite !Hversion by lia. reflexivity. }
  rewrite Hsame. cbn [negb].
  assert (Hslot : vdo_get_slot_from_state
                    (vdo_get_state_for_slot (Z.of_nat k)) = Z.of_nat k).
  { unfold vdo_get_slot_from_state, vdo_get_state_for_slot.
    replace (Z.of_nat k + VDO_MAPPING_STATE_COMPRESSED_BASE
             - VDO_MAPPING_STATE_COMPRESSED_BASE) with (Z.of_nat k) by lia.
    apply u8_small. lia. }
  rewrite Hslot. change VDO_MAX_COMPRESSION_SLOTS with 14.
  destruct (Z.leb_spec 14 (Z.of_nat k)); [lia|].
  rewrite Nat2Z.id.
  change (u16 COMPRESSED_BLOCK_1_0_SIZE) with 36.
  replace 36 with (fragment_start vs 0)
    by (unfold fragment_start; rewrite sizes_before_0; reflexivity).
  change 0 with (Z.of_nat 0) at 1.
  rewrite Hscan by lia. cbn [Nat.add].
  rewrite (Hsizes k v Hk).
  pose proof (sizes_before_next vs k v Hpos Hk) as Hend.
  unfold fragment_start in *.
  destruct (Z.ltb_spec block_size
              (COMPRESSED_BLOCK_1_0_SIZE + sizes_before vs k
               + compression_size v)); [lia|].
  reflexivity.
Qed.

(** *** Emptying a bin *)

Section Bins.

Variable may_write : data_vio -> bool.
Variable prepare : data_vio -> list Z -> vdo_status.

Abbreviation remove_loop := (remove_loop may_write).
Abbreviation remove_from_bin := (remove_from_bin may_write).
Abbreviation pack_loop := (pack_loop may_write).
Abbreviation write_bin := (write_bin may_write prepare).
Abbreviation batch_of := (batch_of may_write).
Abbreviation canceled := (fun v : data_vio => negb (may_write v)).

Lemma none_may_write (stack : list data_vio) :
  List.filter may_write stack = [] -> List.filter canceled stack = stack.
Proof.
  induction stack as [|v stack IH]; intros Hnone; [reflexivity|].
  simpl in *. destruct (may_write v); [discriminate|].
  cbn [negb]. rewrite IH by exact Hnone. reflexivity.
Qed.

(** One call of [remove_from_bin], on the slots from the top down: either
    no [data_vio] may be written and all go to the canceled bin, or the
    ones above the first that may be written do. *)
Lemma remove_loop_split (stack : list data_vio) :
  forall bin,
    (List.filter may_write stack = []
     /\ remove_loop stack bin = (None, [], canceled_with bin stack))
    \/ (exists skipped v rest,
          stack = skipped ++ v :: rest
          /\ List.filter may_write skipped = []
          /\ may_write v = true
          /\ remove_loop stack bin
             = (Some (leave_bin v), rest, canceled_with bin skipped)).
Proof.
  induction stack as [|w stack IH]; intros bin.
  - left. split; reflexivity.
  - cbn [Packer.remove_loop List.filter].
    destruct (may_write w) eqn:Hw.
    + right. exists [], w, stack. repeat split. exact Hw.
    + destruct (IH (add_to_bin bin w))
        as [[Hnone Hloop]|(skipped & v & rest & -> & Hnone & Hv & Hloop)].
      * left. split; [exact Hnone | exact Hloop].
      * right. exists (w :: skipped), v, rest.
        repeat split; try assumption.
        simpl. rewrite Hw. exact Hnone.
Qed.

Lemma filter_split (skipped : list data_vio) (v : data_vio)
    (rest : list data_vio) :
  List.filter may_write skipped = [] -> may_write v = true ->
  List.filter may_write (skipped ++ v :: rest)
  = v :: List.filter may_write rest
  /\ List.filter canceled (skipped ++ v :: rest)
     = skipped ++ List.filter canceled rest.
Proof.
  intros Hnone Hv. rewrite !List.filter_app. cbn [List.filter].
  rewrite Hnone, Hv, (none_may_write skipped Hnone). cbn [negb app].
  split; reflexivity.
Qed.

(** The loop of [write_bin] empties the bin: the data_vios that may be
    written are packed in turn, the others end in the canceled bin. *)
Lemma pack_loop_drains :
  forall (fuel : nat) (p : packer) (bin : packer_bin) (st : batch_state),
    (length (incoming bin) < fuel)%nat ->
    pack_loop fuel p bin st
    = Some (with_canceled_bin p
              (canceled_with (canceled_bin p)
                 (List.filter canceled (rev (incoming bin)))),
            {| incoming := []; free_space := bin_data_size p |},
            fold_left pack_fragment (map leave_bin (batch_of bin)) st).
Proof.
  induction fuel as [|fuel IH]; intros p bin st Hfuel; [lia|].
  cbn [Packer.pack_loop]. unfold Packer.remove_from_bin, Packer.batch_of.
  destruct (remove_loop_split (rev (incoming bin)) (canceled_bin p))
    as [[Hnone ->]|(skipped & v & rest & Hstack & Hnone & Hv & ->)].
  - rewrite Hnone, (none_may_write _ Hnone). reflexivity.
  - rewrite Hstack.
    destruct (filter_split skipped v rest Hnone Hv) as [-> ->].
    rewrite IH.
    + cbn [incoming with_canceled_bin canceled_bin bin_data_size].
      unfold Packer.batch_of. cbn [incoming].
      rewrite rev_involutive. unfold canceled_with.
      rewrite fold_left_app. reflexivity.
    + cbn [incoming]. rewrite length_rev.
      apply (f_equal (@length _)) in Hstack.
      rewrite length_rev, length_app in Hstack. cbn [length] in Hstack. lia.
Qed.

Lemma canceled_with_ids (vs : list data_vio) :
  forall bin,
    map vio_id (incoming (canceled_with bin vs))
    = map vio_id (incoming bin) ++ map vio_id vs.
Proof.
  unfold canceled_with.
  induction vs as [|v vs IH]; intros bin; cbn [fold_left map].
  - rewrite app_nil_r. reflexivity.
  - rewrite IH. cbn [add_to_bin incoming]. rewrite map_app.
    cbn [map set_slot vio_id]. rewrite <- app_assoc. reflexivity.
Qed.

Lemma pack_fragments_ids (ws : list data_vio) :
  forall st,
    map vio_id (rev (next_in_batch (fold_left pack_fragment ws st)))
    = map vio_id (rev (next_in_batch st)) ++ map vio_id ws.
Proof.
  induction ws as [|w ws IH]; intros st; cbn [fold_left map].
  - rewrite app_nil_r. reflexivity.
  - rewrite IH. cbn [pack_fragment next_in_batch rev].
    rewrite map_app. cbn [map set_slot vio_id].
    rewrite <- app_assoc. reflexivity.
Qed.

(** [write_bin] in full: the bin is left empty, the data_vios that may
    not be written are in the canceled bin, the first of the others is
    the agent and the rest have been packed into its block. *)
Lemma write_bin_spec (p : packer) (bin : packer_bin) :
  exists r,
    write_bin p bin = Some r
    /\ wb_bin r = {| incoming := []; free_space := bin_data_size p |}
    /\ canceled_bin (wb_packer r)
       = canceled_with (canceled_bin p)
           (List.filter canceled (rev (incoming bin)))
    /\ bin_data_size (wb_packer r) = bin_data_size p
    /\ read_only (wb_packer r) = read_only p
    /\ match batch_of bin with
       | [] => wb_agent r = None /\ wb_batch r = None /\ wb_calls r = []
       | agent :: clients =>
           wb_agent r = Some (set_slot agent 0 false)
           /\ wb_batch r
              = Some (fold_left pack_fragment (map leave_bin clients)
                        (agent_state (set_slot agent 0 false)))
       end.
Proof.
  unfold Packer.write_bin, Packer.remove_from_bin, Packer.batch_of.
  destruct (remove_loop_split (rev (incoming bin)) (canceled_bin p))
    as [[Hnone ->]|(skipped & v & rest & Hstack & Hnone & Hv & ->)].
  - rewrite Hnone, (none_may_write _ Hnone).
    eexists. split; [reflexivity|]. repeat split.
  - rewrite Hstack.
    destruct (filter_split skipped v rest Hnone Hv) as [-> ->].
    rewrite pack_loop_drains by (cbn [incoming]; lia).
    cbn [incoming with_canceled_bin canceled_bin bin_data_size].
    unfold Packer.batch_of. cbn [incoming]. rewrite rev_involutive.
    assert (Hcanceled :
              canceled_with (canceled_with (canceled_bin p) skipped)
                            (List.filter canceled rest)
              = canceled_with (canceled_bin p)
                  (skipped ++ List.filter canceled rest))
      by (unfold canceled_with; rewrite fold_left_app; reflexivity).
    rewrite Hcanceled.
    set (st := fold_left pack_fragment _ _).
    destruct (slot st =? 1); [eexists; split; [reflexivity|]; repeat split|].
    cbn [read_only with_canceled_bin].
    destruct (read_only p) eqn:Hmode;
      [eexists; split; [reflexivity|]; repeat split; exact Hmode|].
    cbv zeta.
    match goal with
    | |- context [is_success ?result] => destruct (is_success result)
    end; cbn [negb]; eexists; (split; [reflexivity|]); repeat split;
      exact Hmode.
Qed.

(** X10.  Writing out a bin always empties it and loses no [data_vio].
    Whatever the bin holds, [write_bin] returns and leaves the bin without
    a [data_vio] and with the free space of an empty bin; the data_vios
    that may no longer be written compressed have been added to the
    canceled bin, in the order the bin gave them up, and the others are
    the batch: the agent followed by the chain of its clients. *)
Theorem write_bin_empties_the_bin (p : packer) (bin : packer_bin) :
  exists r,
    write_bin p bin = Some r
    /\ incoming (wb_bin r) = []
    /\ free_space (wb_bin r) = bin_data_size p
    /\ map vio_id (incoming (canceled_bin (wb_packer r)))
       = map vio_id (incoming (canceled_bin p))
         ++ map vio_id (List.filter canceled (rev (incoming bin)))
    /\ match wb_agent r, wb_batch r with
       | Some agent, Some st =>
           vio_id agent :: map vio_id (rev (next_in_batch st))
           = map vio_id (batch_of bin)
       | None, None => batch_of bin = []
       | _, _ => False
       end.
Proof.
  destruct (write_bin_spec p bin)
    as (r & Hr & Hbin & Hcanceled & _ & _ & Hbatch).
  exists r. split; [exact Hr|]. rewrite Hbin, Hcanceled.
  split; [reflexivity|]. split; [reflexivity|].
  split; [apply canceled_with_ids|].
  destruct (batch_of bin) as [|agent clients].
  - destruct Hbatch as (-> & -> & _). reflexivity.
  - destruct Hbatch as (-> & ->).
    rewrite pack_fragments_ids. cbn [agent_state next_in_batch rev map app].
    cbn [set_slot vio_id]. f_equal.
    rewrite map_map. apply map_ext. intros v. reflexivity.
Qed.

Lemma sizes_before_ext (vs ws : list data_vio) :
  map compression_size vs = map compression_size ws ->
  forall k, sizes_before vs k = sizes_before ws k.
Proof.
  revert ws. induction vs as [|v vs IH]; intros ws Hsame k.
  - destruct ws; [reflexivity | discriminate].
  - destruct ws as [|w ws]; [discriminate|].
    injection Hsame as Hsize Hrest.
    destruct k as [|k]; [reflexivity|]. cbn [sizes_before].
    rewrite Hsize, (IH ws Hrest). reflexivity.
Qed.

(** X11.  What [write_bin] packs is found again.  Take a bin whose batch
    (the agent and its clients, at most 14 in all) has fragments of
    positive sizes that fit the block of the agent together with the
    header, each client holding at least as many bytes as its size says.
    Then [write_bin] packs a block in which the data_vio at position [k]
    of the batch has slot [k], and looking up the mapping state recorded
    for that slot with [vdo_get_compressed_block_fragment] succeeds with
    the size of that data_vio and the offset where the sizes before it
    end; for a client the bytes at that place are the bytes of its
    fragment, for the agent they are the bytes its block came with. *)
Theorem packed_fragments_are_found (p : packer) (bin : packer_bin)
    (agent : data_vio) (clients : list data_vio) (block_size : Z) :
  batch_of bin = agent :: clients ->
  Z.of_nat (length (agent :: clients)) <= VDO_MAX_COMPRESSION_SLOTS ->
  Z.of_nat (length (scratch_block agent)) = block_size ->
  block_size < 2 ^ 16 ->
  Forall (fun v => 0 < compression_size v) (agent :: clients) ->
  Forall (fun v => compression_size v
                   <= Z.of_nat (length (compression_data v))) clients ->
  fragment_start (agent :: clients) (length (agent :: clients))
  <= block_size ->
  exists r st a,
    write_bin p bin = Some r /\ wb_batch r = Some st /\ wb_agent r = Some a
    /\ Z.of_nat (length (block st)) = block_size
    /\ forall (k : nat) (v : data_vio),
         (agent :: clients) !! k = Some v ->
         (a :: rev (next_in_batch st)) !! k
         = Some (set_slot v (Z.of_nat k) false)
         /\ (forall old_offset old_size,
               vdo_get_compressed_block_fragment
                 (new_mapped_state (set_slot v (Z.of_nat k) false))
                 (block st) block_size old_offset old_size
               = (VDO_SUCCESS, fragment_start (agent :: clients) k,
                  compression_size v))
         /\ (forall j, 0 <= j < compression_size v ->
               byte_at (block st) (fragment_start (agent :: clients) k + j)
               = match k with
                 | O => byte_at (scratch_block agent)
                                (COMPRESSED_BLOCK_1_0_SIZE + j)
                 | S _ => byte_at (compression_data v) j
                 end).
Proof.
  intros Hbatch Hslots Hlen Hsmall Hpos Hdata Hroom.
  destruct (write_bin_spec p bin) as (r & Hr & _ & _ & _ & _ & Hspec).
  rewrite Hbatch in Hspec. destruct Hspec as [Hagent Hst].
  set (agent' := set_slot agent 0 false) in *.
  set (ws := map leave_bin clients) in *.
  set (st := fold_left pack_fragment ws (agent_state agent')) in *.
  exists r, st, agent'. split; [exact Hr|]. split; [exact Hst|].
  split; [exact Hagent|].
  assert (Hsizes : map compression_size ([agent'] ++ ws)
                   = map compression_size (agent :: clients)).
  { subst ws agent'. cbn [app map set_slot compression_size]. f_equal.
    rewrite map_map. apply map_ext. intros v. reflexivity. }
  assert (Hstart : forall k, fragment_start ([agent'] ++ ws) k
                             = fragment_start (agent :: clients) k)
    by (intros k; unfold fragment_start;
        rewrite (sizes_before_ext _ _ Hsizes); reflexivity).
  assert (Hcount : length ([agent'] ++ ws) = length (agent :: clients))
    by (subst ws; cbn [app length]; rewrite length_map; reflexivity).
  assert (Hpos' : Forall (fun v => 0 < compression_size v) ([agent'] ++ ws)).
  { apply Forall_cons in Hpos as [Hagent0 Hclients].
    subst ws agent'. cbn [app]. constructor; [exact Hagent0|].
    apply Forall_fmap. eapply Forall_impl; [exact Hclients|].
    intros v Hv. exact Hv. }
  assert (Htotal : 0 <= sizes_before (agent :: clients)
                          (length (agent :: clients)))
    by (apply sizes_before_nonneg; exact Hpos).
  unfold fragment_start in Hroom. rewrite header_size in Hroom.
  assert (Hfirst : 0 < compression_size agent
                   <= sizes_before (agent :: clients)
                        (length (agent :: clients))).
  { pose proof (sizes_before_next (agent :: clients) 0 agent Hpos eq_refl)
      as Hle.
    rewrite sizes_before_0 in Hle.
    apply Forall_cons in Hpos as [Hagent0 _]. lia. }
  destruct (pack_fragments_hold block_size (scratch_block agent') ws
              [agent'] (agent_state agent')) as [Hholds Hslot].
  - apply initial_block_holds; [exact Hlen | cbn [agent' set_slot compression_size]; lia
                               | rewrite header_size; lia].
  - constructor; [|constructor]. apply Hfirst.
  - cbn [length]. lia.
  - reflexivity.
  - cbn [agent_state offset length sizes_before]. lia.
  - subst ws. apply Forall_fmap.
    apply Forall_cons in Hpos as [_ Hclients].
    apply Forall_and. split; assumption.
  - rewrite Hcount. exact Hslots.
  - rewrite Hcount, Hstart. unfold fragment_start. rewrite header_size. lia.
  - exact Hsmall.
  - fold st in Hholds, Hslot.
    split; [destruct Hholds as [Hblock _]; exact Hblock|].
    intros k v Hk.
    assert (Hk' : ([agent'] ++ ws) !! k
                  = Some (set_slot v (match k with
                                      | O => 0
                                      | S _ => compression_slot v
                                      end) false)).
    { destruct k as [|k]; [injection Hk as <-; reflexivity|].
      change (clients !! k = Some v) in Hk. subst ws.
      change ((leave_bin <$> clients) !! k = Some (leave_bin v)).
      rewrite list_lookup_fmap, Hk. reflexivity. }
    split; [|split].
    + destruct k as [|k]; [injection Hk as <-; reflexivity|].
      change (clients !! k = Some v) in Hk.
      subst st. rewrite pack_fragments_chain.
      * cbn [agent_state next_in_batch slot]. rewrite app_nil_r, rev_involutive.
        subst ws. change (map leave_bin clients) with (leave_bin <$> clients).
        rewrite lookup_cons.
        rewrite list_lookup_imap, list_lookup_fmap, Hk.
        cbn [fmap option_fmap option_map].
        f_equal. unfold leave_bin. cbn [set_slot in_bin].
        f_equal. lia.
      * cbn [agent_state slot]. lia.
      * cbn [agent_state slot]. subst ws. rewrite length_map.
        change VDO_MAX_COMPRESSION_SLOTS with 14 in Hslots.
        cbn [length] in Hslots. lia.
    + intros old_offset old_size.
      unfold new_mapped_state. cbn [set_slot compression_slot].
      rewrite <- Hstart.
      assert (Hslots' : Z.of_nat (length ([agent'] ++ ws))
                        <= VDO_MAX_COMPRESSION_SLOTS)
        by (rewrite Hcount; exact Hslots).
      assert (Hroom' : fragment_start ([agent'] ++ ws)
                         (length ([agent'] ++ ws)) <= block_size)
        by (rewrite Hcount, Hstart; unfold fragment_start;
            rewrite header_size; lia).
      rewrite (held_fragment_is_found (block st) block_size
                 (scratch_block agent') ([agent'] ++ ws) k _ old_offset
                 old_size Hholds Hpos' Hslots' Hroom' Hsmall Hk').
      reflexivity.
    + intros j Hj. destruct Hholds as (_ & _ & _ & Hbytes & Hown).
      destruct k as [|k].
      * injection Hk as <-.
        unfold fragment_start at 1. rewrite sizes_before_0, Z.add_0_r.
        apply Hown; [lia|]. rewrite Hstart. unfold fragment_start.
        cbn [sizes_before]. rewrite sizes_before_0. lia.
      * rewrite <- Hstart.
        rewrite (Hbytes (S k) _ j Hk' ltac:(lia) ltac:(exact Hj)).
        reflexivity.
Qed.

End Bins.

Lemma packed_fragments_are_found_witness :
  (batch_of PackerSamples.all_may_write PackerBinSamples.bin_of_three
   = [PackerSamples.fragment 4 300; PackerSamples.fragment 3 200;
      PackerSamples.fragment 2 100]
   /\ Z.of_nat (length (scratch_block (PackerSamples.fragment 4 300))) = 4096
   /\ fragment_start [PackerSamples.fragment 4 300;
                      PackerSamples.fragment 3 200;
                      PackerSamples.fragment 2 100] 3 <= 4096)
  /\ exists r st,
       write_bin PackerSamples.all_may_write PackerSamples.io_is_ready
         (PackerSamples.packer_in_mode false) PackerBinSamples.bin_of_three
       = Some r
       /\ wb_batch r = Some st
       /\ vdo_get_compressed_block_fragment 3 (block st) 4096 0 0
          = (VDO_SUCCESS, 336, 200)
       /\ byte_at (block st) 336 = 3.
Proof.
  assert (Hbatch : batch_of PackerSamples.all_may_write
                     PackerBinSamples.bin_of_three
                   = [PackerSamples.fragment 4 300;
                      PackerSamples.fragment 3 200;
                      PackerSamples.fragment 2 100]) by reflexivity.
  assert (Hlen : Z.of_nat (length (scratch_block (PackerSamples.fragment 4 300)))
                 = 4096) by (vm_compute; reflexivity).
  assert (Hroom : fragment_start [PackerSamples.fragment 4 300;
                                  PackerSamples.fragment 3 200;
                                  PackerSamples.fragment 2 100] 3 <= 4096)
    by (vm_compute; discriminate).
  split; [tauto|].
  destruct (packed_fragments_are_found PackerSamples.all_may_write
              PackerSamples.io_is_ready (PackerSamples.packer_in_mode false)
              PackerBinSamples.bin_of_three (PackerSamples.fragment 4 300)
              [PackerSamples.fragment 3 200; PackerSamples.fragment 2 100]
              4096 Hbatch)
    as (r & st & a & Hr & Hst & _ & _ & Hall).
  - vm_compute. discriminate.
  - exact Hlen.
  - lia.
  - repeat constructor.
  - repeat constructor; vm_compute; discriminate.
  - exact Hroom.
  - exists r, st. split; [exact Hr|]. split; [exact Hst|].
    destruct (Hall 1%nat (PackerSamples.fragment 3 200) eq_refl)
      as (_ & Hfound & Hbytes).
    split; [exact (Hfound 0 0)|].
    exact (Hbytes 0 ltac:(vm_compute; split; [discriminate | reflexivity])).
Defined.

End PackedBlockFacts.

(** ** The bins of the packer *)

Module PackerBinFacts.
Import UInt UIntFacts StatusCodes CompressedBlock Packer PackerBins.
Import PackedBlockFacts.

Section Ring.

Variable bins : list packer_bin.

Abbreviation space := (space_of bins).
Abbreviation sorted := (sorted_by_space bins).
Abbreviation more_space bin := (fun active => space bin <? space active).

Lemma unlink_without (bin : nat) (ring : list nat) :
  ~ In bin ring -> unlink bin ring = ring.
Proof.
  induction ring as [|a ring IH]; intros Hout; [reflexivity|].
  cbn [unlink List.filter].
  destruct (Nat.eqb_spec a bin) as [->|Hne].
  - exfalso. apply Hout. left. reflexivity.
  - cbn [negb]. fold (unlink bin ring). rewrite IH; [reflexivity|].
    intros Hin. apply Hout. right. exact Hin.
Qed.

(** Taking a bin out of the list leaves the other bins in their order. *)
Lemma unlink_split (bin : nat) (ring : list nat) :
  NoDup ring -> In bin ring ->
  exists front back,
    ring = front ++ bin :: back /\ unlink bin ring = front ++ back.
Proof.
  intros Hnodup Hin. apply in_split in Hin as (front & back & ->).
  exists front, back. split; [reflexivity|].
  apply NoDup_app in Hnodup as (_ & Hapart & Hback).
  apply NoDup_cons in Hback as [Hout _].
  assert (Hfront : ~ In bin front).
  { intros Hin. apply list_elem_of_In in Hin.
    apply (Hapart bin Hin). left. }
  assert (Hback : ~ In bin back)
    by (intros Hin; apply Hout, list_elem_of_In; exact Hin).
  unfold unlink. rewrite List.filter_app. cbn [List.filter].
  rewrite Nat.eqb_refl. cbn [negb].
  fold (unlink bin front). fold (unlink bin back).
  rewrite !unlink_without by assumption. reflexivity.
Qed.

Lemma insert_before_permutation (bin active : nat) (ring : list nat) :
  Permutation (insert_before bin active ring) (bin :: ring).
Proof.
  induction ring as [|a ring IH]; cbn [insert_before]; [reflexivity|].
  destruct (Nat.eqb a active); [reflexivity|].
  rewrite IH. apply perm_swap.
Qed.

(** The loop of [insert_in_sorted_list] passes over the bin itself. *)
Lemma find_skips_the_bin (bin : nat) (front back : list nat) :
  List.find (more_space bin) (front ++ bin :: back)
  = List.find (more_space bin) (front ++ back).
Proof.
  induction front as [|a front IH]; cbn [app List.find].
  - rewrite Z.ltb_irrefl. reflexivity.
  - rewrite IH. reflexivity.
Qed.

(** Putting a bin back among bins that are in order: in front of the
    first bin with more free space, or at the end. *)
Lemma insert_keeps_order (bin : nat) (others : list nat) :
  sorted others ->
  sorted (match List.find (more_space bin) others with
          | Some active => insert_before bin active others
          | None => others ++ [bin]
          end).
Proof.
  induction others as [|a rest IH]; intros Hsorted.
  - cbn. split; constructor.
  - destruct Hsorted as [Hleast Hrest]. specialize (IH Hrest).
    cbn [List.find].
    destruct (Z.ltb_spec (space bin) (space a)) as [Hmore|Hless].
    + cbn [insert_before]. rewrite Nat.eqb_refl.
      cbn [sorted_by_space]. repeat split; try assumption.
      constructor; [lia|].
      eapply Forall_impl; [exact Hleast|]. cbn. intros other Hother. lia.
    + destruct (List.find (more_space bin) rest) as [active|] eqn:Hfound.
      * cbn [insert_before].
        destruct (Nat.eqb_spec a active) as [->|_].
        { apply List.find_some in Hfound as [_ Hactive].
          apply Z.ltb_lt in Hactive. lia. }
        cbn [sorted_by_space]. split; [|exact IH].
        eapply Permutation_Forall;
          [symmetry; apply insert_before_permutation|].
        constructor; assumption.
      * cbn [app sorted_by_space]. split; [|exact IH].
        apply Forall_app. split; [exact Hleast|].
        constructor; [exact Hless | constructor].
Qed.

(** X12.  [insert_in_sorted_list] restores the order of the bins.  When
    the bins other than [bin] are chained in ascending order of free
    space, the list after the call holds the same bins and is in
    ascending order of free space throughout. *)
Theorem insert_in_sorted_list_sorts (ring : list nat) (bin : nat) :
  NoDup ring -> In bin ring ->
  sorted (unlink bin ring) ->
  Permutation (insert_in_sorted_list bins ring bin) ring
  /\ sorted (insert_in_sorted_list bins ring bin).
Proof.
  intros Hnodup Hin Hsorted.
  destruct (unlink_split bin ring Hnodup Hin) as (front & back & -> & Hothers).
  unfold insert_in_sorted_list, list_move_tail.
  rewrite find_skips_the_bin, Hothers in *.
  split.
  - destruct (List.find _ _).
    + rewrite insert_before_permutation. apply Permutation_middle.
    + rewrite <- Permutation_cons_append. apply Permutation_middle.
  - exact (insert_keeps_order bin (front ++ back) Hsorted).
Qed.

(** In a list in ascending order the first bin with room is the one with
    the least free space among those with room. *)
Lemma first_fit_is_best (size : Z) (ring : list nat) (bin : nat) :
  sorted ring ->
  List.find (fun b => size <=? space b) ring = Some bin ->
  In bin ring /\ size <= space bin
  /\ forall other, In other ring -> size <= space other ->
                   space bin <= space other.
Proof.
  induction ring as [|a rest IH]; intros Hsorted Hfound; [discriminate|].
  destruct Hsorted as [Hleast Hrest]. cbn [List.find] in Hfound.
  destruct (Z.leb_spec size (space a)) as [Hfits|Hfull].
  - injection Hfound as <-. repeat split; [left; reflexivity | exact Hfits|].
    intros other [<-|Hin] _; [lia|].
    rewrite List.Forall_forall in Hleast. exact (Hleast other Hin).
  - destruct (IH Hrest Hfound) as (Hin & Hfits & Hbest).
    repeat split; [right; exact Hin | exact Hfits|].
    intros other [<-|Hother] Hroom; [lia|]. exact (Hbest other Hother Hroom).
Qed.

(** X13.  [select_bin] is a best fit.  On bins chained in ascending order
    of free space, the fullest with no more free space than
    [bin_data_size]: the
    bin selected is one of the list; when some bin has room for the
    fragment, it is the bin with the least free space among those with
    room; when none has room, it is the fullest bin, and only if the
    fragment is smaller than what that bin holds; and NULL is returned
    exactly when no bin has room and the fragment is at least as large as
    what the fullest bin holds. *)
Theorem select_bin_best_fit (ring : list nat) (bin_data_size size : Z)
    (fullest : nat) :
  sorted ring -> head ring = Some fullest ->
  bin_data_size < 2 ^ 64 ->
  0 <= space fullest <= bin_data_size ->
  match select_bin bins ring bin_data_size size with
  | Some bin =>
      In bin ring
      /\ ((size <= space bin
           /\ forall other, In other ring -> size <= space other ->
                            space bin <= space other)
          \/ ((forall other, In other ring -> space other < size)
              /\ bin = fullest
              /\ size < bin_data_size - space fullest))
  | None =>
      (forall other, In other ring -> space other < size)
      /\ bin_data_size - space fullest <= size
  end.
Proof.
  intros Hsorted Hhead Hsmall Hfull. unfold select_bin.
  destruct (List.find (fun b => size <=? space b) ring) as [bin|] eqn:Hfound.
  - destruct (first_fit_is_best size ring bin Hsorted Hfound)
      as (Hin & Hfits & Hbest).
    split; [exact Hin|]. left. split; assumption.
  - assert (Hnone : forall other, In other ring -> space other < size).
    { intros other Hin.
      pose proof (List.find_none _ _ Hfound other Hin) as Hother.
      cbn in Hother. apply Z.leb_gt in Hother. exact Hother. }
    unfold vdo_get_packer_fullest_bin. rewrite Hhead.
    rewrite u64_small by lia.
    destruct (Z.leb_spec (bin_data_size - space fullest) size).
    + split; assumption.
    + split; [destruct ring; [discriminate|]; injection Hhead as ->; left;
              reflexivity|].
      right. repeat split; assumption.
Qed.

End Ring.

Lemma insert_in_sorted_list_sorts_witness :
  (NoDup PackerBinSamples.four_bins_ring
   /\ In 1%nat PackerBinSamples.four_bins_ring
   /\ sorted_by_space PackerBinSamples.four_bins_changed
        (unlink 1 PackerBinSamples.four_bins_ring))
  /\ insert_in_sorted_list PackerBinSamples.four_bins_changed
       PackerBinSamples.four_bins_ring 1
     = [3%nat; 2%nat; 1%nat; 0%nat]
  /\ sorted_by_space PackerBinSamples.four_bins_changed
       [3%nat; 2%nat; 1%nat; 0%nat].
Proof.
  assert (Hnodup : NoDup PackerBinSamples.four_bins_ring)
    by (apply (bool_decide_unpack _); vm_compute; exact I).
  assert (Hin : In 1%nat PackerBinSamples.four_bins_ring)
    by (simpl; tauto).
  assert (Hsorted : sorted_by_space PackerBinSamples.four_bins_changed
                      (unlink 1 PackerBinSamples.four_bins_ring))
    by (cbn; repeat split; repeat constructor; vm_compute; discriminate).
  split; [tauto|]. split; [reflexivity|].
  exact (proj2 (insert_in_sorted_list_sorts PackerBinSamples.four_bins_changed
                  PackerBinSamples.four_bins_ring 1 Hnodup Hin Hsorted)).
Defined.

Lemma select_bin_best_fit_witness :
  (sorted_by_space PackerBinSamples.four_bins PackerBinSamples.four_bins_ring
   /\ head PackerBinSamples.four_bins_ring = Some 1%nat)
  /\ select_bin PackerBinSamples.four_bins PackerBinSamples.four_bins_ring
       4060 2000 = Some 2%nat
  /\ In 2%nat PackerBinSamples.four_bins_ring.
Proof.
  assert (Hsorted : sorted_by_space PackerBinSamples.four_bins
                      PackerBinSamples.four_bins_ring)
    by (cbn; repeat split; repeat constructor; vm_compute; discriminate).
  assert (Hhead : head PackerBinSamples.four_bins_ring = Some 1%nat)
    by reflexivity.
  split; [tauto|]. split; [reflexivity|].
  pose proof (select_bin_best_fit PackerBinSamples.four_bins
                PackerBinSamples.four_bins_ring 4060 2000 1 Hsorted Hhead
                ltac:(lia)
                ltac:(vm_compute; split; discriminate)) as Hbest.
  change (select_bin PackerBinSamples.four_bins
            PackerBinSamples.four_bins_ring 4060 2000)
    with (Some 2%nat) in Hbest.
  exact (proj1 Hbest).
Defined.

(** *** Taking a lock holder out of its bin *)

Lemma total_size_app (front back : list data_vio) :
  total_size (front ++ back) = total_size front + total_size back.
Proof.
  unfold total_size.
  induction front as [|v front IH]; cbn [app fold_right]; lia.
Qed.

Lemma total_size_cons (v : data_vio) (vs : list data_vio) :
  total_size (v :: vs) = compression_size v + total_size vs.
Proof. reflexivity. Qed.




(** *** Adding a data_vio to a bin *)

Section Adding.

Variable may_write : data_vio -> bool.
Variable prepare : data_vio -> list Z -> vdo_status.

Abbreviation write_bin_at := (write_bin_at may_write prepare).
Abbreviation add_data_vio_to_packer_bin :=
  (add_data_vio_to_packer_bin may_write prepare).

Lemma write_bin_at_spec (s : packer_bins) (b : nat) (bin : packer_bin) :
  bins s !! b = Some bin ->
  exists s',
    write_bin_at s b = Some s'
    /\ bins s'
       = <[b := {| incoming := [];
                   free_space := bin_data_size (the_packer s) |}]> (bins s)
    /\ bin_data_size (the_packer s') = bin_data_size (the_packer s)
    /\ max_slots s' = max_slots s
    /\ ring s' = ring s.
Proof.
  intros Hb. unfold PackerBins.write_bin_at. rewrite Hb.
  destruct (write_bin_spec may_write prepare (the_packer s) bin)
    as (r & -> & Hbin & _ & Hsize & _).
  eexists. split; [reflexivity|]. cbn [bins the_packer max_slots ring].
  rewrite Hbin. repeat split. exact Hsize.
Qed.

(** What [add_data_vio_to_packer_bin] does to a bin that is in order. *)
Lemma add_data_vio_spec (s : packer_bins) (b : nat) (bin : packer_bin)
    (v : data_vio) :
  bins s !! b = Some bin ->
  bin_in_order (bin_data_size (the_packer s)) (max_slots s) bin ->
  0 < compression_size v < bin_data_size (the_packer s) ->
  bin_data_size (the_packer s) < 2 ^ 64 ->
  max_slots s <= 2 ^ 16 ->
  exists s' bin',
    add_data_vio_to_packer_bin s b v = Some s'
    /\ bins s' !! b = Some bin'
    /\ bin_in_order (bin_data_size (the_packer s)) (max_slots s) bin'
    /\ (incoming bin' = []
        \/ exists front,
             incoming bin'
             = front ++ [set_slot v (Z.of_nat (length front)) true])
    /\ bin_data_size (the_packer s') = bin_data_size (the_packer s)
    /\ max_slots s' = max_slots s
    /\ (forall other, other <> b -> bins s' !! other = bins s !! other)
    /\ length (bins s') = length (bins s)
    /\ ring s' = insert_in_sorted_list (bins s') (ring s) b.
Proof.
  intros Hb (Hfree & Hleft & Hslot) Hsize Hsmall Hmax.
  set (size := bin_data_size (the_packer s)) in *.
  set (slots := max_slots s) in *.
  apply lookup_lt_Some in Hb as Hrange.
  assert (Hempty : bin_in_order size slots
                     {| incoming := []; free_space := size |}).
  { unfold bin_in_order, slots_used in *. cbn [incoming free_space length].
    change (total_size []) with 0. lia. }
  assert (Hfirst : exists s1 b1,
            (if free_space bin <? compression_size v
             then write_bin_at s b else Some s) = Some s1
            /\ bins s1 !! b = Some b1
            /\ free_space b1 = size - total_size (incoming b1)
            /\ compression_size v <= free_space b1 <= size
            /\ slots_used b1 < slots
            /\ bin_data_size (the_packer s1) = size
            /\ max_slots s1 = slots
            /\ length (bins s1) = length (bins s)
            /\ ring s1 = ring s
            /\ forall other, other <> b -> bins s1 !! other = bins s !! other).
  { destruct (Z.ltb_spec (free_space bin) (compression_size v)).
    - destruct (write_bin_at_spec s b bin Hb)
        as (s1 & -> & Hbins & Hs & Hm & Hr).
      exists s1, {| incoming := []; free_space := size |}.
      rewrite Hbins. split; [reflexivity|].
      split; [apply list_lookup_insert_eq; exact Hrange|].
      destruct Hempty as (He1 & He2 & He3).
      split; [exact He1|]. split; [cbn [free_space]; lia|].
      split; [exact He3|]. split; [exact Hs|]. split; [exact Hm|].
      split; [apply length_insert|]. split; [exact Hr|].
      intros other Hother. apply list_lookup_insert_ne. congruence.
    - exists s, bin. split; [reflexivity|]. split; [exact Hb|].
      split; [exact Hfree|]. split; [lia|]. split; [exact Hslot|].
      repeat split. }
  destruct Hfirst
    as (s1 & b1 & Hs1 & Hb1 & Hfree1 & [Hfits Hcap] & Hslot1 & Hsize1 & Hmax1
        & Hlen1 & Hring1 & Hothers1).
  unfold PackerBins.add_data_vio_to_packer_bin. rewrite Hb, Hs1, Hb1.
  set (b2 := {| incoming := incoming (add_to_bin b1 v);
                free_space := u64 (free_space b1 - compression_size v) |}).
  assert (Hused : 0 <= slots_used b1) by (unfold slots_used; lia).
  assert (Hinc2 : incoming b2
                  = incoming b1
                    ++ [set_slot v (Z.of_nat (length (incoming b1))) true]).
  { cbn [b2 incoming add_to_bin]. unfold slots_used in *.
    rewrite u16_small by lia. reflexivity. }
  assert (Hfree2 : free_space b2 = free_space b1 - compression_size v).
  { cbn [b2 free_space]. apply u64_small. lia. }
  assert (Htotal2 : total_size (incoming b2)
                    = total_size (incoming b1) + compression_size v).
  { rewrite Hinc2, total_size_app, total_size_cons.
    change (total_size []) with 0. cbn [set_slot compression_size]. lia. }
  assert (Hslots2 : slots_used b2 = slots_used b1 + 1).
  { unfold slots_used. rewrite Hinc2, length_app. cbn [length]. lia. }
  assert (Hb2 : bins (with_bin s1 b b2) !! b = Some b2)
    by (cbn [with_bin bins]; apply list_lookup_insert_eq; lia).
  cbn [with_bin max_slots]. fold (with_bin s1 b b2). rewrite Hmax1.
  destruct ((slots_used b2 =? slots) || (free_space b2 =? 0)) eqn:Hfull.
  - destruct (write_bin_at_spec (with_bin s1 b b2) b b2 Hb2)
      as (s3 & -> & Hbins & Hs & Hm & Hr).
    cbn [with_bin the_packer max_slots bins ring] in Hbins, Hs, Hm, Hr.
    exists {| the_packer := the_packer s3; bins := bins s3;
              ring := insert_in_sorted_list (bins s3) (ring s3) b;
              max_slots := max_slots s3; calls := calls s3 |},
      {| incoming := []; free_space := size |}.
    cbn [bins the_packer max_slots ring]. rewrite Hbins, Hsize1, Hr, Hring1.
    split; [reflexivity|].
    split; [apply list_lookup_insert_eq; rewrite length_insert; lia|].
    split; [exact Hempty|]. split; [left; reflexivity|].
    split; [congruence|]. split; [congruence|].
    split; [|split; [rewrite !length_insert; exact Hlen1 | reflexivity]].
    intros other Hother.
    rewrite !list_lookup_insert_ne by congruence. apply Hothers1, Hother.
  - apply orb_false_iff in Hfull as [Hnotfull Hnotzero].
    apply Z.eqb_neq in Hnotfull, Hnotzero.
    exists {| the_packer := the_packer (with_bin s1 b b2);
              bins := bins (with_bin s1 b b2);
              ring := insert_in_sorted_list (bins (with_bin s1 b b2))
                        (ring (with_bin s1 b b2)) b;
              max_slots := max_slots (with_bin s1 b b2);
              calls := calls (with_bin s1 b b2) |}, b2.
    cbn [bins the_packer max_slots with_bin ring]. rewrite Hring1.
    split; [reflexivity|].
    split; [apply list_lookup_insert_eq; lia|].
    split; [unfold bin_in_order; lia|].
    split; [right; exists (incoming b1); exact Hinc2|].
    split; [exact Hsize1|]. split; [exact Hmax1|].
    split; [|split; [rewrite length_insert; exact Hlen1 | reflexivity]].
    intros other Hother.
    rewrite list_lookup_insert_ne by congruence. apply Hothers1, Hother.
Qed.


End Adding.


End PackerBinFacts.

(** ** Facts about the linked lists *)

Module ListHeadFacts.
Import ListHead.

Lemma elem_of_list_del_init (j i : nat) (entries : list nat) :
  j ∈ list_del_init i entries <-> j ∈ entries /\ j <> i.
Proof.
  unfold list_del_init. rewrite !list_elem_of_In, List.filter_In.
  destruct (Nat.eqb_spec j i); cbn; intuition congruence.
Qed.

Lemma NoDup_list_del_init (i : nat) (entries : list nat) :
  NoDup entries -> NoDup (list_del_init i entries).
Proof.
  intros H. apply NoDup_ListNoDup, List.NoDup_filter, NoDup_ListNoDup, H.
Qed.

Lemma list_del_init_absent (i : nat) (entries : list nat) :
  i ∉ entries -> list_del_init i entries = entries.
Proof.
  induction entries as [|j entries IH]; intros Hi; [reflexivity|].
  unfold list_del_init. cbn [List.filter].
  destruct (Nat.eqb_spec j i) as [->|Hne].
  - exfalso. apply Hi. left.
  - cbn [negb]. f_equal. apply IH. intros Hin. apply Hi. right. exact Hin.
Qed.

Lemma elem_of_list_move_tail (j i : nat) (entries : list nat) :
  j ∈ list_move_tail i entries <-> j = i \/ (j ∈ entries /\ j <> i).
Proof.
  unfold list_move_tail.
  rewrite elem_of_app, elem_of_list_del_init, list_elem_of_singleton.
  tauto.
Qed.

Lemma NoDup_list_move_tail (i : nat) (entries : list nat) :
  NoDup entries -> NoDup (list_move_tail i entries).
Proof.
  intros H. unfold list_move_tail. apply NoDup_app.
  split; [apply NoDup_list_del_init, H|]. split.
  - intros j Hj Hi. apply elem_of_list_del_init in Hj.
    apply list_elem_of_singleton in Hi. tauto.
  - apply NoDup_singleton.
Qed.

Lemma last_list_move_tail (i : nat) (entries : list nat) :
  last (list_move_tail i entries) = Some i.
Proof. unfold list_move_tail. apply last_snoc. Qed.

(** Unlinking an entry, or moving it to the tail of one of two lists,
    leaves the two lists without a common or a repeated entry. *)
Lemma NoDup_relinked (i : nat) (free out : list nat) :
  NoDup (free ++ out) ->
  NoDup (list_move_tail i free ++ list_del_init i out)
  /\ NoDup (list_del_init i free ++ list_move_tail i out)
  /\ NoDup (list_del_init i free ++ list_del_init i out).
Proof.
  intros H. apply NoDup_app in H. destruct H as (Hf & Hdis & Ho).
  split; [|split]; apply NoDup_app.
  - split; [apply NoDup_list_move_tail, Hf|].
    split; [|apply NoDup_list_del_init, Ho].
    intros j Hj Hj'. apply elem_of_list_move_tail in Hj.
    apply elem_of_list_del_init in Hj'.
    destruct Hj as [->|[Hj _]]; [tauto|]. apply (Hdis j Hj). tauto.
  - split; [apply NoDup_list_del_init, Hf|].
    split; [|apply NoDup_list_move_tail, Ho].
    intros j Hj Hj'. apply elem_of_list_move_tail in Hj'.
    apply elem_of_list_del_init in Hj.
    destruct Hj' as [->|[Hj' _]]; [tauto|]. apply (Hdis j); tauto.
  - split; [apply NoDup_list_del_init, Hf|].
    split; [|apply NoDup_list_del_init, Ho].
    intros j Hj Hj'. apply elem_of_list_del_init in Hj, Hj'.
    apply (Hdis j); tauto.
Qed.

Lemma list_del_init_app (i : nat) (front back : list nat) :
  list_del_init i (front ++ back)
  = list_del_init i front ++ list_del_init i back.
Proof. unfold list_del_init. apply List.filter_app. Qed.

Lemma list_del_init_self (i : nat) : list_del_init i [i] = [].
Proof. unfold list_del_init. cbn. rewrite Nat.eqb_refl. reflexivity. Qed.

Lemma list_del_init_head (i : nat) (entries : list nat) :
  i ∉ entries -> list_del_init i (i :: entries) = entries.
Proof.
  intros Hi. unfold list_del_init. cbn [List.filter].
  rewrite Nat.eqb_refl. cbn [negb]. apply list_del_init_absent, Hi.
Qed.

Lemma length_list_del_init (i : nat) (entries : list nat) :
  NoDup entries -> i ∈ entries ->
  S (length (list_del_init i entries)) = length entries.
Proof.
  intros Hnodup Hin. apply list_elem_of_split in Hin.
  destruct Hin as (front & back & ->).
  apply NoDup_app in Hnodup. destruct Hnodup as (_ & Hdis & Hback).
  apply NoDup_cons in Hback. destruct Hback as [Hback _].
  rewrite list_del_init_app, list_del_init_head by exact Hback.
  rewrite list_del_init_absent
    by (intros Hin; apply (Hdis i Hin); left).
  rewrite !length_app. cbn [length]. lia.
Qed.

(** A list of distinct positions of an array is no longer than the
    array. *)
Lemma NoDup_bounded_length (entries : list nat) (n : nat) :
  NoDup entries -> (forall i, i ∈ entries -> (i < n)%nat) ->
  (length entries <= n)%nat.
Proof.
  intros Hnodup Hbound.
  rewrite <- (List.length_seq n 0).
  apply List.NoDup_incl_length; [apply NoDup_ListNoDup, Hnodup|].
  intros i Hi. apply List.in_seq. apply list_elem_of_In in Hi.
  specialize (Hbound i Hi). lia.
Qed.

End ListHeadFacts.

(** ** Page states, state lists and page counters *)

Module PageStateFacts.
Import UInt UIntFacts StatusCodes PageCache PageCacheFacts ListHead
  ListHeadFacts PageStates.

Lemma same_state_iff a b : same_state a b = true <-> a = b.
Proof. destruct a, b; cbn; split; congruence. Qed.

Lemma same_state_refl a : same_state a a = true.
Proof. destruct a; reflexivity. Qed.

Lemma same_state_sym a b : same_state a b = same_state b a.
Proof. destruct a, b; reflexivity. Qed.

Lemma pages_in_cons st info pages :
  pages_in st (info :: pages)
  = ((if same_state (state info) st then 1 else 0) + pages_in st pages)%nat.
Proof.
  unfold pages_in. cbn [List.filter].
  destruct (same_state (state info) st); reflexivity.
Qed.

Lemma pages_in_le st pages : (pages_in st pages <= length pages)%nat.
Proof.
  induction pages as [|info pages IH]; [unfold pages_in; cbn; lia|].
  rewrite pages_in_cons. cbn [length].
  destruct (same_state (state info) st); lia.
Qed.

(** Replacing one page moves one unit between two counts. *)
Lemma pages_in_insert st pages :
  forall i info info',
    pages !! i = Some info ->
    (pages_in st (<[i := info']> pages)
     + (if same_state (state info) st then 1 else 0)
     = pages_in st pages
       + (if same_state (state info') st then 1 else 0))%nat.
Proof.
  induction pages as [|first pages IH]; intros i info info' Hi;
    [discriminate Hi|].
  destruct i as [|i].
  - cbn in Hi. injection Hi as ->.
    change (<[0%nat := info']> (info :: pages)) with (info' :: pages).
    rewrite !pages_in_cons.
    destruct (same_state (state info) st), (same_state (state info') st); lia.
  - cbn in Hi.
    change (<[S i := info']> (first :: pages))
      with (first :: <[i := info']> pages).
    rewrite !pages_in_cons.
    specialize (IH i info info' Hi). lia.
Qed.

Lemma pages_in_positive st pages i info :
  pages !! i = Some info -> state info = st -> (1 <= pages_in st pages)%nat.
Proof.
  revert i. induction pages as [|first pages IH]; intros i Hi Hst;
    [discriminate Hi|].
  rewrite pages_in_cons. destruct i as [|i].
  - cbn in Hi. injection Hi as ->. rewrite Hst, same_state_refl. lia.
  - cbn in Hi. specialize (IH i Hi Hst). lia.
Qed.

(** The lists agree with the states once they agree on the page that
    changed and are otherwise parts of lists that did. *)
Lemma lists_agree_after (c c' : page_states) (i : nat) (info' : page_info) :
  lists_agree c ->
  (i < length (infos c))%nat ->
  infos c' = <[i := info']> (infos c) ->
  NoDup (free_list c' ++ outgoing_list c') ->
  (forall j, j ∈ free_list c' ->
     (j = i /\ (state info' = PS_FREE \/ state info' = PS_FAILED))
     \/ (j <> i /\ j ∈ free_list c)) ->
  (forall j, j ∈ outgoing_list c' ->
     (j = i /\ state info' = PS_OUTGOING)
     \/ (j <> i /\ j ∈ outgoing_list c)) ->
  lists_agree c'.
Proof.
  intros (_ & Hfree & Hout) Hi Hinfos Hnodup Hfree' Hout'.
  split; [exact Hnodup|]. rewrite Hinfos. split.
  - intros j Hj. destruct (Hfree' j Hj) as [[-> Hst]|[Hne Hold]].
    + exists info'. split; [apply list_lookup_insert_eq, Hi | exact Hst].
    + destruct (Hfree j Hold) as (info & Hinfo & Hst).
      exists info. split; [|exact Hst].
      rewrite list_lookup_insert_ne by congruence. exact Hinfo.
  - intros j Hj. destruct (Hout' j Hj) as [[-> Hst]|[Hne Hold]].
    + exists info'. split; [apply list_lookup_insert_eq, Hi | exact Hst].
    + destruct (Hout j Hold) as (info & Hinfo & Hst).
      exists info. split; [|exact Hst].
      rewrite list_lookup_insert_ne by congruence. exact Hinfo.
Qed.

Lemma select_lru_from_app pages (front back : list nat) :
  select_lru_from pages (front ++ back)
  = match select_lru_from pages front with
    | Some j => Some j
    | None => select_lru_from pages back
    end.
Proof.
  induction front as [|k front IH]; [reflexivity|].
  cbn [app select_lru_from]. destruct (pages !! k) as [info|]; [|exact IH].
  destruct (discardable info); [reflexivity | exact IH].
Qed.

(** Unlinking another page does not change the page chosen. *)
Lemma select_lru_from_del pages (lru : list nat) (i j : nat) :
  select_lru_from pages lru = Some j -> j <> i ->
  select_lru_from pages (list_del_init i lru) = Some j.
Proof.
  intros Hsel Hne. induction lru as [|k lru IH]; [discriminate Hsel|].
  unfold list_del_init. cbn [List.filter]. cbn [select_lru_from] in Hsel.
  destruct (Nat.eqb_spec k i) as [->|Hk]; cbn [negb].
  - apply IH. destruct (pages !! i) as [info|]; [|exact Hsel].
    destruct (discardable info); [congruence | exact Hsel].
  - cbn [select_lru_from]. destruct (pages !! k) as [info|]; [|apply IH, Hsel].
    destruct (discardable info); [exact Hsel | apply IH, Hsel].
Qed.

(** X16.  [update_lru] makes a page the most recently used one without
    disturbing the order of the others, so that [select_lru_page]
    afterwards still chooses the page it would have chosen before unless
    that was the page touched, and chooses the page touched only when
    every other page of the ring is busy or in flight. *)
Theorem touched_page_is_chosen_last (cache : vdo_page_cache) (i : nat) :
  NoDup (lru_list cache) ->
  lru_list (update_lru cache i) = list_del_init i (lru_list cache) ++ [i]
  /\ PageCache.infos (update_lru cache i) = PageCache.infos cache
  /\ (forall j, j <> i -> select_lru_page cache = Some j ->
        select_lru_page (update_lru cache i) = Some j)
  /\ (select_lru_page (update_lru cache i) = Some i ->
      forall k, k ∈ lru_list cache -> k <> i ->
                pinned (PageCache.infos cache) k).
Proof.
  intros Hnodup.
  assert (Hlru : lru_list (update_lru cache i)
                 = list_del_init i (lru_list cache) ++ [i]
                 /\ PageCache.infos (update_lru cache i)
                    = PageCache.infos cache).
  { unfold update_lru.
    destruct (last (lru_list cache)) as [j|] eqn:Hlast;
      [|split; reflexivity].
    destruct (Nat.eqb_spec j i) as [->|Hne]; [|split; reflexivity].
    split; [|reflexivity].
    apply last_Some in Hlast. destruct Hlast as [front Hfront].
    rewrite Hfront in Hnodup |- *.
    apply NoDup_app in Hnodup. destruct Hnodup as (_ & Hdis & _).
    rewrite list_del_init_app, list_del_init_self, app_nil_r.
    rewrite list_del_init_absent; [reflexivity|].
    intros Hin. apply (Hdis i Hin). left. }
  destruct Hlru as [Hlru Hinfos].
  split; [exact Hlru|]. split; [exact Hinfos|].
  unfold select_lru_page. rewrite Hlru, Hinfos, select_lru_from_app. split.
  - intros j Hne Hsel.
    rewrite (select_lru_from_del _ _ i j Hsel Hne). reflexivity.
  - intros Hsel k Hk Hne.
    destruct (select_lru_from (PageCache.infos cache)
                (list_del_init i (lru_list cache))) as [j|] eqn:Hfront.
    + injection Hsel as ->.
      destruct (select_lru_from_some _ _ _ Hfront)
        as (before & after & info & Heq & _).
      assert (Hin : i ∈ list_del_init i (lru_list cache)).
      { rewrite Heq. apply elem_of_app. right. left. }
      apply elem_of_list_del_init in Hin. tauto.
    + apply select_lru_from_none in Hfront.
      rewrite Forall_forall in Hfront. apply Hfront.
      apply elem_of_list_del_init. tauto.
Qed.

Lemma touched_page_is_chosen_last_witness :
  NoDup (lru_list CacheSamples.cache_with_victim)
  /\ (lru_list (update_lru CacheSamples.cache_with_victim 3)
      = list_del_init 3 (lru_list CacheSamples.cache_with_victim) ++ [3%nat]
      /\ PageCache.infos (update_lru CacheSamples.cache_with_victim 3)
         = PageCache.infos CacheSamples.cache_with_victim
      /\ (forall j, j <> 3%nat ->
            select_lru_page CacheSamples.cache_with_victim = Some j ->
            select_lru_page (update_lru CacheSamples.cache_with_victim 3)
            = Some j)
      /\ (select_lru_page (update_lru CacheSamples.cache_with_victim 3)
          = Some 3%nat ->
          forall k, k ∈ lru_list CacheSamples.cache_with_victim ->
                    k <> 3%nat ->
                    pinned (PageCache.infos CacheSamples.cache_with_victim) k)).
Proof.
  assert (H : NoDup (lru_list CacheSamples.cache_with_victim)).
  { apply (bool_decide_unpack _). vm_compute. exact I. }
  split; [exact H|].
  apply (touched_page_is_chosen_last CacheSamples.cache_with_victim 3 H).
Defined.

Section Counters.

Variable counter_bits : Z.

Lemma counter_of_update st info delta s :
  counter_of st (update_counter counter_bits info delta s)
  = if same_state (state info) st
    then ADD_ONCE counter_bits (counter_of st s) delta
    else counter_of st s.
Proof.
  unfold update_counter. destruct (state info), st; reflexivity.
Qed.

Lemma set_info_state_infos c i info new_state :
  infos c !! i = Some info ->
  same_state new_state (state info) = false ->
  infos (set_info_state counter_bits c i new_state)
  = <[i := with_state info new_state]> (infos c)
  /\ stats (set_info_state counter_bits c i new_state)
     = update_counter counter_bits (with_state info new_state) 1
         (update_counter counter_bits info (-1) (stats c)).
Proof.
  intros Hi Hne. unfold set_info_state. rewrite Hi, Hne.
  cbn [with_state state]. destruct new_state; split; reflexivity.
Qed.

(** X17.  [set_info_state] keeps the page counters exact: when every
    counter holds the number of pages in its state and the counters are
    wide enough for the number of pages, the same is true after the state
    of any page is set to any state.  The decrement never wraps below
    zero and the increment never wraps past the width. *)
Theorem set_info_state_keeps_count (c : page_states) (i : nat)
    (new_state : vdo_page_buffer_state) :
  counted c ->
  Z.of_nat (length (infos c)) < 2 ^ counter_bits ->
  counted (set_info_state counter_bits c i new_state).
Proof.
  intros Hcount Hwide.
  destruct (infos c !! i) as [info|] eqn:Hi;
    [|unfold set_info_state; rewrite Hi; exact Hcount].
  destruct (same_state new_state (state info)) eqn:Hsame;
    [unfold set_info_state; rewrite Hi, Hsame; exact Hcount|].
  destruct (set_info_state_infos c i info new_state Hi Hsame)
    as [Hinfos Hstats].
  intros st. rewrite Hinfos, Hstats, !counter_of_update.
  cbn [with_state state].
  pose proof (pages_in_insert st (infos c) i info
                (with_state info new_state) Hi) as Hmove.
  cbn [with_state state] in Hmove.
  pose proof (pages_in_le st (<[i := with_state info new_state]> (infos c)))
    as Hle.
  rewrite length_insert in Hle.
  pose proof (pages_in_le st (infos c)) as Hle0.
  rewrite (Hcount st).
  unfold ADD_ONCE.
  destruct (same_state (state info) st) eqn:Hold,
           (same_state new_state st) eqn:Hnew.
  - apply same_state_iff in Hold, Hnew. subst st.
    rewrite Hnew, same_state_refl in Hsame. discriminate Hsame.
  - apply same_state_iff in Hold.
    pose proof (pages_in_positive st (infos c) i info Hi Hold) as Hpos.
    rewrite wrap_small by lia. lia.
  - rewrite wrap_small by lia. lia.
  - lia.
Qed.

(** X18.  [set_info_state] keeps the state lists in step with the
    states.  If no page is on a list twice, the free list holds only free
    and failed pages and the outgoing list only outgoing pages, then the
    same is true afterwards, provided a page that becomes dirty is on
    neither list.  When the state changes, the page is on the free list
    exactly when its new state is free or failed and on the outgoing list
    exactly when it is outgoing, in both cases as the last entry; the
    other pages stay where they were. *)
Theorem set_info_state_keeps_lists (c : page_states) (i : nat)
    (info : page_info) (new_state : vdo_page_buffer_state) :
  lists_agree c ->
  infos c !! i = Some info ->
  (new_state = PS_DIRTY ->
   (i ∉ free_list c) /\ (i ∉ outgoing_list c)) ->
  let c' := set_info_state counter_bits c i new_state in
  lists_agree c'
  /\ (new_state <> state info ->
      (i ∈ free_list c' <-> new_state = PS_FREE \/ new_state = PS_FAILED)
      /\ (i ∈ outgoing_list c' <-> new_state = PS_OUTGOING)
      /\ (new_state = PS_FREE \/ new_state = PS_FAILED ->
          last (free_list c') = Some i)
      /\ (new_state = PS_OUTGOING -> last (outgoing_list c') = Some i))
  /\ (forall j, j <> i ->
        (j ∈ free_list c' <-> j ∈ free_list c)
        /\ (j ∈ outgoing_list c' <-> j ∈ outgoing_list c)).
Proof.
  intros Hagree Hi Hdirty c'.
  destruct (same_state new_state (state info)) eqn:Hsame.
  { assert (Hc : c' = c).
    { unfold c', set_info_state. rewrite Hi, Hsame. reflexivity. }
    rewrite Hc. split; [exact Hagree|]. split; [|tauto].
    intros Hne. apply same_state_iff in Hsame. contradiction. }
  pose proof (lookup_lt_Some _ _ _ Hi) as Hlt.
  destruct Hagree as (Hnodup & Hfree & Hout).
  destruct (NoDup_relinked i _ _ Hnodup) as (Hnd1 & Hnd2 & Hnd3).
  assert (Hagree : lists_agree c) by (split; [|split]; assumption).
  unfold c', set_info_state. rewrite Hi, Hsame. cbn [with_state state].
  destruct new_state; cbn [infos free_list outgoing_list].
  all: split;
    [ eapply (lists_agree_after c _ i (with_state info _) Hagree Hlt);
      [ reflexivity
      | cbn [free_list outgoing_list]; first [assumption | idtac]
      | cbn [free_list outgoing_list with_state state]; intros j Hj
      | cbn [free_list outgoing_list with_state state]; intros j Hj ]
    | split;
      [ intros _; split; [|split; [|split]]
      | intros j Hne; split ] ].
  all: rewrite ?elem_of_list_move_tail, ?elem_of_list_del_init in *.
  all: rewrite ?last_list_move_tail.
  all: try (destruct Hdirty as [Hd1 Hd2]; [reflexivity|]).
  all: try solve [ tauto | intuition congruence | intuition discriminate ].
  all: try solve [ destruct (Nat.eq_dec j i) as [->|]; tauto ].
Qed.

(** X19.  [find_free_page] returns NULL exactly when the free list is
    empty.  Otherwise it returns the page at the head of the list, which is
    free or failed, and takes it off the list: the rest of the list keeps
    its order, the page is on no list afterwards, and the lists still agree
    with the states. *)
Theorem find_free_page_takes_the_head (c : page_states) :
  lists_agree c ->
  (free_list c = [] -> find_free_page c = (None, c))
  /\ (forall i rest, free_list c = i :: rest ->
        exists c' info,
          find_free_page c = (Some i, c')
          /\ free_list c' = rest
          /\ outgoing_list c' = outgoing_list c
          /\ infos c' = infos c
          /\ stats c' = stats c
          /\ infos c !! i = Some info
          /\ (state info = PS_FREE \/ state info = PS_FAILED)
          /\ (i ∉ free_list c') /\ (i ∉ outgoing_list c')
          /\ lists_agree c').
Proof.
  intros (Hnodup & Hfree & Hout). split.
  - intros Hempty. unfold find_free_page. rewrite Hempty. reflexivity.
  - intros i rest Hlist.
    destruct (Hfree i) as (info & Hinfo & Hst); [rewrite Hlist; left|].
    rewrite Hlist in Hnodup. cbn [app] in Hnodup.
    apply NoDup_cons in Hnodup. destruct Hnodup as [Hnotin Hnodup].
    assert (Hrest : list_del_init i (i :: rest) = rest).
    { unfold list_del_init. cbn [List.filter]. rewrite Nat.eqb_refl.
      cbn [negb]. apply list_del_init_absent.
      intros Hin. apply Hnotin, elem_of_app. left. exact Hin. }
    unfold find_free_page. rewrite Hlist, Hrest.
    eexists. exists info. split; [reflexivity|].
    cbn [infos free_list outgoing_list stats].
    repeat (split; [first [reflexivity | assumption]|]).
    split; [intros Hin; apply Hnotin, elem_of_app; left; exact Hin|].
    split; [intros Hin; apply Hnotin, elem_of_app; right; exact Hin|].
    split; [exact Hnodup|]. cbn [infos free_list outgoing_list]. split.
    + intros j Hj. apply Hfree. rewrite Hlist. right. exact Hj.
    + exact Hout.
Qed.

Variable NO_PAGE : Z.
Variable create_metadata_vio : nat -> vdo_status.

Abbreviation reset :=
  (fun info : page_info =>
     {| state := PS_FREE; busy := busy info; pbn := NO_PAGE;
        write_status := write_status info |}).

Lemma initialize_infos_all (count : nat) :
  forall k c,
    (forall j, (k <= j < k + count)%nat ->
               create_metadata_vio j = VDO_SUCCESS) ->
    (k + count)%nat = length (infos c) ->
    exists c',
      initialize_infos NO_PAGE create_metadata_vio count k c
      = (VDO_SUCCESS, c')
      /\ free_list c' = free_list c ++ seq k count
      /\ outgoing_list c' = outgoing_list c
      /\ stats c' = stats c
      /\ length (infos c') = length (infos c)
      /\ (forall j info, infos c !! j = Some info ->
            infos c' !! j
            = Some (if (j <? k)%nat then info else reset info)).
Proof.
  induction count as [|count IH]; intros k c Hall Hlen.
  - exists c. cbn [initialize_infos seq]. rewrite app_nil_r.
    repeat split. intros j info Hj.
    pose proof (lookup_lt_Some _ _ _ Hj) as Hlt.
    destruct (Nat.ltb_spec j k); [exact Hj | lia].
  - cbn [initialize_infos].
    destruct (lookup_lt_is_Some_2 (infos c) k ltac:(lia)) as [info Hk].
    rewrite Hk, (Hall k ltac:(lia)). cbn [is_success negb].
    set (c1 := {| infos := _; free_list := free_list c ++ [k];
                  outgoing_list := _; stats := _ |}).
    destruct (IH (S k) c1) as (c' & Hrun & Hfree & Hout & Hstats & Hlen' & Hlook).
    { intros j Hj. apply Hall. lia. }
    { unfold c1. cbn [infos]. rewrite length_insert. lia. }
    exists c'. split; [exact Hrun|].
    unfold c1 in Hfree, Hout, Hstats, Hlen', Hlook.
    cbn [infos free_list outgoing_list stats] in Hfree, Hout, Hstats, Hlen', Hlook.
    rewrite length_insert in Hlen'.
    split; [rewrite Hfree, <- app_assoc; reflexivity|].
    split; [exact Hout|]. split; [exact Hstats|]. split; [exact Hlen'|].
    intros j info' Hj.
    destruct (Nat.eq_dec j k) as [->|Hne].
    + rewrite Hk in Hj. injection Hj as <-.
      rewrite (Hlook k (reset info)) by apply list_lookup_insert_eq, (lookup_lt_Some _ _ _ Hk).
      destruct (Nat.ltb_spec k (S k)); [|lia].
      destruct (Nat.ltb_spec k k); [lia|]. reflexivity.
    + rewrite (Hlook j info')
        by (rewrite list_lookup_insert_ne by congruence; exact Hj).
      destruct (Nat.ltb_spec j (S k)), (Nat.ltb_spec j k);
        first [reflexivity | lia].
Qed.

Lemma pages_in_all_free pages st :
  (forall j info, pages !! j = Some info -> state info = PS_FREE) ->
  pages_in st pages
  = if same_state PS_FREE st then length pages else 0%nat.
Proof.
  induction pages as [|info pages IH]; intros Hall.
  - destruct (same_state PS_FREE st); reflexivity.
  - rewrite pages_in_cons, IH by (intros j i' Hj; apply (Hall (S j) i' Hj)).
    rewrite (Hall 0%nat info eq_refl). cbn [length].
    destruct (same_state PS_FREE st); reflexivity.
Qed.

(** X20.  When its allocations and every [create_metadata_vio] succeed,
    [make_vdo_page_cache]
    returns a cache in which every page is free with no block number, the
    free list holds all pages in the order of the array, the outgoing list
    is empty, and the counters are exact: [free_pages] is the number of
    pages and the others are zero. *)
Theorem new_cache_is_all_free (allocated : list page_info) :
  (forall k, (k < length allocated)%nat ->
             create_metadata_vio k = VDO_SUCCESS) ->
  Z.of_nat (length allocated) < 2 ^ counter_bits ->
  exists c,
    make_vdo_page_cache counter_bits NO_PAGE create_metadata_vio
      VDO_SUCCESS VDO_SUCCESS VDO_SUCCESS VDO_SUCCESS allocated
    = (VDO_SUCCESS, Some c)
    /\ free_list c = seq 0 (length allocated)
    /\ outgoing_list c = []
    /\ length (infos c) = length allocated
    /\ (forall j info, infos c !! j = Some info ->
          state info = PS_FREE /\ pbn info = NO_PAGE)
    /\ counted c
    /\ lists_agree c.
Proof.
  intros Hall Hwide. unfold make_vdo_page_cache, initialize_info.
  cbn [infos outgoing_list stats is_success negb].
  set (c0 := {| infos := allocated; free_list := []; outgoing_list := [];
                stats := _ |}).
  destruct (initialize_infos_all (length allocated) 0 c0)
    as (c' & Hrun & Hfree & Hout & Hstats & Hlen & Hlook).
  { intros j Hj. apply Hall. lia. }
  { reflexivity. }
  rewrite Hrun. cbn [is_success negb].
  assert (Hlen0 : length (infos c') = length allocated) by exact Hlen.
  assert (Hlook0 : forall j info, allocated !! j = Some info ->
            infos c' !! j = Some (if (j <? 0)%nat then info else reset info))
    by exact Hlook.
  clear Hlen Hlook.
  eexists. split; [reflexivity|]. cbn [infos free_list outgoing_list stats].
  assert (Hfreed : forall j info, infos c' !! j = Some info ->
                     state info = PS_FREE /\ pbn info = NO_PAGE).
  { intros j info Hj.
    destruct (lookup_lt_is_Some_2 allocated j) as [old Hold].
    { rewrite <- Hlen0. apply (lookup_lt_Some _ _ _ Hj). }
    rewrite (Hlook0 j old Hold) in Hj.
    destruct (Nat.ltb_spec j 0); [lia|].
    injection Hj as <-. split; reflexivity. }
  split; [exact Hfree|]. split; [reflexivity|]. split; [exact Hlen0|].
  split; [exact Hfreed|]. split.
  - intros st. cbn [stats infos]. rewrite Hstats. unfold c0. cbn [stats].
    rewrite pages_in_all_free by (intros j info Hj; apply (Hfreed j info Hj)).
    rewrite Hlen0.
    destruct st; cbn [counter_of same_state free_pages incoming_pages
                      outgoing_pages failed_pages clean_pages dirty_pages];
      try reflexivity.
    apply wrap_small. lia.
  - unfold lists_agree. cbn [free_list outgoing_list infos].
    rewrite app_nil_r, Hfree. cbn [app].
    split; [apply NoDup_ListNoDup, List.seq_NoDup|].
    split.
    + intros i Hi. apply list_elem_of_In, List.in_seq in Hi.
      destruct (lookup_lt_is_Some_2 (infos c') i) as [info Hinfo]; [lia|].
      exists info. split; [exact Hinfo|]. left.
      apply (Hfreed i info Hinfo).
    + intros i Hi. apply elem_of_nil in Hi. contradiction.
Qed.

Lemma initialize_infos_fails (count : nat) :
  forall k0 c k,
    (k0 <= k < k0 + count)%nat ->
    (k0 + count <= length (infos c))%nat ->
    (forall j, (k0 <= j < k)%nat -> create_metadata_vio j = VDO_SUCCESS) ->
    is_success (create_metadata_vio k) = false ->
    exists c',
      initialize_infos NO_PAGE create_metadata_vio count k0 c
      = (create_metadata_vio k, c')
      /\ free_list c' = free_list c ++ seq k0 (k - k0)
      /\ outgoing_list c' = outgoing_list c
      /\ stats c' = stats c
      /\ (forall j info, infos c !! j = Some info ->
            infos c' !! j
            = Some (if (k0 <=? j)%nat && (j <=? k)%nat
                    then reset info else info)).
Proof.
  induction count as [|count IH]; intros k0 c k Hk Hlen Hall Hfail; [lia|].
  cbn [initialize_infos].
  destruct (lookup_lt_is_Some_2 (infos c) k0 ltac:(lia)) as [info Hk0].
  rewrite Hk0.
  destruct (Nat.eq_dec k0 k) as [->|Hne].
  - rewrite Hfail. cbn [negb]. eexists. split; [reflexivity|].
    cbn [infos free_list outgoing_list stats].
    rewrite Nat.sub_diag. cbn [seq]. rewrite app_nil_r.
    repeat split. intros j info' Hj.
    destruct (Nat.eq_dec j k) as [->|Hjk].
    + rewrite Hk0 in Hj. injection Hj as <-.
      rewrite Nat.leb_refl. cbn [andb].
      apply list_lookup_insert_eq, (lookup_lt_Some _ _ _ Hk0).
    + rewrite list_lookup_insert_ne by congruence. rewrite Hj.
      destruct (Nat.leb_spec k j), (Nat.leb_spec j k);
        first [reflexivity | lia].
  - rewrite (Hall k0 ltac:(lia)). cbn [is_success negb].
    set (c1 := {| infos := _; free_list := free_list c ++ [k0];
                  outgoing_list := _; stats := _ |}).
    destruct (IH (S k0) c1 k) as (c' & Hrun & Hfree & Hout & Hstats & Hlook).
    { lia. }
    { unfold c1. cbn [infos]. rewrite length_insert. lia. }
    { intros j Hj. apply Hall. lia. }
    { exact Hfail. }
    exists c'. split; [exact Hrun|].
    unfold c1 in Hfree, Hout, Hstats, Hlook.
    cbn [infos free_list outgoing_list stats] in Hfree, Hout, Hstats, Hlook.
    split.
    { rewrite Hfree, <- app_assoc. cbn [app].
      replace (k - k0)%nat with (S (k - S k0)) by lia. reflexivity. }
    split; [exact Hout|]. split; [exact Hstats|].
    intros j info' Hj.
    destruct (Nat.eq_dec j k0) as [->|Hjk].
    + rewrite Hk0 in Hj. injection Hj as <-.
      rewrite (Hlook k0 (reset info))
        by apply list_lookup_insert_eq, (lookup_lt_Some _ _ _ Hk0).
      destruct (Nat.leb_spec (S k0) k0); [lia|].
      destruct (Nat.leb_spec k0 k0); [|lia].
      destruct (Nat.leb_spec k0 k); [|lia]. reflexivity.
    + rewrite (Hlook j info')
        by (rewrite list_lookup_insert_ne by congruence; exact Hj).
      destruct (Nat.leb_spec (S k0) j), (Nat.leb_spec k0 j),
        (Nat.leb_spec j k); first [reflexivity | lia].
Qed.

(** X21.  [initialize_info] stops at the first page whose
    [create_metadata_vio] fails and returns the status of that call: the
    pages before it are on the free list in array order, the page itself
    has been reset but is not on the list, the pages after it are
    untouched, and [make_vdo_page_cache] returns the same status without
    a cache. *)
Theorem initialize_info_stops_at_failure (c : page_states) (k : nat) :
  (k < length (infos c))%nat ->
  (forall j, (j < k)%nat -> create_metadata_vio j = VDO_SUCCESS) ->
  is_success (create_metadata_vio k) = false ->
  exists c',
    initialize_info NO_PAGE create_metadata_vio c
    = (create_metadata_vio k, c')
    /\ free_list c' = seq 0 k
    /\ (forall j info, infos c !! j = Some info ->
          infos c' !! j = Some (if (j <=? k)%nat then reset info else info))
    /\ make_vdo_page_cache counter_bits NO_PAGE create_metadata_vio
         VDO_SUCCESS VDO_SUCCESS VDO_SUCCESS VDO_SUCCESS (infos c)
       = (create_metadata_vio k, None).
Proof.
  intros Hk Hall Hfail.
  assert (Hloop : forall c0, infos c0 = infos c -> free_list c0 = [] ->
            exists c',
              initialize_infos NO_PAGE create_metadata_vio
                (length (infos c)) 0 c0
              = (create_metadata_vio k, c')
              /\ free_list c' = seq 0 k
              /\ (forall j info, infos c !! j = Some info ->
                    infos c' !! j
                    = Some (if (j <=? k)%nat then reset info else info))).
  { intros c0 Hinfos Hfree0.
    destruct (initialize_infos_fails (length (infos c)) 0 c0 k)
      as (c' & Hrun & Hfree & _ & _ & Hlook).
    { lia. }
    { rewrite Hinfos. lia. }
    { intros j Hj. apply Hall. lia. }
    { exact Hfail. }
    exists c'. split; [exact Hrun|].
    rewrite Hfree0, Nat.sub_0_r in Hfree. split; [exact Hfree|].
    intros j info Hj. rewrite <- Hinfos in Hj. rewrite (Hlook j info Hj).
    reflexivity. }
  destruct (Hloop {| infos := infos c; free_list := [];
                     outgoing_list := outgoing_list c; stats := stats c |}
              eq_refl eq_refl) as (c' & Hrun & Hfree & Hlook).
  exists c'. split; [exact Hrun|]. split; [exact Hfree|].
  split; [exact Hlook|].
  unfold make_vdo_page_cache, initialize_info.
  cbn [infos outgoing_list stats is_success negb].
  match goal with
  | |- context [initialize_infos _ _ _ _ ?c0] =>
      destruct (Hloop c0 eq_refl eq_refl) as (c2 & Hrun2 & _)
  end.
  rewrite Hrun2, Hfail. reflexivity.
Qed.

End Counters.

Lemma initialize_info_stops_at_failure_witness :
  ((1 < length (infos PageStateSamples.three_states))%nat
   /\ (forall j, (j < 1)%nat ->
                 PageStateSamples.second_vio_fails j = VDO_SUCCESS)
   /\ is_success (PageStateSamples.second_vio_fails 1) = false)
  /\ exists c',
       initialize_info 0 PageStateSamples.second_vio_fails
         PageStateSamples.three_states
       = (VDO_OTHER_ERROR 12, c')
       /\ free_list c' = [0%nat].
Proof.
  assert (H1 : (1 < length (infos PageStateSamples.three_states))%nat)
    by (vm_compute; lia).
  assert (H2 : forall j, (j < 1)%nat ->
                 PageStateSamples.second_vio_fails j = VDO_SUCCESS).
  { intros j Hj. destruct j; [reflexivity | lia]. }
  assert (H3 : is_success (PageStateSamples.second_vio_fails 1) = false)
    by reflexivity.
  split; [split; [exact H1 | split; [exact H2 | exact H3]]|].
  destruct (initialize_info_stops_at_failure 32 0
              PageStateSamples.second_vio_fails
              PageStateSamples.three_states 1 H1 H2 H3)
    as (c' & Hrun & Hfree & _).
  exists c'. split; [exact Hrun | exact Hfree].
Defined.

Lemma new_cache_is_all_free_witness :
  ((forall k, (k < length PageStateSamples.three_allocated)%nat ->
              PageStateSamples.every_vio_created k = VDO_SUCCESS)
   /\ Z.of_nat (length PageStateSamples.three_allocated) < 2 ^ 32)
  /\ exists c,
       make_vdo_page_cache 32 (2 ^ 64 - 1) PageStateSamples.every_vio_created
         VDO_SUCCESS VDO_SUCCESS VDO_SUCCESS VDO_SUCCESS
         PageStateSamples.three_allocated
       = (VDO_SUCCESS, Some c)
       /\ free_list c = seq 0 (length PageStateSamples.three_allocated)
       /\ outgoing_list c = []
       /\ length (infos c) = length PageStateSamples.three_allocated
       /\ (forall j info, infos c !! j = Some info ->
             state info = PS_FREE /\ pbn info = 2 ^ 64 - 1)
       /\ counted c
       /\ lists_agree c.
Proof.
  assert (H1 : forall k, (k < length PageStateSamples.three_allocated)%nat ->
                 PageStateSamples.every_vio_created k = VDO_SUCCESS).
  { intros k _. reflexivity. }
  assert (H2 : Z.of_nat (length PageStateSamples.three_allocated) < 2 ^ 32).
  { vm_compute. reflexivity. }
  split; [split; [exact H1 | exact H2]|].
  apply (new_cache_is_all_free 32 (2 ^ 64 - 1)
           PageStateSamples.every_vio_created
           PageStateSamples.three_allocated H1 H2).
Defined.

Lemma three_states_agree : lists_agree PageStateSamples.three_states.
Proof.
  split; [apply (bool_decide_unpack _); vm_compute; exact I|]. split.
  - intros i Hi. apply list_elem_of_singleton in Hi. subst i.
    eexists. split; [reflexivity|]. left. reflexivity.
  - intros i Hi. apply list_elem_of_singleton in Hi. subst i.
    eexists. split; reflexivity.
Qed.

Lemma set_info_state_keeps_lists_witness :
  (lists_agree PageStateSamples.three_states
   /\ infos PageStateSamples.three_states !! 0%nat
      = Some (CacheSamples.page PS_RESIDENT 0 10)
   /\ (PS_FAILED = PS_DIRTY ->
       (0%nat ∉ free_list PageStateSamples.three_states)
       /\ (0%nat ∉ outgoing_list PageStateSamples.three_states)))
  /\ lists_agree (set_info_state 32 PageStateSamples.three_states 0 PS_FAILED).
Proof.
  assert (H1 := three_states_agree).
  assert (H2 : infos PageStateSamples.three_states !! 0%nat
               = Some (CacheSamples.page PS_RESIDENT 0 10)) by reflexivity.
  assert (H3 : PS_FAILED = PS_DIRTY ->
               (0%nat ∉ free_list PageStateSamples.three_states)
               /\ (0%nat ∉ outgoing_list PageStateSamples.three_states))
    by (intros Heq; discriminate Heq).
  split; [split; [exact H1 | split; [exact H2 | exact H3]]|].
  apply (set_info_state_keeps_lists 32 _ 0%nat _ PS_FAILED H1 H2 H3).
Defined.

Lemma find_free_page_takes_the_head_witness :
  lists_agree PageStateSamples.three_states
  /\ exists c' info,
       find_free_page PageStateSamples.three_states = (Some 2%nat, c')
       /\ free_list c' = []
       /\ outgoing_list c' = outgoing_list PageStateSamples.three_states
       /\ infos c' = infos PageStateSamples.three_states
       /\ stats c' = stats PageStateSamples.three_states
       /\ infos PageStateSamples.three_states !! 2%nat = Some info
       /\ (state info = PS_FREE \/ state info = PS_FAILED)
       /\ (2%nat ∉ free_list c') /\ (2%nat ∉ outgoing_list c')
       /\ lists_agree c'.
Proof.
  assert (H1 := three_states_agree).
  split; [exact H1|].
  apply (proj2 (find_free_page_takes_the_head
                  PageStateSamples.three_states H1) 2%nat []).
  reflexivity.
Defined.

Lemma set_info_state_keeps_count_witness :
  (counted PageStateSamples.three_states
   /\ Z.of_nat (length (infos PageStateSamples.three_states)) < 2 ^ 32)
  /\ counted (set_info_state 32 PageStateSamples.three_states 0 PS_DIRTY).
Proof.
  assert (H1 : counted PageStateSamples.three_states).
  { intros st. destruct st; reflexivity. }
  assert (H2 : Z.of_nat (length (infos PageStateSamples.three_states))
               < 2 ^ 32).
  { vm_compute. reflexivity. }
  split; [split; [exact H1 | exact H2]|].
  apply (set_info_state_keeps_count 32 _ 0%nat PS_DIRTY H1 H2).
Defined.

End PageStateFacts.

(** ** The queues of the slab scrubber *)

Module ScrubberQueueFacts.
Import UInt UIntFacts StatusCodes ListHead ListHeadFacts ScrubberQueue.

Lemma queued_bounded (sc : scrubber_queues) :
  queues_agree sc ->
  forall i, i ∈ queued sc -> (i < length (slab_table sc))%nat.
Proof.
  intros (_ & Hhigh & Hlow) i Hi. unfold queued in Hi.
  apply elem_of_app in Hi. destruct Hi as [Hi|Hi].
  - destruct (Hhigh i Hi) as (s & Hs & _). apply (lookup_lt_Some _ _ _ Hs).
  - destruct (Hlow i Hi) as (s & Hs & _). apply (lookup_lt_Some _ _ _ Hs).
Qed.

Section Queue.

Variable slab_count_bits : Z.

Abbreviation register := (vdo_register_slab_for_scrubbing slab_count_bits).

(** What the registrations keep true. *)
Abbreviation in_step :=
  (fun sc : scrubber_queues =>
     queues_agree sc
     /\ slab_count sc = Z.of_nat (length (queued sc))
     /\ (forall i s, slab_table sc !! i = Some s ->
           (was_queued_for_scrubbing s = true <-> i ∈ queued sc))
     /\ Z.of_nat (length (slab_table sc)) < 2 ^ slab_count_bits).

Lemma register_keeps_step (sc : scrubber_queues) (i : nat)
    (high_priority : bool) :
  in_step sc -> in_step (register sc i high_priority).
Proof.
  intros Hstep. pose proof Hstep as (Hagree & Hcount & Hwas & Hwide).
  unfold vdo_register_slab_for_scrubbing.
  destruct (slab_table sc !! i) as [s|] eqn:Hi; [|exact Hstep].
  destruct (requires_scrubbing (status s)) eqn:Hreq; cbn [negb];
    [|exact Hstep].
  clear Hstep.
  assert (Hst : status s = VDO_SLAB_REQUIRES_SCRUBBING)
    by (destruct (status s); first [reflexivity | discriminate Hreq]).
  pose proof (lookup_lt_Some _ _ _ Hi) as Hlt.
  pose proof (queued_bounded sc Hagree) as Hbound.
  destruct Hagree as (Hnodup & Hhigh & Hlow).
  assert (Hnothigh : i ∉ high_priority_slabs sc).
  { intros Hin. destruct (Hhigh i Hin) as (s' & Hs' & Hst' & _).
    rewrite Hi in Hs'. injection Hs' as <-. congruence. }
  destruct (ListHeadFacts.NoDup_relinked i _ _ Hnodup) as (Hnd1 & Hnd2 & _).
  unfold list_move_tail in Hnd1, Hnd2.
  pose proof Hnodup as Hparts. unfold queued in Hparts.
  apply NoDup_app in Hparts. destruct Hparts as (_ & _ & Hnodup_low).
  (* the number of queued slabs afterwards *)
  assert (Hlen : Z.of_nat (length (list_del_init i (high_priority_slabs sc))
                           + length (list_del_init i (slabs sc)) + 1)
                 = if negb (was_queued_for_scrubbing s)
                   then slab_count sc + 1 else slab_count sc).
  { rewrite (list_del_init_absent i (high_priority_slabs sc) Hnothigh).
    rewrite Hcount. unfold queued. rewrite length_app.
    destruct (was_queued_for_scrubbing s) eqn:Hq; cbn [negb].
    - assert (Hin : i ∈ slabs sc).
      { pose proof (proj1 (Hwas i s Hi) Hq) as Hin. unfold queued in Hin.
        apply elem_of_app in Hin. tauto. }
      pose proof (length_list_del_init i _ Hnodup_low Hin). lia.
    - assert (Hout : i ∉ slabs sc).
      { intros Hin.
        assert (Hq' : was_queued_for_scrubbing s = true).
        { apply (Hwas i s Hi). unfold queued. apply elem_of_app. tauto. }
        congruence. }
      rewrite (list_del_init_absent i _ Hout). lia. }
  assert (Hfits : (if negb (was_queued_for_scrubbing s)
                   then wrap slab_count_bits (slab_count sc + 1)
                   else slab_count sc)
                  = Z.of_nat (length (list_del_init i (high_priority_slabs sc))
                              + length (list_del_init i (slabs sc)) + 1)).
  { rewrite Hlen.
    destruct (was_queued_for_scrubbing s) eqn:Hq; cbn [negb]; [reflexivity|].
    apply wrap_small. cbn [negb] in Hlen.
    assert (Hle : (length (list_del_init i (high_priority_slabs sc)
                           ++ (list_del_init i (slabs sc) ++ [i]))
                   <= length (slab_table sc))%nat).
    { apply NoDup_bounded_length; [exact Hnd2|].
      intros j Hj. rewrite !elem_of_app, !elem_of_list_del_init in Hj.
      destruct Hj as [[Hj _]|[[Hj _]|Hj]].
      - apply Hbound. unfold queued. apply elem_of_app. tauto.
      - apply Hbound. unfold queued. apply elem_of_app. tauto.
      - apply list_elem_of_singleton in Hj. subst j. exact Hlt. }
    rewrite !length_app in Hle. cbn [length] in Hle. lia. }
  rewrite Hfits.
  destruct high_priority;
    cbn [slab_table high_priority_slabs slabs slab_count queued].
  - unfold queues_agree, queued.
    cbn [slab_table high_priority_slabs slabs slab_count].
    split; [split; [exact Hnd1|split]|split; [|split]].
    + intros j Hj. rewrite elem_of_app, elem_of_list_del_init in Hj.
      destruct Hj as [[Hj Hne]|Hj].
      * destruct (Hhigh j Hj) as (s' & Hs' & Hrest). exists s'.
        rewrite list_lookup_insert_ne by congruence. tauto.
      * apply list_elem_of_singleton in Hj. subst j. eexists.
        rewrite list_lookup_insert_eq by exact Hlt.
        repeat split; reflexivity.
    + intros j Hj. rewrite elem_of_list_del_init in Hj.
      destruct Hj as [Hj Hne].
      destruct (Hlow j Hj) as (s' & Hs' & Hrest). exists s'.
      rewrite list_lookup_insert_ne by congruence. tauto.
    + rewrite !length_app. cbn [length]. f_equal. lia.
    + intros j s' Hj. rewrite !elem_of_app, !elem_of_list_del_init.
      rewrite list_elem_of_singleton.
      destruct (Nat.eq_dec j i) as [->|Hne].
      * rewrite list_lookup_insert_eq in Hj by exact Hlt.
        injection Hj as <-. cbn. tauto.
      * rewrite list_lookup_insert_ne in Hj by congruence.
        rewrite (Hwas j s' Hj). unfold queued. rewrite elem_of_app. tauto.
    + rewrite length_insert. exact Hwide.
  - unfold queues_agree, queued.
    cbn [slab_table high_priority_slabs slabs slab_count].
    split; [split; [exact Hnd2|split]|split; [|split]].
    + intros j Hj. rewrite elem_of_list_del_init in Hj.
      destruct Hj as [Hj Hne].
      destruct (Hhigh j Hj) as (s' & Hs' & Hrest). exists s'.
      rewrite list_lookup_insert_ne by congruence. tauto.
    + intros j Hj. rewrite elem_of_app, elem_of_list_del_init in Hj.
      destruct Hj as [[Hj Hne]|Hj].
      * destruct (Hlow j Hj) as (s' & Hs' & Hrest). exists s'.
        rewrite list_lookup_insert_ne by congruence. tauto.
      * apply list_elem_of_singleton in Hj. subst j. eexists.
        rewrite list_lookup_insert_eq by exact Hlt.
        split; [reflexivity|]. split; [exact Hst | reflexivity].
    + rewrite !length_app. cbn [length]. f_equal. lia.
    + intros j s' Hj. rewrite !elem_of_app, !elem_of_list_del_init.
      rewrite list_elem_of_singleton.
      destruct (Nat.eq_dec j i) as [->|Hne].
      * rewrite list_lookup_insert_eq in Hj by exact Hlt.
        injection Hj as <-. cbn. tauto.
      * rewrite list_lookup_insert_ne in Hj by congruence.
        rewrite (Hwas j s' Hj). unfold queued. rewrite elem_of_app. tauto.
    + rewrite length_insert. exact Hwide.
Qed.

Lemma nothing_registered_in_step (sc0 : scrubber_queues) :
  nothing_registered sc0 ->
  Z.of_nat (length (slab_table sc0)) < 2 ^ slab_count_bits ->
  in_step sc0.
Proof.
  intros (Hhigh & Hlow & Hcount & Hnone) Hwide.
  unfold queues_agree, queued. rewrite Hhigh, Hlow, Hcount. cbn [app].
  split; [split; [apply NoDup_nil_2|split]|split; [|split]].
  - intros i Hi. apply elem_of_nil in Hi. contradiction.
  - intros i Hi. apply elem_of_nil in Hi. contradiction.
  - reflexivity.
  - intros i s Hs. rewrite (Hnone i s Hs). split; [discriminate|].
    intros Hi. apply elem_of_nil in Hi. contradiction.
  - exact Hwide.
Qed.

Lemma registrations_keep_step (registrations : list (nat * bool)) :
  forall sc0,
    in_step sc0 ->
    in_step (fold_left (fun sc r => register sc (fst r) (snd r))
                       registrations sc0).
Proof.
  induction registrations as [|r rest IH]; intros sc0 Hstart;
    [exact Hstart|].
  cbn [fold_left]. apply IH, register_keeps_step, Hstart.
Qed.

(** X22.  However slabs are registered with a scrubber that starts out
    empty, in whatever order, with whatever priorities and however often,
    no slab is on a queue twice, every slab on the high-priority queue
    has the high-priority status and every slab on the other queue the
    status of requiring scrubbing, [slab_count] is the number of queued
    slabs, and a slab is marked as having been queued exactly when it is on
    a queue. *)
Theorem registrations_keep_queues (sc0 : scrubber_queues)
    (registrations : list (nat * bool)) :
  nothing_registered sc0 ->
  Z.of_nat (length (slab_table sc0)) < 2 ^ slab_count_bits ->
  let sc :=
    fold_left (fun sc r => register sc (fst r) (snd r)) registrations sc0 in
  queues_agree sc
  /\ slab_count sc = Z.of_nat (length (queued sc))
  /\ (forall i s, slab_table sc !! i = Some s ->
        (was_queued_for_scrubbing s = true <-> i ∈ queued sc)).
Proof.
  intros Hnone Hwide sc.
  destruct (registrations_keep_step registrations sc0
              (nothing_registered_in_step sc0 Hnone Hwide))
    as (H1 & H2 & H3 & _).
  split; [exact H1|]. split; [exact H2 | exact H3].
Qed.

Lemma started_app (front back : list queue_call) :
  started (front ++ back) = started front ++ started back.
Proof. unfold started. apply omap_app. Qed.

(** One call of [scrub_next_slab] outside read-only mode and with nothing
    draining: it starts the first slab that is to be scrubbed, or finishes
    when there is none. *)
Lemma scrub_next_slab_step (sc : scrubber_queues) :
  NoDup (queued sc) ->
  match to_scrub sc with
  | [] =>
      scrub_next_slab false false sc
      = (with_high_priority_only sc false,
         [notify_all_waiters; finish_scrubbing])
  | i :: rest =>
      exists sc',
        scrub_next_slab false false sc
        = (sc', [notify_all_waiters; start_vdo_slab_action_scrubbing i])
        /\ slab sc' = Some i
        /\ high_priority_only sc' = high_priority_only sc
        /\ to_scrub sc' = rest
        /\ NoDup (queued sc')
        /\ slab_count sc' = slab_count sc
        /\ slab_table sc' = slab_table sc
        /\ (high_priority_only sc = true -> slabs sc' = slabs sc)
  end.
Proof.
  intros Hnodup. unfold to_scrub, queued, scrub_next_slab, get_next_slab.
  unfold queued in Hnodup.
  destruct (high_priority_slabs sc) as [|i high] eqn:Hhigh.
  - cbn [app list_empty] in *. rewrite andb_true_r.
    destruct (high_priority_only sc) eqn:Hflag.
    + destruct (slabs sc); reflexivity.
    + destruct (slabs sc) as [|i low] eqn:Hlow; [reflexivity|].
      apply NoDup_cons in Hnodup. destruct Hnodup as [Hnotin Hnodup].
      eexists. split; [reflexivity|].
      cbn [slab high_priority_only to_scrub queued high_priority_slabs slabs
           slab_count slab_table].
      unfold to_scrub, queued.
      cbn [slab high_priority_only high_priority_slabs slabs].
      rewrite list_del_init_head by exact Hnotin.
      change (list_del_init i []) with (@nil nat). cbn [app].
      repeat split; first [reflexivity | assumption | discriminate].
  - cbn [app list_empty] in *. rewrite andb_false_r.
    apply NoDup_cons in Hnodup. destruct Hnodup as [Hnotin Hnodup].
    assert (Hi1 : i ∉ high)
      by (intros Hin; apply Hnotin, elem_of_app; tauto).
    assert (Hi2 : i ∉ slabs sc)
      by (intros Hin; apply Hnotin, elem_of_app; tauto).
    assert (Hrest : exists sc',
              scrub_next_slab false false sc
              = (sc', [notify_all_waiters; start_vdo_slab_action_scrubbing i])
              /\ slab sc' = Some i
              /\ high_priority_only sc' = high_priority_only sc
              /\ high_priority_slabs sc' = high
              /\ slabs sc' = slabs sc
              /\ slab_count sc' = slab_count sc
              /\ slab_table sc' = slab_table sc).
    { unfold scrub_next_slab, get_next_slab. rewrite Hhigh.
      cbn [list_empty]. rewrite andb_false_r.
      eexists. split; [reflexivity|].
      cbn [slab high_priority_only high_priority_slabs slabs slab_count
           slab_table].
      rewrite list_del_init_head, list_del_init_absent by assumption.
      repeat split; reflexivity. }
    destruct Hrest as (sc' & Hrun & Hslab & Hflag & Hhigh' & Hlow' & Hcount
                       & Htable).
    unfold scrub_next_slab, get_next_slab in Hrun. rewrite Hhigh in Hrun.
    cbn [list_empty] in Hrun. rewrite andb_false_r in Hrun.
    destruct (high_priority_only sc) eqn:Hold; cbn [app].
    + exists sc'. split; [exact Hrun|]. unfold to_scrub, queued.
      rewrite Hflag, Hhigh', Hlow'.
      repeat split; first [assumption | reflexivity].
    + exists sc'. split; [exact Hrun|]. unfold to_scrub, queued.
      rewrite Hflag, Hhigh', Hlow'.
      repeat split; first [assumption | reflexivity | discriminate].
Qed.

(** The run up to the start of slab number [k] of those to scrub. *)
Lemma scrub_run_starts (sc : scrubber_queues) (k : nat) :
  NoDup (queued sc) ->
  Z.of_nat (length (to_scrub sc)) <= slab_count sc < 2 ^ slab_count_bits ->
  (k < length (to_scrub sc))%nat ->
  exists sc' calls,
    scrub_run slab_count_bits k sc = (sc', calls)
    /\ started calls = take (S k) (to_scrub sc)
    /\ slab sc' = to_scrub sc !! k
    /\ to_scrub sc' = drop (S k) (to_scrub sc)
    /\ high_priority_only sc' = high_priority_only sc
    /\ NoDup (queued sc')
    /\ slab_count sc' = slab_count sc - Z.of_nat k
    /\ slab_table sc' = slab_table sc
    /\ (high_priority_only sc = true -> slabs sc' = slabs sc)
    /\ last calls = to_scrub sc !! k ≫= (fun i =>
                       Some (start_vdo_slab_action_scrubbing i)).
Proof.
  intros Hnodup Hcount. induction k as [|k IH]; intros Hk.
  - cbn [scrub_run]. unfold scrub_vdo_slabs.
    pose proof (scrub_next_slab_step sc Hnodup) as Hstep.
    destruct (to_scrub sc) as [|i rest] eqn:Hq; [cbn in Hk; lia|].
    assert (Hsome : vdo_has_slabs_to_scrub sc = true).
    { unfold vdo_has_slabs_to_scrub, get_next_slab.
      unfold to_scrub, queued in Hq.
      destruct (high_priority_slabs sc); [|reflexivity].
      destruct (slabs sc); [|reflexivity].
      destruct (high_priority_only sc); discriminate Hq. }
    rewrite Hsome. cbn [negb].
    destruct Hstep as (sc' & Hrun & Hslab & Hflag & Hrest & Hnd & Hc & Ht
                       & Hlow).
    rewrite Hrun. exists sc'. eexists. split; [reflexivity|].
    cbn [take drop lookup list_lookup started omap mbind option_bind].
    rewrite Z.sub_0_r.
    repeat split; first [assumption | reflexivity].
  - destruct IH as (sc1 & calls1 & Hrun1 & Hstarted & Hslab & Hrest & Hflag
                    & Hnd & Hc & Ht & Hlow & Hlast); [lia|].
    cbn [scrub_run]. rewrite Hrun1. unfold slab_scrubbed.
    set (sc2 := {| slab_table := slab_table sc1;
                   high_priority_slabs := high_priority_slabs sc1;
                   slabs := slabs sc1; slab := slab sc1;
                   slab_count := wrap slab_count_bits (slab_count sc1 - 1);
                   high_priority_only := high_priority_only sc1 |}).
    assert (Hsame : to_scrub sc2 = to_scrub sc1) by reflexivity.
    pose proof (scrub_next_slab_step sc2 Hnd) as Hstep.
    rewrite Hsame, Hrest in Hstep.
    destruct (lookup_lt_is_Some_2 (to_scrub sc) (S k) Hk) as [i Hi].
    rewrite (drop_S _ _ _ Hi) in Hstep.
    destruct Hstep as (sc' & Hrun & Hslab' & Hflag' & Hrest' & Hnd' & Hc'
                       & Ht' & Hlow').
    rewrite Hrun. exists sc'. eexists. split; [reflexivity|].
    rewrite started_app, Hstarted.
    cbn [started omap app]. rewrite Hi. cbn [mbind option_bind].
    split; [symmetry; apply (take_S_r _ _ _ Hi)|].
    split; [exact Hslab'|]. split; [exact Hrest'|].
    split; [rewrite Hflag'; exact Hflag|]. split; [exact Hnd'|].
    split.
    { rewrite Hc'. unfold sc2. cbn [slab_count]. rewrite Hc.
      rewrite wrap_small by lia. lia. }
    split; [rewrite Ht'; exact Ht|].
    split.
    { intros Hhp. rewrite Hlow' by (unfold sc2; cbn; congruence).
      apply Hlow, Hhp. }
    rewrite last_app. reflexivity.
Qed.

(** X23.  Outside read-only mode and with nothing draining, the scrubber
    scrubs the slabs in queue order, those of the high-priority queue
    before the others, and one at a time: after [k] slabs have been
    scrubbed the slab in progress is number [k] of the slabs to scrub and
    [slab_count] has gone down by [k].  When the last one has been
    scrubbed the scrubber finishes.  A high-priority-only run scrubs the
    high-priority queue alone and leaves the other queue as it was. *)
Theorem slabs_are_scrubbed_in_queue_order (sc : scrubber_queues) (k : nat) :
  NoDup (queued sc) ->
  Z.of_nat (length (to_scrub sc)) <= slab_count sc < 2 ^ slab_count_bits ->
  (k <= length (to_scrub sc))%nat ->
  exists sc' calls,
    scrub_run slab_count_bits k sc = (sc', calls)
    /\ started calls = take (S k) (to_scrub sc)
    /\ slab_count sc' = slab_count sc - Z.of_nat k
    /\ (high_priority_only sc = true -> slabs sc' = slabs sc)
    /\ ((k < length (to_scrub sc))%nat ->
        slab sc' = to_scrub sc !! k
        /\ to_scrub sc' = drop (S k) (to_scrub sc)
        /\ last calls = to_scrub sc !! k ≫= (fun i =>
                           Some (start_vdo_slab_action_scrubbing i)))
    /\ (k = length (to_scrub sc) -> last calls = Some finish_scrubbing).
Proof.
  intros Hnodup Hcount Hk.
  destruct (Nat.eq_dec k (length (to_scrub sc))) as [Hend|Hmore].
  - destruct k as [|k].
    + cbn [scrub_run]. unfold scrub_vdo_slabs.
      pose proof (scrub_next_slab_step sc Hnodup) as Hstep.
      destruct (to_scrub sc) as [|i rest] eqn:Hq; [|discriminate Hend].
      destruct (vdo_has_slabs_to_scrub sc); cbn [negb].
      * rewrite Hstep. eexists. eexists. split; [reflexivity|].
        cbn [started omap take last]. rewrite Z.sub_0_r.
        repeat split; first [reflexivity | cbn; lia].
      * eexists. eexists. split; [reflexivity|].
        cbn [started omap take last]. rewrite Z.sub_0_r.
        repeat split; first [reflexivity | cbn; lia].
    + destruct (scrub_run_starts sc k Hnodup Hcount)
        as (sc1 & calls1 & Hrun1 & Hstarted & Hslab & Hrest & Hflag & Hnd
            & Hc & Ht & Hlow & Hlast); [lia|].
      cbn [scrub_run]. rewrite Hrun1. unfold slab_scrubbed.
      set (sc2 := {| slab_table := slab_table sc1;
                     high_priority_slabs := high_priority_slabs sc1;
                     slabs := slabs sc1; slab := slab sc1;
                     slab_count := wrap slab_count_bits (slab_count sc1 - 1);
                     high_priority_only := high_priority_only sc1 |}).
      assert (Hsame : to_scrub sc2 = to_scrub sc1) by reflexivity.
      pose proof (scrub_next_slab_step sc2 Hnd) as Hstep.
      rewrite Hsame, Hrest, drop_ge in Hstep by lia.
      rewrite Hstep. eexists. eexists. split; [reflexivity|].
      rewrite started_app, Hstarted. cbn [started omap].
      rewrite app_nil_r, !take_ge by lia.
      split; [reflexivity|]. split.
      { unfold sc2. cbn [with_high_priority_only slab_count]. rewrite Hc.
        rewrite wrap_small by lia. lia. }
      split; [intros Hhp; cbn [with_high_priority_only slabs]; apply Hlow, Hhp|].
      split; [intros Hlt; lia|]. intros _.
      rewrite last_app. reflexivity.
  - destruct (scrub_run_starts sc k Hnodup Hcount)
      as (sc' & calls & Hrun & Hstarted & Hslab & Hrest & Hflag & Hnd
          & Hc & Ht & Hlow & Hlast); [lia|].
    exists sc', calls. split; [exact Hrun|]. split; [exact Hstarted|].
    split; [exact Hc|]. split; [exact Hlow|].
    split; [intros _; split; [exact Hslab | split; [exact Hrest | exact Hlast]]|].
    intros Heq. contradiction.
Qed.

(** The scrubber as [scrub_high_priority_vdo_slabs] hands it to
    [scrub_vdo_slabs] when asked to scrub at least one slab: the next slab
    heads the high-priority queue, with the high-priority status, and is on
    no other queue; the other slabs are where they were. *)
Lemma next_slab_is_promoted (sc : scrubber_queues) (i : nat) :
  queues_agree sc ->
  get_next_slab sc = Some i ->
  exists rest low table s,
    with_high_priority_only
      (if true && list_empty (high_priority_slabs sc)
       then register sc i true else sc) true
    = {| slab_table := table; high_priority_slabs := i :: rest;
         slabs := low; slab := slab sc; slab_count := slab_count sc;
         high_priority_only := true |}
    /\ table !! i = Some s
    /\ status s = VDO_SLAB_REQUIRES_HIGH_PRIORITY_SCRUBBING
    /\ (i ∉ rest) /\ (i ∉ low)
    /\ (forall j, j <> i ->
          (j ∈ rest <-> j ∈ high_priority_slabs sc)
          /\ (j ∈ low <-> j ∈ slabs sc)).
Proof.
  intros (Hnodup & Hhigh & Hlow) Hnext. cbn [andb].
  unfold get_next_slab in Hnext. unfold queued in Hnodup.
  destruct (high_priority_slabs sc) as [|h high] eqn:Hq.
  - cbn [list_empty app] in *.
    destruct (slabs sc) as [|l low] eqn:Hl; [discriminate Hnext|].
    injection Hnext as ->.
    destruct (Hlow i) as (s & Hs & Hst & Hwas); [left|].
    apply NoDup_cons in Hnodup. destruct Hnodup as [Hnotin Hnodup].
    pose proof (lookup_lt_Some _ _ _ Hs) as Hlt.
    unfold vdo_register_slab_for_scrubbing.
    rewrite Hs, Hst, Hwas, Hq, Hl. cbn [requires_scrubbing negb].
    rewrite list_del_init_head by exact Hnotin.
    change (list_del_init i []) with (@nil nat). cbn [app].
    unfold with_high_priority_only.
    cbn [slab_table high_priority_slabs slabs slab slab_count].
    eexists [], low, _, _. split; [reflexivity|].
    split; [apply list_lookup_insert_eq, Hlt|].
    split; [reflexivity|]. split; [apply not_elem_of_nil|].
    split; [exact Hnotin|].
    intros j Hne. split; [tauto|]. rewrite elem_of_cons.
    split; [tauto|]. intros [Heq|Hin]; [contradiction | exact Hin].
  - cbn [list_empty app] in *. injection Hnext as ->.
    destruct (Hhigh i) as (s & Hs & Hst & Hwas); [left|].
    apply NoDup_cons in Hnodup. destruct Hnodup as [Hnotin Hnodup].
    assert (Hi1 : i ∉ high)
      by (intros Hin; apply Hnotin, elem_of_app; tauto).
    assert (Hi2 : i ∉ slabs sc)
      by (intros Hin; apply Hnotin, elem_of_app; tauto).
    unfold with_high_priority_only. rewrite Hq.
    exists high, (slabs sc), (slab_table sc), s. split; [reflexivity|].
    split; [exact Hs|]. split; [exact Hst|]. split; [exact Hi1|].
    split; [exact Hi2|].
    intros j Hne. split; [|tauto]. rewrite elem_of_cons.
    split; [tauto|]. intros [Heq|Hin]; [contradiction | exact Hin].
Qed.

(** X24.  With [scrub_at_least_one] and a slab queued,
    [scrub_high_priority_vdo_slabs] makes sure a high-priority slab is
    there to scrub: the next slab is the head of the high-priority queue,
    or, when that queue is empty, the head of the other queue, which is
    first given the high-priority status and moved to the high-priority
    queue; the other slabs stay where they were and the count of slabs is
    unchanged.  What happens to that slab depends on the mode.  In
    read-only mode nothing is started: the completion gets
    [VDO_READ_ONLY], the scrubber finishes and the slab stays at the head
    of the high-priority queue.  While the scrubber is draining nothing is
    started either and the slab stays queued.  Otherwise the slab is taken
    off its queue and started.  Without [scrub_at_least_one] and with an
    empty high-priority queue nothing is started in any mode. *)
Theorem scrub_at_least_one_promotes_a_slab (read_only draining : bool)
    (sc : scrubber_queues) (i : nat) :
  queues_agree sc ->
  get_next_slab sc = Some i ->
  (exists sc' calls s,
     scrub_high_priority_vdo_slabs slab_count_bits read_only draining sc true
     = (sc', calls)
     /\ high_priority_only sc' = true
     /\ slab_table sc' !! i = Some s
     /\ status s = VDO_SLAB_REQUIRES_HIGH_PRIORITY_SCRUBBING
     /\ slab_count sc' = slab_count sc
     /\ (i ∉ slabs sc')
     /\ (forall j, j <> i ->
           (j ∈ high_priority_slabs sc' <-> j ∈ high_priority_slabs sc)
           /\ (j ∈ slabs sc' <-> j ∈ slabs sc))
     /\ (if read_only then
           calls = [resume_vdo_if_quiescent; prepare_vdo_completion;
                    notify_all_waiters;
                    set_vdo_completion_result VDO_READ_ONLY;
                    finish_scrubbing]
           /\ slab sc' = slab sc
           /\ get_next_slab sc' = Some i
           /\ i ∈ high_priority_slabs sc'
         else if draining then
           calls = [resume_vdo_if_quiescent; prepare_vdo_completion;
                    notify_all_waiters]
           /\ slab sc' = slab sc
           /\ get_next_slab sc' = Some i
           /\ i ∈ high_priority_slabs sc'
         else
           calls = [resume_vdo_if_quiescent; prepare_vdo_completion;
                    notify_all_waiters; start_vdo_slab_action_scrubbing i]
           /\ slab sc' = Some i
           /\ (i ∉ queued sc')))
  /\ (high_priority_slabs sc = [] ->
      scrub_high_priority_vdo_slabs slab_count_bits read_only draining sc false
      = if read_only
        then (with_high_priority_only sc true,
              [resume_vdo_if_quiescent; prepare_vdo_completion;
               notify_all_waiters; set_vdo_completion_result VDO_READ_ONLY;
               finish_scrubbing])
        else (with_high_priority_only sc false,
              [resume_vdo_if_quiescent; prepare_vdo_completion;
               notify_all_waiters; finish_scrubbing])).
Proof.
  intros Hagree Hnext. split.
  - destruct (next_slab_is_promoted sc i Hagree Hnext)
      as (rest & low & table & s & Hpromoted & Hs & Hst & Hrest & Hlow
          & Hothers).
    unfold scrub_high_priority_vdo_slabs. rewrite Hnext, Hpromoted.
    unfold scrub_vdo_slabs, vdo_has_slabs_to_scrub, scrub_next_slab,
      get_next_slab.
    cbn [high_priority_slabs slabs high_priority_only list_empty andb negb
         slab_table slab slab_count].
    assert (Hqueued : forall j, j <> i ->
              (j ∈ i :: rest <-> j ∈ high_priority_slabs sc)
              /\ (j ∈ low <-> j ∈ slabs sc)).
    { intros j Hne. destruct (Hothers j Hne) as [Hh Hl].
      split; [|exact Hl]. rewrite elem_of_cons. tauto. }
    destruct read_only; [|destruct draining].
    + eexists _, _, s. split; [reflexivity|].
      cbn [high_priority_slabs slabs high_priority_only slab_table slab
           slab_count].
      split; [reflexivity|]. split; [exact Hs|]. split; [exact Hst|].
      split; [reflexivity|]. split; [exact Hlow|]. split; [exact Hqueued|].
      split; [reflexivity|]. split; [reflexivity|]. split; [reflexivity|].
      left.
    + eexists _, _, s. split; [reflexivity|].
      cbn [high_priority_slabs slabs high_priority_only slab_table slab
           slab_count].
      split; [reflexivity|]. split; [exact Hs|]. split; [exact Hst|].
      split; [reflexivity|]. split; [exact Hlow|]. split; [exact Hqueued|].
      split; [reflexivity|]. split; [reflexivity|]. split; [reflexivity|].
      left.
    + rewrite list_del_init_head, list_del_init_absent by assumption.
      eexists _, _, s. split; [reflexivity|].
      cbn [high_priority_slabs slabs high_priority_only slab_table slab
           slab_count queued].
      split; [reflexivity|]. split; [exact Hs|]. split; [exact Hst|].
      split; [reflexivity|]. split; [exact Hlow|]. split; [exact Hothers|].
      split; [reflexivity|]. split; [reflexivity|].
      intros Hin. apply elem_of_app in Hin. tauto.
  - intros Hempty. unfold scrub_high_priority_vdo_slabs.
    cbn [andb]. unfold scrub_vdo_slabs, vdo_has_slabs_to_scrub,
      scrub_next_slab.
    assert (Hkeep : get_next_slab (with_high_priority_only sc true)
                    = Some i) by exact Hnext.
    rewrite Hkeep. cbn [negb with_high_priority_only high_priority_only
                         high_priority_slabs].
    rewrite Hempty. destruct read_only; reflexivity.
Qed.

End Queue.

Lemma empty_scrubber_start :
  nothing_registered ScrubberQueueSamples.empty_scrubber.
Proof.
  repeat split; try reflexivity.
  intros i s Hs.
  destruct i as [|[|[|[|i]]]]; cbn in Hs;
    first [injection Hs as <-; reflexivity | discriminate Hs].
Qed.

Lemma registrations_keep_queues_witness :
  (nothing_registered ScrubberQueueSamples.empty_scrubber
   /\ Z.of_nat (length (slab_table ScrubberQueueSamples.empty_scrubber))
      < 2 ^ 16)
  /\ queues_agree ScrubberQueueSamples.three_queued
  /\ slab_count ScrubberQueueSamples.three_queued
     = Z.of_nat (length (queued ScrubberQueueSamples.three_queued))
  /\ (forall i s,
        slab_table ScrubberQueueSamples.three_queued !! i = Some s ->
        (was_queued_for_scrubbing s = true
         <-> i ∈ queued ScrubberQueueSamples.three_queued)).
Proof.
  assert (H1 := empty_scrubber_start).
  assert (H2 : Z.of_nat (length (slab_table
                                   ScrubberQueueSamples.empty_scrubber))
               < 2 ^ 16) by (vm_compute; reflexivity).
  split; [split; [exact H1 | exact H2]|].
  apply (registrations_keep_queues 16 ScrubberQueueSamples.empty_scrubber
           ScrubberQueueSamples.registrations H1 H2).
Defined.

Lemma three_queued_agree : queues_agree ScrubberQueueSamples.three_queued.
Proof.
  apply (registrations_keep_step 16 ScrubberQueueSamples.registrations).
  apply nothing_registered_in_step; [apply empty_scrubber_start|].
  vm_compute. reflexivity.
Qed.

Lemma slabs_are_scrubbed_in_queue_order_witness :
  (NoDup (queued ScrubberQueueSamples.three_queued)
   /\ Z.of_nat (length (to_scrub ScrubberQueueSamples.three_queued))
      <= slab_count ScrubberQueueSamples.three_queued < 2 ^ 16
   /\ (1 <= length (to_scrub ScrubberQueueSamples.three_queued))%nat)
  /\ exists sc' calls,
       scrub_run 16 1 ScrubberQueueSamples.three_queued = (sc', calls)
       /\ started calls = [0%nat; 2%nat]
       /\ slab sc' = Some 2%nat.
Proof.
  assert (H1 : NoDup (queued ScrubberQueueSamples.three_queued))
    by (apply (bool_decide_unpack _); vm_compute; exact I).
  assert (H2 : Z.of_nat (length (to_scrub ScrubberQueueSamples.three_queued))
               <= slab_count ScrubberQueueSamples.three_queued < 2 ^ 16)
    by (vm_compute; split; [discriminate | reflexivity]).
  assert (H3 : (1 <= length (to_scrub ScrubberQueueSamples.three_queued))%nat)
    by (vm_compute; lia).
  split; [split; [exact H1 | split; [exact H2 | exact H3]]|].
  destruct (slabs_are_scrubbed_in_queue_order 16
              ScrubberQueueSamples.three_queued 1 H1 H2 H3)
    as (sc' & calls & Hrun & Hstarted & _ & _ & Hmore & _).
  exists sc', calls. split; [exact Hrun|]. split; [exact Hstarted|].
  apply Hmore. vm_compute. lia.
Defined.

Lemma scrub_at_least_one_promotes_a_slab_witness :
  (queues_agree ScrubberQueueSamples.three_queued
   /\ get_next_slab ScrubberQueueSamples.three_queued = Some 0%nat)
  /\ (exists sc' calls s,
        scrub_high_priority_vdo_slabs 16 false false
          ScrubberQueueSamples.three_queued true
        = (sc', calls)
        /\ high_priority_only sc' = true
        /\ slab_table sc' !! 0%nat = Some s
        /\ status s = VDO_SLAB_REQUIRES_HIGH_PRIORITY_SCRUBBING
        /\ slab_count sc' = slab_count ScrubberQueueSamples.three_queued
        /\ (0%nat ∉ slabs sc')
        /\ (forall j, j <> 0%nat ->
              (j ∈ high_priority_slabs sc'
               <-> j ∈ high_priority_slabs ScrubberQueueSamples.three_queued)
              /\ (j ∈ slabs sc'
                  <-> j ∈ slabs ScrubberQueueSamples.three_queued))
        /\ calls = [resume_vdo_if_quiescent; prepare_vdo_completion;
                    notify_all_waiters; start_vdo_slab_action_scrubbing 0]
        /\ slab sc' = Some 0%nat
        /\ (0%nat ∉ queued sc'))
  /\ (exists sc' calls s,
        scrub_high_priority_vdo_slabs 16 true false
          ScrubberQueueSamples.three_queued true
        = (sc', calls)
        /\ high_priority_only sc' = true
        /\ slab_table sc' !! 0%nat = Some s
        /\ status s = VDO_SLAB_REQUIRES_HIGH_PRIORITY_SCRUBBING
        /\ slab_count sc' = slab_count ScrubberQueueSamples.three_queued
        /\ (0%nat ∉ slabs sc')
        /\ (forall j, j <> 0%nat ->
              (j ∈ high_priority_slabs sc'
               <-> j ∈ high_priority_slabs ScrubberQueueSamples.three_queued)
              /\ (j ∈ slabs sc'
                  <-> j ∈ slabs ScrubberQueueSamples.three_queued))
        /\ calls = [resume_vdo_if_quiescent; prepare_vdo_completion;
                    notify_all_waiters;
                    set_vdo_completion_result VDO_READ_ONLY;
                    finish_scrubbing]
        /\ slab sc' = slab ScrubberQueueSamples.three_queued
        /\ get_next_slab sc' = Some 0%nat
        /\ 0%nat ∈ high_priority_slabs sc').
Proof.
  assert (H1 := three_queued_agree).
  assert (H2 : get_next_slab ScrubberQueueSamples.three_queued = Some 0%nat)
    by reflexivity.
  split; [split; [exact H1 | exact H2]|]. split.
  - apply (proj1 (scrub_at_least_one_promotes_a_slab 16 false false
                    ScrubberQueueSamples.three_queued 0 H1 H2)).
  - apply (proj1 (scrub_at_least_one_promotes_a_slab 16 true false
                    ScrubberQueueSamples.three_queued 0 H1 H2)).
Defined.

End ScrubberQueueFacts.

(** ** Reading and writing a mapping *)

Module MappedBlockFacts.
Import UInt UIntFacts StatusCodes MappedBlock.

Lemma same_status_iff (a b : vdo_status) : same_status a b = true <-> a = b.
Proof.
  destruct a, b; cbn; try (split; [discriminate|congruence]);
    try (split; reflexivity).
  rewrite Z.eqb_eq. split; congruence.
Qed.

Lemma references_app (front back : list mapping_call) (b : Z) :
  references (front ++ back) b = references front b + references back b.
Proof.
  induction front as [|call front IH]; [reflexivity|].
  cbn [app references]. destruct call; rewrite IH; lia.
Qed.

Lemma earliest_positive (sequence_numbers : list Z) :
  sequence_numbers <> [] ->
  Forall (fun s => 0 < s) sequence_numbers ->
  0 < earliest sequence_numbers.
Proof.
  induction sequence_numbers as [|s rest IH]; intros Hne Hpos;
    [contradiction|].
  apply Forall_cons in Hpos. destruct Hpos as [Hs Hrest].
  cbn [earliest]. destruct rest as [|s' rest']; [exact Hs|].
  specialize (IH ltac:(discriminate) Hrest). lia.
Qed.

(** From a page that is locked, the lock ends on the smaller of the old
    lock and the smallest sequence number. *)
Lemma lock_after_locked (sequence_numbers : list Z) :
  forall recovery_lock,
    0 < recovery_lock ->
    Forall (fun s => 0 < s) sequence_numbers ->
    lock_after sequence_numbers recovery_lock
    = match sequence_numbers with
      | [] => recovery_lock
      | _ => Z.min recovery_lock (earliest sequence_numbers)
      end.
Proof.
  induction sequence_numbers as [|s rest IH]; intros L HL Hpos;
    [reflexivity|].
  apply Forall_cons in Hpos. destruct Hpos as [Hs Hrest].
  cbn [lock_after].
  destruct (Z.eqb_spec L 0); [lia|]. cbn [orb].
  destruct (Z.ltb_spec s L).
  - rewrite IH by assumption. cbn [earliest].
    destruct rest; lia.
  - rewrite IH by assumption. cbn [earliest].
    destruct rest; lia.
Qed.

Lemma lock_after_unlocked (sequence_numbers : list Z) :
  Forall (fun s => 0 < s) sequence_numbers ->
  lock_after sequence_numbers 0 = earliest sequence_numbers.
Proof.
  destruct sequence_numbers as [|s rest]; intros Hpos; [reflexivity|].
  apply Forall_cons in Hpos. destruct Hpos as [Hs Hrest].
  cbn [lock_after]. cbn [Z.eqb orb].
  rewrite lock_after_locked by assumption. cbn [earliest].
  destruct rest; reflexivity.
Qed.

Section Mapping.

Variable VDO_BAD_MAPPING : vdo_status.
Variable block_map_entry : Type.
Variable unpack_vdo_block_map_entry : block_map_entry -> data_location.
Variable pack_vdo_pbn : Z -> Z -> block_map_entry.
Variable vdo_is_valid_location : data_location -> bool.
Variable get_vdo_physical_zone : Z -> vdo_status * option Z.

Abbreviation set_mapped_entry :=
  (set_mapped_entry VDO_BAD_MAPPING block_map_entry
     unpack_vdo_block_map_entry vdo_is_valid_location get_vdo_physical_zone).
Abbreviation update_vdo_block_map_page :=
  (update_vdo_block_map_page block_map_entry pack_vdo_pbn).
Abbreviation update_page := (update_page block_map_entry pack_vdo_pbn).
Abbreviation sequence_numbers :=
  (map (fun u => recovery_sequence_number (update_vio u))).

(** X25.  [set_mapped_entry] never returns [VDO_OUT_OF_RANGE], and it
    returns [VDO_BAD_MAPPING] only to a read, whose mapped location it
    leaves alone.  For a write, an entry that is invalid or whose zone
    lookup fails with one of these two codes is logged and treated as
    unmapped: the result is [VDO_SUCCESS] and the mapped location is
    cleared.  When nothing is logged the result and the mapped location
    are those of [set_data_vio_mapped_location]. *)
Theorem set_mapped_entry_hides_bad_mappings (dv : data_vio)
    (entry : block_map_entry) :
  VDO_BAD_MAPPING <> VDO_SUCCESS ->
  VDO_BAD_MAPPING <> VDO_OUT_OF_RANGE ->
  let m := unpack_vdo_block_map_entry entry in
  let log := [uds_log_error_strerror VDO_BAD_MAPPING (pbn m) (state m)] in
  exists result dv' calls,
    set_mapped_entry dv entry = (result, dv', calls)
    /\ result <> VDO_OUT_OF_RANGE
    /\ (calls = [] \/ calls = log)
    /\ (result = VDO_BAD_MAPPING ->
        is_read dv = true /\ dv' = dv /\ calls = log)
    /\ (calls = log -> is_read dv = false ->
        result = VDO_SUCCESS /\ dv' = clear_data_vio_mapped_location dv)
    /\ (calls = [] ->
        vdo_is_valid_location m = true
        /\ (result, dv')
           = set_data_vio_mapped_location get_vdo_physical_zone dv
               (pbn m) (state m)).
Proof.
  intros Hbad1 Hbad2 m log.
  assert (Hlog : log <> []) by discriminate.
  assert (Hfailed : forall dv0,
            report_bad_mapping VDO_BAD_MAPPING dv0 m
            = if is_read dv0 then (VDO_BAD_MAPPING, dv0, log)
              else (VDO_SUCCESS, clear_data_vio_mapped_location dv0, log))
    by reflexivity.
  unfold MappedBlock.set_mapped_entry. fold m. rewrite !Hfailed.
  destruct (vdo_is_valid_location m) eqn:Hvalid.
  - destruct (set_data_vio_mapped_location get_vdo_physical_zone dv
                (pbn m) (state m)) as [result dv'] eqn:Hset.
    assert (Hdv : is_success result = false -> dv' = dv).
    { unfold set_data_vio_mapped_location in Hset.
      destruct (get_vdo_physical_zone (pbn m)) as [r z].
      destruct (is_success r) eqn:Hr; cbn [negb] in Hset;
        injection Hset as <- <-; [discriminate | reflexivity]. }
    destruct (is_success result) eqn:Hok; cbn [orb].
    + exists result, dv', []. split; [reflexivity|].
      split; [intros ->; discriminate Hok|]. split; [left; reflexivity|].
      split; [intros ->; destruct VDO_BAD_MAPPING;
              first [contradiction | discriminate Hok]|].
      split; [intros Heq; symmetry in Heq; contradiction|].
      intros _. split; reflexivity.
    + rewrite (Hdv eq_refl) in *. clear Hdv.
      destruct (same_status result VDO_OUT_OF_RANGE) eqn:Hrange;
        [|destruct (same_status result VDO_BAD_MAPPING) eqn:Hmap];
        cbn [negb andb].
      3: { exists result, dv, []. split; [reflexivity|].
           split; [intros Heq; apply same_status_iff in Heq; congruence|].
           split; [left; reflexivity|].
           split; [intros Heq; apply same_status_iff in Heq; congruence|].
           split; [intros Heq; symmetry in Heq; contradiction|].
           intros _. split; reflexivity. }
      all: rewrite ?Hfailed; destruct (is_read dv) eqn:Hread;
        (eexists; eexists; eexists; split; [reflexivity|]);
        (split; [first [congruence | discriminate]|]);
        (split; [right; reflexivity|]);
        (split; [first [intros _; repeat split; reflexivity
                       | intros Heq; symmetry in Heq; contradiction]|]);
        (split; [first [intros _ Hf; discriminate Hf
                       | intros _ _; split; reflexivity]|]);
        intros Heq; contradiction.
  - destruct (is_read dv) eqn:Hread;
      (eexists; eexists; eexists; split; [reflexivity|]);
      (split; [first [congruence | discriminate]|]);
      (split; [right; reflexivity|]);
      (split; [first [intros _; repeat split; reflexivity
                     | intros Heq; symmetry in Heq; contradiction]|]);
      (split; [first [intros _ Hf; discriminate Hf
                     | intros _ _; split; reflexivity]|]);
      intros Heq; contradiction.
Qed.

(** The references that one update moves: from the block the page held
    to the block it holds afterwards. *)
Lemma update_moves_reference (entries : list block_map_entry)
    (dv : data_vio) (p st recovery_lock : Z) :
  0 <= recovery_lock ->
  0 < recovery_sequence_number dv ->
  exists entries' dv' calls,
    update_vdo_block_map_page entries dv p st recovery_lock
    = (entries', dv',
       lock_after [recovery_sequence_number dv] recovery_lock, calls)
    /\ length entries' = length entries
    /\ recovery_sequence_number dv' = 0
    /\ forall b,
         references calls b
         = held (lock_after [recovery_sequence_number dv] recovery_lock) b
           - held recovery_lock b.
Proof.
  intros HL Hs. unfold MappedBlock.update_vdo_block_map_page.
  cbn [lock_after].
  destruct ((recovery_lock =? 0)
            || (recovery_sequence_number dv <? recovery_lock)) eqn:Htake.
  - eexists. eexists. eexists. split; [reflexivity|].
    split; [apply length_insert|]. split; [reflexivity|].
    intros b. rewrite references_app. cbn [references]. unfold held.
    destruct (Z.ltb_spec 0 recovery_lock);
      destruct (Z.ltb_spec 0 (recovery_sequence_number dv)); try lia;
      cbn [references andb];
      rewrite (Z.eqb_sym b);
      try rewrite (Z.eqb_sym b recovery_lock);
      destruct (Z.eqb_spec (recovery_sequence_number dv) b);
      try destruct (Z.eqb_spec recovery_lock b); lia.
  - apply orb_false_iff in Htake. destruct Htake as [Hne Hge].
    apply Z.eqb_neq in Hne. apply Z.ltb_ge in Hge.
    eexists. eexists. eexists. split; [reflexivity|].
    split; [apply length_insert|]. split; [reflexivity|].
    intros b. cbn [app references]. lia.
Qed.

Lemma update_page_moves_reference (updates : list page_update) :
  forall entries recovery_lock,
    0 <= recovery_lock ->
    Forall (fun s => 0 < s) (sequence_numbers updates) ->
    exists entries' calls,
      update_page updates entries recovery_lock
      = (entries', lock_after (sequence_numbers updates) recovery_lock, calls)
      /\ length entries' = length entries
      /\ forall b,
           references calls b
           = held (lock_after (sequence_numbers updates) recovery_lock) b
             - held recovery_lock b.
Proof.
  induction updates as [|u rest IH]; intros entries L HL Hpos.
  - exists entries, []. cbn [MappedBlock.update_page map lock_after].
    split; [reflexivity|]. split; [reflexivity|]. intros b. cbn. lia.
  - cbn [map] in Hpos. apply Forall_cons in Hpos.
    destruct Hpos as [Hs Hrest].
    destruct (update_moves_reference entries (update_vio u) (update_pbn u)
                (update_state u) L HL Hs)
      as (entries1 & dv1 & calls1 & Hrun1 & Hlen1 & _ & Href1).
    cbn [MappedBlock.update_page]. rewrite Hrun1.
    assert (Hlock1 : 0 <= lock_after
                            [recovery_sequence_number (update_vio u)] L).
    { cbn [lock_after].
      destruct ((L =? 0)
                || (recovery_sequence_number (update_vio u) <? L)); lia. }
    destruct (IH entries1 _ Hlock1 Hrest)
      as (entries2 & calls2 & Hrun2 & Hlen2 & Href2).
    rewrite Hrun2. exists entries2, (calls1 ++ calls2).
    split; [reflexivity|]. split; [congruence|].
    intros b. rewrite references_app, Href1, Href2.
    cbn [map lock_after]. lia.
Qed.

(** X26.  After any number of updates of a block map page that starts
    without a recovery lock, the page is locked on the journal block with
    the smallest sequence number among the updates, and the calls made
    leave exactly one reference, on that block: every other reference
    acquired on the way has been released.  [handle_page_write] then
    releases that last reference and unlocks the page, unless the page has
    to be written again, in which case lock and reference stay. *)
Theorem page_lock_is_the_earliest (updates : list page_update)
    (entries : list block_map_entry) (zone_number : Z) :
  updates <> [] ->
  Forall (fun s => 0 < s) (sequence_numbers updates) ->
  exists entries' calls,
    update_page updates entries 0
    = (entries', earliest (sequence_numbers updates), calls)
    /\ length entries' = length entries
    /\ (forall b,
          references calls b
          = if b =? earliest (sequence_numbers updates) then 1 else 0)
    /\ (exists released,
          handle_page_write false zone_number
            (earliest (sequence_numbers updates))
          = (false, 0, released)
          /\ forall b, references (calls ++ released) b = 0)
    /\ handle_page_write true zone_number
         (earliest (sequence_numbers updates))
       = (true, earliest (sequence_numbers updates), []).
Proof.
  intros Hne Hpos.
  destruct (update_page_moves_reference updates entries 0 ltac:(lia) Hpos)
    as (entries' & calls & Hrun & Hlen & Href).
  rewrite lock_after_unlocked in Hrun, Href by exact Hpos.
  assert (Hfirst : 0 < earliest (sequence_numbers updates)).
  { apply earliest_positive; [|exact Hpos].
    destruct updates; [contradiction | discriminate]. }
  assert (Hheld : forall b,
            references calls b
            = if b =? earliest (sequence_numbers updates) then 1 else 0).
  { intros b. rewrite Href. unfold held.
    destruct (Z.ltb_spec 0 (earliest (sequence_numbers updates))); [|lia].
    cbn [andb Z.ltb Z.compare]. destruct (b =? _); lia. }
  exists entries', calls. split; [exact Hrun|]. split; [exact Hlen|].
  split; [exact Hheld|]. split; [|reflexivity].
  eexists. split; [reflexivity|].
  intros b. rewrite references_app, Hheld. cbn [references].
  rewrite (Z.eqb_sym b). destruct (_ =? b); lia.
Qed.

End Mapping.

Lemma set_mapped_entry_hides_bad_mappings_witness :
  (MappedBlockSamples.bad_mapping <> VDO_SUCCESS
   /\ MappedBlockSamples.bad_mapping <> VDO_OUT_OF_RANGE)
  /\ exists result dv' calls,
       set_mapped_entry MappedBlockSamples.bad_mapping data_location
         MappedBlockSamples.unpacked MappedBlockSamples.valid_below_1000
         MappedBlockSamples.zone_below_900 (MappedBlockSamples.writer 7)
         (MappedBlockSamples.packed 950 1)
       = (result, dv', calls)
       /\ result <> VDO_OUT_OF_RANGE
       /\ (calls = []
           \/ calls = [uds_log_error_strerror MappedBlockSamples.bad_mapping
                         950 1])
       /\ (result = MappedBlockSamples.bad_mapping ->
           is_read (MappedBlockSamples.writer 7) = true
           /\ dv' = MappedBlockSamples.writer 7
           /\ calls = [uds_log_error_strerror MappedBlockSamples.bad_mapping
                         950 1])
       /\ (calls = [uds_log_error_strerror MappedBlockSamples.bad_mapping
                      950 1] ->
           is_read (MappedBlockSamples.writer 7) = false ->
           result = VDO_SUCCESS
           /\ dv' = clear_data_vio_mapped_location
                      (MappedBlockSamples.writer 7))
       /\ (calls = [] ->
           MappedBlockSamples.valid_below_1000
             (MappedBlockSamples.packed 950 1) = true
           /\ (result, dv')
              = set_data_vio_mapped_location MappedBlockSamples.zone_below_900
                  (MappedBlockSamples.writer 7) 950 1).
Proof.
  assert (H1 : MappedBlockSamples.bad_mapping <> VDO_SUCCESS)
    by discriminate.
  assert (H2 : MappedBlockSamples.bad_mapping <> VDO_OUT_OF_RANGE)
    by discriminate.
  split; [split; [exact H1 | exact H2]|].
  apply (set_mapped_entry_hides_bad_mappings MappedBlockSamples.bad_mapping
           data_location MappedBlockSamples.unpacked
           MappedBlockSamples.valid_below_1000
           MappedBlockSamples.zone_below_900 (MappedBlockSamples.writer 7)
           (MappedBlockSamples.packed 950 1) H1 H2).
Defined.

Lemma page_lock_is_the_earliest_witness :
  (MappedBlockSamples.three_updates <> []
   /\ Forall (fun s => 0 < s)
        (map (fun u => recovery_sequence_number (update_vio u))
             MappedBlockSamples.three_updates))
  /\ exists entries' calls,
       update_page data_location MappedBlockSamples.packed
         MappedBlockSamples.three_updates
         [MappedBlockSamples.packed 0 0; MappedBlockSamples.packed 0 0] 0
       = (entries', 4, calls)
       /\ length entries' = 2%nat
       /\ (forall b, references calls b = if b =? 4 then 1 else 0)
       /\ (exists released,
             handle_page_write false 0 4 = (false, 0, released)
             /\ forall b, references (calls ++ released) b = 0)
       /\ handle_page_write true 0 4 = (true, 4, []).
Proof.
  assert (H1 : MappedBlockSamples.three_updates <> []) by discriminate.
  assert (H2 : Forall (fun s => 0 < s)
                 (map (fun u => recovery_sequence_number (update_vio u))
                      MappedBlockSamples.three_updates)).
  { repeat constructor. }
  split; [split; [exact H1 | exact H2]|].
  apply (page_lock_is_the_earliest data_location MappedBlockSamples.packed
           MappedBlockSamples.three_updates
           [MappedBlockSamples.packed 0 0; MappedBlockSamples.packed 0 0]
           0 H1 H2).
Defined.

End MappedBlockFacts.

(** ** Flushing the packer *)

Module PackerFlushFacts.
Import UInt UIntFacts StatusCodes CompressedBlock Packer PackerBins
  PackedBlockFacts PackerBinFacts PackerFlush.

Section Flush.

Variable may_write : data_vio -> bool.
Variable prepare : data_vio -> list Z -> vdo_status.

Abbreviation write_bin_at := (write_bin_at may_write prepare).
Abbreviation write_bins := (write_bins may_write prepare).
Abbreviation write_all_non_empty_bins :=
  (write_all_non_empty_bins may_write prepare).
Abbreviation given_up := (given_up may_write).
Abbreviation empty_bin :=
  (fun s : packer_bins =>
     {| incoming := []; free_space := bin_data_size (the_packer s) |}).

Lemma canceled_with_app (canceled : packer_bin) (vs ws : list data_vio) :
  canceled_with canceled (vs ++ ws)
  = canceled_with (canceled_with canceled vs) ws.
Proof. unfold canceled_with. apply fold_left_app. Qed.

Lemma write_bin_at_flushes (s : packer_bins) (b : nat) (bin : packer_bin) :
  bins s !! b = Some bin ->
  exists s',
    write_bin_at s b = Some s'
    /\ bins s' = <[b := empty_bin s]> (bins s)
    /\ ring s' = ring s
    /\ max_slots s' = max_slots s
    /\ bin_data_size (the_packer s') = bin_data_size (the_packer s)
    /\ canceled_bin (the_packer s')
       = canceled_with (canceled_bin (the_packer s))
           (List.filter (fun v => negb (may_write v)) (rev (incoming bin))).
Proof.
  intros Hb. unfold PackerBins.write_bin_at. rewrite Hb.
  destruct (write_bin_spec may_write prepare (the_packer s) bin)
    as (r & -> & Hbin & Hcanceled & Hsize & _).
  eexists. split; [reflexivity|]. cbn [bins the_packer max_slots ring].
  rewrite Hbin. repeat split; assumption.
Qed.

Lemma write_bins_flush (rest : list nat) :
  forall s,
    NoDup rest ->
    (forall b, b ∈ rest -> (b < length (bins s))%nat) ->
    exists s',
      write_bins rest s = Some s'
      /\ ring s' = ring s
      /\ max_slots s' = max_slots s
      /\ bin_data_size (the_packer s') = bin_data_size (the_packer s)
      /\ length (bins s') = length (bins s)
      /\ (forall b, b ∈ rest -> bins s' !! b = Some (empty_bin s))
      /\ (forall b, b ∉ rest -> bins s' !! b = bins s !! b)
      /\ canceled_bin (the_packer s')
         = canceled_with (canceled_bin (the_packer s))
             (given_up (bins s) rest).
Proof.
  induction rest as [|b rest IH]; intros s Hnodup Hvalid.
  - exists s. cbn [PackerFlush.write_bins PackerFlush.given_up map concat].
    repeat split; try reflexivity.
    intros b Hb. apply elem_of_nil in Hb. contradiction.
  - apply NoDup_cons in Hnodup. destruct Hnodup as [Hnotin Hnodup].
    destruct (lookup_lt_is_Some_2 (bins s) b) as [bin Hbin];
      [apply Hvalid; left|].
    destruct (write_bin_at_flushes s b bin Hbin)
      as (s1 & Hrun1 & Hbins1 & Hring1 & Hmax1 & Hsize1 & Hcanceled1).
    cbn [PackerFlush.write_bins]. rewrite Hrun1.
    destruct (IH s1 Hnodup) as (s' & Hrun & Hring & Hmax & Hsize & Hlen
                                & Hflushed & Hkept & Hcanceled).
    { intros c Hc. rewrite Hbins1, length_insert. apply Hvalid. right.
      exact Hc. }
    exists s'. split; [exact Hrun|].
    split; [congruence|]. split; [congruence|]. split; [congruence|].
    split; [rewrite Hlen, Hbins1; apply length_insert|].
    split; [|split].
    + intros c Hc. apply elem_of_cons in Hc. destruct Hc as [->|Hc].
      * rewrite (Hkept b Hnotin), Hbins1.
        apply list_lookup_insert_eq, (lookup_lt_Some _ _ _ Hbin).
      * rewrite (Hflushed c Hc), Hsize1. reflexivity.
    + intros c Hc. rewrite not_elem_of_cons in Hc. destruct Hc as [Hne Hc].
      rewrite (Hkept c Hc), Hbins1.
      apply list_lookup_insert_ne. congruence.
    + rewrite Hcanceled, Hcanceled1.
      unfold PackerFlush.given_up. cbn [map concat].
      rewrite Hbin, canceled_with_app. f_equal. f_equal.
      apply map_ext_in. intros c Hc. rewrite Hbins1.
      rewrite list_lookup_insert_ne; [reflexivity|].
      intros ->. apply Hnotin, list_elem_of_In, Hc.
Qed.

Lemma equal_space_is_sorted (bins : list packer_bin) (ring : list nat)
    (space : Z) :
  (forall b, b ∈ ring -> space_of bins b = space) ->
  sorted_by_space bins ring.
Proof.
  induction ring as [|b ring IH]; intros Hall; [exact I|].
  cbn [sorted_by_space]. split.
  - apply Forall_forall. intros c Hc.
    rewrite (Hall b), (Hall c); [lia | right; exact Hc | left].
  - apply IH. intros c Hc. apply Hall. right. exact Hc.
Qed.

(** X27.  [write_all_non_empty_bins] returns and leaves every bin of the
    list empty, with the free space of an empty bin, so that the list is
    sorted whatever its order; the list itself is unchanged.  No
    [data_vio] is lost on the way: those that could no longer be written
    compressed have all been added to the canceled bin, bin after bin.
    The drain is finished exactly when the packer is draining and the
    canceled bin is empty after the loop. *)
Theorem flush_empties_every_bin (draining : bool) (s : packer_bins) :
  NoDup (ring s) ->
  (forall b, b ∈ ring s -> (b < length (bins s))%nat) ->
  exists s',
    write_all_non_empty_bins draining s
    = Some (s', draining
                && (slots_used (canceled_bin (the_packer s')) =? 0))
    /\ ring s' = ring s
    /\ (forall b, b ∈ ring s -> bins s' !! b = Some (empty_bin s))
    /\ (forall b, b ∉ ring s -> bins s' !! b = bins s !! b)
    /\ sorted_by_space (bins s') (ring s')
    /\ canceled_bin (the_packer s')
       = canceled_with (canceled_bin (the_packer s))
           (given_up (bins s) (ring s)).
Proof.
  intros Hnodup Hvalid.
  destruct (write_bins_flush (ring s) s Hnodup Hvalid)
    as (s' & Hrun & Hring & _ & _ & _ & Hflushed & Hkept & Hcanceled).
  exists s'. unfold PackerFlush.write_all_non_empty_bins. rewrite Hrun.
  split; [reflexivity|]. split; [exact Hring|].
  split; [exact Hflushed|]. split; [exact Hkept|].
  split; [|exact Hcanceled].
  apply (equal_space_is_sorted _ _ (bin_data_size (the_packer s))).
  intros b Hb. rewrite Hring in Hb. unfold space_of.
  rewrite (Hflushed b Hb). reflexivity.
Qed.

End Flush.

Lemma flush_empties_every_bin_witness :
  (NoDup (ring PackerBinSamples.packer_of_four)
   /\ (forall b, b ∈ ring PackerBinSamples.packer_of_four ->
                 (b < length (bins PackerBinSamples.packer_of_four))%nat))
  /\ exists s',
       PackerFlush.write_all_non_empty_bins PackerSamples.even_may_write
         PackerSamples.io_is_ready true PackerBinSamples.packer_of_four
       = Some (s', true
                   && (slots_used (canceled_bin (the_packer s')) =? 0))
       /\ ring s' = ring PackerBinSamples.packer_of_four
       /\ (forall b, b ∈ ring PackerBinSamples.packer_of_four ->
             bins s' !! b
             = Some {| incoming := [];
                       free_space :=
                         bin_data_size
                           (the_packer PackerBinSamples.packer_of_four) |})
       /\ (forall b, b ∉ ring PackerBinSamples.packer_of_four ->
             bins s' !! b = bins PackerBinSamples.packer_of_four !! b)
       /\ sorted_by_space (bins s') (ring s')
       /\ canceled_bin (the_packer s')
          = canceled_with
              (canceled_bin (the_packer PackerBinSamples.packer_of_four))
              (PackerFlush.given_up PackerSamples.even_may_write
                 (bins PackerBinSamples.packer_of_four)
                 (ring PackerBinSamples.packer_of_four)).
Proof.
  assert (H1 : NoDup (ring PackerBinSamples.packer_of_four))
    by (apply (bool_decide_unpack _); vm_compute; exact I).
  assert (H2 : forall b, b ∈ ring PackerBinSamples.packer_of_four ->
                 (b < length (bins PackerBinSamples.packer_of_four))%nat).
  { intros b Hb. apply list_elem_of_In in Hb. cbn in Hb.
    repeat (destruct Hb as [<-|Hb]; [cbn; lia|]). contradiction. }
  split; [split; [exact H1 | exact H2]|].
  apply (flush_empties_every_bin PackerSamples.even_may_write
           PackerSamples.io_is_ready true PackerBinSamples.packer_of_four
           H1 H2).
Defined.

End PackerFlushFacts.

(** ** Offering a data_vio to the packer *)

Module PackerAttemptFacts.
Import UInt UIntFacts StatusCodes CompressedBlock Packer PackerBins
  PackedBlockFacts PackerBinFacts PackerAttempt.

Lemma sorted_sublist (bins : list packer_bin) (b : nat) (ring : list nat) :
  sorted_by_space bins ring -> sorted_by_space bins (unlink b ring).
Proof.
  induction ring as [|a ring IH]; intros Hsorted; [exact I|].
  destruct Hsorted as [Hleast Hrest]. unfold unlink. cbn [List.filter].
  fold (unlink b ring).
  destruct (negb (Nat.eqb a b)); [|apply IH, Hrest].
  cbn [sorted_by_space]. split; [|apply IH, Hrest].
  rewrite List.Forall_forall in *. intros c Hc. apply Hleast.
  unfold unlink in Hc. apply List.filter_In in Hc. tauto.
Qed.

Lemma sorted_same_space (bins bins' : list packer_bin) (ring : list nat) :
  (forall c, In c ring -> space_of bins' c = space_of bins c) ->
  sorted_by_space bins ring -> sorted_by_space bins' ring.
Proof.
  induction ring as [|a ring IH]; intros Hsame Hsorted; [exact I|].
  destruct Hsorted as [Hleast Hrest]. cbn [sorted_by_space]. split.
  - rewrite List.Forall_forall in *. intros c Hc.
    rewrite (Hsame a), (Hsame c); [apply Hleast, Hc | right; exact Hc | left].
    reflexivity.
  - apply IH; [|exact Hrest]. intros c Hc. apply Hsame. right. exact Hc.
Qed.

Lemma select_bin_in_ring (bins : list packer_bin) (ring : list nat)
    (bin_data_size size : Z) (b : nat) :
  select_bin bins ring bin_data_size size = Some b -> In b ring.
Proof.
  unfold select_bin, vdo_get_packer_fullest_bin.
  destruct (List.find _ ring) as [found|] eqn:Hfound.
  - intros [= <-]. apply List.find_some in Hfound. tauto.
  - destruct ring as [|first rest]; [discriminate|]. cbn [head].
    destruct (_ <=? _); [discriminate|]. intros [= <-]. left. reflexivity.
Qed.

(** Putting a bin back in its place among bins that are in order. *)
Lemma reinserted_ring (bins : list packer_bin) (ring : list nat) (b : nat) :
  NoDup ring -> In b ring ->
  sorted_by_space bins (unlink b ring) ->
  Permutation (insert_in_sorted_list bins ring b) ring
  /\ sorted_by_space bins (insert_in_sorted_list bins ring b).
Proof.
  intros Hnodup Hin Hsorted.
  destruct (unlink_split b ring Hnodup Hin) as (front & back & -> & Hothers).
  unfold insert_in_sorted_list, list_move_tail.
  rewrite find_skips_the_bin, Hothers in *.
  split.
  - destruct (List.find _ _).
    + rewrite insert_before_permutation. apply Permutation_middle.
    + rewrite <- Permutation_cons_append. apply Permutation_middle.
  - exact (insert_keeps_order bins b (front ++ back) Hsorted).
Qed.

Section Attempt.

Variable may_write : data_vio -> bool.
Variable prepare : data_vio -> list Z -> vdo_status.
Variable is_compressing : data_vio -> bool.
Variable ASSERT : bool -> vdo_status.
Variable may_vio_block_in_packer : data_vio -> bool.
Variable flush_generation : data_vio -> Z.

Abbreviation vdo_attempt_packing :=
  (vdo_attempt_packing may_write prepare is_compressing ASSERT
     may_vio_block_in_packer flush_generation).
Abbreviation in_packer :=
  (fun s : packer_bins =>
     compressed_fragments_in_packer (statistics (the_packer s))).
Abbreviation counted_in :=
  (fun s : packer_bins =>
     {| the_packer :=
          with_statistics (the_packer s)
            {| compressed_fragments_written :=
                 compressed_fragments_written (statistics (the_packer s));
               compressed_blocks_written :=
                 compressed_blocks_written (statistics (the_packer s));
               compressed_fragments_in_packer := u64 (in_packer s + 1) |};
        bins := bins s; ring := ring s; max_slots := max_slots s;
        calls := calls s |}).

(** An aborted attempt leaves the packer as it was, but for the two
    calls that send the [data_vio] on. *)
Lemma abort_after_count (s : packer_bins) (v : data_vio) :
  0 <= in_packer s < 2 ^ 64 ->
  bins (abort (counted_in s) v) = bins s
  /\ ring (abort (counted_in s) v) = ring s
  /\ max_slots (abort (counted_in s) v) = max_slots s
  /\ bin_data_size (the_packer (abort (counted_in s) v))
     = bin_data_size (the_packer s)
  /\ in_packer (abort (counted_in s) v) = in_packer s
  /\ calls (abort (counted_in s) v)
     = calls s ++ [set_vio_compression_done (vio_id v);
                   continue_write_after_compression (vio_id v)].
Proof.
  intros Hrange. unfold abort, abort_packing.
  cbn [the_packer bins ring max_slots calls with_statistics statistics
       bin_data_size compressed_fragments_in_packer].
  repeat split. unfold u64, wrap.
  rewrite Zminus_mod_idemp_l.
  replace (in_packer s + 1 - 1) with (in_packer s) by lia.
  apply Z.mod_small. exact Hrange.
Qed.

(** X28.  [vdo_attempt_packing] keeps the packer in order.  When no bin
    is on the list twice, every bin of the list accounts for its fragments
    and has space and a slot left, and the list is in ascending order of
    free space, then the same is true after a [data_vio] has been offered,
    and the list holds the same bins.  Either the attempt is aborted, and
    then bins, list and the count of fragments in the packer are as
    before and the [data_vio] is sent on; or the packer is in normal
    operation, the [data_vio] is not from an earlier flush generation and
    may block, and it went into one bin of the list, leaving the others
    untouched: it sits in the last slot of that bin, unless the bin has
    been written out and is empty again. *)
Theorem attempt_keeps_packer_in_order (normal : bool) (generation : Z)
    (s : packer_bins) (v : data_vio) :
  packer_in_order s ->
  0 < compression_size v < bin_data_size (the_packer s) ->
  bin_data_size (the_packer s) < 2 ^ 64 ->
  max_slots s <= 2 ^ 16 ->
  0 <= in_packer s < 2 ^ 64 ->
  exists s',
    vdo_attempt_packing normal generation s v = Some s'
    /\ packer_in_order s'
    /\ Permutation (ring s') (ring s)
    /\ bin_data_size (the_packer s') = bin_data_size (the_packer s)
    /\ max_slots s' = max_slots s
    /\ ((bins s' = bins s /\ ring s' = ring s
         /\ in_packer s' = in_packer s
         /\ (calls s' = calls s
             \/ calls s'
                = calls s ++ [set_vio_compression_done (vio_id v);
                              continue_write_after_compression (vio_id v)]))
        \/ (normal = true
            /\ generation <= flush_generation v
            /\ may_vio_block_in_packer v = true
            /\ exists b bin',
                 In b (ring s)
                 /\ bins s' !! b = Some bin'
                 /\ (incoming bin' = []
                     \/ exists front,
                          incoming bin'
                          = front
                            ++ [set_slot v (Z.of_nat (length front)) true])
                 /\ forall other, other <> b ->
                                  bins s' !! other = bins s !! other)).
Proof.
  intros Horder Hsize Hsmall Hmax Hcount.
  assert (Haborted : forall s',
            s' = abort (counted_in s) v ->
            packer_in_order s'
            /\ Permutation (ring s') (ring s)
            /\ bin_data_size (the_packer s') = bin_data_size (the_packer s)
            /\ max_slots s' = max_slots s
            /\ (bins s' = bins s /\ ring s' = ring s
                /\ in_packer s' = in_packer s
                /\ (calls s' = calls s
                    \/ calls s'
                       = calls s
                         ++ [set_vio_compression_done (vio_id v);
                             continue_write_after_compression (vio_id v)]))).
  { intros s' ->.
    destruct (abort_after_count s v Hcount)
      as (Hb & Hr & Hm & Hd & Hc & Hcalls).
    unfold packer_in_order. rewrite Hb, Hr, Hm, Hd, Hc, Hcalls.
    split; [exact Horder|]. split; [reflexivity|].
    split; [reflexivity|]. split; [reflexivity|].
    split; [reflexivity|]. split; [reflexivity|].
    split; [reflexivity|]. right. reflexivity. }
  unfold PackerAttempt.vdo_attempt_packing.
  destruct (is_success (ASSERT (is_compressing v))); cbn [negb].
  2: { exists s. split; [reflexivity|]. split; [exact Horder|].
       split; [reflexivity|]. split; [reflexivity|].
       split; [reflexivity|]. left.
       split; [reflexivity|]. split; [reflexivity|].
       split; [reflexivity|]. left. reflexivity. }
  destruct normal; cbn [negb orb].
  2: { eexists. split; [reflexivity|].
       destruct (Haborted _ eq_refl) as (H1 & H2 & H3 & H4 & H5).
       split; [exact H1|]. split; [exact H2|]. split; [exact H3|].
       split; [exact H4|]. left. exact H5. }
  destruct (Z.ltb_spec (flush_generation v) generation) as [Hold|Hgen].
  { eexists. split; [reflexivity|].
    destruct (Haborted _ eq_refl) as (H1 & H2 & H3 & H4 & H5).
    split; [exact H1|]. split; [exact H2|]. split; [exact H3|].
    split; [exact H4|]. left. exact H5. }
  cbn [bins ring the_packer with_statistics bin_data_size].
  destruct (select_bin (bins s) (ring s) (bin_data_size (the_packer s))
              (compression_size v)) as [b|] eqn:Hselect.
  2: { eexists. split; [reflexivity|].
       destruct (Haborted _ eq_refl) as (H1 & H2 & H3 & H4 & H5).
       split; [exact H1|]. split; [exact H2|]. split; [exact H3|].
       split; [exact H4|]. left. exact H5. }
  destruct (may_vio_block_in_packer v) eqn:Hblock; cbn [negb].
  2: { eexists. split; [reflexivity|].
       destruct (Haborted _ eq_refl) as (H1 & H2 & H3 & H4 & H5).
       split; [exact H1|]. split; [exact H2|]. split; [exact H3|].
       split; [exact H4|]. left. exact H5. }
  clear Haborted.
  apply select_bin_in_ring in Hselect.
  destruct Horder as (Hnodup & Hbins & Hsorted).
  destruct (Hbins b Hselect) as (bin & Hbin & Hbin_order).
  destruct (add_data_vio_spec may_write prepare (counted_in s) b bin v
              Hbin Hbin_order Hsize Hsmall Hmax)
    as (s' & bin' & Hadd & Hbin' & Horder' & Hlast & Hd & Hm & Hothers
        & Hlen & Hring).
  cbn [bins ring the_packer with_statistics bin_data_size max_slots]
    in Hbin', Horder', Hd, Hm, Hothers, Hlen, Hring.
  exists s'. split; [exact Hadd|].
  assert (Hspace : forall c, In c (unlink b (ring s)) ->
                     space_of (bins s') c = space_of (bins s) c).
  { intros c Hc. unfold unlink in Hc. apply List.filter_In in Hc.
    destruct Hc as [_ Hne]. unfold space_of.
    rewrite Hothers; [reflexivity|].
    destruct (Nat.eqb_spec c b); [discriminate Hne | assumption]. }
  destruct (reinserted_ring (bins s') (ring s) b Hnodup Hselect)
    as [Hperm Hsorted'].
  { apply (sorted_same_space (bins s)); [exact Hspace|].
    apply sorted_sublist, Hsorted. }
  rewrite <- Hring in Hperm, Hsorted'.
  split.
  { split; [rewrite Hperm; exact Hnodup|]. split; [|exact Hsorted'].
    intros c Hc. rewrite Hd, Hm.
    assert (Hc' : In c (ring s)).
    { apply list_elem_of_In. rewrite <- Hperm. apply list_elem_of_In, Hc. }
    destruct (Nat.eq_dec c b) as [->|Hne].
    - exists bin'. split; [exact Hbin' | exact Horder'].
    - rewrite (Hothers c Hne). apply Hbins, Hc'. }
  split; [exact Hperm|]. split; [exact Hd|]. split; [exact Hm|].
  right. split; [reflexivity|]. split; [exact Hgen|].
  split; [reflexivity|].
  exists b, bin'. split; [exact Hselect|]. split; [exact Hbin'|].
  split; [exact Hlast | exact Hothers].
Qed.

End Attempt.

Lemma packer_of_four_in_order :
  packer_in_order PackerBinSamples.packer_of_four.
Proof.
  split; [apply (bool_decide_unpack _); vm_compute; exact I|]. split.
  - intros b Hb. cbn in Hb.
    destruct Hb as [<-|[<-|[<-|[]]]]; eexists; (split; [reflexivity|]);
      unfold bin_in_order; vm_compute; repeat split; discriminate.
  - cbn [sorted_by_space PackerBinSamples.packer_of_four ring bins].
    repeat split; repeat constructor; vm_compute; discriminate.
Qed.

Lemma attempt_keeps_packer_in_order_witness :
  (packer_in_order PackerBinSamples.packer_of_four
   /\ 0 < compression_size (PackerSamples.fragment 30 500)
      < bin_data_size (the_packer PackerBinSamples.packer_of_four)
   /\ bin_data_size (the_packer PackerBinSamples.packer_of_four) < 2 ^ 64
   /\ max_slots PackerBinSamples.packer_of_four <= 2 ^ 16
   /\ 0 <= compressed_fragments_in_packer
             (statistics (the_packer PackerBinSamples.packer_of_four))
      < 2 ^ 64)
  /\ exists s',
       vdo_attempt_packing PackerSamples.all_may_write
         PackerSamples.io_is_ready PackerAttemptSamples.always_compressing
         PackerAttemptSamples.permassert PackerAttemptSamples.may_block
         PackerAttemptSamples.generation_of true 3
         PackerBinSamples.packer_of_four (PackerSamples.fragment 30 500)
       = Some s'
       /\ packer_in_order s'
       /\ Permutation (ring s') (ring PackerBinSamples.packer_of_four).
Proof.
  assert (H1 := packer_of_four_in_order).
  assert (H2 : 0 < compression_size (PackerSamples.fragment 30 500)
               < bin_data_size (the_packer PackerBinSamples.packer_of_four))
    by (vm_compute; split; reflexivity).
  assert (H3 : bin_data_size (the_packer PackerBinSamples.packer_of_four)
               < 2 ^ 64) by (vm_compute; reflexivity).
  assert (H4 : max_slots PackerBinSamples.packer_of_four <= 2 ^ 16)
    by (vm_compute; discriminate).
  assert (H5 : 0 <= compressed_fragments_in_packer
                      (statistics
                         (the_packer PackerBinSamples.packer_of_four))
               < 2 ^ 64)
    by (vm_compute; split; [discriminate | reflexivity]).
  split; [tauto|].
  destruct (attempt_keeps_packer_in_order PackerSamples.all_may_write
              PackerSamples.io_is_ready
              PackerAttemptSamples.always_compressing
              PackerAttemptSamples.permassert PackerAttemptSamples.may_block
              PackerAttemptSamples.generation_of true 3
              PackerBinSamples.packer_of_four (PackerSamples.fragment 30 500)
              H1 H2 H3 H4 H5)
    as (s' & Hrun & Horder & Hperm & _).
  exists s'. split; [exact Hrun|]. split; [exact Horder | exact Hperm].
Defined.

End PackerAttemptFacts.

(** ** The check byte of the recovery journal over many trips *)

Module CheckByteFacts.
Import UInt UIntFacts RecoveryJournal RecoveryJournalFacts.

(** X29.  The check byte tells two trips around the journal apart exactly
    when their numbers differ modulo 128: sequence numbers whose trips
    are a multiple of 128 apart have the same check byte, so the byte
    repeats after 128 trips. *)
Theorem check_byte_repeats_after_128_trips (journal : recovery_journal)
    (seq seq' k : Z) :
  0 < size journal ->
  let check := compute_vdo_recovery_journal_check_byte journal in
  (check seq = check seq'
   <-> (seq / size journal) mod 128 = (seq' / size journal) mod 128)
  /\ check (seq + k * (128 * size journal)) = check seq.
Proof.
  intros Hsize check. subst check. rewrite !check_byte_value. split.
  - lia.
  - f_equal.
    replace (seq + k * (128 * size journal))
      with (seq + (k * 128) * size journal) by lia.
    rewrite Z.div_add by lia. apply Z.mod_add. lia.
Qed.

Lemma check_byte_repeats_after_128_trips_witness :
  0 < size Samples.journal_of_8
  /\ ((compute_vdo_recovery_journal_check_byte Samples.journal_of_8 5
       = compute_vdo_recovery_journal_check_byte Samples.journal_of_8 1029
       <-> (5 / size Samples.journal_of_8) mod 128
           = (1029 / size Samples.journal_of_8) mod 128)
      /\ compute_vdo_recovery_journal_check_byte Samples.journal_of_8
           (5 + 1 * (128 * size Samples.journal_of_8))
         = compute_vdo_recovery_journal_check_byte Samples.journal_of_8 5).
Proof.
  assert (H : 0 < size Samples.journal_of_8) by reflexivity.
  split; [exact H|].
  apply (check_byte_repeats_after_128_trips Samples.journal_of_8 5 1029 1 H).
Defined.

End CheckByteFacts.

(** ** The slab journal read as a ring *)

Module ScrubberRingFacts.
Import UInt UIntFacts StatusCodes SlabScrubber.

(** The [index++] of the loop with its wrap at the journal size is one
    step around the ring. *)
Lemma ring_step (size index : Z) :
  0 <= index < size -> size < 2 ^ 64 ->
  let index' := u64 (index + 1) in
  let index'' := if index' =? size then 0 else index' in
  0 <= index'' < size
  /\ forall n, (index'' + n) mod size = (index + (n + 1)) mod size.
Proof.
  intros Hindex Hsize. cbv zeta. rewrite u64_small by lia.
  destruct (Z.eqb_spec (index + 1) size) as [Hwrap|Hnext].
  - split; [lia|]. intros n.
    replace (index + (n + 1)) with (0 + n + 1 * size) by lia.
    rewrite Z.mod_add by lia. reflexivity.
  - split; [lia|]. intros n. f_equal. lia.
Qed.

Section Ring.

Variable ref_counts : Type.
Variable slab_journal_point : ref_counts -> journal_point.
Variable replay :
  ref_counts -> journal_point -> slab_journal_entry -> vdo_status * ref_counts.
Variable block_offset : slab_journal -> Z -> Z.
Variable before : journal_point -> journal_point -> bool.
Variable ASSERT : bool -> vdo_status.

Abbreviation apply_block_entries := (apply_block_entries ref_counts replay).
Abbreviation apply_blocks := (apply_blocks ref_counts replay).
Abbreviation apply_journal_entries :=
  (apply_journal_entries ref_counts slab_journal_point replay block_offset
                         before ASSERT).

(** The block the loop reads [k] blocks after the one at [index], and
    whether it passes the header test for the sequence number expected
    there. *)
Abbreviation block_at sc index k :=
  (journal_data sc ((index + Z.of_nat k) mod size (journal (slab sc)))).

Abbreviation valid_at sc seq index k :=
  (block_is_invalid (slab sc) (seq + Z.of_nat k) (header (block_at sc index k))
   = false).

Lemma valid_at_shifted (sc : slab_scrubber ref_counts) (seq index : Z)
    (k : nat) :
  0 <= index < size (journal (slab sc)) ->
  size (journal (slab sc)) < 2 ^ 64 ->
  let index' := u64 (index + 1) in
  let index'' := if index' =? size (journal (slab sc)) then 0 else index' in
  block_is_invalid (slab sc) (seq + 1 + Z.of_nat k)
    (header (block_at sc index'' k))
  = block_is_invalid (slab sc) (seq + Z.of_nat (S k))
      (header (block_at sc index (S k))).
Proof.
  intros Hindex Hsize. cbv zeta.
  destruct (ring_step _ index Hindex Hsize) as [_ Hshift]. cbv zeta in Hshift.
  rewrite Hshift.
  replace (seq + 1 + Z.of_nat k) with (seq + Z.of_nat (S k)) by lia.
  replace (Z.of_nat k + 1) with (Z.of_nat (S k)) by lia.
  reflexivity.
Qed.

(** What the loop has done when it returns, read along the ring. *)
Lemma apply_blocks_ring (sc : slab_scrubber ref_counts) :
  size (journal (slab sc)) < 2 ^ 64 ->
  forall (count : nat) (seq index : Z) (refs : ref_counts)
         (last : journal_point),
    0 <= index < size (journal (slab sc)) ->
    match apply_blocks sc count seq index refs last with
    | inr (index', _, _) =>
        index' = (index + Z.of_nat count) mod size (journal (slab sc))
        /\ forall k : nat, (k < count)%nat -> valid_at sc seq index k
    | inl (result, refs') =>
        is_success result = false
        /\ exists k : nat,
             (k < count)%nat
             /\ (forall k' : nat, (k' < k)%nat -> valid_at sc seq index k')
             /\ ((block_is_invalid (slab sc) (seq + Z.of_nat k)
                    (header (block_at sc index k)) = true
                  /\ result = VDO_CORRUPT_JOURNAL)
                 \/ (valid_at sc seq index k
                     /\ exists refs_k,
                          apply_block_entries (block_at sc index k)
                            (hdr_entry_count (header (block_at sc index k)))
                            (seq + Z.of_nat k)
                            (with_reference_counts (slab sc) refs_k)
                          = (result, refs')))
    end.
Proof.
  intros Hsize. induction count as [|count IH];
    intros seq index refs last Hindex.
  - cbn [SlabScrubber.apply_blocks]. split; [|intros k Hk; lia].
    rewrite Z.add_0_r. symmetry. apply Z.mod_small. exact Hindex.
  - assert (Hhere : block_at sc index 0 = journal_data sc index).
    { rewrite Z.add_0_r, Z.mod_small by exact Hindex. reflexivity. }
    cbn [SlabScrubber.apply_blocks].
    destruct (block_is_invalid (slab sc) seq (header (journal_data sc index)))
      eqn:Hvalid.
    { split; [reflexivity|]. exists 0%nat. split; [lia|].
      split; [intros k' Hk'; lia|]. left.
      rewrite Hhere, Z.add_0_r. split; [exact Hvalid | reflexivity]. }
    destruct (SlabScrubber.apply_block_entries _ _ _ _ _ _)
      as [result refs1] eqn:Hreplay.
    destruct (is_success result) eqn:Hok; cbn [negb].
    + destruct (ring_step _ index Hindex Hsize) as [Hnext Hshift].
      cbv zeta in Hnext, Hshift.
      specialize (IH (seq + 1)
                     (if u64 (index + 1) =? size (journal (slab sc))
                      then 0 else u64 (index + 1))
                     refs1
                     {| sequence_number := seq;
                        entry_count :=
                          u16 (hdr_entry_count
                                 (header (journal_data sc index)) - 1) |}
                     Hnext).
      destruct (SlabScrubber.apply_blocks _ _ _ _ _ _ _ _)
        as [[stop refs']|[[index' refs'] last']].
      * destruct IH as (Hfail & k & Hk & Hbefore & Hat).
        split; [exact Hfail|]. exists (S k). split; [lia|]. split.
        -- intros [|k'] Hk'.
           ++ rewrite Hhere, Z.add_0_r. exact Hvalid.
           ++ rewrite <- (valid_at_shifted sc seq index k' Hindex Hsize).
              apply Hbefore. lia.
        -- rewrite <- (valid_at_shifted sc seq index k Hindex Hsize).
           replace (index + Z.of_nat (S k)) with (index + (Z.of_nat k + 1))
             by lia.
           rewrite <- Hshift.
           replace (seq + Z.of_nat (S k)) with (seq + 1 + Z.of_nat k) by lia.
           exact Hat.
      * destruct IH as (Hend & Hall). split.
        -- rewrite Hend, Hshift. f_equal. lia.
        -- intros [|k] Hk.
           ++ rewrite Hhere, Z.add_0_r. exact Hvalid.
           ++ rewrite <- (valid_at_shifted sc seq index k Hindex Hsize).
              apply Hall. lia.
    + split; [exact Hok|]. exists 0%nat. split; [lia|].
      split; [intros k' Hk'; lia|]. right.
      rewrite Hhere, Z.add_0_r. split; [exact Hvalid|].
      exists refs. exact Hreplay.
Qed.

(** X30.  The loop of [apply_journal_entries] reads the slab journal as a
    ring.  Started at a block index inside the journal, it expects the
    block with sequence number [seq + k] at index [(index + k) mod size].
    (1) When the loop runs through [count] blocks, every one of these
    blocks passed the header test for its sequence number, and the index
    it ends on is [(index + count) mod size]: inside the journal, and back
    where it started after [size] blocks.  (2) When the loop aborts, it
    does so at the first block along the ring that fails the header test,
    with [VDO_CORRUPT_JOURNAL], or at a block whose entries could not be
    replayed, with the status of the replay; all blocks before it on the
    ring passed the test.  (3) So an invalid block anywhere on that stretch
    of the ring makes the loop abort.  (4) When [apply_journal_entries]
    goes on to save the slab, every block of the live range has passed
    the test at its place on the ring. *)
Theorem journal_is_read_as_a_ring (sc : slab_scrubber ref_counts)
    (count : nat) (seq index : Z) (refs : ref_counts)
    (last : journal_point) :
  let j := journal (slab sc) in
  0 <= index < size j ->
  size j < 2 ^ 64 ->
  (forall index' refs' last',
     apply_blocks sc count seq index refs last = inr (index', refs', last') ->
     index' = (index + Z.of_nat count) mod size j
     /\ 0 <= index' < size j
     /\ (Z.of_nat count = size j -> index' = index)
     /\ forall k : nat, (k < count)%nat -> valid_at sc seq index k)
  /\ (forall result refs',
        apply_blocks sc count seq index refs last = inl (result, refs') ->
        is_success result = false
        /\ exists k : nat,
             (k < count)%nat
             /\ (forall k' : nat, (k' < k)%nat -> valid_at sc seq index k')
             /\ ((block_is_invalid (slab sc) (seq + Z.of_nat k)
                    (header (block_at sc index k)) = true
                  /\ result = VDO_CORRUPT_JOURNAL)
                 \/ (valid_at sc seq index k
                     /\ exists refs_k,
                          apply_block_entries (block_at sc index k)
                            (hdr_entry_count (header (block_at sc index k)))
                            (seq + Z.of_nat k)
                            (with_reference_counts (slab sc) refs_k)
                          = (result, refs'))))
  /\ (forall k : nat, (k < count)%nat ->
        block_is_invalid (slab sc) (seq + Z.of_nat k)
          (header (block_at sc index k)) = true ->
        exists result refs',
          apply_blocks sc count seq index refs last = inl (result, refs')
          /\ is_success result = false)
  /\ (seq = journal_head ref_counts block_offset sc ->
      index = block_offset j seq ->
      count = Z.to_nat (tail j - seq) ->
      forall refs',
        apply_journal_entries sc
        = (refs', [start_vdo_slab_action_save_for_scrubbing]) ->
        forall k : nat, (k < count)%nat -> valid_at sc seq index k).
Proof.
  intros j Hindex Hsize. subst j.
  assert (Hring := fun refs last =>
            apply_blocks_ring sc Hsize count seq index refs last Hindex).
  split; [|split; [|split]].
  - intros index' refs' last' Hrun. specialize (Hring refs last).
    rewrite Hrun in Hring. destruct Hring as [Hend Hall].
    split; [exact Hend|]. split; [rewrite Hend; apply Z.mod_pos_bound; lia|].
    split; [|exact Hall]. intros Hround. rewrite Hend, Hround.
    replace (index + size (journal (slab sc)))
      with (index + 1 * size (journal (slab sc))) by lia.
    rewrite Z.mod_add by lia. apply Z.mod_small. exact Hindex.
  - intros result refs' Hrun. specialize (Hring refs last).
    rewrite Hrun in Hring. exact Hring.
  - intros k Hk Hbad. specialize (Hring refs last).
    destruct (apply_blocks sc count seq index refs last)
      as [[result refs']|[[index' refs'] last']].
    + exists result, refs'. split; [reflexivity | apply Hring].
    + destruct Hring as [_ Hall]. rewrite (Hall k Hk) in Hbad.
      discriminate Hbad.
  - intros -> -> -> refs' Hsaved.
    specialize (Hring (reference_counts (slab sc))
                      (slab_journal_point (reference_counts (slab sc)))).
    unfold SlabScrubber.apply_journal_entries in Hsaved.
    destruct (SlabScrubber.apply_blocks _ _ _ _ _ _ _ _)
      as [[result refs1]|[[index' refs1] last']].
    + injection Hsaved as _ Hcalls. discriminate Hcalls.
    + exact (proj2 Hring).
Qed.

End Ring.

Lemma journal_is_read_as_a_ring_witness :
  (0 <= 3 < size (journal (slab ScrubRingSamples.wrapped_journal))
   /\ size (journal (slab ScrubRingSamples.wrapped_journal)) < 2 ^ 64)
  /\ apply_blocks _ ScrubSamples.log_replay ScrubRingSamples.wrapped_journal
       3 7 3 [] (ScrubSamples.log_point [])
     = inr (2, ScrubRingSamples.replayed_blocks_7_to_9,
            {| sequence_number := 9; entry_count := 0 |})
  /\ 2 = (3 + Z.of_nat 3)
         mod size (journal (slab ScrubRingSamples.wrapped_journal))
  /\ (forall k : nat, (k < 3)%nat ->
        block_is_invalid (slab ScrubRingSamples.wrapped_journal)
          (7 + Z.of_nat k)
          (header
             (journal_data ScrubRingSamples.wrapped_journal
                ((3 + Z.of_nat k)
                 mod size (journal (slab ScrubRingSamples.wrapped_journal)))))
        = false).
Proof.
  assert (H1 : 0 <= 3 < size (journal (slab ScrubRingSamples.wrapped_journal)))
    by (vm_compute; split; [discriminate | reflexivity]).
  assert (H2 : size (journal (slab ScrubRingSamples.wrapped_journal)) < 2 ^ 64)
    by (vm_compute; reflexivity).
  assert (Hrun : apply_blocks _ ScrubSamples.log_replay
                   ScrubRingSamples.wrapped_journal 3 7 3 []
                   (ScrubSamples.log_point [])
                 = inr (2, ScrubRingSamples.replayed_blocks_7_to_9,
                        {| sequence_number := 9; entry_count := 0 |}))
    by (vm_compute; reflexivity).
  split; [split; [exact H1 | exact H2]|]. split; [exact Hrun|].
  destruct (journal_is_read_as_a_ring ScrubSamples.replay_log
              ScrubSamples.log_point ScrubSamples.log_replay
              ScrubSamples.offset_mod ScrubSamples.point_before
              ScrubSamples.permassert ScrubRingSamples.wrapped_journal
              3 7 3 [] (ScrubSamples.log_point []) H1 H2)
    as (Hdone & _).
  destruct (Hdone _ _ _ Hrun) as (Hend & _ & _ & Hall).
  split; [exact Hend | exact Hall].
Defined.

End ScrubberRingFacts.
